(* ===== verification/_CoqProject ===== *)
-Q . S2P
Prelude.v
GoStrings.v
Flags.v
Kube.v
KubeTypes.v
Types.v
Unstructured.v
PodSettings.v
Events.v
Effects.v
ResourceBuilder.v
Ingress.v
Usage.v
SSHKeys.v
Reconciler.v
KubeInstance.v
Publisher.v
CircuitBreaker.v
LabErrors.v
Legacy.v
Memory.v
DeepCopy.v
Codec.v
SessionJSON.v
ApisV1.v
Telemetry.v
Logging.v
Tracing.v
Metrics.v
Main.v
ReconcilerLogic.v
ReconcilerGuard.v
LifeGuard.v
Cluster.v
Life.v
LifeSpec.v
ReconcilerSafety.v
ReconcilerSpec.v
ReconcilerFailures.v
BuilderSpec.v
ReconcilerLiveness.v
WiringSpec.v
SSHSpec.v
PublisherSpec.v
Bus.v
BusSpec.v
BreakerSpec.v
LabErrorsSpec.v
LegacySpec.v
FormsSpec.v
DeepCopySpec.v
LoggingSpec.v
TracingSpec.v
MetricsSpec.v
SettingsSpec.v
MainSpec.v
Fixtures.v
Witnesses.v
LivenessWitnesses.v
BusWitnesses.v
LifeWitnesses.v
BusLifeWitnesses.v
LegacyWitnesses.v
FormsWitnesses.v
MemoryWitnesses.v
ProcessWitnesses.v
