(* ===== verification/Prelude.v ===== *)
(** * Dozlab controller: verification development

    The controller ([cmd/controller]) keeps, for every LabSession resource of a
    cluster, a pod with a virtual machine and its sidecars, the Service, Ingress,
    volume claims and SSH Secret around it, and a status that follows the pod
    through the phases Pending, Creating, Running, Failed and Terminating; it
    publishes each phase on a RabbitMQ exchange. This development models that
    program in Rocq and proves what makes it correct. Everything is a pure
    function or a finite program over calls, and can be evaluated.

    ** Parts of the program and files of the development

    - [internal/controller/types.go]: Types.v. The session is a record; a phase is
      a string, since the API server may hand over any value. Only the fields that
      the code reads or writes are there. The DeepCopy methods, on a heap: Memory.v
      and DeepCopy.v; theorems in DeepCopySpec.v. The JSON form, from the field tags:
      Codec.v and SessionJSON.v; theorems in FormsSpec.v.
    - [pkg/apis/dozlab/v1/types.go], the older types, which nothing here imports:
      ApisV1.v, with their JSON form; theorems in FormsSpec.v.
    - [internal/controller/pod_settings.go]: PodSettings.v ([BindFlags], on Go's
      package [flag] in Flags.v, [Validate], [splitList]); theorem in SettingsSpec.v.
    - [internal/controller/resource_builder.go]: ResourceBuilder.v, one definition
      per Go function; [vmSize] is [vm_size], the constant [VMIP] is [VMGuestIP].
      [resource.MustParse] panics, so builders return [outcome]s. Their theorems
      are in BuilderSpec.v and WiringSpec.v.
    - [internal/controller/ingress.go], [usage.go]: Ingress.v, Usage.v; theorems in
      WiringSpec.v.
    - [internal/controller/ssh_keys.go]: SSHKeys.v, with [encoding/base64] and
      [encoding/pem] as used; decoders and round trips in SSHSpec.v.
    - [internal/controller/reconciler.go]: Reconciler.v, one definition per
      handler. ReconcilerLogic.v has the program logic and the specifications of
      the ensure steps, ReconcilerGuard.v the guard of every handler,
      ReconcilerSafety.v, ReconcilerSpec.v, ReconcilerFailures.v and
      ReconcilerLiveness.v the theorems.
    - [internal/events/publisher.go]: Events.v (the event), Publisher.v (the
      RabbitMQ publisher); theorems in PublisherSpec.v. Bus.v puts reconciliations
      and the publisher together; theorem in BusSpec.v.
    - [pkg/circuitbreaker/circuit_breaker.go]: CircuitBreaker.v; concurrent callers
      and theorems in BreakerSpec.v.
    - [pkg/errors/errors.go]: LabErrors.v (builder, classification, handler,
      metrics); theorems in LabErrorsSpec.v.
    - [controllers/labsession_controller.go], the older controller that [main.go]
      runs: Unstructured.v (untyped objects), Legacy.v, one definition per function;
      theorems in LegacySpec.v. Its names repeat those of the reconciler: a file
      that uses both qualifies them.
    - [cmd/controller/main.go] and [main.go]: Main.v, from the command line to the
      start of the manager; theorem in MainSpec.v.
    - [pkg/logging/logger.go], [pkg/metrics/metrics.go], [pkg/tracing/tracing.go],
      which the controllers do not import: Logging.v, Metrics.v and Tracing.v, on
      Telemetry.v; theorems in LoggingSpec.v, MetricsSpec.v and TracingSpec.v.
    - Libraries the source calls: Kube.v and KubeTypes.v (Kubernetes API machinery
      as the class [KubeLib], its documented behaviour as the class [KubeLaws]; the
      objects as records), GoStrings.v ([strings], [strconv], [fmt] as used).
      KubeInstance.v is an instance, for evaluation and to show that the laws are
      consistent. Fixtures.v and the files that end in Witnesses.v apply the theorems
      to concrete inputs and runs.

    ** How the reconciler is modelled

    A handler is a program of type [prog] (Effects.v): a finite tree of calls (the
    typed client on sessions and on the five kinds of object, the clock, the event
    recorder, the publisher, key generation, randomness), with one branch per
    possible answer. [exec p tr out] says that [p] can make the calls [tr] with
    those answers and end in [out]; nothing is assumed of the answers, so that a
    theorem about all executions covers stale caches, conflicts, a broker that is
    down, and a clock that jumps. Handlers share the session they were given a
    pointer to: it is the state of the monad [M], replaced by the server's answer
    when a write succeeds, as the client decodes it. [wp] is the logic: a guard
    that every call satisfies at its point of the history, and a postcondition.
    ReconcilerGuard.v proves one guard per handler and composes them into the guard
    of [Reconcile], which the safety theorems read off. The trees are finite, so
    every run ends; a bound on the number of calls is proved as well.

    ** A session's life

    Cluster.v puts reconciliations into a transition system: the API server with
    every version of one session, the broker, and any number of runs of [Reconcile]
    under way, each a program and its history of calls. A step is one call of one
    run, or the start or loss of a run, or a user's edit. Reads may answer old
    versions, updates carry the version last answered and are refused when it is
    not the current one, merge patches are not, and an error may hide a write that
    happened. LifeGuard.v shows that a run's status write is an edge of the phase
    machine away from the version it is based on, also in a run that writes twice;
    Life.v proves the invariant of the system from this and from the guard of
    ReconcilerGuard.v; LifeSpec.v states what it means for the session, among it
    that the system refines an abstract life cycle.

    In Cluster.v the broker is one call. Bus.v replaces it by the class [PhaseBus], a
    publisher with a state and calls of its own, of which Publisher.v is the instance,
    and shows that every step of the composed system is one of Cluster.v: what holds
    of a session's life holds of it, and BusSpec.v adds what the broker saw.

    ** Progress

    Nothing above says that anything is achieved. ReconcilerLiveness.v does, for
    answers that cooperate ([smooth]): the API server stores what it is sent and has
    no foreign objects under the session's names; the broker may still fail. A
    session has at most three stages to go ([stage]: finalizer, start, creation), a
    run that does not find the pod ready takes one of the first two if any is left,
    and the run that finds it ready ends in Running.

    ** Memory

    Elsewhere a session is a value. Memory.v has structs with pointers, maps and slices
    into a heap, as Go lays them out; [view] reads the value of a struct and [locs]
    the locations it reaches (the class [Stored], with an instance per type). A copy
    is right when its view is that of the original and its locations are new.
    [patch_base_is_unrecorded] shows the one place where the reconciler depends on
    this: the base of a merge patch, which the value model has as two values.

    ** Documents

    Codec.v has the form of a Go value as a decoded JSON document, as the tags of the
    struct fields give it ([omitempty] included), and how it is read back. A class of
    codecs with a law, [dec (enc a) = Ok (norm a)], is proved for each struct from its
    fields by one tactic; [norm] says what is lost, which is fractions of a second.

    ** Programs that record, and processes

    Telemetry.v is a monad for code that logs, traces or measures: it reads a clock,
    appends calls of a library to a log, may panic and defer. Main.v has processes:
    a list of calls that ends with a result or an exit status.

    ** What the theorems show

    - A session's life (LifeSpec.v): the refinement; phases never go back; what was
      announced happened, but for a Terminating that a deletion announces when its
      status write was refused, and what was recorded was announced; what was
      created is protected by the finalizer.
    - Progress (ReconcilerLiveness.v): a session comes up, and nothing panics on the
      way.
    - Together with the publisher (BusSpec.v): a recorded phase was acknowledged by
      the broker.
    - Safety of a reconciliation (ReconcilerSafety.v): Running is written only on
      evidence; objects are created owned, named, and in order; status writes
      follow the phase machine; a phase is published only when it is not recorded,
      in a deletion too, and recorded only after it was published; a running
      session fails only when it lost its pod.
    - Behaviour of the handlers (ReconcilerSpec.v, ReconcilerFailures.v): the whole
      run of a deletion; the finalizer first; a failed publish is retried; a lost
      pod fails the session; how creating goes on after each ensure step, and when
      an error of one is final (of the SSH Secret always); conditions are a
      map; the bound on calls; and the panic on a storage size that does not parse.
    - Builders (BuilderSpec.v, WiringSpec.v): the VM's size and memory exactly and
      without overflow; the pod's references resolve and its requests are within
      limits; validated settings never panic; ports, routes, endpoints and names
      fit together; usage in exact amounts.
    - Keys and events (SSHSpec.v, PublisherSpec.v): the stored keys and the events
      can be read back; event ids identify session and phase.
    - The publisher (PublisherSpec.v): no connection leaks, no error means
      confirmed, failures reconnect.
    - Errors (LabErrorsSpec.v): what the builder makes is well formed; an error is
      retried or returned, and which; a wrapped one is handled by the API error
      beneath it alone; the metrics count.
    - The older controller (LegacySpec.v): reads back off; limits are capped; the
      finalizer waits until pod and service are gone; Running needs a running pod.
    - Memory (DeepCopySpec.v): deep copies mean the same and share nothing; the base
      of the patch is the session before the phase was recorded.
    - Documents (FormsSpec.v): what the controller writes is read back, and by the
      older types with the same fields; both controllers read the same spec.
    - Start-up (SettingsSpec.v, MainSpec.v): where each setting comes from; a manager
      that starts has valid settings, a publisher if there is a URL and then a
      controller that uses it, and its checks; exit statuses.
    - Telemetry (LoggingSpec.v, TracingSpec.v, MetricsSpec.v): logging and tracing do
      not change what they wrap; what a line, a span and the counters hold.
    - The circuit breaker (BreakerSpec.v): accounting under any interleaving of
      callers, admissions included, which MaxRequests bounds in half-open; when it opens; a half-open breaker that never recovers; what
      [Reset] does.

    ** Bounds

    [int64] arithmetic is written with [wrap64], the breaker's counters with
    [wrap_u32] and [wrap_u64]. The theorem on the VM's size asks that the requested
    amounts convert to [int64] exactly; the breaker's accounting is for up to 2^31
    steps, fewer than any counter's range. Two functions have fuel:
    [pad_private] has seven rounds, enough for a padding to eight
    ([pad_private_spec]), and [pem_lines] the length of its text
    ([pem_lines_text]). The retry loops of the older controller count down the
    attempts that are left. The delays of its retries are exact for base delays
    below 2^53 nanoseconds, which is what a float holds.

    ** What is not modelled

    The registration with controller-runtime and with the scheme only calls libraries,
    and so does what follows the start of the manager. The API server and the kubelet
    are the environment; what Cluster.v says of the server is its documented
    behaviour. [json.Marshal], [url.Parse], the DNS name check, the format of times
    and the conversions from floats that do not fit are parameters, and so are logr,
    Prometheus and OpenTelemetry. The mutexes of the older controller make no call.
    JSON text is not modelled, only decoded documents, and the JSON forms of metadata,
    conditions and times are parameters. Deployment manifests and pipelines hold no
    logic. *)
From Stdlib Require Export Ascii.
From stdpp Require Export base gmap strings list pretty fin_maps.
From stdpp Require Import options.
From Stdlib Require Export ZArith Lia.

#[global] Open Scope Z_scope.

(** * Go results

    A Go function that returns [(T, error)] is a [result]; a computation that
    may panic is an [outcome]. *)

Inductive result (E A : Type) : Type :=
| Ok (a : A)
| Err (e : E).
Arguments Ok {_ _} _.
Arguments Err {_ _} _.

Inductive outcome (A : Type) : Type :=
| Done (a : A)
| Panicked.
Arguments Done {_} _.
Arguments Panicked {_}.

#[export] Instance result_ret E : MRet (result E) := λ A a, Ok a.
#[export] Instance result_bind E : MBind (result E) := λ A B f m,
  match m with Ok a => f a | Err e => Err e end.
#[export] Instance outcome_ret : MRet outcome := λ A a, Done a.
#[export] Instance outcome_bind : MBind outcome := λ A B f m,
  match m with Done a => f a | Panicked => Panicked end.

Definition is_ok {E A} (r : result E A) : bool :=
  match r with Ok _ => true | Err _ => false end.

(** Two-valued projection used by the witnesses to read a computed outcome. *)
Definition outcome_to_option {A} (o : outcome A) : option A :=
  match o with Done a => Some a | Panicked => None end.

#[export] Instance outcome_eq_dec {A} `{EqDecision A} : EqDecision (outcome A).
Proof. solve_decision. Defined.
#[export] Instance result_eq_dec {E A} `{EqDecision E, EqDecision A} :
  EqDecision (result E A).
Proof. solve_decision. Defined.

(** * Machine integers

    [int], [int64] and [time.Duration] are 64-bit two's complement; the circuit
    breaker's counters are [uint32] and its generation [uint64]. *)

Definition min_int64 : Z := - 2 ^ 63.
Definition max_int64 : Z := 2 ^ 63 - 1.

Definition wrap64 (z : Z) : Z := (z + 2 ^ 63) mod 2 ^ 64 - 2 ^ 63.
Definition wrap_u32 (z : Z) : Z := z mod 2 ^ 32.
Definition wrap_u64 (z : Z) : Z := z mod 2 ^ 64.

Definition in_int64 (z : Z) : Prop := min_int64 ≤ z ≤ max_int64.

(** * Time

    A [time.Time] is a count of nanoseconds since Go's zero time; the zero time
    itself is 0, so [t.IsZero()] is [t =? 0]. A [metav1.Time] pointer is an
    [option]. *)

Abbreviation time := Z (only parsing).
Abbreviation duration := Z (only parsing).

Definition nanosecond : duration := 1.
Definition second : duration := 1000000000.
Definition minute : duration := 60 * second.

(** [t.Sub(u)] saturates at the ends of the [Duration] range. *)
Definition time_sub (t u : time) : duration := Z.max min_int64 (Z.min max_int64 (t - u)).

(** [IsZero] on a [metav1.Time] pointer *)
Definition time_ptr_is_zero (t : option time) : bool :=
  match t with None => true | Some t => t =? 0 end.

(** * Tactics *)

(** Splits the innermost [match] of the goal or of a hypothesis. *)
Ltac destruct_match :=
  match goal with
  | |- context [match ?x with _ => _ end] =>
      lazymatch x with
      | context [match _ with _ => _ end] => fail
      | _ => destruct x eqn:?
      end
  end.

Ltac destruct_match_in H :=
  match type of H with
  | context [match ?x with _ => _ end] =>
      lazymatch x with
      | context [match _ with _ => _ end] => fail
      | _ => destruct x eqn:?
      end
  end.

Create HintDb go discriminated.

(** * Outcomes *)

Lemma bind_Done {A B} (o : outcome A) (f : A → outcome B) b :
  o ≫= f = Done b ↔ ∃ a, o = Done a ∧ f a = Done b.
Proof. destruct o; simpl; naive_solver. Qed.

Lemma bind_Panicked {A B} (o : outcome A) (f : A → outcome B) :
  o ≫= f = Panicked ↔ o = Panicked ∨ ∃ a, o = Done a ∧ f a = Panicked.
Proof. destruct o; simpl; naive_solver. Qed.

(** Inverts [H : (x ← o; ...) = Done _] into the values of the steps. *)
Ltac inv_outcome H :=
  repeat (apply bind_Done in H; let x := fresh "x" in let Hx := fresh "Hx" in
          destruct H as (x & Hx & H));
  unfold mret, outcome_ret in H; simplify_eq/=.

(** * Integer lemmas *)

Lemma wrap64_range z : in_int64 (wrap64 z).
Proof.
  unfold in_int64, wrap64, min_int64, max_int64.
  pose proof (Z.mod_pos_bound (z + 2 ^ 63) (2 ^ 64)). lia.
Qed.

Lemma wrap64_small z : in_int64 z → wrap64 z = z.
Proof.
  unfold in_int64, wrap64, min_int64, max_int64. intros H.
  rewrite Z.mod_small; lia.
Qed.

Lemma wrap_u32_range z : 0 ≤ wrap_u32 z < 2 ^ 32.
Proof. apply Z.mod_pos_bound. lia. Qed.

Lemma wrap_u64_range z : 0 ≤ wrap_u64 z < 2 ^ 64.
Proof. apply Z.mod_pos_bound. lia. Qed.

Lemma wrap_u32_small z : 0 ≤ z < 2 ^ 32 → wrap_u32 z = z.
Proof. apply Z.mod_small. Qed.

Lemma wrap_u64_small z : 0 ≤ z < 2 ^ 64 → wrap_u64 z = z.
Proof. apply Z.mod_small. Qed.

(** Saturation never changes the outcome of a comparison with a timeout. *)
Lemma time_sub_gt t u d : in_int64 d → d < max_int64 → (d <? time_sub t u) = (d <? t - u).
Proof.
  unfold in_int64, time_sub. intros [??] ?.
  destruct (Z.ltb_spec d (t - u)); [apply Z.ltb_lt | apply Z.ltb_ge]; unfold min_int64, max_int64 in *; lia.
Qed.

#[export] Hint Resolve wrap64_range wrap_u32_range wrap_u64_range : go.

(** * List lemmas *)

Lemma Forall_app_intro {A} (P : A → Prop) l1 l2 :
  Forall P l1 → Forall P l2 → Forall P (l1 ++ l2).
Proof. intros. by apply Forall_app. Qed.

Lemma filter_all {A} (P : A → Prop) `{∀ x, Decision (P x)} l : Forall P l → filter P l = l.
Proof.
  induction 1 as [|x l Hx Hl IH]; [done|]. by rewrite filter_cons_True, IH.
Qed.

(** Filling a map by ranging over distinct keys. *)
Lemma foldl_insert {A} (kvs : list (string * A)) : ∀ m : gmap string A, NoDup kvs.*1 →
  foldl (λ m kv, <[kv.1 := kv.2]> m) m kvs = list_to_map kvs ∪ m.
Proof.
  induction kvs as [|[k v] kvs IH]; intros m Hn; simpl; [by rewrite (left_id_L ∅ (∪))|].
  apply NoDup_cons in Hn as [Hk Hn]. simpl. rewrite IH by done.
  rewrite <- insert_union_l, <- insert_union_r; [done|].
  by apply not_elem_of_list_to_map.
Qed.

#[export] Hint Resolve Forall_app_intro : go.
