(* ===== verification/GoStrings.v ===== *)
(** The functions of Go's [strings], [strconv] and [fmt] packages that the
    controller uses, on byte strings. White space is the ASCII white space of
    [unicode.IsSpace]: every string the controller splits or scans (image pull
    secret names, IP addresses) is ASCII. *)
From S2P Require Import Prelude.

Definition ascii_dot : ascii := "."%char.
Definition ascii_comma : ascii := ","%char.
Definition ascii_slash : ascii := "/"%char.

(** [strings.Split(s, sep)] for a one-byte separator. *)
Fixpoint Split (s : string) (sep : ascii) : list string :=
  match s with
  | EmptyString => [""]
  | String a s' =>
      if decide (a = sep) then "" :: Split s' sep
      else match Split s' sep with
           | [] => [String a ""]
           | p :: ps => String a p :: ps
           end
  end.

(** [strings.Join(parts, sep)] *)
Definition Join (parts : list string) (sep : string) : string := String.concat sep parts.

(** [strings.TrimRight(s, cut)] for a one-byte cut set. *)
Fixpoint TrimRight (s : string) (cut : ascii) : string :=
  match s with
  | EmptyString => ""
  | String a s' =>
      match TrimRight s' cut with
      | EmptyString => if decide (a = cut) then "" else String a ""
      | t => String a t
      end
  end.

Definition is_space (a : ascii) : bool :=
  let n := N_of_ascii a in ((9 <=? n)%N && (n <=? 13)%N) || (n =? 32)%N.

Fixpoint trim_space_left (s : string) : string :=
  match s with
  | EmptyString => ""
  | String a s' => if is_space a then trim_space_left s' else s
  end.

Fixpoint trim_space_right (s : string) : string :=
  match s with
  | EmptyString => ""
  | String a s' =>
      match trim_space_right s' with
      | EmptyString => if is_space a then "" else String a ""
      | t => String a t
      end
  end.

(** [strings.TrimSpace] *)
Definition TrimSpace (s : string) : string := trim_space_right (trim_space_left s).

(** [strconv.Itoa], [strconv.FormatInt(_, 10)] and the verb [%d]. *)
Definition Itoa (z : Z) : string := pretty z.

Definition digit_val (a : ascii) : option Z :=
  let n := Z.of_N (N_of_ascii a) in
  if (48 <=? n) && (n <=? 57) then Some (n - 48) else None.

(** The longest prefix of decimal digits, read as a number on top of [acc], with
    the number of digits read. *)
Fixpoint scan_digits (acc : Z) (n : nat) (s : string) : Z * nat * string :=
  match s with
  | EmptyString => (acc, n, "")
  | String a s' =>
      match digit_val a with
      | Some d => scan_digits (acc * 10 + d) (S n) s'
      | None => (acc, n, s)
      end
  end.

(** An optional sign: (is negative, rest). *)
Definition scan_sign (s : string) : bool * string :=
  match s with
  | String "+"%char s' => (false, s')
  | String "-"%char s' => (true, s')
  | _ => (false, s)
  end.

Definition int64_or_range_error (z : Z) : option Z :=
  if (min_int64 <=? z) && (z <=? max_int64) then Some z else None.

(** [strconv.Atoi] (and [strconv.ParseInt(s, 10, 64)]): an optional sign, then one
    or more digits and nothing else, within the range of [int]. *)
Definition Atoi (s : string) : option Z :=
  let '(neg, s1) := scan_sign s in
  let '(v, n, rest) := scan_digits 0 0 s1 in
  if decide (n = 0%nat ∨ rest ≠ "") then None
  else int64_or_range_error (if neg then - v else v).

(** White space that [Sscanf] skips before [%d]; a newline is an error. *)
Fixpoint sscanf_skip_space (s : string) : option string :=
  match s with
  | EmptyString => Some ""
  | String a s' =>
      if decide (a = "010"%char) then None
      else if is_space a then sscanf_skip_space s' else Some s
  end.

(** [fmt.Sscanf(s, "%d", &x)]: the value stored, or [None] when the scan fails and
    [x] is left as it was. Trailing input is ignored. *)
Definition Sscanf_d (s : string) : option Z :=
  s0 ← sscanf_skip_space s;
  let '(neg, s1) := scan_sign s0 in
  let '(v, n, _) := scan_digits 0 0 s1 in
  if decide (n = 0%nat) then None
  else int64_or_range_error (if neg then - v else v).

(** Does [a] occur in [s]? *)
Fixpoint has_char (a : ascii) (s : string) : bool :=
  match s with
  | EmptyString => false
  | String b s' => bool_decide (a = b) || has_char a s'
  end.

(** * Splitting and joining *)

Lemma Split_ne_nil s c : Split s c ≠ [].
Proof. destruct s; simpl; [done|]. case_decide; [done|]. by destruct (Split s c). Qed.

Lemma Join_cons p ps sep :
  ps ≠ [] → Join (p :: ps) sep = p +:+ sep +:+ Join ps sep.
Proof. by destruct ps. Qed.

Lemma string_cons_app a (s t : string) : String a s +:+ t = String a (s +:+ t).
Proof. done. Qed.

Lemma Join_cons_char a p ps sep : Join (String a p :: ps) sep = String a (Join (p :: ps) sep).
Proof. by destruct ps. Qed.

Lemma Join_Split s c : Join (Split s c) (String c "") = s.
Proof.
  induction s as [|a s IH]; [done|]. simpl. pose proof (Split_ne_nil s c) as Hne.
  case_decide; subst.
  - rewrite Join_cons by done. by rewrite IH.
  - destruct (Split s c) as [|p ps]; [done|]. by rewrite Join_cons_char, IH.
Qed.

Lemma Split_parts s c : Forall (λ p, has_char c p = false) (Split s c).
Proof.
  induction s as [|a s IH]; simpl; [by repeat constructor|].
  case_decide; [by constructor|].
  destruct (Split s c) as [|p ps]; inv IH; constructor; simpl; try done.
  all: rewrite bool_decide_eq_false_2 by done; done.
Qed.

Lemma Split_app_char p c s :
  has_char c p = false → Split (p +:+ String c s) c = p :: Split s c.
Proof.
  induction p as [|a p IH]; simpl.
  - intros _. by rewrite decide_True.
  - intros [Ha Hp]%orb_false_elim. apply bool_decide_eq_false in Ha.
    change (String a p +:+ String c s) with (String a (p +:+ String c s)). simpl.
    rewrite decide_False by done. by rewrite IH.
Qed.

Lemma Split_no_char p c : has_char c p = false → Split p c = [p].
Proof.
  induction p as [|a p IH]; simpl; [done|].
  intros [Ha Hp]%orb_false_elim. apply bool_decide_eq_false in Ha.
  rewrite decide_False by done. by rewrite IH.
Qed.

Lemma Split_Join ps c :
  ps ≠ [] → Forall (λ p, has_char c p = false) ps → Split (Join ps (String c "")) c = ps.
Proof.
  intros Hne Hps. induction Hps as [|p ps Hp Hps IH]; [done|].
  destruct ps as [|q qs]; [by apply Split_no_char|].
  rewrite Join_cons by done. rewrite string_cons_app, Split_app_char by done.
  change ("" +:+ ?s) with s. by rewrite IH by done.
Qed.

(** * Trimming *)

Lemma TrimRight_fixed s c : TrimRight (TrimRight s c) c = TrimRight s c.
Proof.
  induction s as [|a s IH]; simpl; [done|].
  destruct (TrimRight s c) as [|b t] eqn:E.
  - case_decide; simpl; [done|]. by rewrite decide_False.
  - cbn [TrimRight] in IH |- *. by rewrite IH.
Qed.

(** * Numbers *)

Lemma digit_val_pretty x :
  (x < 10)%N → digit_val (pretty_N_char x) = Some (Z.of_N x).
Proof.
  intros H. assert (x = 0 ∨ x = 1 ∨ x = 2 ∨ x = 3 ∨ x = 4 ∨ x = 5 ∨ x = 6 ∨ x = 7
    ∨ x = 8 ∨ x = 9)%N as Hx by lia.
  by destruct Hx as [->|[->|[->|[->|[->|[->|[->|[->|[->| ->]]]]]]]]].
Qed.

Lemma scan_digits_ext s : ∀ acc n acc' n' rest,
  scan_digits acc n s = (acc', n', rest) → (n ≤ n')%nat.
Proof.
  induction s as [|a s IH]; simpl; intros acc n acc' n' rest H; [by simplify_eq|].
  destruct (digit_val a); [apply IH in H; lia | by simplify_eq].
Qed.

(** The digits of [x] read on top of [acc]: [acc] is shifted by [d] digits. *)
Lemma scan_digits_pretty_go x : ∀ s acc n, ∃ p d,
  scan_digits acc n (pretty_N_go x s) = scan_digits (acc * p + Z.of_N x) (d + n) s
  ∧ ((x = 0)%N → p = 1 ∧ d = 0%nat) ∧ ((0 < x)%N → (0 < d)%nat).
Proof.
  induction (N.lt_wf_0 x) as [x _ IH]; intros s acc n.
  destruct (decide (x = 0)%N) as [->|Hx].
  - exists 1, 0%nat. rewrite pretty_N_go_0. split; [|lia].
    by replace (acc * 1 + Z.of_N 0) with acc by lia.
  - rewrite pretty_N_go_step by lia.
    destruct (IH (x `div` 10)%N ltac:(apply N.div_lt; lia)
      (String (pretty_N_char (x `mod` 10)) s) acc n) as (p & d & -> & _ & _).
    exists (p * 10), (S d). simpl. rewrite digit_val_pretty by (apply N.mod_lt; lia).
    split; [|lia].
    pose proof (N.div_mod' x 10).
    by replace ((acc * p + Z.of_N (x `div` 10)) * 10 + Z.of_N (x `mod` 10))
      with (acc * (p * 10) + Z.of_N x) by lia.
Qed.

Lemma scan_digits_pretty_N (x : N) : ∃ d,
  scan_digits 0 0 (pretty x) = (Z.of_N x, S d, "").
Proof.
  unfold pretty, pretty_N. case_decide as Hx; [subst; by exists 0%nat|].
  destruct (scan_digits_pretty_go x "" 0 0) as (p & d & -> & _ & Hd).
  destruct d as [|d]; [lia|]. exists d. simpl. by rewrite Nat.add_0_r.
Qed.

(** A printed natural starts with a digit. *)
Definition starts_with_digit (s : string) : bool :=
  match s with String a _ => match digit_val a with Some _ => true | None => false end | _ => false end.

Lemma scan_digits_starts s v d : scan_digits 0 0 s = (v, S d, "") → starts_with_digit s = true.
Proof. destruct s as [|a s]; simpl; [done|]. by destruct (digit_val a). Qed.

Lemma scan_sign_digit s : starts_with_digit s = true → scan_sign s = (false, s).
Proof. by destruct s as [|[[] [] [] [] [] [] [] []] s]. Qed.

Lemma skip_space_digit s : starts_with_digit s = true → sscanf_skip_space s = Some s.
Proof. by destruct s as [|[[] [] [] [] [] [] [] []] s]. Qed.

Lemma int64_or_range_ok z : in_int64 z → int64_or_range_error z = Some z.
Proof.
  unfold in_int64, int64_or_range_error. intros [??].
  by rewrite (proj2 (Z.leb_le _ _)), (proj2 (Z.leb_le _ _)).
Qed.

Lemma Itoa_scan z : in_int64 z →
  sscanf_skip_space (Itoa z) = Some (Itoa z) ∧
  ∃ s d, scan_sign (Itoa z) = (z <? 0, s) ∧ scan_digits 0 0 s = (Z.abs z, S d, "").
Proof.
  intros _. destruct z as [|p|p].
  - split; [done|]. by exists "0", 0%nat.
  - destruct (scan_digits_pretty_N (N.pos p)) as (d & Hd).
    pose proof (scan_digits_starts _ _ _ Hd).
    change (Itoa (Z.pos p)) with (pretty (N.pos p)).
    split; [by apply skip_space_digit|]. exists (pretty (N.pos p)), d.
    split; [by apply scan_sign_digit | done].
  - destruct (scan_digits_pretty_N (N.pos p)) as (d & Hd).
    change (Itoa (Z.neg p)) with (String "-" (pretty (N.pos p))).
    split; [done|]. by exists (pretty (N.pos p)), d.
Qed.

(** [strconv.Atoi] reads back what [strconv.Itoa] writes. *)
Lemma Atoi_Itoa z : in_int64 z → Atoi (Itoa z) = Some z.
Proof.
  intros Hz. destruct (Itoa_scan z Hz) as (_ & s & d & Hs & Hd).
  unfold Atoi. rewrite Hs, Hd. rewrite decide_False by (intros [?|?]; done).
  replace (if z <? 0 then - Z.abs z else Z.abs z) with z; [by apply int64_or_range_ok|].
  destruct (Z.ltb_spec z 0); lia.
Qed.

Lemma Sscanf_d_Itoa z : in_int64 z → Sscanf_d (Itoa z) = Some z.
Proof.
  intros Hz. destruct (Itoa_scan z Hz) as (Hsp & s & d & Hs & Hd).
  unfold Sscanf_d. rewrite Hsp. cbn. rewrite Hs, Hd. rewrite decide_False by done.
  replace (if z <? 0 then - Z.abs z else Z.abs z) with z; [by apply int64_or_range_ok|].
  destruct (Z.ltb_spec z 0); lia.
Qed.

Lemma has_char_pretty_go c x : digit_val c = None → ∀ s,
  has_char c s = false → has_char c (pretty_N_go x s) = false.
Proof.
  intros Hc. induction (N.lt_wf_0 x) as [x _ IH]; intros s Hs.
  destruct (decide (x = 0)%N) as [->|Hx]; [by rewrite pretty_N_go_0|].
  rewrite pretty_N_go_step by lia. apply IH; [apply N.div_lt; lia|]. simpl.
  rewrite Hs, orb_false_r. apply bool_decide_eq_false. intros ->.
  rewrite digit_val_pretty in Hc by (apply N.mod_lt; lia). done.
Qed.

Lemma has_char_pretty_N c (x : N) : digit_val c = None → has_char c (pretty x) = false.
Proof.
  intros Hc. unfold pretty, pretty_N. case_decide; [|by apply has_char_pretty_go].
  simpl. rewrite orb_false_r. apply bool_decide_eq_false. by intros ->.
Qed.

(** A printed number has no character other than digits and a minus sign. *)
Lemma has_char_Itoa c z : digit_val c = None → c ≠ "-"%char → has_char c (Itoa z) = false.
Proof.
  intros Hc Hm. destruct z as [|p|p].
  - by apply (has_char_pretty_N c 0).
  - by apply (has_char_pretty_N c (N.pos p)).
  - change (bool_decide (c = "-"%char) || has_char c (pretty (N.pos p)) = false).
    rewrite bool_decide_eq_false_2 by done. by apply has_char_pretty_N.
Qed.
