(* ===== verification/Flags.v ===== *)
(** Command line flags: Go's package [flag] as the program uses it. A flag is a name
    and what setting it does to the variables [A] that the flags are bound to. *)
From S2P Require Import Prelude GoStrings.

Section flags.
Context {A : Type}.

(** [fl_Set] answers [None] for a value that does not parse. *)
Record Flag := mkFlag {
  fl_Name : string;
  fl_IsBool : bool;
  fl_Set : string → A → option A
}.

(** How [Parse] ends with [flag.ExitOnError]: parsed, with the arguments that are left;
    the help that was asked for (exit status 0); or a bad command line (exit status 2). *)
Inductive parsed := Parsed (vars : A) (args : list string) | HelpAsked | BadFlags.

Definition find_flag (flags : list Flag) (name : string) : option Flag :=
  List.find (λ f, bool_decide (fl_Name f = name)) flags.

(** Splits a flag at the first [=], not counting one at its start. *)
Fixpoint cut_eq (s : string) : string * option string :=
  match s with
  | EmptyString => ("", None)
  | String a s' =>
      if decide (a = "="%char) then ("", Some s')
      else let '(name, value) := cut_eq s' in (String a name, value)
  end.

(** What an argument is. *)
Inductive argument := NoFlag | Terminator | BadSyntax | IsFlag (name : string) (value : option string).

Definition scan_name (name : string) : argument :=
  match name with
  | EmptyString => BadSyntax
  | String a rest =>
      if decide (a = "-"%char ∨ a = "="%char) then BadSyntax
      else let '(n, v) := cut_eq rest in IsFlag (String a n) v
  end.

Definition scan_argument (s : string) : argument :=
  match s with
  | String "-" (String b s') =>
      if decide (b = "-"%char)
      then match s' with EmptyString => Terminator | _ => scan_name s' end
      else scan_name (String b s')
  | _ => NoFlag
  end.

(** [FlagSet.Parse] *)
Fixpoint Parse (flags : list Flag) (args : list string) (vars : A) : parsed :=
  match args with
  | [] => Parsed vars []
  | s :: rest =>
      match scan_argument s with
      | NoFlag => Parsed vars (s :: rest)
      | Terminator => Parsed vars rest
      | BadSyntax => BadFlags
      | IsFlag name value =>
          match find_flag flags name with
          | None => if decide (name = "help" ∨ name = "h") then HelpAsked else BadFlags
          | Some f =>
              if fl_IsBool f then
                match fl_Set f (default "true" value) vars with
                | Some vars => Parse flags rest vars
                | None => BadFlags
                end
              else
                match value with
                | Some v =>
                    match fl_Set f v vars with
                    | Some vars => Parse flags rest vars
                    | None => BadFlags
                    end
                | None =>
                    match rest with
                    | [] => BadFlags
                    | v :: rest =>
                        match fl_Set f v vars with
                        | Some vars => Parse flags rest vars
                        | None => BadFlags
                        end
                    end
                end
          end
      end
  end.

(** [StringVar] without its default, and [Func], given the assignment to the variable. *)
Definition string_flag (name : string) (assign : string → A → A) : Flag :=
  mkFlag name false (λ v vars, Some (assign v vars)).

(** [BoolVar]: the values that [strconv.ParseBool] accepts. *)
Definition ParseBool (v : string) : option bool :=
  if decide (v ∈ ["1"; "t"; "T"; "TRUE"; "true"; "True"]) then Some true
  else if decide (v ∈ ["0"; "f"; "F"; "FALSE"; "false"; "False"]) then Some false
  else None.
Definition bool_flag (name : string) (assign : bool → A → A) : Flag :=
  mkFlag name true (λ v vars, (λ b, assign b vars) <$> ParseBool v).

(** [DurationVar] and [IntVar], given the parser. *)
Definition parsed_flag (parse : string → option Z) (name : string) (assign : Z → A → A) : Flag :=
  mkFlag name false (λ v vars, (λ z, assign z vars) <$> parse v).

End flags.
Arguments Flag : clear implicits.
Arguments parsed : clear implicits.

(** The flags of a part of the variables. *)
Definition part_flag {A B} (get : B → A) (set : A → B → B) (f : Flag A) : Flag B :=
  mkFlag (fl_Name f) (fl_IsBool f) (λ v vars, (λ a, set a vars) <$> fl_Set f v (get vars)).

(** * Command lines of the form [--name=value] *)

Section flag_args.
Context {A : Type}.
Implicit Types (flags : list (Flag A)).

(** A name that such an argument can set. *)
Definition plain_name (name : string) : bool :=
  match name with
  | EmptyString => false
  | String a _ => negb (bool_decide (a = "-"%char)) && negb (has_char "=" name)
  end.

Lemma cut_eq_app n v : has_char "=" n = false → cut_eq (n +:+ String "=" v) = (n, Some v).
Proof.
  induction n as [|a n IH]; intros Hn; [done|].
  change (String a n +:+ String "=" v) with (String a (n +:+ String "=" v)).
  cbn [has_char] in Hn. apply orb_false_elim in Hn as [Ha Hn]. apply bool_decide_eq_false in Ha.
  cbn [cut_eq]. rewrite decide_False by congruence. by rewrite IH.
Qed.

Definition flag_arg (kv : string * string) : string := "--" +:+ kv.1 +:+ "=" +:+ kv.2.

Lemma scan_flag_arg name v : plain_name name = true →
  scan_argument (flag_arg (name, v)) = IsFlag name (Some v).
Proof.
  destruct name as [|a n]; [done|]. unfold plain_name. intros [Ha Hn]%andb_prop.
  apply negb_true_iff in Ha, Hn. apply bool_decide_eq_false in Ha.
  cbn [has_char] in Hn. apply orb_false_elim in Hn as [He Hn]. apply bool_decide_eq_false in He.
  change (scan_name (String a (n +:+ String "=" v)) = IsFlag (String a n) (Some v)).
  cbn [scan_name]. rewrite decide_False by naive_solver. by rewrite cut_eq_app.
Qed.

(** Parsing such a command line sets one variable after another. *)
Lemma Parse_flag_args flags kvs : ∀ vars,
  Forall (λ kv, plain_name kv.1 = true ∧ ∃ f assign, find_flag flags kv.1 = Some f ∧
            fl_IsBool f = false ∧ ∀ vars, fl_Set f kv.2 vars = Some (assign vars)) kvs →
  Parse flags (flag_arg <$> kvs) vars =
  Parsed (foldl (λ vars kv, match find_flag flags kv.1 with
                            | Some f => default vars (fl_Set f kv.2 vars)
                            | None => vars
                            end) vars kvs) [].
Proof.
  induction kvs as [|[k v] kvs IH]; intros vars Hk; [done|].
  apply Forall_cons in Hk as [[Hp (f&assign&Hf&Hb&Hs)] Hk]. simpl in Hp, Hf, Hs.
  rewrite fmap_cons. cbn [Parse foldl fst snd]. rewrite scan_flag_arg by done.
  rewrite Hf, Hb, Hs. by rewrite IH.
Qed.
End flag_args.
