(* ===== verification/Kube.v ===== *)
(** The Kubernetes side of the controller's world: the API data types the
    controller reads and builds (the fields it uses), and the interface of the
    Kubernetes libraries it calls. The libraries are not part of the
    repository, so their operations are the fields of the class [KubeLib], and
    the documented behaviour the theorems rely on is the class [KubeLaws]. *)
From S2P Require Import Prelude.

(** [metav1.ConditionStatus] *)
Definition ConditionTrue : string := "True".
Definition ConditionFalse : string := "False".

(** [metav1.Condition] *)
Record Condition := mkCondition {
  cond_Type : string;
  cond_Status : string;
  cond_ObservedGeneration : Z;
  cond_LastTransitionTime : time;
  cond_Reason : string;
  cond_Message : string
}.

#[export] Instance Condition_eq_dec : EqDecision Condition.
Proof. solve_decision. Defined.

Record OwnerReference := mkOwnerReference {
  owner_Kind : string;
  owner_Name : string;
  owner_UID : string;
  owner_Controller : bool
}.

#[export] Instance OwnerReference_eq_dec : EqDecision OwnerReference.
Proof. solve_decision. Defined.

(** [metav1.ObjectMeta]; [None] as annotations is Go's nil map. *)
Record ObjectMeta := mkObjectMeta {
  meta_Name : string;
  meta_Namespace : string;
  meta_UID : string;
  meta_Generation : Z;
  meta_DeletionTimestamp : option time;
  meta_Finalizers : list string;
  meta_Labels : gmap string string;
  meta_Annotations : option (gmap string string);
  meta_OwnerReferences : list OwnerReference
}.

#[export] Instance ObjectMeta_eq_dec : EqDecision ObjectMeta.
Proof. solve_decision. Defined.

(** The metadata of an object literal that sets name, namespace and labels. *)
Definition named_meta (name namespace : string) (labels : gmap string string) : ObjectMeta :=
  mkObjectMeta name namespace "" 0 None [] labels None [].

(** [resource.Format] *)
Inductive Format := DecimalExponent | BinarySI | DecimalSI.

#[export] Instance Format_eq_dec : EqDecision Format.
Proof. solve_decision. Defined.

Class KubeLib := {
  (** [k8s.io/apimachinery/pkg/api/resource] *)
  Quantity : Type;
  zero_Quantity : Quantity;
  ParseQuantity : string → result string Quantity;
  NewQuantity : Z → Format → Quantity;
  NewMilliQuantity : Z → Format → Quantity;
  Quantity_Value : Quantity → Z;
  Quantity_MilliValue : Quantity → Z;
  Quantity_Sign : Quantity → Z;
  Quantity_IsZero : Quantity → bool;
  Quantity_Add : Quantity → Quantity → Quantity;
  Quantity_Cmp : Quantity → Quantity → Z;
  Quantity_String : Quantity → string;
  (** errors returned by the API client, and [k8s.io/apimachinery/pkg/api/errors] *)
  api_error : Type;
  api_error_text : api_error → string;
  api_IsNotFound : api_error → bool;
  api_IsAlreadyExists : api_error → bool;
  api_IsInvalid : api_error → bool;
  api_IsBadRequest : api_error → bool;
  api_IsUnauthorized : api_error → bool;
  api_IsForbidden : api_error → bool;
  api_IsConflict : api_error → bool;
  api_IsServerTimeout : api_error → bool;
  api_IsTimeout : api_error → bool;
  api_IsTooManyRequests : api_error → bool;
  (** [controllerutil] and [metav1.IsControlledBy]; the owner comes first in
      [SetControllerReference], the object first in [IsControlledBy] *)
  SetControllerReference : ObjectMeta → ObjectMeta → result string ObjectMeta;
  IsControlledBy : ObjectMeta → ObjectMeta → bool;
  ContainsFinalizer : list string → string → bool;
  AddFinalizer : list string → string → list string;
  RemoveFinalizer : list string → string → list string;
  (** [k8s.io/apimachinery/pkg/api/meta] *)
  IsStatusConditionTrue : list Condition → string → bool;
  FindStatusCondition : list Condition → string → option Condition
}.

(** Division rounding up, for a non-negative dividend. *)
Definition ceil_div (x d : Z) : Z := (x + d - 1) `div` d.

(** The documented behaviour of the libraries. [nano] is the exact amount of a
    quantity in 10^-9, the finest precision a quantity can have. *)
Class KubeLaws (K : KubeLib) := {
  nano : Quantity → Z;
  nano_zero : nano zero_Quantity = 0;
  nano_NewQuantity z f : in_int64 z → nano (NewQuantity z f) = z * 10 ^ 9;
  nano_NewMilliQuantity z f : in_int64 z → nano (NewMilliQuantity z f) = z * 10 ^ 6;
  Value_range q : in_int64 (Quantity_Value q);
  MilliValue_range q : in_int64 (Quantity_MilliValue q);
  Value_spec q : 0 ≤ nano q → ceil_div (nano q) (10 ^ 9) ≤ max_int64 →
    Quantity_Value q = ceil_div (nano q) (10 ^ 9);
  MilliValue_spec q : 0 ≤ nano q → ceil_div (nano q) (10 ^ 6) ≤ max_int64 →
    Quantity_MilliValue q = ceil_div (nano q) (10 ^ 6);
  Sign_spec q : Quantity_Sign q = Z.sgn (nano q);
  IsZero_spec q : Quantity_IsZero q = bool_decide (nano q = 0);
  Add_spec q1 q2 : nano (Quantity_Add q1 q2) = nano q1 + nano q2;
  Cmp_spec q1 q2 : Quantity_Cmp q1 q2 = Z.sgn (nano q1 - nano q2);
  parse_plain n : 0 ≤ n < 2 ^ 20 → ∃ q,
    ParseQuantity (pretty n) = Ok q ∧ nano q = n * 10 ^ 9;
  parse_milli n : 0 ≤ n < 2 ^ 20 → ∃ q,
    ParseQuantity (pretty n +:+ "m") = Ok q ∧ nano q = n * 10 ^ 6;
  parse_Mi n : 0 ≤ n < 2 ^ 20 → ∃ q,
    ParseQuantity (pretty n +:+ "Mi") = Ok q ∧ nano q = n * 2 ^ 20 * 10 ^ 9;
  parse_Gi n : 0 ≤ n < 2 ^ 20 → ∃ q,
    ParseQuantity (pretty n +:+ "Gi") = Ok q ∧ nano q = n * 2 ^ 30 * 10 ^ 9;
  SetControllerReference_spec owner m m' : SetControllerReference owner m = Ok m' →
    IsControlledBy m' owner = true ∧
    meta_Name m' = meta_Name m ∧ meta_Namespace m' = meta_Namespace m ∧
    meta_Labels m' = meta_Labels m;
  SetControllerReference_ok owner m : meta_OwnerReferences m = [] →
    meta_Namespace m = meta_Namespace owner → is_ok (SetControllerReference owner m) = true;
  ContainsFinalizer_nil f : ContainsFinalizer [] f = false;
  ContainsFinalizer_Add fs f : ContainsFinalizer (AddFinalizer fs f) f = true;
  ContainsFinalizer_Remove fs f : ContainsFinalizer (RemoveFinalizer fs f) f = false;
  ContainsFinalizer_Add_ne fs f g : f ≠ g →
    ContainsFinalizer (AddFinalizer fs f) g = ContainsFinalizer fs g;
  ContainsFinalizer_Remove_ne fs f g : f ≠ g →
    ContainsFinalizer (RemoveFinalizer fs f) g = ContainsFinalizer fs g;
  FindStatusCondition_Some cs t c : FindStatusCondition cs t = Some c →
    c ∈ cs ∧ cond_Type c = t;
  FindStatusCondition_None cs t : FindStatusCondition cs t = None →
    Forall (λ c, cond_Type c ≠ t) cs;
  IsStatusConditionTrue_spec cs t : IsStatusConditionTrue cs t = true ↔
    ∃ c, FindStatusCondition cs t = Some c ∧ cond_Status c = ConditionTrue
}.

(** Errors of the controller's own code around the client's: [fmt.Errorf] with
    [%w] is [EWrap], a text error [EText]. *)
Inductive error `{KubeLib} :=
| EApi (e : api_error)
| ENotOwned (kind name : string)
| EText (msg : string)
| EWrap (prefix : string) (e : error).

(** The text of an error; [notOwnedError.Error] for [ENotOwned]. *)
Fixpoint error_text `{KubeLib} (e : error) : string :=
  match e with
  | EApi e => api_error_text e
  | ENotOwned kind name => kind +:+ " " +:+ name +:+ " exists and is not owned by this session"
  | EText msg => msg
  | EWrap prefix e => prefix +:+ ": " +:+ error_text e
  end.

(** The predicates of [api/errors] look through wrapped errors. *)
Fixpoint on_api_error `{KubeLib} (p : api_error → bool) (e : error) : bool :=
  match e with
  | EApi e => p e
  | EWrap _ e => on_api_error p e
  | _ => false
  end.

Definition IsNotFound `{KubeLib} : error → bool := on_api_error api_IsNotFound.
Definition IsAlreadyExists `{KubeLib} : error → bool := on_api_error api_IsAlreadyExists.
Definition IsInvalid `{KubeLib} : error → bool := on_api_error api_IsInvalid.
Definition IsBadRequest `{KubeLib} : error → bool := on_api_error api_IsBadRequest.
Definition IsConflict `{KubeLib} : error → bool := on_api_error api_IsConflict.

(** [resource.MustParse] *)
Definition MustParse `{KubeLib} (s : string) : outcome Quantity :=
  match ParseQuantity s with Ok q => Done q | Err _ => Panicked end.
