(* ===== verification/KubeTypes.v ===== *)
(** The Kubernetes workload objects the controller builds and reads: the fields
    of [corev1] and [networkingv1] types that its code sets or inspects. *)
From S2P Require Import Prelude Kube.

Section kube_types.
Context `{K : KubeLib}.

(** [corev1.ResourceList] *)
Abbreviation ResourceList := (gmap string Quantity).

Definition ResourceCPU : string := "cpu".
Definition ResourceMemory : string := "memory".
Definition ResourceStorage : string := "storage".

(** [corev1.PodPhase] *)
Definition PodPending : string := "Pending".
Definition PodRunning : string := "Running".
Definition PodSucceeded : string := "Succeeded".
Definition PodFailed : string := "Failed".
(** [corev1.PodConditionType] *)
Definition PodReady : string := "Ready".

Record SecretKeySelector := mkSecretKeySelector { sks_Name : string; sks_Key : string }.

Record EnvVar := mkEnvVar {
  env_Name : string;
  env_Value : string;
  env_ValueFrom : option SecretKeySelector
}.

(** An [EnvVar] literal with a plain value. *)
Definition env (name value : string) : EnvVar := mkEnvVar name value None.

Record VolumeMount := mkVolumeMount {
  vm_Name : string;
  vm_MountPath : string;
  vm_ReadOnly : bool
}.

Record ContainerPort := mkContainerPort { port_ContainerPort : Z; port_Name : string }.

Inductive ProbeHandler :=
| HTTPGet (path : string) (port : Z)
| TCPSocket (port : Z).

Record Probe := mkProbe {
  probe_Handler : ProbeHandler;
  probe_InitialDelaySeconds : Z;
  probe_PeriodSeconds : Z;
  probe_TimeoutSeconds : Z;
  probe_FailureThreshold : Z
}.

Inductive VolumeSource :=
| PersistentVolumeClaimSource (claim : string)
| EmptyDirSource (sizeLimit : option Quantity).

Record Volume := mkVolume { vol_Name : string; vol_Source : VolumeSource }.

Record Container := mkContainer {
  ctr_Name : string;
  ctr_Image : string;
  ctr_ImagePullPolicy : string;
  ctr_Command : list string;
  ctr_Args : list string;
  ctr_Env : list EnvVar;
  ctr_Ports : list ContainerPort;
  ctr_VolumeMounts : list VolumeMount;
  ctr_Limits : ResourceList;
  ctr_Requests : ResourceList;
  ctr_AddCapabilities : list string;
  ctr_LivenessProbe : option Probe;
  ctr_StartupProbe : option Probe;
  ctr_ReadinessProbe : option Probe
}.

Record PodSpec := mkPodSpec {
  spec_RestartPolicy : string;
  spec_Sysctls : list (string * string);
  spec_SeccompProfile : string;
  spec_InitContainers : list Container;
  spec_Containers : list Container;
  spec_Volumes : list Volume;
  spec_ImagePullSecrets : list string
}.

(** [corev1.ContainerStateTerminated] *)
Record Terminated := mkTerminated { term_Reason : string; term_ExitCode : Z }.

Record ContainerStatus := mkContainerStatus {
  cs_Name : string;
  cs_Terminated : option Terminated
}.

Record PodCondition := mkPodCondition { pc_Type : string; pc_Status : string }.

Record PodStatus := mkPodStatus {
  ps_Phase : string;
  ps_Message : string;
  ps_PodIP : string;
  ps_Conditions : list PodCondition;
  ps_ContainerStatuses : list ContainerStatus
}.

Definition empty_PodStatus : PodStatus := mkPodStatus "" "" "" [] [].

Record Pod := mkPod {
  pod_Meta : ObjectMeta;
  pod_Spec : PodSpec;
  pod_Status : PodStatus
}.

Record ServicePort := mkServicePort {
  sp_Name : string;
  sp_Port : Z;
  sp_TargetPort : Z;
  sp_Protocol : string
}.

Record LoadBalancerIngress := mkLoadBalancerIngress { lb_IP : string; lb_Hostname : string }.

Definition ServiceTypeLoadBalancer : string := "LoadBalancer".

Record Service := mkService {
  svc_Meta : ObjectMeta;
  svc_Type : string;
  svc_Selector : gmap string string;
  svc_Ports : list ServicePort;
  svc_ClusterIP : string;
  svc_LoadBalancerIngress : list LoadBalancerIngress
}.

(** One path of an Ingress rule, with the service backend it routes to. *)
Record IngressPath := mkIngressPath {
  path_Path : string;
  path_PathType : string;
  path_ServiceName : string;
  path_ServicePort : Z
}.

Record Ingress := mkIngress {
  ing_Meta : ObjectMeta;
  ing_ClassName : option string;
  ing_Paths : list IngressPath
}.

Record PersistentVolumeClaim := mkPVC {
  pvc_Meta : ObjectMeta;
  pvc_AccessModes : list string;
  pvc_Requests : ResourceList;
  pvc_StorageClassName : option string
}.

(** [Data] holds byte slices. *)
Record Secret := mkSecret {
  sec_Meta : ObjectMeta;
  sec_Type : string;
  sec_Data : gmap string (list ascii)
}.

(** The kinds of object the controller creates. *)
Inductive Kind := KPVC | KSecret | KPod | KService | KIngress.

Definition obj (k : Kind) : Type :=
  match k with
  | KPVC => PersistentVolumeClaim
  | KSecret => Secret
  | KPod => Pod
  | KService => Service
  | KIngress => Ingress
  end.

Definition obj_meta (k : Kind) : obj k → ObjectMeta :=
  match k with
  | KPVC => pvc_Meta
  | KSecret => sec_Meta
  | KPod => pod_Meta
  | KService => svc_Meta
  | KIngress => ing_Meta
  end.

(** The same object with other metadata. *)
Definition with_meta (k : Kind) : obj k → ObjectMeta → obj k :=
  match k return obj k → ObjectMeta → obj k with
  | KPVC => λ o m, mkPVC m (pvc_AccessModes o) (pvc_Requests o) (pvc_StorageClassName o)
  | KSecret => λ o m, mkSecret m (sec_Type o) (sec_Data o)
  | KPod => λ o m, mkPod m (pod_Spec o) (pod_Status o)
  | KService => λ o m, mkService m (svc_Type o) (svc_Selector o) (svc_Ports o)
      (svc_ClusterIP o) (svc_LoadBalancerIngress o)
  | KIngress => λ o m, mkIngress m (ing_ClassName o) (ing_Paths o)
  end.

Lemma obj_meta_with_meta k (o : obj k) m : obj_meta k (with_meta k o m) = m.
Proof. by destruct k. Qed.

(** Go's read of a missing map key gives the zero value. *)
Definition map_get (m : gmap string string) (k : string) : string := default "" (m !! k).

Definition annotation (m : ObjectMeta) (k : string) : string :=
  match meta_Annotations m with Some a => map_get a k | None => "" end.

Definition resource_get (m : ResourceList) (k : string) : Quantity :=
  default zero_Quantity (m !! k).

End kube_types.

Abbreviation ResourceList := (gmap string Quantity).

#[export] Instance Kind_eq_dec : EqDecision Kind.
Proof. solve_decision. Defined.
