(* ===== verification/Types.v ===== *)
(** The LabSession API type ([internal/controller/types.go]): spec, status,
    phases and condition types, with the field updates the reconciler makes. *)
From S2P Require Import Prelude Kube.

Record ResourceConfig := mkResourceConfig {
  rc_Memory : string;
  rc_CPU : string;
  rc_Storage : string
}.

Record SessionConfig := mkSessionConfig {
  sc_VSCodePassword : string;
  sc_EnableTerminal : bool;
  sc_EnableVSCode : bool;
  sc_EnableSSH : bool
}.

Record ImageConfig := mkImageConfig { ic_InitImage : string }.

Record LabSessionSpec := mkLabSessionSpec {
  UserID : string;
  SessionID : string;
  LabID : string;
  Resources : ResourceConfig;
  Config : SessionConfig;
  Timeout : string;
  RootfsURL : string;
  CustomImages : ImageConfig
}.

Record LabSessionUsage := mkLabSessionUsage {
  usage_Running : bool;
  usage_CPURequest : string;
  usage_MemoryRequest : string;
  usage_Storage : string
}.

(** [LabSessionUsage{}] *)
Definition no_usage : LabSessionUsage := mkLabSessionUsage false "" "" "".

(** A phase is a string: the API server may hand over any value. *)
Abbreviation SessionPhase := string (only parsing).
Definition SessionPhasePending : SessionPhase := "Pending".
Definition SessionPhaseCreating : SessionPhase := "Creating".
Definition SessionPhaseRunning : SessionPhase := "Running".
Definition SessionPhaseFailed : SessionPhase := "Failed".
Definition SessionPhaseTerminating : SessionPhase := "Terminating".
Definition SessionPhaseTerminated : SessionPhase := "Terminated".

Definition ConditionTypeReady : string := "Ready".
Definition ConditionTypePodReady : string := "PodReady".
Definition ConditionTypeServiceReady : string := "ServiceReady".
Definition ConditionTypeVMReady : string := "VMReady".

Record LabSessionStatus := mkLabSessionStatus {
  Phase : SessionPhase;
  Message : string;
  Reason : string;
  PodName : string;
  ServiceName : string;
  PodIP : string;
  VMIP : string;
  Endpoints : gmap string string;
  Conditions : list Condition;
  StartTime : option time;
  LastTransitionTime : option time;
  ObservedGeneration : Z;
  Usage : LabSessionUsage
}.

Record LabSession := mkLabSession {
  ObjMeta : ObjectMeta;
  Spec : LabSessionSpec;
  Status : LabSessionStatus
}.

#[export] Instance ResourceConfig_eq_dec : EqDecision ResourceConfig.
Proof. solve_decision. Defined.
#[export] Instance SessionConfig_eq_dec : EqDecision SessionConfig.
Proof. solve_decision. Defined.
#[export] Instance ImageConfig_eq_dec : EqDecision ImageConfig.
Proof. solve_decision. Defined.
#[export] Instance LabSessionSpec_eq_dec : EqDecision LabSessionSpec.
Proof. solve_decision. Defined.
#[export] Instance LabSessionUsage_eq_dec : EqDecision LabSessionUsage.
Proof. solve_decision. Defined.
#[export] Instance LabSessionStatus_eq_dec : EqDecision LabSessionStatus.
Proof. solve_decision. Defined.
#[export] Instance LabSession_eq_dec : EqDecision LabSession.
Proof. solve_decision. Defined.

(** * Field updates *)

Definition set_Status (f : LabSessionStatus → LabSessionStatus) (s : LabSession) : LabSession :=
  mkLabSession (ObjMeta s) (Spec s) (f (Status s)).

Definition set_Phase (p : SessionPhase) (st : LabSessionStatus) : LabSessionStatus :=
  mkLabSessionStatus p (Message st) (Reason st) (PodName st) (ServiceName st) (PodIP st)
    (VMIP st) (Endpoints st) (Conditions st) (StartTime st) (LastTransitionTime st)
    (ObservedGeneration st) (Usage st).
Definition set_Message (m : string) (st : LabSessionStatus) : LabSessionStatus :=
  mkLabSessionStatus (Phase st) m (Reason st) (PodName st) (ServiceName st) (PodIP st)
    (VMIP st) (Endpoints st) (Conditions st) (StartTime st) (LastTransitionTime st)
    (ObservedGeneration st) (Usage st).
Definition set_Reason (r : string) (st : LabSessionStatus) : LabSessionStatus :=
  mkLabSessionStatus (Phase st) (Message st) r (PodName st) (ServiceName st) (PodIP st)
    (VMIP st) (Endpoints st) (Conditions st) (StartTime st) (LastTransitionTime st)
    (ObservedGeneration st) (Usage st).
Definition set_PodName (n : string) (st : LabSessionStatus) : LabSessionStatus :=
  mkLabSessionStatus (Phase st) (Message st) (Reason st) n (ServiceName st) (PodIP st)
    (VMIP st) (Endpoints st) (Conditions st) (StartTime st) (LastTransitionTime st)
    (ObservedGeneration st) (Usage st).
Definition set_ServiceName (n : string) (st : LabSessionStatus) : LabSessionStatus :=
  mkLabSessionStatus (Phase st) (Message st) (Reason st) (PodName st) n (PodIP st)
    (VMIP st) (Endpoints st) (Conditions st) (StartTime st) (LastTransitionTime st)
    (ObservedGeneration st) (Usage st).
Definition set_PodIP (ip : string) (st : LabSessionStatus) : LabSessionStatus :=
  mkLabSessionStatus (Phase st) (Message st) (Reason st) (PodName st) (ServiceName st) ip
    (VMIP st) (Endpoints st) (Conditions st) (StartTime st) (LastTransitionTime st)
    (ObservedGeneration st) (Usage st).
Definition set_VMIP (ip : string) (st : LabSessionStatus) : LabSessionStatus :=
  mkLabSessionStatus (Phase st) (Message st) (Reason st) (PodName st) (ServiceName st)
    (PodIP st) ip (Endpoints st) (Conditions st) (StartTime st) (LastTransitionTime st)
    (ObservedGeneration st) (Usage st).
Definition set_Endpoints (e : gmap string string) (st : LabSessionStatus) : LabSessionStatus :=
  mkLabSessionStatus (Phase st) (Message st) (Reason st) (PodName st) (ServiceName st)
    (PodIP st) (VMIP st) e (Conditions st) (StartTime st) (LastTransitionTime st)
    (ObservedGeneration st) (Usage st).
Definition set_Conditions (cs : list Condition) (st : LabSessionStatus) : LabSessionStatus :=
  mkLabSessionStatus (Phase st) (Message st) (Reason st) (PodName st) (ServiceName st)
    (PodIP st) (VMIP st) (Endpoints st) cs (StartTime st) (LastTransitionTime st)
    (ObservedGeneration st) (Usage st).
Definition set_StartTime (t : option time) (st : LabSessionStatus) : LabSessionStatus :=
  mkLabSessionStatus (Phase st) (Message st) (Reason st) (PodName st) (ServiceName st)
    (PodIP st) (VMIP st) (Endpoints st) (Conditions st) t (LastTransitionTime st)
    (ObservedGeneration st) (Usage st).
Definition set_ObservedGeneration (g : Z) (st : LabSessionStatus) : LabSessionStatus :=
  mkLabSessionStatus (Phase st) (Message st) (Reason st) (PodName st) (ServiceName st)
    (PodIP st) (VMIP st) (Endpoints st) (Conditions st) (StartTime st) (LastTransitionTime st)
    g (Usage st).
Definition set_Usage (u : LabSessionUsage) (st : LabSessionStatus) : LabSessionStatus :=
  mkLabSessionStatus (Phase st) (Message st) (Reason st) (PodName st) (ServiceName st)
    (PodIP st) (VMIP st) (Endpoints st) (Conditions st) (StartTime st) (LastTransitionTime st)
    (ObservedGeneration st) u.

Definition set_Finalizers (fs : list string) (s : LabSession) : LabSession :=
  let m := ObjMeta s in
  mkLabSession (mkObjectMeta (meta_Name m) (meta_Namespace m) (meta_UID m) (meta_Generation m)
    (meta_DeletionTimestamp m) fs (meta_Labels m) (meta_Annotations m) (meta_OwnerReferences m))
    (Spec s) (Status s).

Definition set_Annotations (a : option (gmap string string)) (s : LabSession) : LabSession :=
  let m := ObjMeta s in
  mkLabSession (mkObjectMeta (meta_Name m) (meta_Namespace m) (meta_UID m) (meta_Generation m)
    (meta_DeletionTimestamp m) (meta_Finalizers m) (meta_Labels m) a (meta_OwnerReferences m))
    (Spec s) (Status s).

Definition s_Name (s : LabSession) : string := meta_Name (ObjMeta s).
Definition s_Namespace (s : LabSession) : string := meta_Namespace (ObjMeta s).
