(* ===== verification/Unstructured.v ===== *)
(** Objects without a Go type, as the legacy controller handles them: the values of
    a decoded JSON document, and the interface of the package [unstructured]. *)
From S2P Require Import Prelude Kube KubeTypes Types.

(** A decoded JSON value: Go's [interface{}]. *)
Inductive json :=
| JNull
| JBool (b : bool)
| JNumber (z : Z)
| JString (s : string)
| JArray (l : list json)
| JObject (m : gmap string json).

(** Go's [map[string]interface{}]. *)
Abbreviation json_map := (gmap string json).

(** [unstructured.Unstructured]: the metadata that its accessors read, and the other
    fields of its object. *)
Record Unstructured := mkUnstructured { u_Meta : ObjectMeta; u_Object : json_map }.

Definition set_Object (o : json_map) (u : Unstructured) : Unstructured :=
  mkUnstructured (u_Meta u) o.
Definition set_u_Finalizers (fs : list string) (u : Unstructured) : Unstructured :=
  let m := u_Meta u in
  mkUnstructured (mkObjectMeta (meta_Name m) (meta_Namespace m) (meta_UID m) (meta_Generation m)
    (meta_DeletionTimestamp m) fs (meta_Labels m) (meta_Annotations m) (meta_OwnerReferences m))
    (u_Object u).

(** The type assertions [v.(string)] and [v.(map[string]interface{})] with a second
    result, of an element of a map. *)
Definition as_string (v : option json) : option string :=
  match v with Some (JString s) => Some s | _ => None end.
Definition as_map (v : option json) : option json_map :=
  match v with Some (JObject m) => Some m | _ => None end.

(** The functions of the packages [unstructured] and [runtime] that are called.
    [NestedString] and [NestedMap] answer [Ok None] for a field that is not found. *)
Class UnstructuredLib := {
  NestedString : json_map → list string → result string (option string);
  NestedMap : json_map → string → result string (option json_map);
  SetNestedMap : json_map → json_map → string → json_map;
  FromUnstructured : json_map → result string LabSessionSpec
}.

(** Their documented behaviour, as far as the theorems rely on it. *)
Class UnstructuredLaws (U : UnstructuredLib) := {
  SetNestedMap_spec o m f : SetNestedMap o m f = <[f := JObject m]> o;
  NestedMap_spec o f :
    match o !! f with
    | Some (JObject m) => NestedMap o f = Ok (Some m)
    | None => NestedMap o f = Ok None
    | Some _ => is_ok (NestedMap o f) = false
    end
}.
