(* ===== verification/PodSettings.v ===== *)
(** The controller-wide pod settings ([internal/controller/pod_settings.go]):
    the record, its flags and their environment variables, its validation, and the
    parsing of a comma-separated list. *)
From S2P Require Import Prelude GoStrings Kube Flags.

Record PodSettings := mkPodSettings {
  VMImage : string;
  InitImage : string;
  TerminalImage : string;
  SSHUser : string;
  VMDiskSize : string;
  StorageClass : string;
  IngressClass : string;
  IngressMiddleware : string;
  PublicBaseURL : string;
  ImagePullSecrets : list string
}.

(** The body of [splitList]'s loop. *)
Definition keep_item (out : list string) (item : string) : list string :=
  let item := TrimSpace item in
  if decide (item ≠ "") then out ++ [item] else out.

(** [splitList] *)
Definition splitList (v : string) : list string :=
  foldl keep_item [] (Split v ascii_comma).

(** [envOr], given the environment. *)
Definition envOr (getenv : string → string) (key fallback : string) : string :=
  let v := getenv key in if decide (v ≠ "") then v else fallback.

(** Assignments to the fields. *)
Definition set_VMImage (v : string) (s : PodSettings) : PodSettings :=
  mkPodSettings v (InitImage s) (TerminalImage s) (SSHUser s) (VMDiskSize s) (StorageClass
    s) (IngressClass s) (IngressMiddleware s) (PublicBaseURL s) (ImagePullSecrets s).
Definition set_InitImage (v : string) (s : PodSettings) : PodSettings :=
  mkPodSettings (VMImage s) v (TerminalImage s) (SSHUser s) (VMDiskSize s) (StorageClass s)
    (IngressClass s) (IngressMiddleware s) (PublicBaseURL s) (ImagePullSecrets s).
Definition set_TerminalImage (v : string) (s : PodSettings) : PodSettings :=
  mkPodSettings (VMImage s) (InitImage s) v (SSHUser s) (VMDiskSize s) (StorageClass s)
    (IngressClass s) (IngressMiddleware s) (PublicBaseURL s) (ImagePullSecrets s).
Definition set_SSHUser (v : string) (s : PodSettings) : PodSettings :=
  mkPodSettings (VMImage s) (InitImage s) (TerminalImage s) v (VMDiskSize s) (StorageClass
    s) (IngressClass s) (IngressMiddleware s) (PublicBaseURL s) (ImagePullSecrets s).
Definition set_VMDiskSize (v : string) (s : PodSettings) : PodSettings :=
  mkPodSettings (VMImage s) (InitImage s) (TerminalImage s) (SSHUser s) v (StorageClass s)
    (IngressClass s) (IngressMiddleware s) (PublicBaseURL s) (ImagePullSecrets s).
Definition set_StorageClass (v : string) (s : PodSettings) : PodSettings :=
  mkPodSettings (VMImage s) (InitImage s) (TerminalImage s) (SSHUser s) (VMDiskSize s) v
    (IngressClass s) (IngressMiddleware s) (PublicBaseURL s) (ImagePullSecrets s).
Definition set_IngressClass (v : string) (s : PodSettings) : PodSettings :=
  mkPodSettings (VMImage s) (InitImage s) (TerminalImage s) (SSHUser s) (VMDiskSize s)
    (StorageClass s) v (IngressMiddleware s) (PublicBaseURL s) (ImagePullSecrets s).
Definition set_IngressMiddleware (v : string) (s : PodSettings) : PodSettings :=
  mkPodSettings (VMImage s) (InitImage s) (TerminalImage s) (SSHUser s) (VMDiskSize s)
    (StorageClass s) (IngressClass s) v (PublicBaseURL s) (ImagePullSecrets s).
Definition set_PublicBaseURL (v : string) (s : PodSettings) : PodSettings :=
  mkPodSettings (VMImage s) (InitImage s) (TerminalImage s) (SSHUser s) (VMDiskSize s)
    (StorageClass s) (IngressClass s) (IngressMiddleware s) v (ImagePullSecrets s).
Definition set_ImagePullSecrets (v : list string) (s : PodSettings) : PodSettings :=
  mkPodSettings (VMImage s) (InitImage s) (TerminalImage s) (SSHUser s) (VMDiskSize s)
    (StorageClass s) (IngressClass s) (IngressMiddleware s) (PublicBaseURL s) v.

(** The settings' string flags: name, environment variable, value when that is not
    set, and the field. *)
Definition string_settings : list (string * string * string * (string → PodSettings → PodSettings)) :=
  [("vm-image", "DOZLAB_VM_IMAGE", "", set_VMImage);
   ("init-image", "DOZLAB_INIT_IMAGE", "", set_InitImage);
   ("terminal-image", "DOZLAB_TERMINAL_IMAGE", "", set_TerminalImage);
   ("ssh-user", "DOZLAB_SSH_USER", "root", set_SSHUser);
   ("vm-disk-size", "DOZLAB_VM_DISK_SIZE", "4Gi", set_VMDiskSize);
   ("storage-class", "DOZLAB_STORAGE_CLASS", "", set_StorageClass);
   ("ingress-class", "DOZLAB_INGRESS_CLASS", "traefik", set_IngressClass);
   ("ingress-middleware", "DOZLAB_INGRESS_MIDDLEWARE", "", set_IngressMiddleware);
   ("public-base-url", "DOZLAB_PUBLIC_BASE_URL", "", set_PublicBaseURL)].

(** [BindFlags]: every variable gets its default, and the flags are registered. *)
Definition settings_flags : list (Flag PodSettings) :=
  ((λ x, string_flag x.1.1.1 x.2) <$> string_settings) ++
  [string_flag "image-pull-secrets" (λ v, set_ImagePullSecrets (splitList v))].
Definition BindFlags (getenv : string → string) (s : PodSettings)
    : PodSettings * list (Flag PodSettings) :=
  (set_ImagePullSecrets (splitList (getenv "DOZLAB_IMAGE_PULL_SECRETS"))
     (foldl (λ s x, x.2 (envOr getenv x.1.1.2 x.1.2) s) s string_settings),
   settings_flags).

(** The errors [Validate] reports, with the values their messages quote. *)
Inductive SettingsError :=
| VMImageRequired
| InitImageRequired
| TerminalImageRequired
| SSHUserRequired
| InvalidDiskSize (size err : string)
| DiskBelow1Mi (size : string)
| BadPublicBaseURL (url : string)
| BadPullSecret (name msgs : string).

Section validate.
Context `{K : KubeLib}.
(** [url.Parse] (scheme and host of the URL) and [validation.IsDNS1123Subdomain] *)
Variable url_Parse : string → option (string * string).
Variable IsDNS1123Subdomain : string → list string.

Definition public_url_ok (u : string) : bool :=
  match url_Parse u with
  | None => false
  | Some (scheme, host) =>
      bool_decide ((scheme = "http" ∨ scheme = "https") ∧ host ≠ "")
  end.

Definition pull_secret_errors (name : string) : list SettingsError :=
  match IsDNS1123Subdomain name with
  | [] => []
  | msgs => [BadPullSecret name (Join msgs "; ")]
  end.

(** [PodSettings.Validate]: the list of errors that [errors.Join] joins; the
    result is nil when it is empty. *)
Definition Validate (s : PodSettings) : list SettingsError :=
  (if decide (VMImage s = "") then [VMImageRequired] else []) ++
  (if decide (InitImage s = "") then [InitImageRequired] else []) ++
  (if decide (TerminalImage s = "") then [TerminalImageRequired] else []) ++
  (if decide (SSHUser s = "") then [SSHUserRequired] else []) ++
  (match ParseQuantity (VMDiskSize s) with
   | Err e => [InvalidDiskSize (VMDiskSize s) e]
   | Ok q => if Quantity_Value q <? Z.shiftl 1 20 then [DiskBelow1Mi (VMDiskSize s)] else []
   end) ++
  (if decide (PublicBaseURL s ≠ "")
   then if public_url_ok (PublicBaseURL s) then [] else [BadPublicBaseURL (PublicBaseURL s)]
   else []) ++
  flat_map pull_secret_errors (ImagePullSecrets s).

(** What the rest of the controller relies on. *)
Definition valid_settings (s : PodSettings) : Prop := Validate s = [].

Lemma pull_secrets_ok ns : flat_map pull_secret_errors ns = [] ↔
  Forall (λ n, IsDNS1123Subdomain n = []) ns.
Proof.
  induction ns as [|n ns IH]; simpl; [by split|].
  rewrite app_nil, Forall_cons, IH. unfold pull_secret_errors.
  destruct (IsDNS1123Subdomain n); split; try done; by intros [??].
Qed.

Lemma require_ok (x : string) (e : SettingsError) :
  (if decide (x = "") then [e] else []) = [] ↔ x ≠ "".
Proof. by case_decide. Qed.

Lemma public_url_check_ok (x : string) (e : SettingsError) :
  (if decide (x ≠ "") then if public_url_ok x then [] else [e] else []) = [] ↔
  x = "" ∨ public_url_ok x = true.
Proof. case_decide; [destruct (public_url_ok x)|]; split; naive_solver. Qed.

Lemma disk_check_ok (x : string) :
  (match ParseQuantity x with
   | Err e => [InvalidDiskSize x e]
   | Ok q => if Quantity_Value q <? 2 ^ 20 then [DiskBelow1Mi x] else []
   end) = [] ↔ ∃ q, ParseQuantity x = Ok q ∧ 2 ^ 20 ≤ Quantity_Value q.
Proof.
  destruct (ParseQuantity x) as [q|]; [|split; [done|by intros (?&?&?)]].
  destruct (Z.ltb_spec (Quantity_Value q) (2 ^ 20)); split; try done.
  - intros (? & ? & ?); simplify_eq; lia.
  - by exists q.
Qed.

(** Settings pass validation exactly when every requirement holds. *)
Lemma valid_settings_spec s : valid_settings s ↔
  VMImage s ≠ "" ∧ InitImage s ≠ "" ∧ TerminalImage s ≠ "" ∧ SSHUser s ≠ "" ∧
  (∃ q, ParseQuantity (VMDiskSize s) = Ok q ∧ 2 ^ 20 ≤ Quantity_Value q) ∧
  (PublicBaseURL s = "" ∨ public_url_ok (PublicBaseURL s) = true) ∧
  Forall (λ n, IsDNS1123Subdomain n = []) (ImagePullSecrets s).
Proof.
  unfold valid_settings, Validate. change (Z.shiftl 1 20) with (2 ^ 20).
  by rewrite !app_nil, pull_secrets_ok, !require_ok, public_url_check_ok, disk_check_ok.
Qed.
End validate.

Lemma splitList_go ps : ∀ out,
  foldl keep_item out ps = out ++ filter (λ x, x ≠ "") (TrimSpace <$> ps).
Proof.
  induction ps as [|p ps IH]; intros out; cbn [foldl]; [by rewrite app_nil_r|].
  rewrite IH, fmap_cons, filter_cons. unfold keep_item.
  by case_decide; rewrite <- ?app_assoc.
Qed.

Lemma splitList_filter v :
  splitList v = filter (λ x, x ≠ "") (TrimSpace <$> Split v ascii_comma).
Proof. apply splitList_go. Qed.
