(* ===== verification/Events.v ===== *)
(** The phase-change event ([internal/events/publisher.go]): what the reconciler
    hands to the publisher and the message that goes on the bus. *)
From S2P Require Import Prelude GoStrings.

Definition ExchangeName : string := "dozlab.events".
Definition TypeLabSessionPhaseChanged : string := "labsession.phase_changed".
Definition Source : string := "dozlab-controller".
Definition defaultPublishTimeout : duration := 10 * second.

(** The values of the event's [data] map. *)
Inductive EventValue :=
| VString (s : string)
| VStringMap (m : gmap string string).

Record Event := mkEvent {
  ev_ID : string;
  ev_Type : string;
  ev_Source : string;
  ev_SessionID : string;
  ev_UserID : string;
  ev_Data : gmap string EventValue;
  ev_Timestamp : time
}.

Record PhaseChange := mkPhaseChange {
  pc_UID : string;
  pc_Namespace : string;
  pc_Name : string;
  pc_UserID : string;
  pc_SessionID : string;
  pc_Phase : string;
  pc_Message : string;
  pc_Reason : string;
  pc_Endpoints : gmap string string
}.

#[export] Instance EventValue_eq_dec : EqDecision EventValue.
Proof. solve_decision. Defined.
#[export] Instance PhaseChange_eq_dec : EqDecision PhaseChange.
Proof. solve_decision. Defined.

(** [PhaseChange.Event] *)
Definition PhaseChange_Event (p : PhaseChange) (now : time) : Event :=
  let data : gmap string EventValue :=
    <["phase" := VString (pc_Phase p)]> (
    <["message" := VString (pc_Message p)]> (
    <["namespace" := VString (pc_Namespace p)]> (
    <["name" := VString (pc_Name p)]> ∅))) in
  let data := if decide (pc_Reason p ≠ "")
              then <["reason" := VString (pc_Reason p)]> data else data in
  let data := if decide (0 < Z.of_nat (size (pc_Endpoints p)))
              then <["endpoints" := VStringMap (pc_Endpoints p)]> data else data in
  mkEvent (pc_UID p +:+ "." +:+ pc_Phase p) TypeLabSessionPhaseChanged Source
    (pc_SessionID p) (pc_UserID p) data now.

(** What a consumer of the bus recovers from an event. *)
Definition event_string (e : Event) (k : string) : string :=
  match ev_Data e !! k with Some (VString s) => s | _ => "" end.
Definition event_endpoints (e : Event) : gmap string string :=
  match ev_Data e !! "endpoints" with Some (VStringMap m) => m | _ => ∅ end.
Definition decode_event (uid : string) (e : Event) : PhaseChange :=
  mkPhaseChange uid (event_string e "namespace") (event_string e "name")
    (ev_UserID e) (ev_SessionID e) (event_string e "phase") (event_string e "message")
    (event_string e "reason") (event_endpoints e).

(** * The event identifier *)

Lemma Split_app_sep c s p :
  has_char c p = false → Split (s +:+ String c p) c = Split s c ++ [p].
Proof.
  intros Hp. induction s as [|a s IH].
  - change (Split (String c p) c = [""; p]). simpl.
    by rewrite decide_True, Split_no_char.
  - rewrite string_cons_app. simpl. rewrite IH. case_decide; [done|].
    pose proof (Split_ne_nil s c). by destruct (Split s c).
Qed.

(** An identifier determines both its parts when the second has no dot. *)
Lemma dotted_inj u1 u2 p1 p2 :
  has_char ascii_dot p1 = false → has_char ascii_dot p2 = false →
  u1 +:+ "." +:+ p1 = u2 +:+ "." +:+ p2 → u1 = u2 ∧ p1 = p2.
Proof.
  intros H1 H2 Heq.
  assert (Split u1 ascii_dot ++ [p1] = Split u2 ascii_dot ++ [p2]) as HS.
  { rewrite <- !Split_app_sep by done. exact (f_equal (λ s, Split s ascii_dot) Heq). }
  apply app_inj_tail in HS as [HS ->]. split; [|done].
  by rewrite <- (Join_Split u1 ascii_dot), HS, Join_Split.
Qed.
