(* ===== verification/Effects.v ===== *)
(** Effects of the controller's code: calls to the API client, the clock, the
    event recorder, the event publisher and the random source. A computation is
    a [prog]: a finite tree whose nodes are calls and whose branches are the
    answers the environment may give. [exec] lists what can happen when the
    computation runs, [run] runs it against a given environment, and [wp] is the
    logic the theorems about all environments are proved in. *)
From S2P Require Import Prelude Kube KubeTypes Types Unstructured Events.

Section effects.
Context `{K : KubeLib}.

(** An ed25519 key pair, as bytes. *)
Record KeyPair := mkKeyPair { key_Public : list ascii; key_Private : list ascii }.

Inductive op : Type :=
(** [time.Now] *)
| Now
(** the typed client on LabSessions: [Get], [Update], [Status().Update], [Patch]
    (with the object the merge patch is computed from) *)
| GetSession (namespace name : string)
| UpdateSession (s : LabSession)
| UpdateStatus (s : LabSession)
| PatchSession (from s : LabSession)
(** the typed client on the objects of a session *)
| Get (k : Kind) (namespace name : string)
| Create (k : Kind) (o : obj k)
(** [Recorder.Event] *)
| RecordEvent (eventtype reason message : string)
(** [Publisher.PublishPhaseChange], with the timeout of the context if it has one *)
| PublishPhaseChange (timeout : option duration) (c : PhaseChange)
(** [ed25519.GenerateKey(rand.Reader)] and [rand.Read] of [n] bytes *)
| GenerateKey
| RandRead (n : nat)
(** the client on sessions without a Go type ([controllers/]): [Get], [Update],
    [Status().Update]; and [time.Sleep] *)
| GetUnstructured (namespace name : string)
| UpdateUnstructured (u : Unstructured)
| UpdateUnstructuredStatus (u : Unstructured)
| Sleep (d : duration).

(** The answer to each call. A successful write answers with the object as the
    server stored it, which the client decodes into the caller's object. *)
Definition resp (o : op) : Type :=
  match o with
  | Now => time
  | GetSession _ _ | UpdateSession _ | UpdateStatus _ | PatchSession _ _ =>
      result error LabSession
  | Get k _ _ | Create k _ => result error (obj k)
  | RecordEvent _ _ _ => unit
  | PublishPhaseChange _ _ => option error
  | GenerateKey => result error KeyPair
  | RandRead _ => result error (list ascii)
  | GetUnstructured _ _ | UpdateUnstructured _ | UpdateUnstructuredStatus _ =>
      result error Unstructured
  | Sleep _ => unit
  end.

Inductive prog (A : Type) : Type :=
| Ret (a : A)
| Panic
| Do (o : op) (k : resp o → prog A).

(** A call and its answer. *)
Record event := Ev { ev_op : op; ev_resp : resp ev_op }.

End effects.
Arguments Ret {_ _} _.
Arguments Panic {_ _}.
Arguments Do {_ _} _ _.

#[export] Instance prog_ret `{K : KubeLib} : MRet prog := λ A a, Ret a.
#[export] Instance prog_bind `{K : KubeLib} : MBind prog :=
  λ A B f, fix go (p : prog A) : prog B :=
    match p with
    | Ret a => f a
    | Panic => Panic
    | Do o k => Do o (λ r, go (k r))
    end.

(** One call. *)
Definition call `{K : KubeLib} (o : op) : prog (resp o) := Do o Ret.

(** A pure computation that may panic. *)
Definition lift_outcome `{K : KubeLib} {A} (o : outcome A) : prog A :=
  match o with Done a => Ret a | Panicked => Panic end.

Section semantics.
Context `{K : KubeLib}.

(** [exec p tr out]: [p] can run with the calls and answers [tr] and end in [out]. *)
Inductive exec {A} : prog A → list event → outcome A → Prop :=
| exec_ret a : exec (Ret a) [] (Done a)
| exec_panic : exec Panic [] Panicked
| exec_do o k r tr out : exec (k r) tr out → exec (Do o k) (Ev o r :: tr) out.

(** Runs [p] against an environment with state [S]. *)
Fixpoint run {A S} (h : ∀ o : op, S → resp o * S) (p : prog A) (s : S)
  : list event * outcome A * S :=
  match p with
  | Ret a => ([], Done a, s)
  | Panic => ([], Panicked, s)
  | Do o k =>
      let '(r, s1) := h o s in
      let '(tr, out, s2) := run h (k r) s1 in (Ev o r :: tr, out, s2)
  end.

(** [wp R G p Q h]: after the calls [h], however the environment answers within
    [R], each call [p] makes satisfies the guard [G] at that point of the history,
    and [p] ends in a history and an outcome that satisfy [Q]. *)
Fixpoint wp {A} (R : event → Prop) (G : list event → op → Prop) (p : prog A)
  (Q : list event → outcome A → Prop) (h : list event) : Prop :=
  match p with
  | Ret a => Q h (Done a)
  | Panic => Q h Panicked
  | Do o k => G h o ∧ ∀ r, R (Ev o r) → wp R G (k r) Q (h ++ [Ev o r])
  end.

(** Postcondition of the first half of a sequence. *)
Definition wp_seq {A B} (R : event → Prop) (G : list event → op → Prop) (f : A → prog B)
  (Q : list event → outcome B → Prop) : list event → outcome A → Prop :=
  λ h out, match out with Done a => wp R G (f a) Q h | Panicked => Q h Panicked end.

(** Any answer is possible; any call is fine; any end is fine. *)
Definition any_env : event → Prop := λ _, True.
Definition no_guard : list event → op → Prop := λ _ _, True.
Definition any_end {A} : list event → outcome A → Prop := λ _ _, True.

(** Every call of a trace satisfies the guard at its point of the history. *)
Definition guarded (G : list event → op → Prop) (h tr : list event) : Prop :=
  ∀ tr1 o r tr2, tr = tr1 ++ Ev o r :: tr2 → G (h ++ tr1) o.

Lemma wp_mono {A} R G (p : prog A) (Q Q' : list event → outcome A → Prop) h :
  (∀ h' out, Q h' out → Q' h' out) → wp R G p Q h → wp R G p Q' h.
Proof.
  intros HQ. revert h. induction p as [a| |o k IH]; simpl; intros h Hp; [by apply HQ..|].
  destruct Hp as [Ho Hp]. auto.
Qed.

Lemma wp_guard_prefix {A} R (G G' : list event → op → Prop) (p : prog A) Q h :
  (∀ h' o, h `prefix_of` h' → G h' o → G' h' o) → wp R G p Q h → wp R G' p Q h.
Proof.
  revert h. induction p as [a| |o k IH]; simpl; [done..|].
  intros h HG [Ho Hp]. split; [by apply HG|]. intros r Hr. apply IH; [|auto].
  intros h' o' Hh. apply HG. etrans; [|exact Hh]. by apply prefix_app_r.
Qed.

Lemma wp_mono_prefix {A} R G (p : prog A) (Q Q' : list event → outcome A → Prop) h :
  (∀ h' out, h `prefix_of` h' → Q h' out → Q' h' out) → wp R G p Q h → wp R G p Q' h.
Proof.
  revert h. induction p as [a| |o k IH]; simpl; intros h HQ Hp; [by apply HQ..|].
  destruct Hp as [Ho Hp]. split; [done|]. intros r Hr. apply IH; [|auto].
  intros h' out Hh. apply HQ. etrans; [|exact Hh]. by apply prefix_app_r.
Qed.

Lemma wp_guard_mono {A} R (G G' : list event → op → Prop) (p : prog A) Q h :
  (∀ h' o, G h' o → G' h' o) → wp R G p Q h → wp R G' p Q h.
Proof.
  intros HG. revert h. induction p as [a| |o k IH]; simpl; [done..|].
  intros h [Ho Hp]. auto.
Qed.

Lemma wp_env_mono {A} (R R' : event → Prop) G (p : prog A) Q h :
  (∀ e, R' e → R e) → wp R G p Q h → wp R' G p Q h.
Proof.
  intros HR. revert h. induction p as [a| |o k IH]; simpl; [done..|].
  intros h [Ho Hp]. auto.
Qed.

Lemma wp_bind {A B} R G (p : prog A) (f : A → prog B) Q h :
  wp R G p (wp_seq R G f Q) h → wp R G (p ≫= f) Q h.
Proof.
  revert h. induction p as [a| |o k IH]; simpl; intros h Hp; [done..|].
  destruct Hp as [Ho Hp]. split; [done|]. intros r Hr. apply IH. auto.
Qed.

(** The calls a program adds to the history are answered within [R]. *)
Lemma wp_answers {A} R G (p : prog A) Q h : wp R G p Q h →
  wp R G p (λ h' out, Q h' out ∧ ∃ tr, h' = h ++ tr ∧ Forall R tr) h.
Proof.
  revert h. induction p as [a| |o k IH]; simpl; intros h Hp.
  1, 2: split; [done|]; exists []; by rewrite app_nil_r.
  destruct Hp as [Ho Hp]. split; [done|]. intros r Hr. eapply wp_mono; [|by apply IH, Hp].
  intros h' out (HQ&tr&->&Htr). split; [done|]. exists (Ev o r :: tr).
  split; [by rewrite <- app_assoc|by constructor].
Qed.

Lemma wp_trivial {A} (p : prog A) h : wp any_env no_guard p any_end h.
Proof. revert h. induction p; simpl; unfold no_guard, any_end; auto. Qed.

Lemma wp_lift {A} R G (o : outcome A) Q h : Q h o → wp R G (lift_outcome o) Q h.
Proof. by destruct o. Qed.

Lemma guarded_cons G h o r tr :
  G h o → guarded G (h ++ [Ev o r]) tr → guarded G h (Ev o r :: tr).
Proof.
  intros Ho Htr [|e tr1] o' r' tr2 Heq; simpl in Heq.
  - rewrite app_nil_r.
    apply (f_equal (λ l, default o (ev_op <$> head l))) in Heq. simpl in Heq. by subst.
  - pose proof (f_equal tail Heq) as Htl. apply (f_equal head) in Heq.
    simpl in Htl, Heq. assert (e = Ev o r) as -> by congruence.
    specialize (Htr tr1 o' r' tr2 Htl). by rewrite <- app_assoc in Htr.
Qed.

Lemma guarded_nil G h : guarded G h [].
Proof. intros tr1 o r tr2 Heq. by destruct tr1. Qed.

Lemma wp_exec_app {A} R G (p : prog A) Q h tr out :
  wp R G p Q h → exec p tr out → Forall R tr → Q (h ++ tr) out ∧ guarded G h tr.
Proof.
  intros Hp He. revert h Hp. induction He as [a| |o k r tr out He IH]; simpl;
    intros h Hp Htr.
  - rewrite app_nil_r. split; [done | apply guarded_nil].
  - rewrite app_nil_r. split; [done | apply guarded_nil].
  - inversion Htr; subst. destruct Hp as [Ho Hp].
    destruct (IH (h ++ [Ev o r])) as [HQ HG]; [auto..|].
    rewrite <- app_assoc in HQ. split; [done | by apply guarded_cons].
Qed.

(** What [wp] proves of every execution, and of every execution in which the
    answers are within [R]. *)
Lemma wp_exec {A} R G (p : prog A) Q tr out :
  wp R G p Q [] → exec p tr out → Forall R tr → Q tr out ∧ guarded G [] tr.
Proof. apply (wp_exec_app R G p Q []). Qed.

Lemma wp_exec_any {A} G (p : prog A) Q tr out :
  wp any_env G p Q [] → exec p tr out → Q tr out ∧ guarded G [] tr.
Proof. intros Hp He. apply (wp_exec any_env G p); auto. by apply Forall_true. Qed.

Lemma guarded_elem G tr e : guarded G [] tr → e ∈ tr → ∃ h, G h (ev_op e).
Proof.
  intros HG He. apply list_elem_of_split in He as (tr1 & tr2 & ->).
  destruct e as [o r]. exists tr1. by eapply (HG tr1 o r tr2).
Qed.

Lemma guarded_lookup G tr i o r : guarded G [] tr → tr !! i = Some (Ev o r) → G (take i tr) o.
Proof.
  intros HG Hi. apply (HG (take i tr) o r (drop (S i) tr)).
  by rewrite <- (take_drop_middle tr i (Ev o r)) at 1.
Qed.

(** Running is one of the possible executions. *)
Lemma run_exec {A S} (h : ∀ o : op, S → resp o * S) (p : prog A) s tr out s' :
  run h p s = (tr, out, s') → exec p tr out.
Proof.
  revert s tr. induction p as [a| |o k IH]; simpl; intros s tr H.
  - simplify_eq. constructor.
  - simplify_eq. constructor.
  - destruct (h o s) as [r s1]. destruct (run h (k r) s1) as [[tr' out'] s2] eqn:E.
    simplify_eq. constructor. by eapply IH.
Qed.

(** What an execution of each node is. *)
Lemma exec_inv {A} (p : prog A) tr out :
  exec p tr out →
  match p with
  | Ret a => tr = [] ∧ out = Done a
  | Panic => tr = [] ∧ out = Panicked
  | Do o k => ∃ r tr', tr = Ev o r :: tr' ∧ exec (k r) tr' out
  end.
Proof. destruct 1; eauto. Qed.

Lemma exec_bind_inv {A B} (p : prog A) (f : A → prog B) tr out :
  exec (p ≫= f) tr out →
  (∃ tr1 tr2 a, tr = tr1 ++ tr2 ∧ exec p tr1 (Done a) ∧ exec (f a) tr2 out) ∨
  (exec p tr Panicked ∧ out = Panicked).
Proof.
  revert tr. induction p as [a| |o k IH]; intros tr He; simpl in He.
  - left. exists [], tr, a. split; [done|]. split; [constructor|done].
  - apply exec_inv in He as [-> ->]. right. split; [constructor|done].
  - apply exec_inv in He as (r & tr' & -> & He). apply IH in He as [(tr1&tr2&a&->&?&?)|[? ->]].
    + left. exists (Ev o r :: tr1), tr2, a. split; [done|]. by split; [constructor|].
    + right. by split; [constructor|].
Qed.

(** The answer in a call of [GetSession]. *)
Definition session_answer (e : event) : option (result error LabSession) :=
  match e with
  | Ev o r => match o return resp o → option (result error LabSession) with
              | GetSession _ _ => Some
              | _ => λ _, None
              end r
  end.

(** The answer in a call of [Get] for a pod. *)
Definition pod_answer (e : event) : option (result error Pod) :=
  match e with
  | Ev o r => match o return resp o → option (result error Pod) with
              | Get k _ _ => match k return result error (obj k) → option (result error Pod) with
                             | KPod => Some
                             | _ => λ _, None
                             end
              | _ => λ _, None
              end r
  end.

(** Every computation ends, whatever the environment answers. *)
Lemma exec_total {A} (p : prog A) : (∀ o, inhabited (resp o)) → ∃ tr out, exec p tr out.
Proof.
  intros Hr. induction p as [a| |o k IH].
  - exists [], (Done a). constructor.
  - exists [], Panicked. constructor.
  - destruct (Hr o) as [r]. destruct (IH r) as (tr & out & H).
    exists (Ev o r :: tr), out. by constructor.
Qed.

(** * The number of calls *)

(** [calls n p]: every execution of [p] makes at most [n] calls. *)
Definition calls {A} (n : nat) (p : prog A) : Prop :=
  ∀ h, wp any_env no_guard p (λ h' _, (length h' ≤ length h + n)%nat) h.

Lemma calls_exec {A} (p : prog A) n tr out :
  calls n p → exec p tr out → (length tr ≤ n)%nat.
Proof. intros Hp He. by destruct (wp_exec_any _ _ _ _ _ (Hp []) He). Qed.

End semantics.
