(* ===== verification/ResourceBuilder.v ===== *)
(** The objects of a lab session ([internal/controller/resource_builder.go]):
    the VM's size, the pod with its containers and volumes, the Service and the
    volume claims. [resource.MustParse] panics, so the builders that use it are
    [outcome]s. *)
From S2P Require Import Prelude GoStrings Kube KubeTypes Types PodSettings.

(** * Constants *)

Definition VMGatewayIP : string := "172.16.0.1".
Definition VMGuestIP : string := "172.16.0.2". (* the constant VMIP *)
Definition VMTapDevice : string := "tap0".
Definition VMSSHPort : Z := 22.
Definition VMKernelsPath : string := "/srv/vm/kernels".
Definition VMRootfsPath : string := VMKernelsPath +:+ "/rootfs.ext4".
Definition VMKernelPath : string := "/find/vmlinux.bin".
Definition ipForwardSysctl : string := "net.ipv4.ip_forward".
Definition NetworkSetupImage : string :=
  "busybox:1.38.0@sha256:fd7dc98638c8e305f4dc34e979f1c0fdfdcaeb0fbf8fcff77ae834b6da3d7e6e".
Definition VSCodeImage : string :=
  "codercom/code-server:4.139.1@sha256:0c067c3cf09ed1830ce282387826be8feefef8a5828f462791c2df3f1007ee17".

Definition defaultVMCPUs : Z := 1.
Definition defaultVMMemoryMiB : Z := 1024.
Definition maxVMCPUs : Z := 8.
Definition minVMMemoryMiB : Z := 128.
Definition maxVMMemoryMiB : Z := 16 * 1024.
Definition firecrackerOverheadMiB : Z := 128.
Definition vmContainerCPURequest : string := "100m".
Definition KVMResource : string := "dozlab.io/kvm".
Definition TUNResource : string := "dozlab.io/tun".
Definition startupProbeBudgetSeconds : Z := 120.

Definition SSHPrivateKeyKey : string := "id_ed25519".
Definition SSHPublicKeyKey : string := "id_ed25519.pub".

(** [SSHKeySecretName] *)
Definition SSHKeySecretName (sessionID : string) : string :=
  "lab-session-" +:+ sessionID +:+ "-ssh".

Definition PullIfNotPresent : string := "IfNotPresent".
Definition double_quote : string := String (ascii_of_N 34) "".

Section builder.
Context `{K : KubeLib}.

Record ResourceBuilder := NewResourceBuilder { settings : PodSettings }.

(** * The VM's size *)

Record vmSize := mkVmSize { CPUs : Z; MemoryMiB : Z; Disk : Quantity }.

(** [containerMemory]: int64 arithmetic. *)
Definition containerMemory (s : vmSize) : Quantity :=
  NewQuantity (wrap64 (Z.shiftl (wrap64 (MemoryMiB s + firecrackerOverheadMiB)) 20)) BinarySI.

(** [diskSize] *)
Definition diskSize (rb : ResourceBuilder) : outcome Quantity :=
  MustParse (VMDiskSize (settings rb)).

(** A field of spec.resources that parses and is positive. *)
Definition positive_quantity (s : string) : option Quantity :=
  match ParseQuantity s with
  | Ok q => if 0 <? Quantity_Sign q then Some q else None
  | Err _ => None
  end.

(** [vmSize]: int64 arithmetic, [int] conversion of an int64. *)
Definition vm_size (rb : ResourceBuilder) (session : LabSession) : outcome vmSize :=
  disk ← diskSize rb;
  let r := Resources (Spec session) in
  let cpus := match positive_quantity (rc_CPU r) with
              | Some q => wrap64 (Z.quot (wrap64 (Quantity_MilliValue q + 999)) 1000)
              | None => defaultVMCPUs end in
  let memory := match positive_quantity (rc_Memory r) with
                | Some q => Z.shiftr (Quantity_Value q) 20
                | None => defaultVMMemoryMiB end in
  let disk := match positive_quantity (rc_Storage r) with
              | Some q => q
              | None => disk end in
  mret (mkVmSize (Z.min (Z.max cpus 1) maxVMCPUs)
    (Z.min (Z.max memory minVMMemoryMiB) maxVMMemoryMiB) disk).

(** [vmKernelsSizeLimit] *)
Definition vmKernelsSizeLimit (disk : Quantity) : Quantity :=
  NewQuantity (wrap64 (Quantity_Value disk * 2)) BinarySI.

(** [resize2fsSize] *)
Definition resize2fsSize (q : Quantity) : string :=
  Itoa (Z.shiftr (Quantity_Value q) 20) +:+ "M".

(** * Probes, environment *)

(** [startupProbe] *)
Definition startupProbe (handler : ProbeHandler) : Probe :=
  mkProbe handler 0 1 1 startupProbeBudgetSeconds.

(** [vmSSHProbe] *)
Definition vmSSHProbe : ProbeHandler := TCPSocket VMSSHPort.

(** [sshKeyEnv] *)
Definition sshKeyEnv (name sessionID key : string) : EnvVar :=
  mkEnvVar name "" (Some (mkSecretKeySelector (SSHKeySecretName sessionID) key)).

(** [imagePullSecrets]: the loop appends one reference per name. *)
Definition imagePullSecrets (rb : ResourceBuilder) : list string :=
  foldl (λ refs name, refs ++ [name]) [] (ImagePullSecrets (settings rb)).

(** * Containers *)

(** [buildRootfsInitContainer] *)
Definition buildRootfsInitContainer (rb : ResourceBuilder) (session : LabSession)
    (size : vmSize) : Container :=
  let sessionID := SessionID (Spec session) in
  let initImage := InitImage (settings rb) in
  let initImage := if decide (ic_InitImage (CustomImages (Spec session)) ≠ "")
                   then ic_InitImage (CustomImages (Spec session)) else initImage in
  {| ctr_Name := "init-rootfs";
     ctr_Image := initImage;
     ctr_ImagePullPolicy := "";
     ctr_Command := [];
     ctr_Args := [];
     ctr_Env := [env "IMAGE_DOWNLOAD_URL" (RootfsURL (Spec session));
                 env "IMAGE_SIZE" (resize2fsSize (Disk size));
                 env "IMAGE_PATH" VMRootfsPath;
                 env "SESSION_ID" sessionID;
                 sshKeyEnv "SSH_AUTHORIZED_KEY" sessionID SSHPublicKeyKey];
     ctr_Ports := [];
     ctr_VolumeMounts := [mkVolumeMount "vm-kernels" VMKernelsPath false];
     ctr_Limits := ∅;
     ctr_Requests := ∅;
     ctr_AddCapabilities := [];
     ctr_LivenessProbe := None;
     ctr_StartupProbe := None;
     ctr_ReadinessProbe := None |}.

(** [buildNetworkSetupContainer] *)
Definition buildNetworkSetupContainer : Container :=
  {| ctr_Name := "network-setup";
     ctr_Image := NetworkSetupImage;
     ctr_ImagePullPolicy := PullIfNotPresent;
     ctr_Command := ["sh"; "-c"];
     ctr_Args := ["printf " +:+ double_quote +:+ "GATEWAY_IP=" +:+ VMGatewayIP
       +:+ "\nVM_IP=" +:+ VMGuestIP +:+ "\nPOD_IP=%s\nTAP_DEVICE=" +:+ VMTapDevice
       +:+ "\n" +:+ double_quote +:+ " " +:+ double_quote +:+ "$(hostname -i)" +:+ double_quote
       +:+ " > /shared/network-config; cat /shared/network-config"];
     ctr_Env := [];
     ctr_Ports := [];
     ctr_VolumeMounts := [mkVolumeMount "shared-config" "/shared" false];
     ctr_Limits := ∅;
     ctr_Requests := ∅;
     ctr_AddCapabilities := [];
     ctr_LivenessProbe := None;
     ctr_StartupProbe := None;
     ctr_ReadinessProbe := None |}.

(** [buildVMContainer] *)
Definition buildVMContainer (rb : ResourceBuilder) (session : LabSession)
    (size : vmSize) : outcome Container :=
  let sessionID := SessionID (Spec session) in
  limit_kvm ← MustParse "1";
  limit_tun ← MustParse "1";
  request_cpu ← MustParse vmContainerCPURequest;
  request_kvm ← MustParse "1";
  request_tun ← MustParse "1";
  mret
  {| ctr_Name := "firecracker-vm";
     ctr_Image := VMImage (settings rb);
     ctr_ImagePullPolicy := "";
     ctr_Command := [];
     ctr_Args := [];
     ctr_Env := [env "SESSION_ID" sessionID;
                 env "ROOTFS_PATH" VMRootfsPath;
                 env "KERNEL_PATH" VMKernelPath;
                 env "CPU_COUNT" (Itoa (CPUs size));
                 env "MEMORY" (Itoa (MemoryMiB size));
                 env "GATEWAY_IP" VMGatewayIP;
                 env "VM_IP" VMGuestIP;
                 env "TAP_DEVICE_NAME" VMTapDevice];
     ctr_Ports := [mkContainerPort VMSSHPort "vm-ssh"];
     ctr_VolumeMounts := [mkVolumeMount "vm-kernels" VMKernelsPath false;
                          mkVolumeMount "vm-data" "/vm-data" false;
                          mkVolumeMount "shared-config" "/shared" true];
     ctr_Limits := <[ResourceMemory := containerMemory size]>
                   (<[ResourceCPU := NewQuantity (CPUs size) DecimalSI]>
                   (<[KVMResource := limit_kvm]> (<[TUNResource := limit_tun]> ∅)));
     ctr_Requests := <[ResourceMemory := containerMemory size]>
                     (<[ResourceCPU := request_cpu]>
                     (<[KVMResource := request_kvm]> (<[TUNResource := request_tun]> ∅)));
     ctr_AddCapabilities := ["NET_ADMIN"; "SYS_ADMIN"; "SYS_RESOURCE"];
     ctr_LivenessProbe := None;
     ctr_StartupProbe := Some (startupProbe vmSSHProbe);
     ctr_ReadinessProbe := Some (mkProbe vmSSHProbe 0 10 0 0) |}.

(** [buildTerminalContainer] *)
Definition buildTerminalContainer (rb : ResourceBuilder) (session : LabSession)
    : outcome Container :=
  let sessionID := SessionID (Spec session) in
  limit_memory ← MustParse "512Mi";
  limit_cpu ← MustParse "500m";
  request_memory ← MustParse "256Mi";
  request_cpu ← MustParse "250m";
  mret
  {| ctr_Name := "terminal-sidecar";
     ctr_Image := TerminalImage (settings rb);
     ctr_ImagePullPolicy := "";
     ctr_Command := [];
     ctr_Args := [];
     ctr_Env := [env "SESSION_ID" sessionID;
                 env "VM_IP" VMGuestIP;
                 env "VM_SSH_PORT" (Itoa VMSSHPort);
                 env "SSH_USER" (SSHUser (settings rb));
                 sshKeyEnv "SSH_PRIVATE_KEY" sessionID SSHPrivateKeyKey];
     ctr_Ports := [mkContainerPort 8081 "terminal"];
     ctr_VolumeMounts := [mkVolumeMount "vm-data" "/vm-data" true;
                          mkVolumeMount "shared-config" "/shared" true];
     ctr_Limits := <[ResourceMemory := limit_memory]> (<[ResourceCPU := limit_cpu]> ∅);
     ctr_Requests := <[ResourceMemory := request_memory]> (<[ResourceCPU := request_cpu]> ∅);
     ctr_AddCapabilities := [];
     ctr_LivenessProbe := Some (mkProbe (HTTPGet "/health" 8081) 15 10 5 3);
     ctr_StartupProbe := Some (startupProbe (HTTPGet "/health" 8081));
     ctr_ReadinessProbe := Some (mkProbe (HTTPGet "/health" 8081) 0 5 3 3) |}.

(** [buildVSCodeContainer] *)
Definition buildVSCodeContainer (session : LabSession) : outcome Container :=
  let sessionID := SessionID (Spec session) in
  let password := "changeme" in
  let password := if decide (sc_VSCodePassword (Config (Spec session)) ≠ "")
                  then sc_VSCodePassword (Config (Spec session)) else password in
  limit_memory ← MustParse "2Gi";
  limit_cpu ← MustParse "1";
  request_memory ← MustParse "1Gi";
  request_cpu ← MustParse "500m";
  mret
  {| ctr_Name := "code-server";
     ctr_Image := VSCodeImage;
     ctr_ImagePullPolicy := PullIfNotPresent;
     ctr_Command := [];
     ctr_Args := ["--bind-addr"; "0.0.0.0:8080"; "--auth"; "password"; "/workspace"];
     ctr_Env := [env "SESSION_ID" sessionID; env "PASSWORD" password];
     ctr_Ports := [mkContainerPort 8080 "vscode"];
     ctr_VolumeMounts := [mkVolumeMount "vscode-data" "/home/coder" false;
                          mkVolumeMount "vm-data" "/workspace" false];
     ctr_Limits := <[ResourceMemory := limit_memory]> (<[ResourceCPU := limit_cpu]> ∅);
     ctr_Requests := <[ResourceMemory := request_memory]> (<[ResourceCPU := request_cpu]> ∅);
     ctr_AddCapabilities := [];
     ctr_LivenessProbe := Some (mkProbe (HTTPGet "/healthz" 8080) 15 10 5 3);
     ctr_StartupProbe := Some (startupProbe (HTTPGet "/healthz" 8080));
     ctr_ReadinessProbe := Some (mkProbe (HTTPGet "/healthz" 8080) 0 5 3 3) |}.

(** [buildVolumes] *)
Definition buildVolumes (sessionID : string) (size : vmSize) : outcome (list Volume) :=
  shared ← MustParse "10Mi";
  mret
  [mkVolume "vm-data" (PersistentVolumeClaimSource ("vm-data-" +:+ sessionID));
   mkVolume "vscode-data" (PersistentVolumeClaimSource ("vscode-data-" +:+ sessionID));
   mkVolume "shared-config" (EmptyDirSource (Some shared));
   mkVolume "vm-kernels" (EmptyDirSource (Some (vmKernelsSizeLimit (Disk size))))].

(** * Objects *)

Definition session_labels (session : LabSession) : gmap string string :=
  <["app" := "lab-environment"]> (<["session-id" := SessionID (Spec session)]>
  (<["user-id" := UserID (Spec session)]> ∅)).

(** [BuildPod] *)
Definition BuildPod (rb : ResourceBuilder) (session : LabSession) : outcome Pod :=
  let sessionID := SessionID (Spec session) in
  size ← vm_size rb session;
  vm ← buildVMContainer rb session size;
  terminal ← buildTerminalContainer rb session;
  vscode ← buildVSCodeContainer session;
  volumes ← buildVolumes sessionID size;
  mret
  {| pod_Meta := named_meta ("lab-session-" +:+ sessionID) (s_Namespace session)
       (session_labels session);
     pod_Spec :=
       {| spec_RestartPolicy := "Never";
          spec_Sysctls := [(ipForwardSysctl, "1")];
          spec_SeccompProfile := "RuntimeDefault";
          spec_InitContainers :=
            [buildRootfsInitContainer rb session size; buildNetworkSetupContainer];
          spec_Containers := [vm; terminal; vscode];
          spec_Volumes := volumes;
          spec_ImagePullSecrets := imagePullSecrets rb |};
     pod_Status := empty_PodStatus |}.

(** [BuildService] *)
Definition BuildService (session : LabSession) : Service :=
  let sessionID := SessionID (Spec session) in
  {| svc_Meta := named_meta ("lab-service-" +:+ sessionID) (s_Namespace session)
       (session_labels session);
     svc_Type := ServiceTypeLoadBalancer;
     svc_Selector := <["app" := "lab-environment"]> (<["session-id" := sessionID]> ∅);
     svc_Ports := [mkServicePort "vscode" 8080 8080 "TCP";
                   mkServicePort "terminal" 8081 8081 "TCP";
                   mkServicePort "ssh" 22 22 "TCP"];
     svc_ClusterIP := "";
     svc_LoadBalancerIngress := [] |}.

(** [storageClassName] *)
Definition storageClassName (rb : ResourceBuilder) : option string :=
  if decide (StorageClass (settings rb) = "") then None else Some (StorageClass (settings rb)).

(** One claim of [BuildPVCs]. *)
Definition build_pvc (rb : ResourceBuilder) (session : LabSession) (name : string)
    (size : Quantity) : PersistentVolumeClaim :=
  {| pvc_Meta := named_meta name (s_Namespace session)
       (<["app" := "lab-environment"]> (<["session-id" := SessionID (Spec session)]> ∅));
     pvc_AccessModes := ["ReadWriteOnce"];
     pvc_Requests := <[ResourceStorage := size]> ∅;
     pvc_StorageClassName := storageClassName rb |}.

(** [BuildPVCs] *)
Definition BuildPVCs (rb : ResourceBuilder) (session : LabSession)
    : outcome (list PersistentVolumeClaim) :=
  let sessionID := SessionID (Spec session) in
  let storageSize := "10Gi" in
  let storageSize := if decide (rc_Storage (Resources (Spec session)) ≠ "")
                     then rc_Storage (Resources (Spec session)) else storageSize in
  vm_storage ← MustParse storageSize;
  vscode_storage ← MustParse "5Gi";
  mret [build_pvc rb session ("vm-data-" +:+ sessionID) vm_storage;
        build_pvc rb session ("vscode-data-" +:+ sessionID) vscode_storage].

End builder.
