(* ===== verification/Ingress.v ===== *)
(** The session's Ingress and public endpoints
    ([internal/controller/ingress.go]); [ensureIngress] is in Reconciler.v with
    the other ensure steps. *)
From S2P Require Import Prelude GoStrings Kube KubeTypes Types PodSettings ResourceBuilder.

(** [ingressApps]: path segment and Service port. *)
Definition ingressApps : list (string * Z) := [("vscode", 8080); ("terminal", 8081)].

Definition traefikMiddlewareAnnotation : string :=
  "traefik.ingress.kubernetes.io/router.middlewares".

(** [SessionPath] *)
Definition SessionPath (sessionID app : string) : string :=
  "/sessions/" +:+ sessionID +:+ "/" +:+ app.

Section ingress.
Context `{K : KubeLib}.

(** [BuildIngress] *)
Definition BuildIngress (rb : ResourceBuilder) (session : LabSession) : Ingress :=
  let sessionID := SessionID (Spec session) in
  let service := BuildService session in
  let paths := foldl (λ paths app,
    paths ++ [mkIngressPath (SessionPath sessionID app.1) "Prefix"
                (meta_Name (svc_Meta service)) app.2]) [] ingressApps in
  let m := named_meta ("lab-ingress-" +:+ sessionID) (s_Namespace session)
    (session_labels session) in
  {| ing_Meta :=
       if decide (IngressMiddleware (settings rb) ≠ "")
       then mkObjectMeta (meta_Name m) (meta_Namespace m) (meta_UID m) (meta_Generation m)
         (meta_DeletionTimestamp m) (meta_Finalizers m) (meta_Labels m)
         (Some (<[traefikMiddlewareAnnotation := IngressMiddleware (settings rb)]> ∅))
         (meta_OwnerReferences m)
       else m;
     ing_ClassName :=
       if decide (IngressClass (settings rb) ≠ "") then Some (IngressClass (settings rb)) else None;
     ing_Paths := paths |}.

(** [SessionEndpoints] *)
Definition SessionEndpoints (rb : ResourceBuilder) (sessionID : string) : gmap string string :=
  let base := TrimRight (PublicBaseURL (settings rb)) ascii_slash in
  foldl (λ endpoints app,
    <[app.1 := base +:+ SessionPath sessionID app.1 +:+ "/"]> endpoints) ∅ ingressApps.

End ingress.
