(* ===== verification/Usage.v ===== *)
(** What a session holds in the cluster ([internal/controller/usage.go]). *)
From S2P Require Import Prelude Kube KubeTypes Types.

Section usage.
Context `{K : KubeLib}.

(** [podHoldsResources]: the pod is nil, being deleted, or has a phase. *)
Definition podHoldsResources (pod : option Pod) : bool :=
  match pod with
  | None => false
  | Some pod =>
      match meta_DeletionTimestamp (pod_Meta pod) with
      | Some _ => false
      | None => bool_decide (ps_Phase (pod_Status pod) ≠ PodSucceeded ∧
                             ps_Phase (pod_Status pod) ≠ PodFailed)
      end
  end.

(** [q.Add] in a loop, from [q]. *)
Definition add_all (q : Quantity) (qs : list Quantity) : Quantity := foldl Quantity_Add q qs.

(** [usageOf] *)
Definition usageOf (pod : option Pod) (pvcs : list PersistentVolumeClaim) : LabSessionUsage :=
  let storage := add_all (NewQuantity 0 BinarySI)
    ((λ pvc, resource_get (pvc_Requests pvc) ResourceStorage) <$> pvcs) in
  let usage_storage := if Quantity_IsZero storage then "" else Quantity_String storage in
  match pod with
  | Some p =>
      if podHoldsResources pod then
        let cpu := add_all (NewMilliQuantity 0 DecimalSI)
          ((λ c, resource_get (ctr_Requests c) ResourceCPU) <$> spec_Containers (pod_Spec p)) in
        let memory := add_all (NewQuantity 0 BinarySI)
          ((λ c, resource_get (ctr_Requests c) ResourceMemory) <$> spec_Containers (pod_Spec p)) in
        mkLabSessionUsage true (Quantity_String cpu) (Quantity_String memory) usage_storage
      else mkLabSessionUsage false "" "" usage_storage
  | None => mkLabSessionUsage false "" "" usage_storage
  end.

End usage.
