(* ===== verification/SSHKeys.v ===== *)
(** Per-session SSH keys ([internal/controller/ssh_keys.go]): the OpenSSH
    encodings of an ed25519 key pair, the Secret that holds them and its
    creation; with [encoding/base64] and [encoding/pem] as the code uses them.
    Byte slices are [list ascii]. *)
From S2P Require Import Prelude GoStrings Kube KubeTypes Types ResourceBuilder Events Effects.

Definition bytes (s : string) : list ascii := String.list_ascii_of_string s.

(** * Encoders *)

(** One byte of an integer. *)
Definition byte_of_Z (z : Z) : ascii := ascii_of_N (Z.to_N (z mod 256)).
Definition Z_of_byte (a : ascii) : Z := Z.of_N (N_of_ascii a).

(** [binary.BigEndian.AppendUint32] *)
Definition AppendUint32 (b : list ascii) (v : Z) : list ascii :=
  b ++ [byte_of_Z (Z.shiftr v 24); byte_of_Z (Z.shiftr v 16); byte_of_Z (Z.shiftr v 8); byte_of_Z v].

(** [sshString] *)
Definition sshString (b field : list ascii) : list ascii :=
  AppendUint32 b (wrap_u32 (Z.of_nat (length field))) ++ field.

(** [publicKeyBlob] *)
Definition publicKeyBlob (pub : list ascii) : list ascii :=
  sshString (sshString [] (bytes "ssh-ed25519")) pub.

(** [base64.StdEncoding.EncodeToString] *)
Definition base64_alphabet : list ascii :=
  bytes "ABCDEFGHIJKLMNOPQRSTUVWXYZabcdefghijklmnopqrstuvwxyz0123456789+/".

Definition base64_char (v : Z) : ascii :=
  default "="%char (base64_alphabet !! Z.to_nat (v mod 64)).

Fixpoint base64_encode (b : list ascii) : list ascii :=
  match b with
  | x :: y :: z :: b' =>
      let v := Z_of_byte x * 65536 + Z_of_byte y * 256 + Z_of_byte z in
      base64_char (Z.shiftr v 18) :: base64_char (Z.shiftr v 12) ::
      base64_char (Z.shiftr v 6) :: base64_char v :: base64_encode b'
  | [x; y] =>
      let v := Z_of_byte x * 65536 + Z_of_byte y * 256 in
      [base64_char (Z.shiftr v 18); base64_char (Z.shiftr v 12); base64_char (Z.shiftr v 6);
       "="%char]
  | [x] =>
      let v := Z_of_byte x * 65536 in
      [base64_char (Z.shiftr v 18); base64_char (Z.shiftr v 12); "="%char; "="%char]
  | [] => []
  end.

Definition newline : ascii := "010"%char.

(** [pem.EncodeToMemory] of a block without headers: base64 in lines of 64. *)
Fixpoint pem_lines (fuel : nat) (b : list ascii) : list ascii :=
  match fuel, b with
  | _, [] | O, _ => []
  | S fuel, _ => take 64 b ++ [newline] ++ pem_lines fuel (drop 64 b)
  end.

Definition pem_EncodeToMemory (ty : string) (b : list ascii) : list ascii :=
  let text := base64_encode b in
  bytes "-----BEGIN " ++ bytes ty ++ bytes "-----" ++ [newline] ++
  pem_lines (length text) text ++
  bytes "-----END " ++ bytes ty ++ bytes "-----" ++ [newline].

(** [authorizedKey] *)
Definition authorizedKey (pub : list ascii) (comment : string) : list ascii :=
  bytes "ssh-ed25519 " ++ base64_encode (publicKeyBlob pub) ++ bytes " " ++ bytes comment ++
  [newline].

(** The padding loop of [openSSHPrivateKey]: bytes 1, 2, ... until the length is
    a multiple of 8. Seven rounds are enough ([pad_private_length]). *)
Fixpoint pad_private (fuel : nat) (i : Z) (private : list ascii) : list ascii :=
  if Z.of_nat (length private) mod 8 =? 0 then private
  else match fuel with
       | O => private
       | S fuel => pad_private fuel ((i + 1) mod 256) (private ++ [byte_of_Z i])
       end.

(** The private section: check ints, key, comment, padding. *)
Definition private_section (check pub priv : list ascii) (comment : string) : list ascii :=
  let private := check ++ check in
  let private := sshString private (bytes "ssh-ed25519") in
  let private := sshString private pub in
  let private := sshString private priv in
  let private := sshString private (bytes comment) in
  pad_private 7 1 private.

(** The binary that [openSSHPrivateKey] wraps in PEM, given the check bytes. *)
Definition openSSHPrivateKey_blob (check pub priv : list ascii) (comment : string) : list ascii :=
  let private := private_section check pub priv comment in
  let b := bytes "openssh-key-v1" ++ ["000"%char] in
  let b := sshString b (bytes "none") in
  let b := sshString b (bytes "none") in
  let b := sshString b [] in
  let b := AppendUint32 b 1 in
  let b := sshString b (publicKeyBlob pub) in
  sshString b private.

Section ssh_keys.
Context `{K : KubeLib}.

(** [openSSHPrivateKey] *)
Definition openSSHPrivateKey (pub priv : list ascii) (comment : string)
    : prog (result error (list ascii)) :=
  r ← call (RandRead 4);
  match r with
  | Err err => mret (Err err)
  | Ok check =>
      mret (Ok (pem_EncodeToMemory "OPENSSH PRIVATE KEY"
        (openSSHPrivateKey_blob check pub priv comment)))
  end.

(** The Secret built from a key pair and its encoded private key. *)
Definition ssh_key_secret (sessionID namespace : string) (privPEM pub : list ascii)
    (comment : string) : Secret :=
  {| sec_Meta := named_meta (SSHKeySecretName sessionID) namespace
       (<["app" := "lab-environment"]> (<["session-id" := sessionID]> ∅));
     sec_Type := "Opaque";
     sec_Data := <[SSHPrivateKeyKey := privPEM]>
                 (<[SSHPublicKeyKey := authorizedKey pub comment]> ∅) |}.

(** [BuildSSHKeySecret] *)
Definition BuildSSHKeySecret (sessionID namespace : string) : prog (result error Secret) :=
  r ← call GenerateKey;
  match r with
  | Err err => mret (Err (EWrap "generate ssh key" err))
  | Ok kp =>
      let comment := "dozlab-session-" +:+ sessionID in
      r ← openSSHPrivateKey (key_Public kp) (key_Private kp) comment;
      match r with
      | Err err => mret (Err (EWrap "encode ssh key" err))
      | Ok privPEM =>
          mret (Ok (ssh_key_secret sessionID namespace privPEM (key_Public kp) comment))
      end
  end.

(** [EnsureSSHKeySecret]: whether a Secret was created, or an error. *)
Definition EnsureSSHKeySecret (owner : ObjectMeta) (sessionID namespace : string)
    : prog (result error bool) :=
  let name := SSHKeySecretName sessionID in
  r ← BuildSSHKeySecret sessionID namespace;
  match r with
  | Err err => mret (Err err)
  | Ok secret =>
      match SetControllerReference owner (sec_Meta secret) with
      | Err err => mret (Err (EWrap "set owner reference on ssh key secret" (EText err)))
      | Ok m =>
          r ← call (Create KSecret (with_meta KSecret secret m));
          match r with
          | Err err =>
              if IsAlreadyExists err then mret (Ok false)
              else mret (Err (EWrap ("create ssh key secret " +:+ name) err))
          | Ok _ => mret (Ok true)
          end
      end
  end.

End ssh_keys.
