(* ===== verification/Reconciler.v ===== *)
(** The LabSession reconciler ([internal/controller/reconciler.go], with
    [ensureIngress] of [ingress.go] and [sessionPod] of [usage.go]): the state
    machine of a session. The [*LabSession] that the handlers share and mutate is
    the state of the monad [M]; the calls are the operations of Effects.v.
    Logging is not modelled. *)
From S2P Require Import Prelude GoStrings Kube KubeTypes Types PodSettings ResourceBuilder Ingress.
From S2P Require Import Usage Events Effects SSHKeys.

Definition LabSessionFinalizer : string := "labsession.dozlab.io/finalizer".
Definition PublishedPhaseAnnotation : string := "dozlab.io/published-phase".
Definition publishRetryDelay : duration := 30 * second.
Definition terminatingPublishTimeout : duration := 5 * second.
Definition creatingTimeout : duration := 10 * minute.
Definition podUnreadyTimeout : duration := 2 * minute.

Definition EventTypeNormal : string := "Normal".
Definition EventTypeWarning : string := "Warning".

(** [ctrl.Result] *)
Record Result := mkResult { Requeue : bool; RequeueAfter : duration }.
Definition no_requeue : Result := mkResult false 0.
Definition requeue_now : Result := mkResult true 0.
Definition requeue_after (d : duration) : Result := mkResult false d.

#[export] Instance Result_eq_dec : EqDecision Result.
Proof. solve_decision. Defined.

(** * Pure helpers *)

(** [calculateVMIP]: [lastOctet] stays 0 when the scan fails. *)
Definition calculateVMIP (podIP : string) : string :=
  match Split podIP ascii_dot with
  | [a; b; c; d] =>
      let lastOctet := default 0 (Sscanf_d d) in
      Join [a; b; c; Itoa (wrap64 (lastOctet + 1))] "."
  | _ => ""
  end.

(** The loop of [setCondition] over the session's conditions. *)
Fixpoint set_condition_in (cs : list Condition) (new : Condition) : list Condition :=
  match cs with
  | [] => [new]
  | c :: cs' =>
      if decide (cond_Type c = cond_Type new)
      then if decide (cond_Status c ≠ cond_Status new) then new :: cs' else c :: cs'
      else c :: set_condition_in cs' new
  end.

(** The message of [podTerminalReason] for the first terminated container. *)
Fixpoint terminated_reason (css : list ContainerStatus) : string :=
  match css with
  | [] => ""
  | cs :: css' =>
      match cs_Terminated cs with
      | Some t => "container " +:+ cs_Name cs +:+ " exited (" +:+ term_Reason t +:+ ", code "
                  +:+ Itoa (term_ExitCode t) +:+ ")"
      | None => terminated_reason css'
      end
  end.

(** A write through a Go map: a nil map panics. *)
Definition map_set (m : option (gmap string string)) (k v : string)
    : outcome (option (gmap string string)) :=
  match m with Some m => Done (Some (<[k := v]> m)) | None => Panicked end.

Section reconciler.
Context `{K : KubeLib}.

(** [isPermanentCreateError]; [errors.As] looks through wrapped errors. *)
Fixpoint is_notOwned (e : error) : bool :=
  match e with
  | ENotOwned _ _ => true
  | EWrap _ e => is_notOwned e
  | _ => false
  end.

Definition isPermanentCreateError (err : error) : bool :=
  is_notOwned err || IsInvalid err || IsBadRequest err.

(** [podTerminalReason] *)
Definition podTerminalReason (pod : Pod) : string :=
  match meta_DeletionTimestamp (pod_Meta pod) with
  | Some _ => "pod is being deleted"
  | None =>
      if decide (ps_Phase (pod_Status pod) = PodFailed ∨ ps_Phase (pod_Status pod) = PodSucceeded)
      then "pod phase is " +:+ ps_Phase (pod_Status pod)
      else terminated_reason (ps_ContainerStatuses (pod_Status pod))
  end.

(** [isPodReady] *)
Definition isPodReady (pod : Pod) : bool :=
  if decide (ps_Phase (pod_Status pod) ≠ PodRunning) then false
  else existsb (λ c, bool_decide (pc_Type c = PodReady ∧ pc_Status c = ConditionTrue))
         (ps_Conditions (pod_Status pod)).

(** [phaseChange] *)
Definition phaseChange (s : LabSession) : PhaseChange :=
  mkPhaseChange (meta_UID (ObjMeta s)) (s_Namespace s) (s_Name s)
    (UserID (Spec s)) (SessionID (Spec s)) (Phase (Status s)) (Message (Status s))
    (Reason (Status s)) (Endpoints (Status s)).

(** * The handlers' monad *)

(** A handler works on the session it was given a pointer to. *)
Definition M (A : Type) : Type := LabSession → prog (A * LabSession).

#[global] Instance M_ret : MRet M := λ A a s, Ret (a, s).
#[global] Instance M_bind : MBind M := λ A B f m s, m s ≫= λ x, f x.1 x.2.

Definition get_session : M LabSession := λ s, Ret (s, s).
Definition modify (f : LabSession → LabSession) : M unit := λ s, Ret (tt, f s).
Definition lift {A} (p : prog A) : M A := λ s, p ≫= λ a, Ret (a, s).
Definition do_call (o : op) : M (resp o) := lift (call o).

(** A write of the session: on success the client decodes the server's object
    into it. *)
Definition write_session (o : LabSession → op)
    (answer : ∀ s, resp (o s) → result error LabSession) : M (option error) :=
  λ s, call (o s) ≫= λ r,
    match answer s r with
    | Ok s' => Ret (None, s')
    | Err e => Ret (Some e, s)
    end.

(** [r.Status().Update], [r.Update], [r.Patch] *)
Definition StatusUpdate : M (option error) := write_session UpdateStatus (λ _ r, r).
Definition Update : M (option error) := write_session UpdateSession (λ _ r, r).
Definition Patch (from : LabSession) : M (option error) :=
  write_session (PatchSession from) (λ _ r, r).

Record LabSessionReconciler := mkLabSessionReconciler {
  r_ResourceBuilder : ResourceBuilder;
  r_Events : bool (* r.Events is not nil *)
}.

(** * Conditions, failure, endpoints *)

(** [setCondition] *)
Definition setCondition (conditionType status reason message : string) : M unit :=
  now ← do_call Now;
  modify (λ s,
    let condition := mkCondition conditionType status (meta_Generation (ObjMeta s)) now
      reason message in
    set_Status (λ st, set_Conditions (set_condition_in (Conditions st) condition) st) s).

(** [sessionPod] *)
Definition sessionPod : M (option Pod) :=
  s ← get_session;
  if decide (PodName (Status s) = "") then mret None
  else r ← do_call (Get KPod (s_Namespace s) (PodName (Status s)));
       match r with Ok pod => mret (Some pod) | Err _ => mret None end.

(** [updateStatusFailed] *)
Definition updateStatusFailed (r : LabSessionReconciler) (message : string) (err : option error)
    : M unit :=
  _ ← modify (set_Status (set_Phase SessionPhaseFailed));
  _ ← modify (set_Status (set_Message message));
  _ ← match err with
      | Some e => modify (set_Status (set_Reason (error_text e)))
      | None => mret tt
      end;
  pod ← sessionPod;
  s ← get_session;
  pvcs ← lift (lift_outcome (BuildPVCs (r_ResourceBuilder r) s));
  _ ← modify (set_Status (set_Usage (usageOf pod pvcs)));
  _ ← setCondition ConditionTypeReady ConditionFalse "Failed" message;
  _ ← StatusUpdate;
  do_call (RecordEvent EventTypeWarning "Failed" (message +:+ ": " +:+
    match err with Some e => error_text e | None => "<nil>" end)).

(** [handleCreateError] *)
Definition handleCreateError (r : LabSessionReconciler) (message : string) (err : error)
    : M (Result * option error) :=
  s ← get_session;
  expired ← match StartTime (Status s) with
            | Some t => now ← do_call Now; mret (creatingTimeout <? time_sub now t)
            | None => mret false
            end;
  if isPermanentCreateError err || expired then
    _ ← updateStatusFailed r message (Some err); mret (no_requeue, None)
  else mret (no_requeue, Some err).

(** The host of a LoadBalancer's first ingress point: its IP, or its hostname. *)
Definition lb_host (i : LoadBalancerIngress) : string :=
  if decide (lb_IP i = "") then lb_Hostname i else lb_IP i.

(** The endpoints [updateEndpoints] stores, given the session's Service. *)
Definition endpoints_of (r : LabSessionReconciler) (s : LabSession) (service : Service)
    : gmap string string :=
  let endpoints := SessionEndpoints (r_ResourceBuilder r) (SessionID (Spec s)) in
  if decide (svc_Type service = ServiceTypeLoadBalancer) then
    match svc_LoadBalancerIngress service with
    | ingress :: _ =>
        let host := lb_host ingress in
        if decide (host ≠ "") then <["ssh" := "ssh://" +:+ host +:+ ":22"]> endpoints
        else endpoints
    | [] => endpoints
    end
  else endpoints.

(** [updateEndpoints] *)
Definition updateEndpoints (r : LabSessionReconciler) : M (option error) :=
  s ← get_session;
  if decide (ServiceName (Status s) = "") then mret None
  else x ← do_call (Get KService (s_Namespace s) (ServiceName (Status s)));
       match x with
       | Err err => mret (Some err)
       | Ok service =>
           _ ← modify (set_Status (set_Endpoints (endpoints_of r s service)));
           mret None
       end.

(** * Creating the session's objects *)

(** The loop of [ensurePVCs]. *)
Fixpoint ensurePVCs_loop (pvcs : list PersistentVolumeClaim) : M (option error) :=
  match pvcs with
  | [] => mret None
  | pvc :: rest =>
      s ← get_session;
      let name := meta_Name (pvc_Meta pvc) in
      match SetControllerReference (ObjMeta s) (pvc_Meta pvc) with
      | Err err =>
          mret (Some (EWrap ("failed to set owner reference on PVC " +:+ name) (EText err)))
      | Ok m =>
          let pvc := with_meta KPVC pvc m in
          let name := meta_Name m in
          x ← do_call (Get KPVC (meta_Namespace m) name);
          match x with
          | Err err =>
              if IsNotFound err then
                y ← do_call (Create KPVC pvc);
                match y with
                | Err err =>
                    if IsAlreadyExists err then ensurePVCs_loop rest
                    else mret (Some (EWrap ("failed to create PVC " +:+ name) err))
                | Ok created =>
                    _ ← do_call (RecordEvent EventTypeNormal "PVCCreated"
                          ("Created PVC " +:+ meta_Name (pvc_Meta created)));
                    ensurePVCs_loop rest
                end
              else mret (Some (EWrap ("failed to get PVC " +:+ name) err))
          | Ok found =>
              if IsControlledBy (pvc_Meta found) (ObjMeta s) then ensurePVCs_loop rest
              else mret (Some (ENotOwned "PVC" name))
          end
      end
  end.

(** [ensurePVCs] *)
Definition ensurePVCs (r : LabSessionReconciler) : M (option error) :=
  s ← get_session;
  pvcs ← lift (lift_outcome (BuildPVCs (r_ResourceBuilder r) s));
  ensurePVCs_loop pvcs.

(** [ensurePod] *)
Definition ensurePod (r : LabSessionReconciler) : M (option error) :=
  s ← get_session;
  pod ← lift (lift_outcome (BuildPod (r_ResourceBuilder r) s));
  match SetControllerReference (ObjMeta s) (pod_Meta pod) with
  | Err err => mret (Some (EWrap "failed to set owner reference on pod" (EText err)))
  | Ok m =>
      let pod := with_meta KPod pod m in
      x ← do_call (Get KPod (meta_Namespace m) (meta_Name m));
      match x with
      | Err err =>
          if IsNotFound err then
            y ← do_call (Create KPod pod);
            match y with
            | Err err =>
                if IsAlreadyExists err then
                  _ ← modify (set_Status (set_PodName (meta_Name m))); mret None
                else mret (Some (EWrap "failed to create pod" err))
            | Ok created =>
                _ ← do_call (RecordEvent EventTypeNormal "PodCreated"
                      ("Created Pod " +:+ meta_Name (pod_Meta created)));
                _ ← modify (set_Status (set_PodName (meta_Name (pod_Meta created)))); mret None
            end
          else mret (Some (EWrap "failed to get pod" err))
      | Ok found =>
          if IsControlledBy (pod_Meta found) (ObjMeta s) then
            _ ← modify (set_Status (set_PodName (meta_Name (pod_Meta found)))); mret None
          else mret (Some (ENotOwned "Pod" (meta_Name m)))
      end
  end.

(** [ensureService] *)
Definition ensureService : M (option error) :=
  s ← get_session;
  let service := BuildService s in
  match SetControllerReference (ObjMeta s) (svc_Meta service) with
  | Err err => mret (Some (EWrap "failed to set owner reference on service" (EText err)))
  | Ok m =>
      let service := with_meta KService service m in
      x ← do_call (Get KService (meta_Namespace m) (meta_Name m));
      match x with
      | Err err =>
          if IsNotFound err then
            y ← do_call (Create KService service);
            match y with
            | Err err =>
                if IsAlreadyExists err then
                  _ ← modify (set_Status (set_ServiceName (meta_Name m))); mret None
                else mret (Some (EWrap "failed to create service" err))
            | Ok created =>
                _ ← do_call (RecordEvent EventTypeNormal "ServiceCreated"
                      ("Created Service " +:+ meta_Name (svc_Meta created)));
                _ ← modify (set_Status (set_ServiceName (meta_Name (svc_Meta created))));
                mret None
            end
          else mret (Some (EWrap "failed to get service" err))
      | Ok found =>
          if IsControlledBy (svc_Meta found) (ObjMeta s) then
            _ ← modify (set_Status (set_ServiceName (meta_Name (svc_Meta found)))); mret None
          else mret (Some (ENotOwned "Service" (meta_Name m)))
      end
  end.

(** [ensureIngress] *)
Definition ensureIngress (r : LabSessionReconciler) : M (option error) :=
  s ← get_session;
  let ingress := BuildIngress (r_ResourceBuilder r) s in
  match SetControllerReference (ObjMeta s) (ing_Meta ingress) with
  | Err err => mret (Some (EWrap "failed to set owner reference on ingress" (EText err)))
  | Ok m =>
      let ingress := with_meta KIngress ingress m in
      x ← do_call (Get KIngress (meta_Namespace m) (meta_Name m));
      match x with
      | Err err =>
          if IsNotFound err then
            y ← do_call (Create KIngress ingress);
            match y with
            | Err err =>
                if IsAlreadyExists err then mret None
                else mret (Some (EWrap "failed to create ingress" err))
            | Ok created =>
                _ ← do_call (RecordEvent EventTypeNormal "IngressCreated"
                      ("Created Ingress " +:+ meta_Name (ing_Meta created)));
                mret None
            end
          else mret (Some (EWrap "failed to get ingress" err))
      | Ok found =>
          if IsControlledBy (ing_Meta found) (ObjMeta s) then mret None
          else mret (Some (ENotOwned "Ingress" (meta_Name m)))
      end
  end.

(** * The state machine *)

(** [reconcilePending] *)
Definition reconcilePending : M (Result * option error) :=
  _ ← modify (set_Status (set_Phase SessionPhaseCreating));
  _ ← modify (set_Status (set_Message "Creating lab session resources"));
  now ← do_call Now;
  _ ← modify (set_Status (set_StartTime (Some now)));
  _ ← modify (λ s, set_Status (set_ObservedGeneration (meta_Generation (ObjMeta s))) s);
  e ← StatusUpdate;
  match e with
  | Some err => mret (no_requeue, Some err)
  | None =>
      _ ← do_call (RecordEvent EventTypeNormal "Creating" "Starting lab session creation");
      mret (requeue_now, None)
  end.

(** The transition to Running, once the pod is ready. *)
Definition become_running (r : LabSessionReconciler) (pod : Pod) : M (Result * option error) :=
  let podIP := ps_PodIP (pod_Status pod) in
  _ ← modify (set_Status (set_Phase SessionPhaseRunning));
  _ ← modify (set_Status (set_Message "Lab session is running"));
  _ ← modify (set_Status (set_PodIP podIP));
  _ ← modify (set_Status (set_VMIP (calculateVMIP podIP)));
  s ← get_session;
  pvcs ← lift (lift_outcome (BuildPVCs (r_ResourceBuilder r) s));
  _ ← modify (set_Status (set_Usage (usageOf (Some pod) pvcs)));
  _ ← updateEndpoints r;
  _ ← setCondition ConditionTypePodReady ConditionTrue "PodRunning" "Pod is running";
  _ ← setCondition ConditionTypeServiceReady ConditionTrue "ServiceCreated" "Service is ready";
  _ ← setCondition ConditionTypeReady ConditionTrue "SessionReady" "Lab session is ready";
  e ← StatusUpdate;
  match e with
  | Some err => mret (no_requeue, Some err)
  | None =>
      _ ← do_call (RecordEvent EventTypeNormal "Running" "Lab session is now running");
      mret (no_requeue, None)
  end.

(** Step 5 of [reconcileCreating]: check the pod. *)
Definition check_created_pod (r : LabSessionReconciler) : M (Result * option error) :=
  s ← get_session;
  x ← do_call (Get KPod (s_Namespace s) (PodName (Status s)));
  match x with
  | Err err => mret (requeue_after (10 * second), Some err)
  | Ok pod =>
      let reason := podTerminalReason pod in
      if decide (reason ≠ "") then
        _ ← updateStatusFailed r "Pod failed" (Some (EText reason)); mret (no_requeue, None)
      else if isPodReady pod then become_running r pod
      else mret (requeue_after (10 * second), None)
  end.

(** [reconcileCreating] *)
Definition reconcileCreating (r : LabSessionReconciler) : M (Result * option error) :=
  e ← ensurePVCs r;
  match e with Some err => handleCreateError r "Failed to create PVCs" err | None =>
  s ← get_session;
  x ← lift (EnsureSSHKeySecret (ObjMeta s) (SessionID (Spec s)) (s_Namespace s));
  match x with
  | Err err =>
      _ ← updateStatusFailed r "Failed to create SSH key Secret" (Some err);
      mret (requeue_after (30 * second), Some err)
  | Ok created =>
  _ ← (if created : bool then do_call (RecordEvent EventTypeNormal "SSHKeyCreated"
         ("Created SSH key Secret " +:+ SSHKeySecretName (SessionID (Spec s))))
       else mret tt);
  e ← ensurePod r;
  match e with Some err => handleCreateError r "Failed to create Pod" err | None =>
  e ← ensureService;
  match e with Some err => handleCreateError r "Failed to create Service" err | None =>
  e ← ensureIngress r;
  match e with Some err => handleCreateError r "Failed to create Ingress" err | None =>
  check_created_pod r
  end end end end end.

(** The part of [reconcileRunning] for a pod that is up but not ready. *)
Definition wait_for_recovery (r : LabSessionReconciler) : M (Result * option error) :=
  s ← get_session;
  match FindStatusCondition (Conditions (Status s)) ConditionTypePodReady with
  | Some cond =>
      now ← do_call Now;
      if podUnreadyTimeout <? time_sub now (cond_LastTransitionTime cond) then
        _ ← updateStatusFailed r "Pod failed" (Some (EText "pod not ready for over 2m0s"));
        mret (no_requeue, None)
      else mret (requeue_after (10 * second), None)
  | None => mret (requeue_after (10 * second), None)
  end.

(** [reconcileRunning] *)
Definition reconcileRunning (r : LabSessionReconciler) : M (Result * option error) :=
  s ← get_session;
  x ← do_call (Get KPod (s_Namespace s) (PodName (Status s)));
  if bool_decide (PodName (Status s) = "") || match x with Err err => IsNotFound err | Ok _ => false end
  then _ ← updateStatusFailed r "Pod failed" (Some (EText "pod was deleted"));
       mret (no_requeue, None)
  else match x with
  | Err err => mret (requeue_after (30 * second), Some err)
  | Ok pod =>
      let reason := podTerminalReason pod in
      if decide (reason ≠ "") then
        _ ← updateStatusFailed r "Pod failed" (Some (EText reason)); mret (no_requeue, None)
      else if isPodReady pod then
        if IsStatusConditionTrue (Conditions (Status s)) ConditionTypePodReady then
          mret (requeue_after (1 * minute), None)
        else
          _ ← setCondition ConditionTypePodReady ConditionTrue "PodRunning" "Pod is running";
          e ← StatusUpdate;
          match e with
          | Some err => mret (no_requeue, Some err)
          | None => mret (requeue_after (1 * minute), None)
          end
      else if IsStatusConditionTrue (Conditions (Status s)) ConditionTypePodReady then
        _ ← setCondition ConditionTypePodReady ConditionFalse "PodNotReady" "Pod is not ready";
        e ← StatusUpdate;
        match e with
        | Some err => mret (no_requeue, Some err)
        | None => wait_for_recovery r
        end
      else wait_for_recovery r
  end.

(** [reconcileFailed] *)
Definition reconcileFailed : M (Result * option error) := mret (no_requeue, None).

(** [reconcilePhase] *)
Definition reconcilePhase (r : LabSessionReconciler) : M (Result * option error) :=
  s ← get_session;
  let phase := Phase (Status s) in
  if decide (phase = SessionPhasePending ∨ phase = "") then reconcilePending
  else if decide (phase = SessionPhaseCreating) then reconcileCreating r
  else if decide (phase = SessionPhaseRunning) then reconcileRunning r
  else if decide (phase = SessionPhaseFailed) then reconcileFailed
  else mret (no_requeue, None).

(** [publishPhase]: whether publishing failed and should be retried. *)
Definition publishPhase (r : LabSessionReconciler) : M bool :=
  s ← get_session;
  let phase := Phase (Status s) in
  if negb (r_Events r) || bool_decide (phase = "") ||
     bool_decide (annotation (ObjMeta s) PublishedPhaseAnnotation = phase)
  then mret false
  else
    e ← do_call (PublishPhaseChange None (phaseChange s));
    match e with
    | Some _ => mret true
    | None =>
        _ ← match meta_Annotations (ObjMeta s) with
            | None => modify (set_Annotations (Some ∅))
            | Some _ => mret tt
            end;
        s1 ← get_session;
        a ← lift (lift_outcome (map_set (meta_Annotations (ObjMeta s1))
              PublishedPhaseAnnotation phase));
        _ ← modify (set_Annotations a);
        e ← Patch s;
        match e with Some _ => mret true | None => mret false end
    end.

(** [reconcileDelete] *)
Definition reconcileDelete (r : LabSessionReconciler) : M (Result * option error) :=
  _ ← modify (set_Status (set_Phase SessionPhaseTerminating));
  _ ← modify (set_Status (set_Message "Cleaning up lab session resources"));
  _ ← modify (set_Status (set_Usage no_usage));
  e ← StatusUpdate;
  if match e with Some err => IsNotFound err | None => false end
  then mret (no_requeue, None)
  else
    _ ← do_call (RecordEvent EventTypeNormal "Terminating" "Cleaning up lab session");
    s ← get_session;
    _ ← (if r_Events r && bool_decide (annotation (ObjMeta s) PublishedPhaseAnnotation
                                       ≠ SessionPhaseTerminating)
         then _ ← do_call (PublishPhaseChange (Some terminatingPublishTimeout) (phaseChange s));
              mret tt
         else mret tt);
    _ ← modify (λ s, set_Finalizers
          (RemoveFinalizer (meta_Finalizers (ObjMeta s)) LabSessionFinalizer) s);
    e ← Update;
    match e with
    | Some err => if IsNotFound err then mret (no_requeue, None) else mret (no_requeue, Some err)
    | None => mret (no_requeue, None)
    end.

(** The requeue adjustment of [Reconcile] after a failed publish. *)
Definition retry_publish (publishPending : bool) (x : Result * option error)
    : Result * option error :=
  let '(result, err) := x in
  if publishPending && match err with None => true | Some _ => false end &&
     negb (Requeue result) &&
     ((RequeueAfter result =? 0) || (publishRetryDelay <? RequeueAfter result))
  then (mkResult (Requeue result) publishRetryDelay, err)
  else (result, err).

(** [Reconcile] after the session was fetched. *)
Definition reconcile_fetched (r : LabSessionReconciler) : M (Result * option error) :=
  s ← get_session;
  if negb (time_ptr_is_zero (meta_DeletionTimestamp (ObjMeta s))) then reconcileDelete r
  else if negb (ContainsFinalizer (meta_Finalizers (ObjMeta s)) LabSessionFinalizer) then
    _ ← modify (λ s, set_Finalizers
          (AddFinalizer (meta_Finalizers (ObjMeta s)) LabSessionFinalizer) s);
    e ← Update;
    match e with
    | Some err => mret (no_requeue, Some err)
    | None => mret (requeue_now, None)
    end
  else
    publishPending ← publishPhase r;
    x ← reconcilePhase r;
    mret (retry_publish publishPending x).

(** [Reconcile] of the request [namespace/name]. *)
Definition Reconcile (r : LabSessionReconciler) (namespace name : string)
    : prog (Result * option error) :=
  x ← call (GetSession namespace name);
  match x with
  | Err err => if IsNotFound err then mret (no_requeue, None) else mret (no_requeue, Some err)
  | Ok s => x ← reconcile_fetched r s; mret x.1
  end.

End reconciler.
