(* ===== verification/KubeInstance.v ===== *)
(** A concrete Kubernetes library that satisfies [KubeLaws]. It is not a model of
    apimachinery: it is the instance at which the witnesses evaluate the
    theorems, and it shows that the laws are consistent. *)
From S2P Require Import Prelude GoStrings Kube.

(** The reasons of an API status error that the code distinguishes. *)
Inductive ref_api_error :=
| NotFoundError | AlreadyExistsError | InvalidError | BadRequestError
| UnauthorizedError | ForbiddenError | ConflictError | ServerTimeoutError
| TimeoutError | TooManyRequestsError | OtherError (text : string).

#[export] Instance ref_api_error_eq_dec : EqDecision ref_api_error.
Proof. solve_decision. Defined.

Definition ref_error_text (e : ref_api_error) : string :=
  match e with
  | NotFoundError => "not found" | AlreadyExistsError => "already exists"
  | InvalidError => "invalid" | BadRequestError => "bad request"
  | UnauthorizedError => "unauthorized" | ForbiddenError => "forbidden"
  | ConflictError => "conflict" | ServerTimeoutError => "server timeout"
  | TimeoutError => "timeout" | TooManyRequestsError => "too many requests"
  | OtherError t => t
  end.

(** A quantity: its amount in 10^-9 and its format. *)
Record ref_quantity := mkRefQuantity { rq_nano : Z; rq_format : Format }.

#[export] Instance ref_quantity_eq_dec : EqDecision ref_quantity.
Proof. solve_decision. Defined.

Definition ref_scale (suffix : string) : option (Z * Format) :=
  if decide (suffix = "") then Some (10 ^ 9, DecimalSI)
  else if decide (suffix = "m") then Some (10 ^ 6, DecimalSI)
  else if decide (suffix = "k") then Some (10 ^ 12, DecimalSI)
  else if decide (suffix = "M") then Some (10 ^ 15, DecimalSI)
  else if decide (suffix = "G") then Some (10 ^ 18, DecimalSI)
  else if decide (suffix = "Ki") then Some (2 ^ 10 * 10 ^ 9, BinarySI)
  else if decide (suffix = "Mi") then Some (2 ^ 20 * 10 ^ 9, BinarySI)
  else if decide (suffix = "Gi") then Some (2 ^ 30 * 10 ^ 9, BinarySI)
  else if decide (suffix = "Ti") then Some (2 ^ 40 * 10 ^ 9, BinarySI)
  else None.

Definition ref_parse (s : string) : result string ref_quantity :=
  let '(neg, s1) := scan_sign s in
  let '(v, n, rest) := scan_digits 0 0 s1 in
  if decide (n = 0%nat) then Err "quantities must match the regular expression"
  else match ref_scale rest with
       | Some (scale, f) => Ok (mkRefQuantity ((if neg then - v else v) * scale) f)
       | None => Err "unable to parse quantity's suffix"
       end.

(** Rounding away from zero. *)
Definition ref_round (x d : Z) : Z :=
  if 0 <=? x then ceil_div x d else - ceil_div (- x) d.

(** The largest of a list of units that divides the amount. *)
Fixpoint ref_unit (units : list (Z * string)) (x : Z) : string :=
  match units with
  | [] => pretty x
  | (u, name) :: us => if x mod u =? 0 then pretty (x `div` u) +:+ name else ref_unit us x
  end.

Definition ref_string (q : ref_quantity) : string :=
  let x := rq_nano q in
  if x =? 0 then "0" else
  match rq_format q with
  | BinarySI => ref_unit [(2 ^ 40 * 10 ^ 9, "Ti"); (2 ^ 30 * 10 ^ 9, "Gi"); (2 ^ 20 * 10 ^ 9, "Mi");
      (2 ^ 10 * 10 ^ 9, "Ki"); (10 ^ 9, ""); (10 ^ 6, "m")] x
  | _ => ref_unit [(10 ^ 18, "G"); (10 ^ 15, "M"); (10 ^ 12, "k"); (10 ^ 9, ""); (10 ^ 6, "m")] x
  end.

Definition ref_controlled_by (m owner : ObjectMeta) : bool :=
  existsb (λ o, owner_Controller o && bool_decide (owner_UID o = meta_UID owner))
    (meta_OwnerReferences m).

Definition ref_set_controller (owner m : ObjectMeta) : result string ObjectMeta :=
  if existsb owner_Controller (meta_OwnerReferences m) && negb (ref_controlled_by m owner)
  then Err "already owned by another controller"
  else Ok (mkObjectMeta (meta_Name m) (meta_Namespace m) (meta_UID m) (meta_Generation m)
    (meta_DeletionTimestamp m) (meta_Finalizers m) (meta_Labels m) (meta_Annotations m)
    (mkOwnerReference "LabSession" (meta_Name owner) (meta_UID owner) true ::
     meta_OwnerReferences m)).

Definition ref_contains (fs : list string) (f : string) : bool := bool_decide (f ∈ fs).

Definition ref_find (cs : list Condition) (t : string) : option Condition :=
  find (λ c, bool_decide (cond_Type c = t)) cs.

#[export] Instance RefLib : KubeLib := {|
  Quantity := ref_quantity;
  zero_Quantity := mkRefQuantity 0 DecimalSI;
  ParseQuantity := ref_parse;
  NewQuantity z f := mkRefQuantity (z * 10 ^ 9) f;
  NewMilliQuantity z f := mkRefQuantity (z * 10 ^ 6) f;
  Quantity_Value q := wrap64 (ref_round (rq_nano q) (10 ^ 9));
  Quantity_MilliValue q := wrap64 (ref_round (rq_nano q) (10 ^ 6));
  Quantity_Sign q := Z.sgn (rq_nano q);
  Quantity_IsZero q := bool_decide (rq_nano q = 0);
  Quantity_Add q1 q2 := mkRefQuantity (rq_nano q1 + rq_nano q2)
    (if decide (rq_nano q1 = 0) then rq_format q2 else rq_format q1);
  Quantity_Cmp q1 q2 := Z.sgn (rq_nano q1 - rq_nano q2);
  Quantity_String := ref_string;
  api_error := ref_api_error;
  api_error_text := ref_error_text;
  api_IsNotFound e := bool_decide (e = NotFoundError);
  api_IsAlreadyExists e := bool_decide (e = AlreadyExistsError);
  api_IsInvalid e := bool_decide (e = InvalidError);
  api_IsBadRequest e := bool_decide (e = BadRequestError);
  api_IsUnauthorized e := bool_decide (e = UnauthorizedError);
  api_IsForbidden e := bool_decide (e = ForbiddenError);
  api_IsConflict e := bool_decide (e = ConflictError);
  api_IsServerTimeout e := bool_decide (e = ServerTimeoutError);
  api_IsTimeout e := bool_decide (e = TimeoutError);
  api_IsTooManyRequests e := bool_decide (e = TooManyRequestsError);
  SetControllerReference := ref_set_controller;
  IsControlledBy := ref_controlled_by;
  ContainsFinalizer := ref_contains;
  AddFinalizer fs f := if ref_contains fs f then fs else fs ++ [f];
  RemoveFinalizer fs f := filter (λ g, g ≠ f) fs;
  IsStatusConditionTrue cs t :=
    match ref_find cs t with Some c => bool_decide (cond_Status c = ConditionTrue) | None => false end;
  FindStatusCondition := ref_find
|}.

(** * The laws hold *)

Lemma pretty_N_go_app x : ∀ a s, pretty_N_go x (a +:+ s) = pretty_N_go x a +:+ s.
Proof.
  induction (N.lt_wf_0 x) as [x _ IH]; intros a s.
  destruct (decide (x = 0)%N) as [->|Hx]; [by rewrite !pretty_N_go_0|].
  rewrite (pretty_N_go_step x (a +:+ s)), (pretty_N_go_step x a) by lia.
  by rewrite <- (IH (x `div` 10)%N) by (apply N.div_lt; lia).
Qed.

Lemma scan_digits_pretty_suffix (x : N) suffix :
  starts_with_digit suffix = false → ∃ d,
  scan_digits 0 0 (pretty x +:+ suffix) = (Z.of_N x, S d, suffix).
Proof.
  intros Hs.
  assert (∀ v n, scan_digits v n suffix = (v, n, suffix)) as Hstop.
  { intros v n. destruct suffix as [|a s]; simpl in *; [done|]. by destruct (digit_val a). }
  unfold pretty, pretty_N. case_decide as Hx.
  - subst. exists 0%nat. change ("0" +:+ suffix) with (String "0" suffix).
    cbn [scan_digits]. change (digit_val "0") with (Some 0). cbn. apply Hstop.
  - rewrite <- pretty_N_go_app. change ("" +:+ suffix) with suffix.
    destruct (scan_digits_pretty_go x suffix 0 0) as (p & d & -> & _ & Hd).
    destruct d as [|d]; [lia|]. exists d. rewrite Hstop. by rewrite Nat.add_0_r.
Qed.

Lemma ref_parse_suffix n suffix scale f :
  0 ≤ n → starts_with_digit suffix = false → ref_scale suffix = Some (scale, f) →
  ref_parse (pretty n +:+ suffix) = Ok (mkRefQuantity (n * scale) f).
Proof.
  intros Hn Hs Hsc.
  assert (pretty n +:+ suffix = pretty (Z.to_N n) +:+ suffix) as ->.
  { destruct n; [done| done | lia]. }
  destruct (scan_digits_pretty_suffix (Z.to_N n) suffix Hs) as (d & Hd).
  unfold ref_parse. rewrite scan_sign_digit.
  - rewrite Hd, Hsc. rewrite decide_False by done. by rewrite Z2N.id.
  - destruct (scan_digits_pretty_N (Z.to_N n)) as (d' & Hd').
    apply scan_digits_starts in Hd'. by destruct (pretty (Z.to_N n)).
Qed.

Lemma string_app_nil (s : string) : s +:+ "" = s.
Proof. induction s as [|a s IH]; [done|]. by rewrite string_cons_app, IH. Qed.

Lemma ref_round_nonneg x d : 0 ≤ x → 0 < d → ceil_div x d ≤ max_int64 →
  wrap64 (ref_round x d) = ceil_div x d.
Proof.
  intros Hx Hd Hm. unfold ref_round. rewrite (proj2 (Z.leb_le 0 x)) by done.
  apply wrap64_small. split; [|done]. unfold min_int64, ceil_div.
  pose proof (Z.div_pos (x + d - 1) d). lia.
Qed.

Lemma ref_find_Some cs t c : ref_find cs t = Some c → c ∈ cs ∧ cond_Type c = t.
Proof.
  intros H. apply find_some in H as [Hin Ht]. split.
  - by apply list_elem_of_In.
  - by apply bool_decide_eq_true in Ht.
Qed.

#[export] Instance RefLaws : KubeLaws RefLib.
Proof.
  refine {| nano := (rq_nano : Quantity → Z) |}; simpl.
  - done.
  - done.
  - done.
  - intros q. apply wrap64_range.
  - intros q. apply wrap64_range.
  - intros q ? ?. by apply ref_round_nonneg.
  - intros q ? ?. by apply ref_round_nonneg.
  - done.
  - done.
  - done.
  - done.
  - intros n Hn. eexists. rewrite <- (string_app_nil (pretty n)).
    split; [apply (ref_parse_suffix n "" (10 ^ 9) DecimalSI); [lia|done..] | simpl; lia].
  - intros n Hn. eexists.
    split; [apply (ref_parse_suffix n "m" (10 ^ 6) DecimalSI); [lia|done..] | simpl; lia].
  - intros n Hn. eexists.
    split; [apply (ref_parse_suffix n "Mi" (2 ^ 20 * 10 ^ 9) BinarySI); [lia|done..] | cbn [rq_nano]; lia].
  - intros n Hn. eexists.
    split; [apply (ref_parse_suffix n "Gi" (2 ^ 30 * 10 ^ 9) BinarySI); [lia|done..] | cbn [rq_nano]; lia].
  - intros owner m m'. unfold ref_set_controller. case_match; [done|]. intros; simplify_eq/=.
    split; [|done]. unfold ref_controlled_by. simpl. by rewrite bool_decide_eq_true_2.
  - intros owner m Hm _. unfold ref_set_controller. by rewrite Hm.
  - intros f. unfold ref_contains. apply bool_decide_eq_false. set_solver.
  - intros fs f. unfold ref_contains. apply bool_decide_eq_true.
    case_bool_decide; [done|]. set_solver.
  - intros fs f. unfold ref_contains. apply bool_decide_eq_false.
    rewrite list_elem_of_filter. naive_solver.
  - intros fs f g Hne. unfold ref_contains. apply bool_decide_ext.
    case_bool_decide; [done|]. set_solver.
  - intros fs f g Hne. unfold ref_contains. apply bool_decide_ext.
    rewrite list_elem_of_filter. naive_solver.
  - apply ref_find_Some.
  - intros cs t H. apply Forall_forall. intros c Hc Ht.
    apply list_elem_of_In in Hc. apply (find_none _ _ H c) in Hc.
    by apply bool_decide_eq_false in Hc.
  - intros cs t. destruct (ref_find cs t) as [c|]; [|naive_solver].
    rewrite bool_decide_eq_true. split; [by exists c|]. by intros (? & [= <-] & ?).
Defined.
