(* ===== verification/Publisher.v ===== *)
(** The RabbitMQ publisher ([internal/events/publisher.go]): its connection and
    channel, and publishing with confirms. The broker client (amqp091-go) is a
    parameter: a [Broker] holds the answers of one operation, and every call of
    the client is returned in the order of the calls. The publisher's mutex makes
    each operation one step. *)
From S2P Require Import Prelude Events.

Section publisher.
(** Errors of the client and of the encoder; [json.Marshal] of an event. *)
Context {E : Type} (Marshal : Event → result E (list ascii)).

(** A connection of the client; the code opens one channel on each. *)
Definition Conn : Type := nat.

(** [amqp.Publishing], with the exchange, the routing key and the time left of
    the context it is published under. *)
Record Publishing := mkPublishing {
  msg_Exchange : string;
  msg_RoutingKey : string;
  msg_Timeout : duration;
  msg_ContentType : string;
  msg_DeliveryMode : Z;
  msg_MessageId : string;
  msg_Timestamp : time;
  msg_Type : string;
  msg_AppId : string;
  msg_Body : list ascii
}.

(** [amqp.Persistent] *)
Definition Persistent : Z := 2.

(** What the client answers during one operation. *)
Record Broker := mkBroker {
  b_Dial : result E Conn;
  b_Channel : option E;
  b_ExchangeDeclare : option E;
  b_Confirm : option E;
  b_Publish : option E;
  b_Wait : result E bool;
  b_Close : option E;
  b_ConnIsClosed : Conn → bool;
  b_ChannelIsClosed : Conn → bool
}.

(** The calls of the client, with their answers. *)
Inductive amqp_call :=
| ConnIsClosed (c : Conn) (closed : bool)
| ChannelIsClosed (c : Conn) (closed : bool)
| Dial (url : string) (r : result E Conn)
| OpenChannel (c : Conn) (e : option E)
| ExchangeDeclare (c : Conn) (exchange : string) (e : option E)
| Confirm (c : Conn) (e : option E)
| PublishMessage (c : Conn) (m : Publishing) (e : option E)
| WaitConfirm (c : Conn) (r : result E bool)
| CloseConn (c : Conn) (e : option E).

(** The errors that the publisher returns. *)
Inductive PublishError :=
| ErrMarshal (e : E)
| ErrClosed
| ErrConnect (e : E)
| ErrChannel (e : E)
| ErrDeclare (e : E)
| ErrConfirmMode (e : E)
| ErrPublish (e : E)
| ErrWait (e : E)
| ErrNotConfirmed.

Record RabbitPublisher := mkRabbitPublisher {
  url : string;
  publishTimeout : duration;
  conn : option Conn;
  ch : option Conn;
  closed : bool
}.

Definition set_conn (c ch' : option Conn) (p : RabbitPublisher) : RabbitPublisher :=
  mkRabbitPublisher (url p) (publishTimeout p) c ch' (closed p).

(** [NewRabbitPublisher] *)
Definition NewRabbitPublisher (u : string) : RabbitPublisher :=
  mkRabbitPublisher u defaultPublishTimeout None None false.

(** [reset] *)
Definition reset (b : Broker) (p : RabbitPublisher) : RabbitPublisher * list amqp_call :=
  (set_conn None None p,
   match conn p with
   | None => []
   | Some c =>
       if b_ConnIsClosed b c then [ConnIsClosed c true]
       else [ConnIsClosed c false; CloseConn c (b_Close b)]
   end).

(** [channel] *)
Definition channel (b : Broker) (p : RabbitPublisher)
    : RabbitPublisher * list amqp_call * result PublishError Conn :=
  if closed p then (p, [], Err ErrClosed)
  else
    let reconnect (pre : list amqp_call) :=
      let '(p, log) := reset b p in
      let log := pre ++ log ++ [Dial (url p) (b_Dial b)] in
      match b_Dial b with
      | Err e => (p, log, Err (ErrConnect e))
      | Ok c =>
          let log := log ++ [OpenChannel c (b_Channel b)] in
          match b_Channel b with
          | Some e => (p, log ++ [CloseConn c (b_Close b)], Err (ErrChannel e))
          | None =>
              let log := log ++ [ExchangeDeclare c ExchangeName (b_ExchangeDeclare b)] in
              match b_ExchangeDeclare b with
              | Some e => (p, log ++ [CloseConn c (b_Close b)], Err (ErrDeclare e))
              | None =>
                  let log := log ++ [Confirm c (b_Confirm b)] in
                  match b_Confirm b with
                  | Some e => (p, log ++ [CloseConn c (b_Close b)], Err (ErrConfirmMode e))
                  | None => (set_conn (Some c) (Some c) p, log, Ok c)
                  end
              end
          end
      end in
    match ch p with
    | Some c =>
        if b_ChannelIsClosed b c then reconnect [ChannelIsClosed c true]
        else (p, [ChannelIsClosed c false], Ok c)
    | None => reconnect []
    end.

(** [PublishPhaseChange]; [deadline] is the time left of a context that has one. *)
Definition PublishPhaseChange (b : Broker) (deadline : option duration) (now : time)
    (change : PhaseChange) (p : RabbitPublisher)
    : RabbitPublisher * list amqp_call * option PublishError :=
  let event := PhaseChange_Event change now in
  match Marshal event with
  | Err e => (p, [], Some (ErrMarshal e))
  | Ok body =>
      let timeout := default (publishTimeout p) deadline in
      match channel b p with
      | (p, log, Err e) => (p, log, Some e)
      | (p, log, Ok c) =>
          let msg := mkPublishing ExchangeName (ev_Type event) timeout "application/json"
            Persistent (ev_ID event) (ev_Timestamp event) (ev_Type event) Source body in
          let log := log ++ [PublishMessage c msg (b_Publish b)] in
          match b_Publish b with
          | Some e => let '(p, log') := reset b p in (p, log ++ log', Some (ErrPublish e))
          | None =>
              let log := log ++ [WaitConfirm c (b_Wait b)] in
              match b_Wait b with
              | Err e => let '(p, log') := reset b p in (p, log ++ log', Some (ErrWait e))
              | Ok acked => (p, log, if acked then None else Some ErrNotConfirmed)
              end
          end
      end
  end.

(** [Close] *)
Definition Close (b : Broker) (p : RabbitPublisher)
    : RabbitPublisher * list amqp_call * option E :=
  let p1 := mkRabbitPublisher (url p) (publishTimeout p) None None true in
  match conn p with
  | None => (p1, [], None)
  | Some c =>
      if b_ConnIsClosed b c then (p1, [ConnIsClosed c true], None)
      else (p1, [ConnIsClosed c false; CloseConn c (b_Close b)], b_Close b)
  end.

End publisher.
Arguments Broker : clear implicits.
Arguments amqp_call : clear implicits.
Arguments PublishError : clear implicits.
