(* ===== verification/CircuitBreaker.v ===== *)
(** The circuit breaker ([pkg/circuitbreaker/circuit_breaker.go]): its state, its
    operations and the manager of named breakers. Each operation that takes the
    breaker's mutex is one function of the breaker and of the clock reading it
    makes; [Execute] is two of them around the call. The calls of the
    [OnStateChange] callback are recorded in the breaker. The counters are
    [uint32] and the generation [uint64]. *)
From S2P Require Import Prelude.

(** [State] *)
Inductive State := StateClosed | StateHalfOpen | StateOpen.

#[export] Instance State_eq_dec : EqDecision State.
Proof. solve_decision. Defined.

(** [State.String] *)
Definition State_String (s : State) : string :=
  match s with StateClosed => "CLOSED" | StateHalfOpen => "HALF_OPEN" | StateOpen => "OPEN" end.

Record Counts := mkCounts {
  Requests : Z;
  TotalSuccesses : Z;
  TotalFailures : Z;
  ConsecutiveSuccesses : Z;
  ConsecutiveFailures : Z
}.

#[export] Instance Counts_eq_dec : EqDecision Counts.
Proof. solve_decision. Defined.

(** [Counts{}] *)
Definition no_counts : Counts := mkCounts 0 0 0 0 0.

Section breaker.
Context {E : Type}.

(** Functions that may be nil are options; of [OnStateChange] only whether it is
    nil matters to the breaker. *)
Record Config := mkConfig {
  cfg_Name : string;
  cfg_MaxRequests : Z;
  cfg_Interval : duration;
  cfg_Timeout : duration;
  cfg_ReadyToTrip : option (Counts → bool);
  cfg_OnStateChange : bool;
  cfg_IsSuccessful : option (option E → bool)
}.

Record CircuitBreaker := mkCircuitBreaker {
  name : string;
  maxRequests : Z;
  interval : duration;
  timeout : duration;
  readyToTrip : Counts → bool;
  isSuccessful : option E → bool;
  onStateChange : bool;
  state : State;
  generation : Z;
  counts : Counts;
  expiry : time;
  (* the calls of onStateChange so far *)
  changes : list (string * State * State)
}.

Definition set_dynamic (cb : CircuitBreaker) (st : State) (g : Z) (c : Counts) (x : time)
    (ch : list (string * State * State)) : CircuitBreaker :=
  mkCircuitBreaker (name cb) (maxRequests cb) (interval cb) (timeout cb) (readyToTrip cb)
    (isSuccessful cb) (onStateChange cb) st g c x ch.

Definition set_counts (c : Counts) (cb : CircuitBreaker) : CircuitBreaker :=
  set_dynamic cb (state cb) (generation cb) c (expiry cb) (changes cb).

(** [toNewGeneration] *)
Definition toNewGeneration (cb : CircuitBreaker) (now : time) : CircuitBreaker :=
  set_dynamic cb (state cb) (wrap_u64 (generation cb + 1)) no_counts
    (match state cb with
     | StateClosed => if decide (interval cb = 0) then 0 else now + interval cb
     | StateOpen => now + timeout cb
     | StateHalfOpen => 0
     end) (changes cb).

(** [setState] *)
Definition setState (cb : CircuitBreaker) (st : State) (now : time) : CircuitBreaker :=
  if decide (state cb = st) then cb
  else
    let prev := state cb in
    let cb := toNewGeneration (set_dynamic cb st (generation cb) (counts cb) (expiry cb) (changes cb)) now in
    if onStateChange cb
    then set_dynamic cb (state cb) (generation cb) (counts cb) (expiry cb)
           (changes cb ++ [(name cb, prev, st)])
    else cb.

(** [currentState]: the breaker after the check; state and generation are read
    from it. *)
Definition currentState (cb : CircuitBreaker) (now : time) : CircuitBreaker :=
  match state cb with
  | StateClosed => if (negb (expiry cb =? 0)) && (expiry cb <? now) then toNewGeneration cb now else cb
  | StateOpen => if expiry cb <? now then setState cb StateHalfOpen now else cb
  | StateHalfOpen => cb
  end.

(** The errors of the breaker itself, and of the function it runs. *)
Inductive ExecError :=
| ErrOpen (name : string)
| ErrTooManyRequests (name : string)
| ErrNotFound (name : string)
| ErrFn (e : E).

(** [beforeRequest] *)
Definition beforeRequest (cb : CircuitBreaker) (now : time) : CircuitBreaker * result ExecError Z :=
  let cb := currentState cb now in
  if decide (state cb = StateOpen) then (cb, Err (ErrOpen (name cb)))
  else if decide (state cb = StateHalfOpen ∧ maxRequests cb ≤ Requests (counts cb))
  then (cb, Err (ErrTooManyRequests (name cb)))
  else
    let c := counts cb in
    (set_counts (mkCounts (wrap_u32 (Requests c + 1)) (TotalSuccesses c) (TotalFailures c)
       (ConsecutiveSuccesses c) (ConsecutiveFailures c)) cb, Ok (generation cb)).

(** [onSuccess], for the state that [currentState] returned *)
Definition onSuccess (cb : CircuitBreaker) (st : State) (now : time) : CircuitBreaker :=
  let c := counts cb in
  let cb := set_counts (mkCounts (Requests c) (wrap_u32 (TotalSuccesses c + 1)) (TotalFailures c)
    (wrap_u32 (ConsecutiveSuccesses c + 1)) 0) cb in
  if decide (st = StateHalfOpen) then setState cb StateClosed now else cb.

(** [onFailure] *)
Definition onFailure (cb : CircuitBreaker) (st : State) (now : time) : CircuitBreaker :=
  let c := counts cb in
  let cb := set_counts (mkCounts (Requests c) (TotalSuccesses c) (wrap_u32 (TotalFailures c + 1))
    0 (wrap_u32 (ConsecutiveFailures c + 1))) cb in
  if readyToTrip cb (counts cb) then setState cb StateOpen now else cb.

(** [afterRequest] *)
Definition afterRequest (cb : CircuitBreaker) (before : Z) (success : bool) (now : time)
    : CircuitBreaker :=
  let cb := currentState cb now in
  if decide (generation cb ≠ before) then cb
  else if success then onSuccess cb (state cb) now else onFailure cb (state cb) now.

(** The default [ReadyToTrip] and [IsSuccessful]. *)
Definition default_readyToTrip (c : Counts) : bool := 5 <? ConsecutiveFailures c.
Definition default_isSuccessful (err : option E) : bool :=
  match err with None => true | Some _ => false end.

(** [NewCircuitBreaker] *)
Definition NewCircuitBreaker (config : Config) (now : time) : CircuitBreaker :=
  toNewGeneration (mkCircuitBreaker (cfg_Name config)
    (if decide (cfg_MaxRequests config = 0) then 1 else cfg_MaxRequests config)
    (cfg_Interval config)
    (if decide (cfg_Timeout config = 0) then 60 * second else cfg_Timeout config)
    (default default_readyToTrip (cfg_ReadyToTrip config))
    (default default_isSuccessful (cfg_IsSuccessful config))
    (cfg_OnStateChange config) StateClosed 0 no_counts 0 []) now.

(** [Execute], with the clock readings before and after the call, and what the
    function does; the result says whether the function was run. A panic of the
    function counts as a failure and goes on. *)
Definition Execute (cb : CircuitBreaker) (t1 t2 : time) (fn : outcome (option E))
    : CircuitBreaker * bool * outcome (option ExecError) :=
  match beforeRequest cb t1 with
  | (cb, Err err) => (cb, false, Done (Some err))
  | (cb, Ok generation) =>
      match fn with
      | Panicked => (afterRequest cb generation false t2, true, Panicked)
      | Done result =>
          (afterRequest cb generation (isSuccessful cb result) t2, true, Done (ErrFn <$> result))
      end
  end.

(** [ExecuteWithContext] *)
Definition ExecuteWithContext {C} (cb : CircuitBreaker) (t1 t2 : time) (ctx : C)
    (fn : C → outcome (option E)) : CircuitBreaker * bool * outcome (option ExecError) :=
  match beforeRequest cb t1 with
  | (cb, Err err) => (cb, false, Done (Some err))
  | (cb, Ok generation) =>
      match fn ctx with
      | Panicked => (afterRequest cb generation false t2, true, Panicked)
      | Done result =>
          (afterRequest cb generation (isSuccessful cb result) t2, true, Done (ErrFn <$> result))
      end
  end.

(** [GetState], [GetCounts], [Reset] *)
Definition GetState (cb : CircuitBreaker) (now : time) : CircuitBreaker * State :=
  let cb := currentState cb now in (cb, state cb).
Definition GetCounts (cb : CircuitBreaker) : Counts := counts cb.
Definition Reset (cb : CircuitBreaker) (now : time) : CircuitBreaker := toNewGeneration cb now.

(** [GetStats] *)
Record Stats := mkStats {
  stats_name : string; stats_state : string; stats_counts : Counts;
  stats_generation : Z; stats_expiry : time
}.
Definition GetStats (cb : CircuitBreaker) : Stats :=
  mkStats (name cb) (State_String (state cb)) (counts cb) (generation cb) (expiry cb).

(** * The manager *)

Definition Manager : Type := gmap string CircuitBreaker.
Definition NewManager : Manager := ∅.

(** [Manager.Register] *)
Definition Register (m : Manager) (n : string) (config : Config) (now : time) : Manager :=
  <[n := NewCircuitBreaker (mkConfig n (cfg_MaxRequests config) (cfg_Interval config)
    (cfg_Timeout config) (cfg_ReadyToTrip config) (cfg_OnStateChange config)
    (cfg_IsSuccessful config)) now]> m.

(** [Manager.Execute] *)
Definition Manager_Execute (m : Manager) (n : string) (t1 t2 : time) (fn : outcome (option E))
    : Manager * bool * outcome (option ExecError) :=
  match m !! n with
  | None => (m, false, Done (Some (ErrNotFound n)))
  | Some cb => let '(cb, ran, out) := Execute cb t1 t2 fn in (<[n := cb]> m, ran, out)
  end.

(** [Manager.GetState] *)
Definition Manager_GetState (m : Manager) (n : string) (now : time)
    : Manager * result ExecError State :=
  match m !! n with
  | None => (m, Err (ErrNotFound n))
  | Some cb => let '(cb, st) := GetState cb now in (<[n := cb]> m, Ok st)
  end.

(** [Manager.GetAllStats] *)
Definition GetAllStats (m : Manager) : gmap string Stats := GetStats <$> m.

(** [Manager.Reset] *)
Definition Manager_Reset (m : Manager) (n : string) (now : time) : Manager * option ExecError :=
  match m !! n with
  | None => (m, Some (ErrNotFound n))
  | Some cb => (<[n := Reset cb now]> m, None)
  end.

End breaker.
Arguments Config : clear implicits.
Arguments CircuitBreaker : clear implicits.
Arguments ExecError : clear implicits.
Arguments Manager : clear implicits.
