(* ===== verification/LabErrors.v ===== *)
(** Structured errors ([pkg/errors/errors.go]): their construction, how an error
    of the Kubernetes API is classified, and what the controller does with it. An
    error value is the builder's, a Kubernetes or text error, or one of these
    wrapped with [fmt.Errorf("...: %w")]. *)
From S2P Require Import Prelude GoStrings Kube Reconciler.

(** [ErrorType] *)
Definition ErrorTypeTemporary : string := "temporary".
Definition ErrorTypeResourceQuota : string := "resource_quota".
Definition ErrorTypeNetworkIssue : string := "network".
Definition ErrorTypeThrottling : string := "throttling".
Definition ErrorTypeValidation : string := "validation".
Definition ErrorTypeConfiguration : string := "configuration".
Definition ErrorTypeUnauthorized : string := "unauthorized".
Definition ErrorTypeNotFound : string := "not_found".
Definition ErrorTypeCritical : string := "critical".
Definition ErrorTypeSecrity : string := "security".

(** [isRetryableType] *)
Definition isRetryableType (errorType : string) : bool :=
  bool_decide (errorType ∈ [ErrorTypeTemporary; ErrorTypeResourceQuota;
                            ErrorTypeNetworkIssue; ErrorTypeThrottling]).

(** [LabSessionError] over the errors [E] it may hold, and the values
    [any] of its context; a nil context is [None]. *)
Record LabError (any E : Type) := mkLabSessionError {
  le_Type : string;
  le_Message : string;
  le_Underlying : option E;
  le_Namespace : string;
  le_SessionID : string;
  le_UserID : string;
  le_Operation : string;
  le_Timestamp : time;
  le_Retryable : bool;
  le_RetryAfter : duration;
  le_Context : option (gmap string any)
}.
Arguments mkLabSessionError {_ _}.
Arguments le_Type {_ _}.
Arguments le_Message {_ _}.
Arguments le_Underlying {_ _}.
Arguments le_Namespace {_ _}.
Arguments le_SessionID {_ _}.
Arguments le_UserID {_ _}.
Arguments le_Operation {_ _}.
Arguments le_Timestamp {_ _}.
Arguments le_Retryable {_ _}.
Arguments le_RetryAfter {_ _}.
Arguments le_Context {_ _}.

Section lab_errors.
Context `{K : KubeLib}.
(** The values of a context: Go's [interface{}], of which the package itself
    only makes strings. *)
Context {any : Type} (any_string : string → any).

(** Go's [error]. *)
Inductive go_error :=
| GLab (e : LabError any go_error)
| GKube (e : error)
| GWrap (prefix : string) (e : go_error).

Definition LabSessionError : Type := LabError any go_error.

(** [Error], for any error *)
Fixpoint go_error_text (e : go_error) : string :=
  match e with
  | GLab e => "[" +:+ le_Type e +:+ "] " +:+ le_Message e +:+
      match le_Underlying e with Some u => ": " +:+ go_error_text u | None => "" end
  | GKube e => error_text e
  | GWrap prefix e => prefix +:+ ": " +:+ go_error_text e
  end.
Definition Error (e : LabSessionError) : string := go_error_text (GLab e).

(** [Unwrap], [Is], [IsRetryable], [GetRetryAfter], [GetContext] *)
Definition Unwrap (e : LabSessionError) : option go_error := le_Underlying e.
Definition Is (e : LabSessionError) (target : go_error) : bool :=
  match target with GLab t => bool_decide (le_Type e = le_Type t) | _ => false end.
Definition IsRetryable (e : LabSessionError) : bool := le_Retryable e.
Definition GetRetryAfter (e : LabSessionError) : duration :=
  if 0 <? le_RetryAfter e then le_RetryAfter e else 30 * second.
Definition GetContext (e : LabSessionError) : gmap string any := default ∅ (le_Context e).

(** * The builder

    [ErrorBuilder] holds the error under construction. *)

(** [NewError], at the time [now] *)
Definition NewError (now : time) (errorType message : string) : LabSessionError :=
  mkLabSessionError errorType message None "" "" "" "" now (isRetryableType errorType) 0 (Some ∅).

Definition WithUnderlying (err : option go_error) (e : LabSessionError) : LabSessionError :=
  mkLabSessionError (le_Type e) (le_Message e) err (le_Namespace e) (le_SessionID e)
    (le_UserID e) (le_Operation e) (le_Timestamp e) (le_Retryable e) (le_RetryAfter e)
    (le_Context e).
Definition WithSession (namespace sessionID userID : string) (e : LabSessionError)
    : LabSessionError :=
  mkLabSessionError (le_Type e) (le_Message e) (le_Underlying e) namespace sessionID userID
    (le_Operation e) (le_Timestamp e) (le_Retryable e) (le_RetryAfter e) (le_Context e).
Definition WithOperation (operation : string) (e : LabSessionError) : LabSessionError :=
  mkLabSessionError (le_Type e) (le_Message e) (le_Underlying e) (le_Namespace e)
    (le_SessionID e) (le_UserID e) operation (le_Timestamp e) (le_Retryable e)
    (le_RetryAfter e) (le_Context e).
Definition WithRetryAfter (d : duration) (e : LabSessionError) : LabSessionError :=
  mkLabSessionError (le_Type e) (le_Message e) (le_Underlying e) (le_Namespace e)
    (le_SessionID e) (le_UserID e) (le_Operation e) (le_Timestamp e) true d (le_Context e).

Definition set_Context (c : option (gmap string any)) (e : LabSessionError) : LabSessionError :=
  mkLabSessionError (le_Type e) (le_Message e) (le_Underlying e) (le_Namespace e)
    (le_SessionID e) (le_UserID e) (le_Operation e) (le_Timestamp e) (le_Retryable e)
    (le_RetryAfter e) c.

(** [WithContext]: a write to a nil map panics. *)
Definition WithContext (key : string) (value : any) (e : LabSessionError)
    : outcome LabSessionError :=
  match le_Context e with
  | Some c => Done (set_Context (Some (<[key := value]> c)) e)
  | None => Panicked
  end.

(** [WithContextMap]: the loop over a map writes each of its keys once. *)
Definition WithContextMap (ctx : gmap string any) (e : LabSessionError)
    : outcome LabSessionError :=
  if decide (ctx = ∅) then Done e
  else match le_Context e with
       | Some c => Done (set_Context (Some (ctx ∪ c)) e)
       | None => Panicked
       end.

(** [NewValidationError], [NewResourceQuotaError], [NewTemporaryError],
    [NewCriticalError] *)
Definition NewValidationError (now : time) (message field : string) : outcome LabSessionError :=
  WithContext "field" (any_string field) (NewError now ErrorTypeValidation message).
Definition NewResourceQuotaError (now : time) (message requested limit : string)
    : outcome LabSessionError :=
  e ← WithContext "requested" (any_string requested) (NewError now ErrorTypeResourceQuota message);
  e ← WithContext "limit" (any_string limit) e;
  Done (WithRetryAfter (2 * minute) e).
Definition NewTemporaryError (now : time) (message : string) (underlying : option go_error)
    : LabSessionError :=
  WithRetryAfter (30 * second) (WithUnderlying underlying (NewError now ErrorTypeTemporary message)).
Definition NewCriticalError (now : time) (message : string) (underlying : option go_error)
    : LabSessionError :=
  WithUnderlying underlying (NewError now ErrorTypeCritical message).

(** * Classification *)

(** The predicates of [api/errors] look for an API status along [Unwrap]. *)
Fixpoint go_api_error (p : api_error → bool) (e : go_error) : bool :=
  match e with
  | GLab e => match le_Underlying e with Some u => go_api_error p u | None => false end
  | GKube e => on_api_error p e
  | GWrap _ e => go_api_error p e
  end.

(** [ClassifyKubernetesError] of an error that is not nil *)
Definition classify_error (now : time) (err : go_error) : LabSessionError :=
  let build t m := WithUnderlying (Some err) (NewError now t m) in
  if go_api_error api_IsNotFound err then build ErrorTypeNotFound "Resource not found"
  else if go_api_error api_IsAlreadyExists err then
    build ErrorTypeValidation "Resource already exists"
  else if go_api_error api_IsUnauthorized err || go_api_error api_IsForbidden err then
    build ErrorTypeUnauthorized "Access denied"
  else if go_api_error api_IsConflict err then
    WithRetryAfter (5 * second) (build ErrorTypeTemporary "Resource conflict")
  else if go_api_error api_IsServerTimeout err || go_api_error api_IsTimeout err then
    WithRetryAfter (10 * second) (build ErrorTypeNetworkIssue "Request timeout")
  else if go_api_error api_IsTooManyRequests err then
    WithRetryAfter (60 * second) (build ErrorTypeThrottling "Rate limited")
  else if go_api_error api_IsInvalid err || go_api_error api_IsBadRequest err then
    build ErrorTypeValidation "Invalid request"
  else WithRetryAfter (30 * second) (build ErrorTypeTemporary "Kubernetes API error").

Definition ClassifyKubernetesError (now : time) (err : option go_error)
    : option LabSessionError := classify_error now <$> err.

(** * What the controller does *)

(** [ReconcileResult]; the type assertion does not look through wrapped errors. *)
Definition decide_result (e : LabSessionError) : Result * option go_error :=
  if IsRetryable e then (requeue_after (GetRetryAfter e), None) else (no_requeue, Some (GLab e)).
Definition ReconcileResult (now : time) (err : option go_error) : Result * option go_error :=
  match err with
  | None => (no_requeue, None)
  | Some (GLab e) => decide_result e
  | Some err => decide_result (classify_error now err)
  end.
Definition ReconcileSuccess : Result * option go_error := (no_requeue, None).
Definition ReconcileRequeue (after : duration) : Result * option go_error :=
  (requeue_after after, None).

(** [ErrorHandler]: which callbacks are set. A callback that runs is recorded. *)
Record ErrorHandler := mkErrorHandler { eh_onCritical : bool; eh_onRetry : bool }.
Inductive callback :=
| CalledCritical (e : LabSessionError)
| CalledRetry (e : LabSessionError) (attempt : Z).

Definition NewErrorHandler : ErrorHandler := mkErrorHandler false false.
Definition OnCritical (handler : bool) (eh : ErrorHandler) : ErrorHandler :=
  mkErrorHandler handler (eh_onRetry eh).
Definition OnRetry (handler : bool) (eh : ErrorHandler) : ErrorHandler :=
  mkErrorHandler (eh_onCritical eh) handler.

(** [Handle] *)
Definition Handle (eh : ErrorHandler) (now : time) (err : option go_error) (attempt : Z)
    : list callback * (Result * option go_error) :=
  match err with
  | None => ([], ReconcileSuccess)
  | Some err =>
      let labErr := match err with GLab le => le | err => classify_error now err end in
      ((if bool_decide (le_Type labErr = ErrorTypeCritical) && eh_onCritical eh
        then [CalledCritical labErr] else []) ++
       (if IsRetryable labErr && eh_onRetry eh then [CalledRetry labErr attempt] else []),
       ReconcileResult now (Some (GLab labErr)))
  end.

(** * Metrics *)

(** [ErrorMetrics]; the counters are Go [int]s. *)
Record ErrorMetrics := mkErrorMetrics {
  em_errorCounts : gmap string Z;
  em_retryCount : Z;
  em_criticalCount : Z;
  em_lastErrorTime : time
}.
Definition NewErrorMetrics : ErrorMetrics := mkErrorMetrics ∅ 0 0 0.

(** [RecordError] *)
Definition RecordError (now : time) (err : LabSessionError) (em : ErrorMetrics)
    : ErrorMetrics :=
  mkErrorMetrics
    (<[le_Type err := wrap64 (default 0 (em_errorCounts em !! le_Type err) + 1)]> (em_errorCounts em))
    (if IsRetryable err then wrap64 (em_retryCount em + 1) else em_retryCount em)
    (if decide (le_Type err = ErrorTypeCritical) then wrap64 (em_criticalCount em + 1)
     else em_criticalCount em)
    now.

(** [Time.Unix]: seconds since 1970, for a time counted from Go's zero time *)
Definition time_Unix (t : time) : Z := t `div` second - 62135596800.

(** [GetStats]: retries, critical errors, the Unix time of the last error, counts *)
Definition GetStats (em : ErrorMetrics) : Z * Z * Z * gmap string Z :=
  (em_retryCount em, em_criticalCount em, time_Unix (em_lastErrorTime em), em_errorCounts em).

End lab_errors.
Arguments go_error {_} any.
Arguments LabSessionError {_} any.
Arguments callback {_} any.
