(* ===== verification/Legacy.v ===== *)
(** The older controller ([controllers/labsession_controller.go], run by [main.go]),
    which handles sessions as untyped objects. Its helper for quantities, retries
    and statuses, and its handlers, as programs over the calls of Effects.v. The
    mutexes around a status update make no call; logging is not modelled. *)
From S2P Require Import Prelude GoStrings Kube KubeTypes Types Unstructured PodSettings.
From S2P Require Import ResourceBuilder Events Effects SSHKeys Reconciler.


Definition LabSessionFinalizer : string := "labsession.dozlab.io/finalizer".
Definition DefaultCPULimit : string := "2".
Definition DefaultMemoryLimit : string := "4Gi".
Definition MaxCPULimit : string := "8".
Definition MaxMemoryLimit : string := "16Gi".
Definition MaxRetryAttempts : nat := 5.
Definition BaseRetryInterval : duration := 2 * second.

(** [LabSessionReconciler]: the fields that its code reads; the mutexes and the two
    maps of limits, which nothing reads, are left out. [None] as builder is nil. *)
Record LabSessionReconciler := mkLabSessionReconciler {
  l_MaxRetries : Z;
  l_BaseRetryDelay : duration;
  l_ResourceBuilder : option ResourceBuilder
}.

(** What [SetupWithManager] makes of the reconciler before it registers it. *)
Definition SetupWithManager (r : LabSessionReconciler) : result string LabSessionReconciler :=
  match l_ResourceBuilder r with
  | None => Err "LabSessionReconciler.ResourceBuilder must be set"
  | Some b =>
      Ok (mkLabSessionReconciler
        (if l_MaxRetries r =? 0 then Z.of_nat MaxRetryAttempts else l_MaxRetries r)
        (if l_BaseRetryDelay r =? 0 then BaseRetryInterval else l_BaseRetryDelay r)
        (Some b))
  end.

(** * Helpers *)

(** [getStringFromMap]; [None] is a nil map. *)
Definition getStringFromMap (m : option json_map) (key defaultVal : string) : string :=
  match m with
  | Some m => default defaultVal (as_string (m !! key))
  | None => defaultVal
  end.

(** [calculateVMIP] *)
Definition calculateVMIP (podIP : string) : string :=
  match Split podIP ascii_dot with
  | [a; b; c; d] =>
      match Atoi d with
      | Some lastOctet => Join [a; b; c; Itoa (wrap64 (lastOctet + 1))] "."
      | None => ""
      end
  | _ => ""
  end.

(** [float64] of an [int64]: the nearest integer with a mantissa of 53 bits, the
    even one when two are as near. *)
Definition float64_of_int64 (z : Z) : Z :=
  if Z.abs z <? 2 ^ 53 then z
  else
    let u := 2 ^ (Z.log2 (Z.abs z) - 52) in
    let q := Z.abs z `div` u in
    let m := Z.abs z mod u in
    Z.sgn z * u * (if (2 * m <? u) || ((2 * m =? u) && Z.even q) then q else q + 1).

Section legacy.
Context `{K : KubeLib, U : UnstructuredLib}.
(** A conversion from a float to an [int64] that does not hold it is up to the
    implementation; the format of a time depends on the local time zone. *)
Context (int64_out_of_range : Z → Z) (Format_RFC3339 : time → string).

Definition int64_of_float64 (z : Z) : Z :=
  if (min_int64 <=? z) && (z <=? max_int64) then z else int64_out_of_range z.

(** [calculateRetryDelay]; the product with a power of two is exact. *)
Definition calculateRetryDelay (r : LabSessionReconciler) (attempt : Z) : duration :=
  let baseDelay := if l_BaseRetryDelay r =? 0 then BaseRetryInterval else l_BaseRetryDelay r in
  if attempt <=? 0 then baseDelay
  else
    let delay := int64_of_float64 (float64_of_int64 baseDelay * 2 ^ (attempt - 1)) in
    if 60 * second <? delay then 60 * second else delay.

(** [enforceResourceLimits] *)
Definition enforceResourceLimits (requested maxAllowed resourceType : string) : string :=
  match ParseQuantity requested with
  | Err _ => if decide (resourceType = "memory") then DefaultMemoryLimit else DefaultCPULimit
  | Ok requestedQ =>
      match ParseQuantity maxAllowed with
      | Err _ => requested
      | Ok maxQ => if 0 <? Quantity_Cmp requestedQ maxQ then maxAllowed else requested
      end
  end.

Record ResourceLimits := mkResourceLimits { rl_Memory : string; rl_CPU : string }.

(** [extractResourceLimits], [extractPodConfig] *)
Definition extractResourceLimits (spec : json_map) : ResourceLimits :=
  let resources := as_map (spec !! "resources") in
  mkResourceLimits
    (enforceResourceLimits (getStringFromMap resources "memory" DefaultMemoryLimit)
       MaxMemoryLimit "memory")
    (enforceResourceLimits (getStringFromMap resources "cpu" DefaultCPULimit) MaxCPULimit "cpu").
Definition extractPodConfig (spec : json_map) : string :=
  getStringFromMap (as_map (spec !! "config")) "vsCodePassword" "password123".

(** [getStatusField], [getNestedString] *)
Definition getStatusField (labSession : Unstructured) (field : string) : string :=
  match NestedString (u_Object labSession) ["status"; field] with
  | Ok (Some value) => value
  | _ => ""
  end.
Definition getNestedString (o : json_map) (fields : list string) : string :=
  match NestedString o fields with Ok (Some v) => v | _ => "" end.

(** [spec["sessionId"].(string)], without the second result *)
Definition spec_string (spec : json_map) (key : string) : string :=
  default "" (as_string (spec !! key)).

Definition u_Name (u : Unstructured) : string := meta_Name (u_Meta u).
Definition u_Namespace (u : Unstructured) : string := meta_Namespace (u_Meta u).

(** * Retries *)

(** [getWithRetry], with [more] attempts after [attempt] *)
Fixpoint getWithRetry_loop (r : LabSessionReconciler) (ns n : string) (more : nat) (attempt : Z)
    : prog (result error Unstructured) :=
  x ← call (GetUnstructured ns n);
  match x with
  | Ok u => mret (Ok u)
  | Err err =>
      if IsNotFound err then mret (Err err)
      else match more with
           | O => mret (Err (EWrap ("failed after " +:+ Itoa (attempt + 1) +:+ " attempts") err))
           | S more =>
               _ ← call (Sleep (calculateRetryDelay r (attempt + 1)));
               getWithRetry_loop r ns n more (attempt + 1)
           end
  end.
Definition getWithRetry (r : LabSessionReconciler) (ns n : string)
    : prog (result error Unstructured) := getWithRetry_loop r ns n (MaxRetryAttempts - 1) 0.

(** The status of [obj] copied to a fresh version, after a conflict. *)
Definition copy_status (obj fresh : Unstructured) : Unstructured :=
  match NestedMap (u_Object obj) "status" with
  | Ok (Some status) => set_Object (SetNestedMap (u_Object fresh) status "status") fresh
  | _ => fresh
  end.

(** [updateStatusWithRetry] *)
Fixpoint updateStatusWithRetry_loop (r : LabSessionReconciler) (obj : Unstructured) (more : nat)
    (attempt : Z) : prog (option error) :=
  x ← call (UpdateUnstructuredStatus obj);
  match x with
  | Ok _ => mret None
  | Err err =>
      obj ← (if IsConflict err then
               y ← call (GetUnstructured (u_Namespace obj) (u_Name obj));
               mret (match y with Ok fresh => copy_status obj fresh | Err _ => obj end)
             else mret obj);
      match more with
      | O => mret (Some (EWrap ("failed to update status after " +:+ Itoa (attempt + 1)
                                +:+ " attempts") err))
      | S more =>
          _ ← call (Sleep (calculateRetryDelay r (attempt + 1)));
          updateStatusWithRetry_loop r obj more (attempt + 1)
      end
  end.

(** [updateWithRetry]: the same object every time. *)
Fixpoint updateWithRetry_loop (r : LabSessionReconciler) (obj : Unstructured) (more : nat)
    (attempt : Z) : prog (option error) :=
  x ← call (UpdateUnstructured obj);
  match x with
  | Ok _ => mret None
  | Err err =>
      match more with
      | O => mret (Some (EWrap ("failed to update after " +:+ Itoa (attempt + 1) +:+ " attempts") err))
      | S more =>
          _ ← call (Sleep (calculateRetryDelay r (attempt + 1)));
          updateWithRetry_loop r obj more (attempt + 1)
      end
  end.

Definition updateStatusWithRetry (r : LabSessionReconciler) (obj : Unstructured) :=
  updateStatusWithRetry_loop r obj (MaxRetryAttempts - 1) 0.
Definition updateWithRetry (r : LabSessionReconciler) (obj : Unstructured) :=
  updateWithRetry_loop r obj (MaxRetryAttempts - 1) 0.

(** [updateStatus]: its error is ignored by every caller. *)
Definition updateStatus (r : LabSessionReconciler) (labSession : Unstructured)
    (phase message : string) (extraFields : json_map) : prog (option error) :=
  x ← call (GetUnstructured (u_Namespace labSession) (u_Name labSession));
  match x with
  | Err err => mret (Some err)
  | Ok fresh =>
      now ← call Now;
      let status : json_map :=
        extraFields ∪ <["phase" := JString phase]> (<["message" := JString message]>
          {[ "lastUpdateTime" := JString (Format_RFC3339 now) ]}) in
      updateStatusWithRetry r (set_Object (SetNestedMap (u_Object fresh) status "status") fresh)
  end.

(** * The objects of a session *)

(** The claim that [reconcilePVCs] builds. *)
Definition build_pvc (name namespace sessionID : string) (size : Quantity)
    : PersistentVolumeClaim :=
  mkPVC (named_meta name namespace
      (<["app" := "lab-environment"]> {[ "session-id" := sessionID ]}))
    ["ReadWriteOnce"] {[ ResourceStorage := size ]} (Some "default").

Fixpoint reconcilePVCs_loop (labSession : Unstructured) (sessionID : string)
    (pvcs : list (string * string)) : prog (option error) :=
  match pvcs with
  | [] => mret None
  | (name, size) :: pvcs =>
      q ← lift_outcome (MustParse size);
      let pvc := build_pvc name (u_Namespace labSession) sessionID q in
      match SetControllerReference (u_Meta labSession) (pvc_Meta pvc) with
      | Err err => mret (Some (EText err))
      | Ok m =>
          let pvc := with_meta KPVC pvc m in
          x ← call (Get KPVC (meta_Namespace m) (meta_Name m));
          match x with
          | Err err =>
              if IsNotFound err then
                y ← call (Create KPVC pvc);
                match y with
                | Err err => mret (Some err)
                | Ok _ => reconcilePVCs_loop labSession sessionID pvcs
                end
              else mret (Some err)
          | Ok _ => reconcilePVCs_loop labSession sessionID pvcs
          end
      end
  end.
Definition reconcilePVCs (labSession : Unstructured) (sessionID : string) : prog (option error) :=
  reconcilePVCs_loop labSession sessionID
    [("vm-data-" +:+ sessionID, "10Gi"); ("vscode-data-" +:+ sessionID, "5Gi")].

(** The typed session that [buildPod] builds from, given the converted spec. *)
Definition pod_session (labSession : Unstructured) (spec : json_map) (s : LabSessionSpec)
    : LabSession :=
  let limits := extractResourceLimits spec in
  let c := Config s in
  mkLabSession (named_meta "" (u_Namespace labSession) ∅)
    (mkLabSessionSpec (UserID s) (SessionID s) (LabID s)
      (mkResourceConfig (rl_Memory limits) (rl_CPU limits) (rc_Storage (Resources s)))
      (mkSessionConfig (extractPodConfig spec) (sc_EnableTerminal c) (sc_EnableVSCode c)
        (sc_EnableSSH c))
      (Timeout s) (RootfsURL s) (CustomImages s))
    (mkLabSessionStatus "" "" "" "" "" "" "" ∅ [] None None 0 no_usage).

(** [buildPod] *)
Definition buildPod (b : ResourceBuilder) (labSession : Unstructured) (spec : json_map)
    : outcome (result error Pod) :=
  match FromUnstructured spec with
  | Err e => Done (Err (EWrap "invalid LabSession spec" (EText e)))
  | Ok s => pod ← BuildPod b (pod_session labSession spec s); Done (Ok pod)
  end.

(** [reconcilePod] *)
Definition reconcilePod (b : ResourceBuilder) (labSession : Unstructured) (spec : json_map)
    : prog (result error Pod) :=
  let sessionID := spec_string spec "sessionId" in
  let ns := u_Namespace labSession in
  x ← call (Get KPod ns ("lab-session-" +:+ sessionID));
  match x with
  | Ok pod => mret (Ok pod)
  | Err err =>
      if IsNotFound err then
        k ← EnsureSSHKeySecret (u_Meta labSession) sessionID ns;
        match k with
        | Err err => mret (Err err)
        | Ok _ =>
            p ← lift_outcome (buildPod b labSession spec);
            match p with
            | Err err => mret (Err err)
            | Ok pod =>
                match SetControllerReference (u_Meta labSession) (pod_Meta pod) with
                | Err err => mret (Err (EText err))
                | Ok m => call (Create KPod (with_meta KPod pod m))
                end
            end
        end
      else mret (Err err)
  end.

(** [buildService] *)
Definition buildService (labSession : Unstructured) (spec : json_map) : Service :=
  let sessionID := spec_string spec "sessionId" in
  mkService (named_meta ("lab-service-" +:+ sessionID) (u_Namespace labSession) ∅) ""
    {[ "session-id" := sessionID ]}
    [mkServicePort "vscode" 8080 8080 ""; mkServicePort "terminal" 8081 8081 "";
     mkServicePort "vm-ssh" 22 22 ""] "" [].

(** [reconcileService] *)
Definition reconcileService (labSession : Unstructured) (spec : json_map)
    : prog (result error Service) :=
  let sessionID := spec_string spec "sessionId" in
  x ← call (Get KService (u_Namespace labSession) ("lab-service-" +:+ sessionID));
  match x with
  | Ok service => mret (Ok service)
  | Err err =>
      if IsNotFound err then
        let service := buildService labSession spec in
        match SetControllerReference (u_Meta labSession) (svc_Meta service) with
        | Err err => mret (Err (EText err))
        | Ok m => call (Create KService (with_meta KService service m))
        end
      else mret (Err err)
  end.

(** * Handlers *)

(** The phase, message and endpoints of [updateLabSessionStatus]. *)
Definition observed_phase (pod : Pod) : string * string :=
  if decide (ps_Phase (pod_Status pod) = PodRunning) then ("Running", "Lab session is running")
  else if decide (ps_Phase (pod_Status pod) = PodFailed) then
    ("Failed", "Pod failed: " +:+ ps_Message (pod_Status pod))
  else ("Creating", "Creating lab session resources").
Definition observed_endpoints (pod : Pod) (service : Service) : json_map :=
  let clusterIP := svc_ClusterIP service in
  if decide (ps_Phase (pod_Status pod) = PodRunning ∧ ps_PodIP (pod_Status pod) ≠ "" ∧
             clusterIP ≠ "")
  then <["vscode" := JString ("http://" +:+ clusterIP +:+ ":8080")]> (
       <["terminal" := JString ("ws://" +:+ clusterIP +:+ ":8081")]>
       {[ "ssh" := JString ("ssh://root@" +:+ clusterIP +:+ ":22") ]})
  else ∅.

(** [updateLabSessionStatus] *)
Definition updateLabSessionStatus (r : LabSessionReconciler) (labSession : Unstructured)
    (pod : Pod) (service : Service) : prog (Result * option error) :=
  let '(phase, message) := observed_phase pod in
  let podIP := ps_PodIP (pod_Status pod) in
  let vmIP := if decide (podIP ≠ "") then calculateVMIP podIP else "" in
  _ ← updateStatus r labSession phase message
        (<["phase" := JString phase]> (<["message" := JString message]> (
         <["podName" := JString (meta_Name (pod_Meta pod))]> (
         <["serviceName" := JString (meta_Name (svc_Meta service))]> (
         <["endpoints" := JObject (observed_endpoints pod service)]> (
         <["podIP" := JString podIP]> {[ "vmIP" := JString vmIP ]}))))));
  mret (requeue_after (if decide (phase = "Creating") then 10 * second else 30 * second), None).

(** A step of [reconcileLabSession] failed: the session fails, and the error is
    returned. *)
Definition fail_session (r : LabSessionReconciler) (labSession : Unstructured)
    (what : string) (err : error) : prog (Result * option error) :=
  _ ← updateStatus r labSession "Failed" ("Failed to create " +:+ what +:+ ": " +:+ error_text err) ∅;
  mret (requeue_after (30 * second), Some err).

(** [reconcileLabSession]; [%w] of a nil error prints as [%!w(<nil>)]. *)
Definition reconcileLabSession (r : LabSessionReconciler) (b : ResourceBuilder)
    (labSession : Unstructured) : prog (Result * option error) :=
  match NestedMap (u_Object labSession) "spec" with
  | Err e => mret (no_requeue, Some (EWrap "failed to get spec" (EText e)))
  | Ok None => mret (no_requeue, Some (EText "failed to get spec: %!w(<nil>)"))
  | Ok (Some spec) =>
      let userID := spec_string spec "userId" in
      let sessionID := spec_string spec "sessionId" in
      if decide (userID = "" ∨ sessionID = "") then
        mret (no_requeue, Some (EText "userId and sessionId are required"))
      else
        let currentPhase := getStatusField labSession "phase" in
        _ ← (if decide (currentPhase = "" ∨ currentPhase = "Pending")
             then updateStatus r labSession "Creating" "Creating lab session resources" ∅
             else mret None);
        e ← reconcilePVCs labSession sessionID;
        match e with Some err => fail_session r labSession "PVCs" err | None =>
        p ← reconcilePod b labSession spec;
        match p with Err err => fail_session r labSession "pod" err | Ok pod =>
        s ← reconcileService labSession spec;
        match s with Err err => fail_session r labSession "service" err | Ok service =>
        updateLabSessionStatus r labSession pod service
        end end end
  end.

(** [verifyResourcesDeleted] *)
Definition verifyResourcesDeleted (labSession : Unstructured) (sessionID : string)
    : prog (option error) :=
  let ns := u_Namespace labSession in
  x ← call (Get KPod ns ("lab-session-" +:+ sessionID));
  match x with
  | Ok _ => mret (Some (EText ("pod lab-session-" +:+ sessionID +:+ " still exists")))
  | Err err =>
      if IsNotFound err then
        y ← call (Get KService ns ("lab-service-" +:+ sessionID));
        match y with
        | Ok _ => mret (Some (EText ("service lab-service-" +:+ sessionID +:+ " still exists")))
        | Err err => mret (if IsNotFound err then None else Some err)
        end
      else mret (Some err)
  end.

(** [reconcileDelete] *)
Definition reconcileDelete (r : LabSessionReconciler) (labSession : Unstructured)
    : prog (Result * option error) :=
  _ ← updateStatus r labSession "Terminating" "Cleaning up lab session resources" ∅;
  let sessionID := getNestedString (u_Object labSession) ["spec"; "sessionId"] in
  e ← (if decide (sessionID ≠ "") then verifyResourcesDeleted labSession sessionID else mret None);
  match e with
  | Some _ => mret (requeue_after (10 * second), None)
  | None =>
      updateErr ← updateWithRetry r (set_u_Finalizers
        (RemoveFinalizer (meta_Finalizers (u_Meta labSession)) LabSessionFinalizer) labSession);
      match updateErr with
      | Some err => mret (requeue_after (5 * second), Some err)
      | None => mret (no_requeue, None)
      end
  end.

(** [Reconcile] of the request [ns/n], with the builder [b] *)
Definition Reconcile (r : LabSessionReconciler) (b : ResourceBuilder) (ns n : string)
    : prog (Result * option error) :=
  x ← getWithRetry r ns n;
  match x with
  | Err err =>
      if IsNotFound err then mret (no_requeue, None)
      else mret (requeue_after (calculateRetryDelay r 1), Some err)
  | Ok labSession =>
      let m := u_Meta labSession in
      match meta_DeletionTimestamp m with
      | Some _ => reconcileDelete r labSession
      | None =>
          if negb (ContainsFinalizer (meta_Finalizers m) LabSessionFinalizer) then
            y ← call (UpdateUnstructured (set_u_Finalizers
                  (AddFinalizer (meta_Finalizers m) LabSessionFinalizer) labSession));
            mret (no_requeue, match y with Ok _ => None | Err err => Some err end)
          else reconcileLabSession r b labSession
      end
  end.

End legacy.
