(* ===== verification/Memory.v ===== *)
(** API objects in memory: a heap of the maps, backing arrays and structs that Go
    values share by reference, the in-memory layout of the objects of the
    controller, what they mean as values of Types.v, and the interface of a
    type that can be deep-copied. *)
From S2P Require Import Prelude Kube Types.

Abbreviation loc := positive (only parsing).

(** A slice that starts at the beginning of its backing array; the array may be
    longer than the slice. A nil slice, map or pointer is [None]. *)
Record Slice := mkSlice { sl_array : loc; sl_len : nat }.

Record TypeMeta := mkTypeMeta { tm_Kind : string; tm_APIVersion : string }.

(** [metav1.ObjectMeta], with its references. *)
Record MemMeta := mkMemMeta {
  mm_Name : string;
  mm_Namespace : string;
  mm_UID : string;
  mm_Generation : Z;
  mm_DeletionTimestamp : option loc;
  mm_Finalizers : option Slice;
  mm_Labels : option loc;
  mm_Annotations : option loc;
  mm_OwnerReferences : option Slice
}.

(** [metav1.ListMeta] *)
Record MemListMeta := mkMemListMeta {
  ml_ResourceVersion : string;
  ml_Continue : string;
  ml_RemainingItemCount : option loc
}.

(** [LabSessionStatus] *)
Record MemStatus := mkMemStatus {
  ms_Phase : SessionPhase;
  ms_Message : string;
  ms_Reason : string;
  ms_PodName : string;
  ms_ServiceName : string;
  ms_PodIP : string;
  ms_VMIP : string;
  ms_Endpoints : option loc;
  ms_Conditions : option Slice;
  ms_StartTime : option loc;
  ms_LastTransitionTime : option loc;
  ms_ObservedGeneration : Z;
  ms_Usage : LabSessionUsage
}.

(** [LabSession]; its spec holds no reference. *)
Record MemSession := mkMemSession {
  mo_TypeMeta : TypeMeta;
  mo_ObjectMeta : MemMeta;
  mo_Spec : LabSessionSpec;
  mo_Status : MemStatus
}.

(** [LabSessionList] *)
Record LabSessionList := mkLabSessionList {
  list_TypeMeta : TypeMeta;
  list_ListMeta : MemListMeta;
  list_Items : option Slice
}.

(** What a location holds: a map, a backing array, or a variable of a type. *)
Inductive cell :=
| CMap (m : gmap string string)
| CStrings (l : list string)
| COwners (l : list OwnerReference)
| CConditions (l : list Condition)
| CTime (t : time)
| CInt64 (z : Z)
| CSessions (l : list MemSession)
| CSession (s : MemSession)
| CList (l : LabSessionList).

Abbreviation heap := (gmap positive cell).

(** * Computations on the heap

    [None] is a dangling or ill-typed reference, which Go rules out. *)

Definition Mem (A : Type) : Type := heap → option (A * heap).

#[export] Instance Mem_ret : MRet Mem := λ A a h, Some (a, h).
#[export] Instance Mem_bind : MBind Mem := λ A B f m h,
  match m h with Some (a, h1) => f a h1 | None => None end.

(** An ill-typed reference. *)
Definition fault {A} : Mem A := λ _, None.

(** [new], [make] and composite literals. *)
Definition alloc (c : cell) : Mem loc := λ h,
  let l := fresh (dom h) in Some (l, <[l := c]> h).
Definition load (l : loc) : Mem cell := λ h, c ← h !! l; Some (c, h).
Definition assign (l : loc) (c : cell) : Mem () := λ h,
  match h !! l with Some _ => Some ((), <[l := c]> h) | None => None end.

(** [m[k] = v] *)
Definition map_assign (l : loc) (k v : string) : Mem () :=
  c ← load l;
  match c with CMap m => assign l (CMap (<[k := v]> m)) | _ => fault end.

(** [for x := range l { body x }] *)
Fixpoint for_range {A} (l : list A) (body : A → Mem ()) : Mem () :=
  match l with
  | [] => mret ()
  | x :: l => _ ← body x; for_range l body
  end.

(** * What objects in memory mean *)

Definition as_CMap (c : cell) : option (gmap string string) :=
  match c with CMap m => Some m | _ => None end.
Definition as_CStrings (c : cell) : option (list string) :=
  match c with CStrings l => Some l | _ => None end.
Definition as_COwners (c : cell) : option (list OwnerReference) :=
  match c with COwners l => Some l | _ => None end.
Definition as_CConditions (c : cell) : option (list Condition) :=
  match c with CConditions l => Some l | _ => None end.
Definition as_CTime (c : cell) : option time :=
  match c with CTime t => Some t | _ => None end.
Definition as_CInt64 (c : cell) : option Z :=
  match c with CInt64 z => Some z | _ => None end.
Definition as_CSession (c : cell) : option MemSession :=
  match c with CSession s => Some s | _ => None end.
Definition as_CSessions (c : cell) : option (list MemSession) :=
  match c with CSessions l => Some l | _ => None end.
Definition as_CList (c : cell) : option LabSessionList :=
  match c with CList l => Some l | _ => None end.

(** The class of types of which values in memory have a meaning, which depends on
    the locations they reach. *)
Class Stored (T D : Type) := {
  view : heap → T → option D;
  locs : heap → T → list loc;
  view_local h h' x d : view h x = Some d → (∀ l, l ∈ locs h x → h' !! l = h !! l) →
    view h' x = Some d ∧ locs h' x = locs h x;
  view_reach h x d l : view h x = Some d → l ∈ locs h x → l ∈ dom h
}.

(** A copy of [x]: same meaning, in memory of its own, which leaves all else as it is. *)
Definition fresh_copy {T D} {S : Stored T D} (h : heap) (d : D) (y : T) (h' : heap) : Prop :=
  h ⊆ h' ∧ view h' y = Some d ∧ (∀ l, l ∈ locs h' y → l ∉ dom h) ∧ NoDup (locs h' y).

(** A function that copies. *)
Definition copies {T D} {S : Stored T D} (f : T → Mem T) : Prop :=
  ∀ h x d, view h x = Some d → ∃ y h', f x h = Some (y, h') ∧ fresh_copy h d y h'.

(** ** Values without references *)

Definition plain_stored (A : Type) : Stored A A.
Proof.
  refine {| view _ x := Some x; locs _ _ := [] |}; [by intros|].
  intros h x d l _ Hl. by apply not_elem_of_nil in Hl.
Defined.

(** ** Two parts, and a type that holds its references in such parts *)

Definition pair_stored {T1 D1 T2 D2} (S1 : Stored T1 D1) (S2 : Stored T2 D2) :
  Stored (T1 * T2) (D1 * D2).
Proof.
  refine {| view h x := d1 ← view h x.1; d2 ← view h x.2; Some (d1, d2);
            locs h x := locs h x.1 ++ locs h x.2 |}.
  - intros h h' [x1 x2] d. simpl. intros (d1&H1&(d2&H2&[= <-])%bind_Some)%bind_Some Hl.
    destruct (view_local h h' x1 d1 H1) as [-> ->]; [set_solver|].
    by destruct (view_local h h' x2 d2 H2) as [-> ->]; [set_solver|].
  - intros h [x1 x2] d l. simpl. intros (d1&H1&(d2&H2&[= <-])%bind_Some)%bind_Some.
    intros [Hl|Hl]%elem_of_app; [exact (view_reach h x1 d1 l H1 Hl)|exact (view_reach h x2 d2 l H2 Hl)].
Defined.

Definition via_stored {T D T' D'} (S : Stored T' D') (refs : T → T') (build : T → D' → D) :
  Stored T D.
Proof.
  refine {| view h x := build x <$> view h (refs x); locs h x := locs h (refs x) |}.
  - intros h h' x d (d'&Hd&->)%fmap_Some Hl.
    by destruct (view_local h h' (refs x) d' Hd) as [-> ->].
  - intros h x d l (d'&Hd&->)%fmap_Some. by eapply view_reach.
Defined.

(** ** References to a map or a variable *)

Section references.
Context {A D : Type} (as_A : cell → option A) (S : Stored A D).

Definition deref (h : heap) (l : loc) : option A := c ← h !! l; as_A c.

Lemma deref_dom h l a : deref h l = Some a → l ∈ dom h.
Proof. intros (c&Hc&_)%bind_Some. by eapply elem_of_dom_2. Qed.

(** A pointer, nil or not. *)
Definition ref_stored : Stored (option loc) (option D).
Proof.
  refine {| view h p := match p with
                        | None => Some None
                        | Some l => a ← deref h l; Some <$> view h a
                        end;
            locs h p := match p with
                        | None => []
                        | Some l => l :: default [] (locs h <$> deref h l)
                        end |}.
  - intros h h' [l|] d; [|done]. intros (a&Ha&(d'&Hd&->)%fmap_Some)%bind_Some Hl.
    assert (deref h' l = Some a) as Ha'.
    { unfold deref. rewrite Hl by set_solver. exact Ha. }
    rewrite Ha, Ha' in *. simpl in *.
    by destruct (view_local h h' a d' Hd) as [-> ->]; [set_solver|].
  - intros h [l|] d l'; [|by intros _ Hl%not_elem_of_nil].
    intros (a&Ha&(d'&Hd&->)%fmap_Some)%bind_Some. rewrite Ha. simpl.
    intros [->|?]%elem_of_cons; [by eapply deref_dom|by eapply view_reach].
Defined.
End references.

(** ** Slices *)

Section slices.
Context {A D : Type} (as_list : cell → option (list A)) (S : Stored A D).

(** The part of the array that a slice covers. *)
Definition elems (h : heap) (s : Slice) : option (list A) :=
  l ← deref as_list h (sl_array s);
  if decide (sl_len s ≤ length l)%nat then Some (take (sl_len s) l) else None.

Lemma elems_local h h' s l : elems h s = Some l → h' !! sl_array s = h !! sl_array s →
  elems h' s = Some l.
Proof. unfold elems, deref. by intros ? ->. Qed.

Lemma view_elems_local h h' xs ds : mapM (view h) xs = Some ds →
  (∀ l, l ∈ concat (locs h <$> xs) → h' !! l = h !! l) →
  mapM (view h') xs = Some ds ∧ concat (locs h' <$> xs) = concat (locs h <$> xs).
Proof.
  revert ds. induction xs as [|x xs IH]; intros ds; [done|]. simpl.
  intros (d&Hd&(ds'&Hds&[= <-])%bind_Some)%bind_Some Hl.
  destruct (view_local h h' x d Hd) as [-> ->]; [set_solver|].
  destruct (IH ds' Hds) as [IH1 IH2]; [set_solver|]. simpl. rewrite IH1. split; [done|by f_equal].
Qed.

Lemma view_elems_reach h xs ds l : mapM (view h) xs = Some ds →
  l ∈ concat (locs h <$> xs) → l ∈ dom h.
Proof.
  revert ds. induction xs as [|x xs IH]; intros ds; [by intros _ Hl%not_elem_of_nil|]. simpl.
  intros (d&Hd&(ds'&Hds&_)%bind_Some)%bind_Some [?|?]%elem_of_app; [by eapply view_reach|eauto].
Qed.

Definition slice_stored : Stored (option Slice) (list D).
Proof.
  refine {| view h p := match p with
                        | None => Some []
                        | Some s => xs ← elems h s; mapM (view h) xs
                        end;
            locs h p := match p with
                        | None => []
                        | Some s => sl_array s ::
                            default [] ((λ xs, concat (locs h <$> xs)) <$> elems h s)
                        end |}.
  - intros h h' [s|] ds; [|done]. intros (xs&Hx&Hds)%bind_Some Hl. rewrite Hx in *.
    rewrite (elems_local h h' s xs Hx) by set_solver. simpl in *.
    by destruct (view_elems_local h h' xs ds Hds) as [-> ->]; [set_solver|].
  - intros h [s|] ds l; [|by intros _ Hl%not_elem_of_nil]. intros (xs&Hx&Hds)%bind_Some.
    rewrite Hx. simpl. intros [->|?]%elem_of_cons; [|by eapply view_elems_reach].
    apply bind_Some in Hx as (ys&Hy&_). by eapply deref_dom.
Defined.
End slices.
