(* ===== verification/DeepCopy.v ===== *)
(** [DeepCopy] of the API types ([internal/controller/types.go]) on the heap of
    Memory.v, and the meaning of the objects it copies. The copies of the metadata
    types are made by the API machinery: they are the fields of [MetaLib]. *)
From S2P Require Import Prelude Kube Types Memory.

(** * What the objects mean *)

#[export] Instance TimeRef : Stored (option loc) (option time) :=
  ref_stored as_CTime (plain_stored time).
#[export] Instance MapRef : Stored (option loc) (option (gmap string string)) | 10 :=
  ref_stored as_CMap (plain_stored _).
Definition Int64Ref : Stored (option loc) (option Z) := ref_stored as_CInt64 (plain_stored Z).
#[export] Instance ConditionsRef : Stored (option Slice) (list Condition) :=
  slice_stored as_CConditions (plain_stored Condition).
Definition StringsRef : Stored (option Slice) (list string) :=
  slice_stored as_CStrings (plain_stored string).
Definition OwnersRef : Stored (option Slice) (list OwnerReference) :=
  slice_stored as_COwners (plain_stored OwnerReference).

Definition meta_refs (m : MemMeta) :=
  ((mm_DeletionTimestamp m, mm_Finalizers m), ((mm_Labels m, mm_Annotations m), mm_OwnerReferences m)).
Definition meta_value (m : MemMeta)
    (d : (option time * list string) *
         ((option (gmap string string) * option (gmap string string)) * list OwnerReference))
    : ObjectMeta :=
  let '((del, fins), ((labels, annotations), owners)) := d in
  mkObjectMeta (mm_Name m) (mm_Namespace m) (mm_UID m) (mm_Generation m) del fins
    (default ∅ labels) annotations owners.
#[export] Instance MetaStored : Stored MemMeta ObjectMeta :=
  via_stored (pair_stored (pair_stored TimeRef StringsRef)
    (pair_stored (pair_stored MapRef MapRef) OwnersRef)) meta_refs meta_value.

#[export] Instance ListMetaStored : Stored MemListMeta (string * string * option Z) :=
  via_stored Int64Ref ml_RemainingItemCount (λ m n, (ml_ResourceVersion m, ml_Continue m, n)).

Definition status_refs (st : MemStatus) :=
  ((ms_Endpoints st, ms_Conditions st), (ms_StartTime st, ms_LastTransitionTime st)).
Definition status_value (st : MemStatus)
    (d : (option (gmap string string) * list Condition) * (option time * option time))
    : LabSessionStatus :=
  let '((eps, conds), (start, last)) := d in
  mkLabSessionStatus (ms_Phase st) (ms_Message st) (ms_Reason st) (ms_PodName st)
    (ms_ServiceName st) (ms_PodIP st) (ms_VMIP st) (default ∅ eps) conds start last
    (ms_ObservedGeneration st) (ms_Usage st).
#[export] Instance StatusStored : Stored MemStatus LabSessionStatus :=
  via_stored (pair_stored (pair_stored MapRef ConditionsRef) (pair_stored TimeRef TimeRef))
    status_refs status_value.

#[export] Instance SessionStored : Stored MemSession (TypeMeta * LabSession) :=
  via_stored (pair_stored MetaStored StatusStored) (λ s, (mo_ObjectMeta s, mo_Status s))
    (λ s '(m, st), (mo_TypeMeta s, mkLabSession m (mo_Spec s) st)).

(** Pointers to sessions and lists of sessions. *)
Definition SessionPtr : Stored (option loc) (option (TypeMeta * LabSession)) :=
  ref_stored as_CSession SessionStored.
Definition ItemsRef : Stored (option Slice) (list (TypeMeta * LabSession)) :=
  slice_stored as_CSessions SessionStored.
#[export] Instance ListStored :
  Stored LabSessionList (TypeMeta * (string * string * option Z) * list (TypeMeta * LabSession)) :=
  via_stored (pair_stored ListMetaStored ItemsRef) (λ l, (list_ListMeta l, list_Items l))
    (λ l '(m, items), (list_TypeMeta l, m, items)).
Definition ListPtr : Stored (option loc) _ := ref_stored as_CList ListStored.

(** * Field updates of the structs *)

Definition set_ms_Endpoints (p : option loc) (st : MemStatus) : MemStatus :=
  mkMemStatus (ms_Phase st) (ms_Message st) (ms_Reason st) (ms_PodName st) (ms_ServiceName st)
    (ms_PodIP st) (ms_VMIP st) p (ms_Conditions st) (ms_StartTime st)
    (ms_LastTransitionTime st) (ms_ObservedGeneration st) (ms_Usage st).
Definition set_ms_Conditions (p : option Slice) (st : MemStatus) : MemStatus :=
  mkMemStatus (ms_Phase st) (ms_Message st) (ms_Reason st) (ms_PodName st) (ms_ServiceName st)
    (ms_PodIP st) (ms_VMIP st) (ms_Endpoints st) p (ms_StartTime st)
    (ms_LastTransitionTime st) (ms_ObservedGeneration st) (ms_Usage st).
Definition set_ms_StartTime (p : option loc) (st : MemStatus) : MemStatus :=
  mkMemStatus (ms_Phase st) (ms_Message st) (ms_Reason st) (ms_PodName st) (ms_ServiceName st)
    (ms_PodIP st) (ms_VMIP st) (ms_Endpoints st) (ms_Conditions st) p
    (ms_LastTransitionTime st) (ms_ObservedGeneration st) (ms_Usage st).
Definition set_ms_LastTransitionTime (p : option loc) (st : MemStatus) : MemStatus :=
  mkMemStatus (ms_Phase st) (ms_Message st) (ms_Reason st) (ms_PodName st) (ms_ServiceName st)
    (ms_PodIP st) (ms_VMIP st) (ms_Endpoints st) (ms_Conditions st) (ms_StartTime st)
    p (ms_ObservedGeneration st) (ms_Usage st).

(** * The copies *)

(** The functions of the API machinery that are called. *)
Class MetaLib := {
  ObjectMeta_DeepCopyInto : MemMeta → Mem MemMeta;
  ListMeta_DeepCopyInto : MemListMeta → Mem MemListMeta;
  Condition_DeepCopyInto : Condition → Mem Condition;
  Time_DeepCopy : loc → Mem loc
}.

(** Their documented behaviour: they copy. *)
Class MetaLaws (L : MetaLib) := {
  ObjectMeta_copies : copies ObjectMeta_DeepCopyInto;
  ListMeta_copies : copies ListMeta_DeepCopyInto;
  Condition_copies : copies (S := plain_stored Condition) Condition_DeepCopyInto;
  Time_copies : ∀ h l t, deref as_CTime h l = Some t →
    ∃ l' h', Time_DeepCopy l h = Some (l', h') ∧ fresh_copy h (Some t) (Some l') h'
}.

Section deep_copy.
Context `{L : MetaLib}.

(** [make(map[string]string)], filled by ranging over the map at [l]. *)
Definition copy_map (l : loc) : Mem loc :=
  c ← load l;
  match c with
  | CMap m =>
      l' ← alloc (CMap ∅);
      _ ← for_range (map_to_list m) (λ '(k, v), map_assign l' k v);
      mret l'
  | _ => fault
  end.

(** [a[i]] and [a[i] = x] of a backing array. *)
Definition array_load {A} (as_list : cell → option (list A)) (l : loc) (i : nat) : Mem A :=
  λ h, x ← deref as_list h l ≫= λ xs, xs !! i; Some (x, h).
Definition array_assign {A} (as_list : cell → option (list A)) (cell_of : list A → cell)
    (l : loc) (i : nat) (x : A) : Mem () :=
  λ h, xs ← deref as_list h l;
    if decide (i < length xs)%nat then assign l (cell_of (<[i := x]> xs)) h else None.

(** [make([]A, len(in))], and [in[i].DeepCopyInto(&out[i])] for each index. *)
Definition copy_slice {A} (as_list : cell → option (list A)) (cell_of : list A → cell) (zero : A)
    (copy : A → Mem A) (s : Slice) : Mem Slice :=
  out ← alloc (cell_of (replicate (sl_len s) zero));
  _ ← for_range (seq 0 (sl_len s)) (λ i,
        x ← array_load as_list (sl_array s) i;
        y ← copy x;
        array_assign as_list cell_of out i y);
  mret (mkSlice out (sl_len s)).

Definition zero_Condition : Condition := mkCondition "" "" 0 0 "" "".

(** [LabSessionStatus.DeepCopyInto] *)
Definition LabSessionStatus_DeepCopyInto (st : MemStatus) : Mem MemStatus :=
  let out := st in
  out ← match ms_Endpoints st with
        | None => mret out
        | Some l => l' ← copy_map l; mret (set_ms_Endpoints (Some l') out)
        end;
  out ← match ms_Conditions st with
        | None => mret out
        | Some s => s' ← copy_slice as_CConditions CConditions zero_Condition
                          Condition_DeepCopyInto s;
                    mret (set_ms_Conditions (Some s') out)
        end;
  out ← match ms_StartTime st with
        | None => mret out
        | Some l => l' ← Time_DeepCopy l; mret (set_ms_StartTime (Some l') out)
        end;
  match ms_LastTransitionTime st with
  | None => mret out
  | Some l => l' ← Time_DeepCopy l; mret (set_ms_LastTransitionTime (Some l') out)
  end.

(** [LabSessionSpec.DeepCopyInto] *)
Definition LabSessionSpec_DeepCopyInto (sp : LabSessionSpec) : LabSessionSpec :=
  mkLabSessionSpec (UserID sp) (SessionID sp) (LabID sp) (Resources sp) (Config sp)
    (Timeout sp) (RootfsURL sp) (CustomImages sp).

(** [LabSession.DeepCopyInto] *)
Definition LabSession_DeepCopyInto (s : MemSession) : Mem MemSession :=
  m ← ObjectMeta_DeepCopyInto (mo_ObjectMeta s);
  let sp := LabSessionSpec_DeepCopyInto (mo_Spec s) in
  st ← LabSessionStatus_DeepCopyInto (mo_Status s);
  mret (mkMemSession (mo_TypeMeta s) m sp st).

Definition zero_spec : LabSessionSpec :=
  mkLabSessionSpec "" "" "" (mkResourceConfig "" "" "") (mkSessionConfig "" false false false)
    "" "" (mkImageConfig "").
Definition zero_session : MemSession :=
  mkMemSession (mkTypeMeta "" "") (mkMemMeta "" "" "" 0 None None None None None) zero_spec
    (mkMemStatus "" "" "" "" "" "" "" None None None None 0 no_usage).

(** [LabSession.DeepCopy]: the new variable is allocated, then copied into. *)
Definition LabSession_DeepCopy (p : option loc) : Mem (option loc) :=
  match p with
  | None => mret None
  | Some l =>
      out ← alloc (CSession zero_session);
      c ← load l;
      match c with
      | CSession s =>
          s' ← LabSession_DeepCopyInto s;
          _ ← assign out (CSession s');
          mret (Some out)
      | _ => fault
      end
  end.

(** [LabSessionList.DeepCopyInto] *)
Definition LabSessionList_DeepCopyInto (l : LabSessionList) : Mem LabSessionList :=
  m ← ListMeta_DeepCopyInto (list_ListMeta l);
  let out := mkLabSessionList (list_TypeMeta l) m (list_Items l) in
  match list_Items l with
  | None => mret out
  | Some s =>
      s' ← copy_slice as_CSessions CSessions zero_session LabSession_DeepCopyInto s;
      mret (mkLabSessionList (list_TypeMeta out) (list_ListMeta out) (Some s'))
  end.

Definition zero_list : LabSessionList :=
  mkLabSessionList (mkTypeMeta "" "") (mkMemListMeta "" "" None) None.

(** [LabSessionList.DeepCopy] *)
Definition LabSessionList_DeepCopy (p : option loc) : Mem (option loc) :=
  match p with
  | None => mret None
  | Some l =>
      out ← alloc (CList zero_list);
      c ← load l;
      match c with
      | CList x =>
          x' ← LabSessionList_DeepCopyInto x;
          _ ← assign out (CList x');
          mret (Some out)
      | _ => fault
      end
  end.

(** A value of the interface [runtime.Object]: nil, or a pointer to a session or to
    a list, which may itself be nil. *)
Inductive Object := SessionObject (p : option loc) | ListObject (p : option loc).

(** The methods [DeepCopyObject]. *)
Definition LabSession_DeepCopyObject (p : option loc) : Mem (option Object) :=
  c ← LabSession_DeepCopy p;
  match c with Some l => mret (Some (SessionObject (Some l))) | None => mret None end.
Definition LabSessionList_DeepCopyObject (p : option loc) : Mem (option Object) :=
  c ← LabSessionList_DeepCopy p;
  match c with Some l => mret (Some (ListObject (Some l))) | None => mret None end.

(** What [publishPhase] does between the publish and the patch: it copies the
    session, then writes the phase into the annotations of the original. *)
Definition set_mm_Annotations (a : option loc) (s : MemSession) : MemSession :=
  let m := mo_ObjectMeta s in
  mkMemSession (mo_TypeMeta s) (mkMemMeta (mm_Name m) (mm_Namespace m) (mm_UID m)
    (mm_Generation m) (mm_DeletionTimestamp m) (mm_Finalizers m) (mm_Labels m) a
    (mm_OwnerReferences m)) (mo_Spec s) (mo_Status s).

Definition record_in_memory (session : loc) (key phase : string) : Mem (option loc) :=
  base ← LabSession_DeepCopy (Some session);
  c ← load session;
  match c with
  | CSession s =>
      annotations ← match mm_Annotations (mo_ObjectMeta s) with
                    | Some l => mret l
                    | None => l ← alloc (CMap ∅);
                              _ ← assign session (CSession (set_mm_Annotations (Some l) s));
                              mret l
                    end;
      _ ← map_assign annotations key phase;
      mret base
  | _ => fault
  end.
End deep_copy.
