(* ===== verification/Codec.v ===== *)
(** JSON documents of Go structs: how the field tags say that a value is written to a
    decoded document ([interface{}]), as the API machinery's converter does, and read
    back. A type's form is a [Codec]; a struct's is made of those of its fields. *)
From S2P Require Import Prelude Unstructured.

(** [zero] is the type's zero value, [is_empty] says that [omitempty] leaves it out;
    [norm] is what is left of a value that was written and read, for values that
    [fits] holds of. The text of errors is not modelled. *)
Class Codec (A : Type) := mkCodec {
  enc : A → json;
  dec : json → result string A;
  zero : A;
  is_empty : A → bool;
  norm : A → A;
  fits : A → Prop
}.

Class CodecLaws {A} (C : Codec A) := {
  dec_enc a : fits a → dec (enc a) = Ok (norm a);
  dec_null : dec JNull = Ok zero;
  norm_empty a : is_empty a = true → norm a = zero
}.

Definition mismatch {A} : result string A := Err "the value has another type".

(** * Types of fields *)

#[export] Instance string_codec : Codec string :=
  mkCodec string JString
    (λ v, match v with JString s => Ok s | JNull => Ok "" | _ => mismatch end)
    "" (λ s, bool_decide (s = "")) id (λ _, True).
#[export] Instance string_laws : CodecLaws string_codec.
Proof. split; [done|done|]. intros a Ha. by apply bool_decide_eq_true in Ha. Qed.

#[export] Instance bool_codec : Codec bool :=
  mkCodec bool JBool
    (λ v, match v with JBool b => Ok b | JNull => Ok false | _ => mismatch end)
    false negb id (λ _, True).
#[export] Instance bool_laws : CodecLaws bool_codec.
Proof. split; [done|done|]. by intros []. Qed.

(** [int64] *)
Definition in_int64 (z : Z) : bool := (min_int64 <=? z) && (z <=? max_int64).
Definition int64_codec : Codec Z :=
  mkCodec Z JNumber
    (λ v, match v with
          | JNumber z => if in_int64 z then Ok z else mismatch
          | JNull => Ok 0
          | _ => mismatch
          end)
    0 (Z.eqb 0) id (λ z, in_int64 z = true).
#[export] Instance int64_laws : CodecLaws int64_codec.
Proof. split; [by simpl; intros z ->|done|]. intros a Ha. change ((0 =? a) = true) in Ha. change (a = 0). lia. Qed.

(** [map[string]string]; an empty map and a nil map are the same value. *)
Definition dec_entry (kv : string * json) : result string (string * string) :=
  v ← dec kv.2; Ok (kv.1, v).
#[export] Instance map_codec : Codec (gmap string string) :=
  mkCodec _ (λ m, JObject (JString <$> m))
    (λ v, match v with
          | JObject m => kvs ← mapM dec_entry (map_to_list m); Ok (list_to_map kvs)
          | JNull => Ok ∅
          | _ => mismatch
          end)
    ∅ (λ m, bool_decide (m = ∅)) id (λ _, True).
#[export] Instance map_laws : CodecLaws map_codec.
Proof.
  split; [|done|by intros a Ha%bool_decide_eq_true]. intros m _. simpl.
  rewrite map_to_list_fmap.
  assert (mapM dec_entry (prod_map id JString <$> map_to_list m) = Ok (map_to_list m)) as ->.
  { induction (map_to_list m) as [|[k v] l IH]; [done|]. rewrite fmap_cons. cbn [mapM].
    change (dec_entry (prod_map id JString (k, v))) with (Ok (E := string) (k, v)).
    cbn [mbind result_bind]. by rewrite IH. }
  cbn. by rewrite list_to_map_to_list.
Qed.

(** A slice; an empty one and a nil one are the same value. *)
Definition list_codec {A} (C : Codec A) : Codec (list A) :=
  mkCodec _ (λ l, JArray (enc <$> l))
    (λ v, match v with JArray l => mapM dec l | JNull => Ok [] | _ => mismatch end)
    [] (λ l, match l with [] => true | _ => false end) (fmap norm) (Forall fits).
#[export] Instance list_laws {A} (C : Codec A) : CodecLaws C → CodecLaws (list_codec C).
Proof.
  intros HC. split; [|done|by intros []]. intros l Hl. simpl in *.
  induction Hl as [|a l Ha Hl IH]; [done|]. rewrite !fmap_cons. cbn [mapM].
  rewrite dec_enc by done. cbn. by rewrite IH.
Qed.

(** A pointer; what is written as null is read as nil. *)
Definition not_null (v : json) : bool := match v with JNull => false | _ => true end.
Definition pointer_codec {A} (C : Codec A) : Codec (option A) :=
  mkCodec _ (λ p, match p with Some a => enc a | None => JNull end)
    (λ v, if not_null v then a ← dec v; Ok (Some a) else Ok None)
    None (λ p, match p with None => true | Some _ => false end)
    (λ p, a ← p; if not_null (enc a) then Some (norm a) else None)
    (λ p, match p with Some a => fits a | None => True end).
#[export] Instance pointer_laws {A} (C : Codec A) : CodecLaws C → CodecLaws (pointer_codec C).
Proof.
  intros HC. split; [|done|by intros []]. intros [a|] Ha; simpl in *; [|done].
  destruct (not_null (enc a)); [|done]. by rewrite dec_enc.
Qed.

(** * Structs *)

(** A field, written unless its tag has [omitempty] and it is empty. *)
Definition put {A} {C : Codec A} (omitempty : bool) (a : A) : option json :=
  if omitempty && is_empty a then None else Some (enc a).

(** The document with these fields. *)
Definition object (fields : list (string * option json)) : json_map :=
  list_to_map (omap (λ x, pair x.1 <$> x.2) fields).

(** A field that is read. *)
Definition read {A} {C : Codec A} (m : json_map) (tag : string) : result string A :=
  match m !! tag with Some v => dec v | None => Ok zero end.

Definition struct_codec {A} (encode : A → json_map) (decode : json_map → result string A)
    (zero : A) (norm : A → A) (fits : A → Prop) : Codec A :=
  mkCodec A (λ a, JObject (encode a))
    (λ v, match v with JObject m => decode m | JNull => Ok zero | _ => mismatch end)
    zero (λ _, false) norm fits.

Lemma struct_laws {A} encode decode (zero : A) norm fits :
  (∀ a, fits a → decode (encode a) = Ok (norm a)) →
  CodecLaws (struct_codec encode decode zero norm fits).
Proof. intros H. by split. Qed.

Lemma object_absent fields k : k ∉ fields.*1 → object fields !! k = None.
Proof.
  intros Hk. unfold object. apply not_elem_of_list_to_map. contradict Hk.
  apply list_elem_of_fmap in Hk as ([x v]&->&Hx).
  apply list_elem_of_omap in Hx as ([y w]&Hy&Hw). apply list_elem_of_fmap. exists (y, w).
  destruct w; naive_solver.
Qed.

Lemma object_lookup fields k o : NoDup fields.*1 → (k, o) ∈ fields → object fields !! k = o.
Proof.
  induction fields as [|[k' o'] fields IH]; intros Hd Hk; [by apply not_elem_of_nil in Hk|].
  rewrite fmap_cons in Hd. apply NoDup_cons in Hd as [Hk' Hd].
  apply elem_of_cons in Hk as [[= <- <-]|Hk].
  - pose proof (object_absent fields k Hk') as Hnone. unfold object in *.
    destruct o; cbn; [by rewrite lookup_insert_eq|done].
  - assert (k ≠ k') by (intros ->; apply Hk'; apply list_elem_of_fmap; by exists (k', o)).
    specialize (IH Hd Hk). unfold object in *. destruct o'; cbn in *; [|done].
    by rewrite lookup_insert_ne.
Qed.

Lemma read_put {A} (C : Codec A) `{!CodecLaws C} fields k om (a : A) :
  NoDup fields.*1 → (k, put om a) ∈ fields → fits a → read (object fields) k = Ok (norm a).
Proof.
  intros Hd Hk Ha. unfold read. rewrite (object_lookup _ _ _ Hd Hk). unfold put.
  destruct om, (is_empty a) eqn:He; simpl; rewrite ?dec_enc by done; try done.
  by rewrite norm_empty.
Qed.

Lemma read_absent {A} (C : Codec A) fields k : k ∉ fields.*1 → read (object fields) k = Ok zero.
Proof. intros Hk. unfold read. by rewrite object_absent. Qed.

(** The tags of a struct are distinct; a field is one of them. *)
Ltac in_fields := first [apply list_elem_of_here | apply list_elem_of_further; in_fields].
Ltac distinct_tags := apply (bool_decide_unpack _); vm_compute; exact I.

(** Reads the fields of a document one by one. *)
Ltac read_fields :=
  repeat first
    [ erewrite read_put; [cbn [mbind result_bind]|typeclasses eauto|distinct_tags|in_fields|first [exact I | eassumption | solve [eauto]]]
    | erewrite read_absent; [cbn [mbind result_bind]|distinct_tags] ].

(** A field that is read as another type than it was written from. *)
Lemma read_other {A B} (C : Codec A) (D : Codec B) (f : A → B) fields k om a :
  NoDup fields.*1 → (k, put (C := C) om a) ∈ fields →
  (is_empty a = true → zero = f a) → dec (enc a) = Ok (f a) → read (C := D) (object fields) k = Ok (f a).
Proof.
  intros Hd Hk He Ha. unfold read. rewrite (object_lookup _ _ _ Hd Hk). unfold put.
  destruct om, (is_empty a) eqn:Hem; simpl; try done. by rewrite He.
Qed.
