(* ===== verification/SessionJSON.v ===== *)
(** The JSON form of the API types ([internal/controller/types.go]), from the tags of
    their fields. The forms of metadata, conditions and times are those of the API
    machinery and are parameters. *)
From S2P Require Import Prelude GoStrings Kube Types Unstructured Codec.
From S2P Require Memory.

(** The forms of the API machinery's types. *)
Class FormLib := {
  TimeForm : Codec time;
  ConditionForm : Codec Condition;
  MetaForm : Codec ObjectMeta;
  ListMeta : Type;
  ListMetaForm : Codec ListMeta
}.

(** A time as RFC 3339 has it, in whole seconds. *)
Definition whole_seconds (t : time) : time := t `div` second * second.

(** What is known of them. A time that RFC 3339 can write is read back in whole seconds,
    and the zero time is null; a condition is written with its fields. *)
Class FormLaws (F : FormLib) := {
  TimeForm_laws :: CodecLaws TimeForm;
  TimeForm_norm t : norm (Codec := TimeForm) t = whole_seconds t;
  TimeForm_zero : zero (Codec := TimeForm) = 0;
  TimeForm_null t : enc (Codec := TimeForm) t = JNull ↔ t = 0;
  ConditionForm_laws :: CodecLaws ConditionForm;
  ConditionForm_norm c : norm (Codec := ConditionForm) c =
    mkCondition (cond_Type c) (cond_Status c) (cond_ObservedGeneration c)
      (whole_seconds (cond_LastTransitionTime c)) (cond_Reason c) (cond_Message c);
  ConditionForm_fits c : fits (Codec := ConditionForm) c →
    fits (Codec := TimeForm) (cond_LastTransitionTime c);
  ConditionForm_fields c : ∃ m, enc (Codec := ConditionForm) c = JObject m ∧
    m !! "type" = Some (JString (cond_Type c)) ∧
    m !! "status" = Some (JString (cond_Status c)) ∧
    m !! "lastTransitionTime" = Some (enc (Codec := TimeForm) (cond_LastTransitionTime c)) ∧
    m !! "reason" = Some (JString (cond_Reason c)) ∧
    m !! "message" = Some (JString (cond_Message c));
  MetaForm_laws :: CodecLaws MetaForm;
  ListMetaForm_laws :: CodecLaws ListMetaForm
}.

(** * The spec *)

Definition encode_ResourceConfig (r : ResourceConfig) : json_map :=
  object [("memory", put true (rc_Memory r)); ("cpu", put true (rc_CPU r));
          ("storage", put true (rc_Storage r))].
Definition decode_ResourceConfig (m : json_map) : result string ResourceConfig :=
  memory ← read m "memory"; cpu ← read m "cpu"; storage ← read m "storage";
  Ok (mkResourceConfig memory cpu storage).
#[export] Instance ResourceConfig_form : Codec ResourceConfig :=
  struct_codec encode_ResourceConfig decode_ResourceConfig (mkResourceConfig "" "" "") id (λ _, True).
#[export] Instance ResourceConfig_form_laws : CodecLaws ResourceConfig_form.
Proof. apply struct_laws. intros [] _. unfold decode_ResourceConfig, encode_ResourceConfig. by read_fields. Qed.

Definition encode_SessionConfig (c : SessionConfig) : json_map :=
  object [("vsCodePassword", put true (sc_VSCodePassword c));
          ("enableTerminal", put true (sc_EnableTerminal c));
          ("enableVSCode", put true (sc_EnableVSCode c));
          ("enableSSH", put true (sc_EnableSSH c))].
Definition decode_SessionConfig (m : json_map) : result string SessionConfig :=
  password ← read m "vsCodePassword"; terminal ← read m "enableTerminal";
  vscode ← read m "enableVSCode"; ssh ← read m "enableSSH";
  Ok (mkSessionConfig password terminal vscode ssh).
#[export] Instance SessionConfig_form : Codec SessionConfig :=
  struct_codec encode_SessionConfig decode_SessionConfig (mkSessionConfig "" false false false)
    id (λ _, True).
#[export] Instance SessionConfig_form_laws : CodecLaws SessionConfig_form.
Proof. apply struct_laws. intros [] _. unfold decode_SessionConfig, encode_SessionConfig. by read_fields. Qed.

Definition encode_ImageConfig (i : ImageConfig) : json_map :=
  object [("initImage", put true (ic_InitImage i))].
Definition decode_ImageConfig (m : json_map) : result string ImageConfig :=
  init ← read m "initImage"; Ok (mkImageConfig init).
#[export] Instance ImageConfig_form : Codec ImageConfig :=
  struct_codec encode_ImageConfig decode_ImageConfig (mkImageConfig "") id (λ _, True).
#[export] Instance ImageConfig_form_laws : CodecLaws ImageConfig_form.
Proof. apply struct_laws. intros [] _. unfold decode_ImageConfig, encode_ImageConfig. by read_fields. Qed.

Definition encode_LabSessionSpec (s : LabSessionSpec) : json_map :=
  object [("userId", put false (UserID s)); ("sessionId", put false (SessionID s));
          ("labId", put true (LabID s)); ("resources", put true (Resources s));
          ("config", put true (Config s)); ("timeout", put true (Timeout s));
          ("rootfsUrl", put true (RootfsURL s)); ("customImages", put true (CustomImages s))].
Definition decode_LabSessionSpec (m : json_map) : result string LabSessionSpec :=
  user ← read m "userId"; session ← read m "sessionId"; lab ← read m "labId";
  resources ← read m "resources"; config ← read m "config"; timeout ← read m "timeout";
  rootfs ← read m "rootfsUrl"; images ← read m "customImages";
  Ok (mkLabSessionSpec user session lab resources config timeout rootfs images).
#[export] Instance LabSessionSpec_form : Codec LabSessionSpec :=
  struct_codec encode_LabSessionSpec decode_LabSessionSpec
    (mkLabSessionSpec "" "" "" (mkResourceConfig "" "" "") (mkSessionConfig "" false false false)
       "" "" (mkImageConfig "")) id (λ _, True).
#[export] Instance LabSessionSpec_form_laws : CodecLaws LabSessionSpec_form.
Proof. apply struct_laws. intros [] _. unfold decode_LabSessionSpec, encode_LabSessionSpec. by read_fields. Qed.

(** * The status *)

Definition encode_LabSessionUsage (u : LabSessionUsage) : json_map :=
  object [("running", put false (usage_Running u)); ("cpuRequest", put true (usage_CPURequest u));
          ("memoryRequest", put true (usage_MemoryRequest u)); ("storage", put true (usage_Storage u))].
Definition decode_LabSessionUsage (m : json_map) : result string LabSessionUsage :=
  running ← read m "running"; cpu ← read m "cpuRequest"; memory ← read m "memoryRequest";
  storage ← read m "storage"; Ok (mkLabSessionUsage running cpu memory storage).
#[export] Instance LabSessionUsage_form : Codec LabSessionUsage :=
  struct_codec encode_LabSessionUsage decode_LabSessionUsage no_usage id (λ _, True).
#[export] Instance LabSessionUsage_form_laws : CodecLaws LabSessionUsage_form.
Proof. apply struct_laws. intros [] _. unfold decode_LabSessionUsage, encode_LabSessionUsage. by read_fields. Qed.

Section status.
Context `{F : FormLib}.

Definition TimeRefForm : Codec (option time) := pointer_codec TimeForm.
Definition ConditionsForm : Codec (list Condition) := list_codec ConditionForm.

Definition encode_LabSessionStatus (st : LabSessionStatus) : json_map :=
  object [("phase", put true (Phase st)); ("message", put true (Message st));
          ("reason", put true (Reason st)); ("podName", put true (PodName st));
          ("serviceName", put true (ServiceName st)); ("podIP", put true (PodIP st));
          ("vmIP", put true (VMIP st)); ("endpoints", put true (Endpoints st));
          ("conditions", put (C := ConditionsForm) true (Conditions st));
          ("startTime", put (C := TimeRefForm) true (StartTime st));
          ("lastTransitionTime", put (C := TimeRefForm) true (LastTransitionTime st));
          ("observedGeneration", put (C := int64_codec) true (ObservedGeneration st));
          ("usage", put true (Usage st))].
Definition decode_LabSessionStatus (m : json_map) : result string LabSessionStatus :=
  phase ← read m "phase"; message ← read m "message"; reason ← read m "reason";
  pod ← read m "podName"; service ← read m "serviceName"; podIP ← read m "podIP";
  vmIP ← read m "vmIP"; endpoints ← read m "endpoints";
  conditions ← read (C := ConditionsForm) m "conditions";
  start ← read (C := TimeRefForm) m "startTime";
  last ← read (C := TimeRefForm) m "lastTransitionTime";
  observed ← read (C := int64_codec) m "observedGeneration";
  usage ← read m "usage";
  Ok (mkLabSessionStatus phase message reason pod service podIP vmIP endpoints conditions start
        last observed usage).

(** What is left of a status: times in whole seconds. *)
Definition norm_status (st : LabSessionStatus) : LabSessionStatus :=
  mkLabSessionStatus (Phase st) (Message st) (Reason st) (PodName st) (ServiceName st) (PodIP st)
    (VMIP st) (Endpoints st) (norm (Codec := ConditionsForm) (Conditions st))
    (norm (Codec := TimeRefForm) (StartTime st))
    (norm (Codec := TimeRefForm) (LastTransitionTime st)) (ObservedGeneration st) (Usage st).

(** The times of a status can be written, and its generation is an [int64]. *)
Definition status_fits (st : LabSessionStatus) : Prop :=
  fits (Codec := ConditionsForm) (Conditions st) ∧ fits (Codec := TimeRefForm) (StartTime st) ∧
  fits (Codec := TimeRefForm) (LastTransitionTime st) ∧ in_int64 (ObservedGeneration st) = true.

#[export] Instance LabSessionStatus_form : Codec LabSessionStatus :=
  struct_codec encode_LabSessionStatus decode_LabSessionStatus
    (mkLabSessionStatus "" "" "" "" "" "" "" ∅ [] None None 0 no_usage) norm_status status_fits.

(** * Objects *)

Definition encode_LabSession (x : Memory.TypeMeta * LabSession) : json_map :=
  let '(tm, s) := x in
  object [("kind", put true (Memory.tm_Kind tm)); ("apiVersion", put true (Memory.tm_APIVersion tm));
          ("metadata", put (C := MetaForm) true (ObjMeta s)); ("spec", put true (Spec s));
          ("status", put true (Status s))].
Definition decode_LabSession (m : json_map) : result string (Memory.TypeMeta * LabSession) :=
  kind ← read m "kind"; version ← read m "apiVersion"; meta ← read (C := MetaForm) m "metadata";
  spec ← read m "spec"; status ← read m "status";
  Ok (Memory.mkTypeMeta kind version, mkLabSession meta spec status).

Definition norm_session (x : Memory.TypeMeta * LabSession) : Memory.TypeMeta * LabSession :=
  (x.1, mkLabSession (norm (Codec := MetaForm) (ObjMeta x.2)) (Spec x.2) (norm_status (Status x.2))).
Definition session_fits (x : Memory.TypeMeta * LabSession) : Prop :=
  fits (Codec := MetaForm) (ObjMeta x.2) ∧ status_fits (Status x.2).

Definition LabSession_form : Codec (Memory.TypeMeta * LabSession) :=
  struct_codec encode_LabSession decode_LabSession
    (Memory.mkTypeMeta "" "", mkLabSession (zero (Codec := MetaForm)) zero zero)
    norm_session session_fits.

(** [LabSessionList] *)
Definition session_list : Type := Memory.TypeMeta * ListMeta * list (Memory.TypeMeta * LabSession).
Definition encode_LabSessionList (l : session_list) : json_map :=
  let '(tm, m, items) := l in
  object [("kind", put true (Memory.tm_Kind tm)); ("apiVersion", put true (Memory.tm_APIVersion tm));
          ("metadata", put (C := ListMetaForm) true m);
          ("items", put (C := list_codec LabSession_form) false items)].
Definition decode_LabSessionList (m : json_map) : result string session_list :=
  kind ← read m "kind"; version ← read m "apiVersion";
  meta ← read (C := ListMetaForm) m "metadata";
  items ← read (C := list_codec LabSession_form) m "items";
  Ok (Memory.mkTypeMeta kind version, meta, items).

Definition norm_list (l : session_list) : session_list :=
  (l.1.1, norm (Codec := ListMetaForm) l.1.2, norm_session <$> l.2).
Definition list_fits (l : session_list) : Prop :=
  fits (Codec := ListMetaForm) l.1.2 ∧ Forall session_fits l.2.
Definition LabSessionList_form : Codec session_list :=
  struct_codec encode_LabSessionList decode_LabSessionList
    (Memory.mkTypeMeta "" "", zero (Codec := ListMetaForm), []) norm_list list_fits.

Context {L : FormLaws F}.

#[export] Instance LabSessionStatus_form_laws : CodecLaws LabSessionStatus_form.
Proof.
  apply struct_laws. intros [] (Hc&Hs&Ht&Hg).
  unfold decode_LabSessionStatus, encode_LabSessionStatus, TimeRefForm, ConditionsForm in *.
  simpl in Hg. by read_fields.
Qed.
#[export] Instance LabSession_form_laws : CodecLaws LabSession_form.
Proof.
  apply struct_laws. intros [[] []] [Hm Hst]. simpl in *.
  unfold decode_LabSession, encode_LabSession. by read_fields.
Qed.
#[export] Instance LabSessionList_form_laws : CodecLaws LabSessionList_form.
Proof.
  apply struct_laws. intros [[[] m] items] [Hm Hi]. simpl in *.
  unfold decode_LabSessionList, encode_LabSessionList. by read_fields.
Qed.
End status.
