(* ===== verification/ApisV1.v ===== *)
(** The older API types ([pkg/apis/dozlab/v1/types.go]) and their JSON form. Their names
    repeat those of Types.v: a file that uses both qualifies them. *)
From S2P Require Import Prelude GoStrings Kube Unstructured Codec SessionJSON.
From S2P Require Memory.

(** * The types *)

Record LabSessionResourceRequests := mkLabSessionResourceRequests {
  Memory : string;
  CPU : string;
  Storage : string
}.

Record LabSessionConfig := mkLabSessionConfig {
  VSCodePassword : string;
  EnableTerminal : bool;
  EnableVSCode : bool;
  EnableSSH : bool
}.

Record LabSessionSpec := mkLabSessionSpec {
  UserID : string;
  SessionID : string;
  Resources : LabSessionResourceRequests;
  Config : LabSessionConfig;
  Timeout : string
}.

Record LabSessionUsage := mkLabSessionUsage {
  Running : bool;
  CPURequest : string;
  MemoryRequest : string;
  usage_Storage : string
}.

Abbreviation LabSessionPhase := string (only parsing).
Definition LabSessionPhasePending : LabSessionPhase := "Pending".
Definition LabSessionPhaseCreating : LabSessionPhase := "Creating".
Definition LabSessionPhaseRunning : LabSessionPhase := "Running".
Definition LabSessionPhaseFailed : LabSessionPhase := "Failed".
Definition LabSessionPhaseTerminating : LabSessionPhase := "Terminating".
Definition LabSessionPhaseTerminated : LabSessionPhase := "Terminated".

Record LabSessionEndpoints := mkLabSessionEndpoints {
  VSCode : string;
  Terminal : string;
  SSH : string
}.

Abbreviation LabSessionConditionType := string (only parsing).
Definition LabSessionConditionReady : LabSessionConditionType := "Ready".
Definition LabSessionConditionPodReady : LabSessionConditionType := "PodReady".
Definition LabSessionConditionServiceReady : LabSessionConditionType := "ServiceReady".
Definition LabSessionConditionVMReady : LabSessionConditionType := "VMReady".

Record LabSessionCondition := mkLabSessionCondition {
  Type_ : LabSessionConditionType;
  Status_ : string;
  LastTransitionTime : time;
  Reason : string;
  cond_Message : string
}.

Record LabSessionStatus := mkLabSessionStatus {
  Phase : LabSessionPhase;
  Message : string;
  PodName : string;
  ServiceName : string;
  Endpoints : LabSessionEndpoints;
  VMIP : string;
  PodIP : string;
  CreatedAt : option time;
  ExpiresAt : option time;
  Conditions : list LabSessionCondition;
  Usage : LabSessionUsage
}.

Record LabSession := mkLabSession {
  TypeMeta : Memory.TypeMeta;
  ObjMeta : ObjectMeta;
  Spec : LabSessionSpec;
  Status : LabSessionStatus
}.

(** * Their form *)

Definition encode_LabSessionResourceRequests (r : LabSessionResourceRequests) : json_map :=
  object [("memory", put true (Memory r)); ("cpu", put true (CPU r));
          ("storage", put true (Storage r))].
Definition decode_LabSessionResourceRequests (m : json_map) : result string LabSessionResourceRequests :=
  memory ← read m "memory"; cpu ← read m "cpu"; storage ← read m "storage";
  Ok (mkLabSessionResourceRequests memory cpu storage).
#[export] Instance LabSessionResourceRequests_form : Codec LabSessionResourceRequests :=
  struct_codec encode_LabSessionResourceRequests decode_LabSessionResourceRequests
    (mkLabSessionResourceRequests "" "" "") id (λ _, True).
#[export] Instance LabSessionResourceRequests_form_laws : CodecLaws LabSessionResourceRequests_form.
Proof.
  apply struct_laws. intros [] _.
  unfold decode_LabSessionResourceRequests, encode_LabSessionResourceRequests. by read_fields.
Qed.

Definition encode_LabSessionConfig (c : LabSessionConfig) : json_map :=
  object [("vsCodePassword", put true (VSCodePassword c));
          ("enableTerminal", put true (EnableTerminal c));
          ("enableVSCode", put true (EnableVSCode c)); ("enableSSH", put true (EnableSSH c))].
Definition decode_LabSessionConfig (m : json_map) : result string LabSessionConfig :=
  password ← read m "vsCodePassword"; terminal ← read m "enableTerminal";
  vscode ← read m "enableVSCode"; ssh ← read m "enableSSH";
  Ok (mkLabSessionConfig password terminal vscode ssh).
#[export] Instance LabSessionConfig_form : Codec LabSessionConfig :=
  struct_codec encode_LabSessionConfig decode_LabSessionConfig (mkLabSessionConfig "" false false false)
    id (λ _, True).
#[export] Instance LabSessionConfig_form_laws : CodecLaws LabSessionConfig_form.
Proof. apply struct_laws. intros [] _. unfold decode_LabSessionConfig, encode_LabSessionConfig. by read_fields. Qed.

Definition encode_LabSessionSpec (s : LabSessionSpec) : json_map :=
  object [("userId", put false (UserID s)); ("sessionId", put false (SessionID s));
          ("resources", put true (Resources s)); ("config", put true (Config s));
          ("timeout", put true (Timeout s))].
Definition decode_LabSessionSpec (m : json_map) : result string LabSessionSpec :=
  user ← read m "userId"; session ← read m "sessionId"; resources ← read m "resources";
  config ← read m "config"; timeout ← read m "timeout";
  Ok (mkLabSessionSpec user session resources config timeout).
#[export] Instance LabSessionSpec_form : Codec LabSessionSpec :=
  struct_codec encode_LabSessionSpec decode_LabSessionSpec
    (mkLabSessionSpec "" "" (mkLabSessionResourceRequests "" "" "")
       (mkLabSessionConfig "" false false false) "") id (λ _, True).
#[export] Instance LabSessionSpec_form_laws : CodecLaws LabSessionSpec_form.
Proof. apply struct_laws. intros [] _. unfold decode_LabSessionSpec, encode_LabSessionSpec. by read_fields. Qed.

Definition encode_LabSessionUsage (u : LabSessionUsage) : json_map :=
  object [("running", put false (Running u)); ("cpuRequest", put true (CPURequest u));
          ("memoryRequest", put true (MemoryRequest u)); ("storage", put true (usage_Storage u))].
Definition decode_LabSessionUsage (m : json_map) : result string LabSessionUsage :=
  running ← read m "running"; cpu ← read m "cpuRequest"; memory ← read m "memoryRequest";
  storage ← read m "storage"; Ok (mkLabSessionUsage running cpu memory storage).
#[export] Instance LabSessionUsage_form : Codec LabSessionUsage :=
  struct_codec encode_LabSessionUsage decode_LabSessionUsage (mkLabSessionUsage false "" "" "")
    id (λ _, True).
#[export] Instance LabSessionUsage_form_laws : CodecLaws LabSessionUsage_form.
Proof. apply struct_laws. intros [] _. unfold decode_LabSessionUsage, encode_LabSessionUsage. by read_fields. Qed.

Definition encode_LabSessionEndpoints (e : LabSessionEndpoints) : json_map :=
  object [("vscode", put true (VSCode e)); ("terminal", put true (Terminal e));
          ("ssh", put true (SSH e))].
Definition decode_LabSessionEndpoints (m : json_map) : result string LabSessionEndpoints :=
  vscode ← read m "vscode"; terminal ← read m "terminal"; ssh ← read m "ssh";
  Ok (mkLabSessionEndpoints vscode terminal ssh).
#[export] Instance LabSessionEndpoints_form : Codec LabSessionEndpoints :=
  struct_codec encode_LabSessionEndpoints decode_LabSessionEndpoints (mkLabSessionEndpoints "" "" "")
    id (λ _, True).
#[export] Instance LabSessionEndpoints_form_laws : CodecLaws LabSessionEndpoints_form.
Proof.
  apply struct_laws. intros [] _.
  unfold decode_LabSessionEndpoints, encode_LabSessionEndpoints. by read_fields.
Qed.

Section status.
Context `{F : FormLib}.

Definition encode_LabSessionCondition (c : LabSessionCondition) : json_map :=
  object [("type", put false (Type_ c)); ("status", put false (Status_ c));
          ("lastTransitionTime", put (C := TimeForm) false (LastTransitionTime c));
          ("reason", put true (Reason c)); ("message", put true (cond_Message c))].
Definition decode_LabSessionCondition (m : json_map) : result string LabSessionCondition :=
  type ← read m "type"; status ← read m "status";
  last ← read (C := TimeForm) m "lastTransitionTime"; reason ← read m "reason";
  message ← read m "message"; Ok (mkLabSessionCondition type status last reason message).
Definition norm_condition (c : LabSessionCondition) : LabSessionCondition :=
  mkLabSessionCondition (Type_ c) (Status_ c) (norm (Codec := TimeForm) (LastTransitionTime c))
    (Reason c) (cond_Message c).
#[export] Instance LabSessionCondition_form : Codec LabSessionCondition :=
  struct_codec encode_LabSessionCondition decode_LabSessionCondition
    (mkLabSessionCondition "" "" (zero (Codec := TimeForm)) "" "") norm_condition
    (λ c, fits (Codec := TimeForm) (LastTransitionTime c)).

Definition ConditionsForm : Codec (list LabSessionCondition) := list_codec LabSessionCondition_form.

Definition encode_LabSessionStatus (st : LabSessionStatus) : json_map :=
  object [("phase", put true (Phase st)); ("message", put true (Message st));
          ("podName", put true (PodName st)); ("serviceName", put true (ServiceName st));
          ("endpoints", put true (Endpoints st)); ("vmIP", put true (VMIP st));
          ("podIP", put true (PodIP st)); ("createdAt", put (C := TimeRefForm) true (CreatedAt st));
          ("expiresAt", put (C := TimeRefForm) true (ExpiresAt st));
          ("conditions", put (C := ConditionsForm) true (Conditions st));
          ("usage", put true (Usage st))].
Definition decode_LabSessionStatus (m : json_map) : result string LabSessionStatus :=
  phase ← read m "phase"; message ← read m "message"; pod ← read m "podName";
  service ← read m "serviceName"; endpoints ← read m "endpoints"; vmIP ← read m "vmIP";
  podIP ← read m "podIP"; created ← read (C := TimeRefForm) m "createdAt";
  expires ← read (C := TimeRefForm) m "expiresAt";
  conditions ← read (C := ConditionsForm) m "conditions"; usage ← read m "usage";
  Ok (mkLabSessionStatus phase message pod service endpoints vmIP podIP created expires
        conditions usage).
Definition norm_status (st : LabSessionStatus) : LabSessionStatus :=
  mkLabSessionStatus (Phase st) (Message st) (PodName st) (ServiceName st) (Endpoints st) (VMIP st)
    (PodIP st) (norm (Codec := TimeRefForm) (CreatedAt st))
    (norm (Codec := TimeRefForm) (ExpiresAt st)) (norm (Codec := ConditionsForm) (Conditions st))
    (Usage st).
Definition status_fits (st : LabSessionStatus) : Prop :=
  fits (Codec := TimeRefForm) (CreatedAt st) ∧ fits (Codec := TimeRefForm) (ExpiresAt st) ∧
  fits (Codec := ConditionsForm) (Conditions st).
#[export] Instance LabSessionStatus_form : Codec LabSessionStatus :=
  struct_codec encode_LabSessionStatus decode_LabSessionStatus
    (mkLabSessionStatus "" "" "" "" (mkLabSessionEndpoints "" "" "") "" "" None None []
       (mkLabSessionUsage false "" "" "")) norm_status status_fits.

Definition encode_LabSession (s : LabSession) : json_map :=
  object [("kind", put true (Memory.tm_Kind (TypeMeta s)));
          ("apiVersion", put true (Memory.tm_APIVersion (TypeMeta s)));
          ("metadata", put (C := MetaForm) true (ObjMeta s)); ("spec", put true (Spec s));
          ("status", put true (Status s))].
Definition decode_LabSession (m : json_map) : result string LabSession :=
  kind ← read m "kind"; version ← read m "apiVersion"; meta ← read (C := MetaForm) m "metadata";
  spec ← read m "spec"; status ← read m "status";
  Ok (mkLabSession (Memory.mkTypeMeta kind version) meta spec status).
Definition norm_session (s : LabSession) : LabSession :=
  mkLabSession (TypeMeta s) (norm (Codec := MetaForm) (ObjMeta s)) (Spec s) (norm_status (Status s)).
Definition session_fits (s : LabSession) : Prop :=
  fits (Codec := MetaForm) (ObjMeta s) ∧ status_fits (Status s).
#[export] Instance LabSession_form : Codec LabSession :=
  struct_codec encode_LabSession decode_LabSession
    (mkLabSession (Memory.mkTypeMeta "" "") (zero (Codec := MetaForm)) zero zero) norm_session
    session_fits.

Record LabSessionList := mkLabSessionList {
  list_TypeMeta : Memory.TypeMeta;
  list_ListMeta : ListMeta;
  list_Items : list LabSession
}.
Definition encode_LabSessionList (l : LabSessionList) : json_map :=
  object [("kind", put true (Memory.tm_Kind (list_TypeMeta l)));
          ("apiVersion", put true (Memory.tm_APIVersion (list_TypeMeta l)));
          ("metadata", put (C := ListMetaForm) true (list_ListMeta l));
          ("items", put (C := list_codec LabSession_form) false (list_Items l))].
Definition decode_LabSessionList (m : json_map) : result string LabSessionList :=
  kind ← read m "kind"; version ← read m "apiVersion";
  meta ← read (C := ListMetaForm) m "metadata";
  items ← read (C := list_codec LabSession_form) m "items";
  Ok (mkLabSessionList (Memory.mkTypeMeta kind version) meta items).

Context {L : FormLaws F}.

#[export] Instance LabSessionCondition_form_laws : CodecLaws LabSessionCondition_form.
Proof.
  apply struct_laws. intros [] Ht. simpl in Ht.
  unfold decode_LabSessionCondition, encode_LabSessionCondition. by read_fields.
Qed.
#[export] Instance LabSessionStatus_form_laws : CodecLaws LabSessionStatus_form.
Proof.
  apply struct_laws. intros [] (Hc&He&Hs).
  unfold decode_LabSessionStatus, encode_LabSessionStatus, TimeRefForm, ConditionsForm in *.
  by read_fields.
Qed.
#[export] Instance LabSession_form_laws : CodecLaws LabSession_form.
Proof.
  apply struct_laws. intros [[]] [Hm Hst]. simpl in *.
  unfold decode_LabSession, encode_LabSession. by read_fields.
Qed.
End status.
