(* ===== verification/Telemetry.v ===== *)
(** Code that records as it runs: computations that read the clock, append calls of
    a telemetry library to a log, may panic, and run deferred calls. Logging.v,
    Tracing.v and Metrics.v are written in it. *)
From S2P Require Import Prelude.

(** The clock: the time of each reading. *)
Class Clock := clock : nat → time.

Section telemetry.
Context {C S : Type}.

(** The number of clock readings so far, the log, and whatever else the recorded
    code works on. *)
Record world := mkWorld { reads : nat; log : list C; rest : S }.

Definition Tel (A : Type) : Type := world → outcome A * world.
End telemetry.
Arguments world : clear implicits.
Arguments Tel : clear implicits.

#[export] Instance Tel_ret C S : MRet (Tel C S) := λ A a w, (Done a, w).
#[export] Instance Tel_bind C S : MBind (Tel C S) := λ A B f m w,
  match m w with
  | (Done a, w1) => f a w1
  | (Panicked, w1) => (Panicked, w1)
  end.

Section operations.
Context {C S : Type} `{Clock}.

(** A call of the library. *)
Definition emit (c : C) : Tel C S () := λ w,
  (Done (), mkWorld (reads w) (log w ++ [c]) (rest w)).

(** [time.Now] *)
Definition now : Tel C S time := λ w,
  (Done (clock (reads w)), mkWorld (Datatypes.S (reads w)) (log w) (rest w)).

(** [time.Since] *)
Definition since (start : time) : Tel C S duration := t ← now; mret (time_sub t start).

Definition panic {A} : Tel C S A := λ w, (Panicked, w).

(** [defer c]: the call [c] is made when [m] ends, also when it panics. *)
Definition defer {A} (c : C) (m : Tel C S A) : Tel C S A := λ w,
  let '(out, w1) := m w in (out, mkWorld (reads w1) (log w1 ++ [c]) (rest w1)).

(** Code that is not recorded. *)
Definition outside {A} (f : S → outcome A * S) : Tel C S A := λ w,
  let '(out, s) := f (rest w) in (out, mkWorld (reads w) (log w) s).

Lemma Tel_bind_Done {A B} (m : Tel C S A) (f : A → Tel C S B) w a w1 :
  m w = (Done a, w1) → (m ≫= f) w = f a w1.
Proof. intros Hm. unfold mbind, Tel_bind. by rewrite Hm. Qed.

Lemma Tel_bind_Panicked {A B} (m : Tel C S A) (f : A → Tel C S B) w w1 :
  m w = (Panicked, w1) → (m ≫= f) w = (Panicked, w1).
Proof. intros Hm. unfold mbind, Tel_bind. by rewrite Hm. Qed.

(** What [w'] has over [w]: more of the log, from a run that leaves the rest alone. *)
Definition logged (w : world C S) (l : list C) (w' : world C S) : Prop :=
  log w' = log w ++ l ∧ rest w' = rest w.

Lemma logged_refl w : logged w [] w.
Proof. split; [by rewrite app_nil_r|done]. Qed.

Lemma logged_trans w1 l1 w2 l2 w3 : logged w1 l1 w2 → logged w2 l2 w3 → logged w1 (l1 ++ l2) w3.
Proof. intros [H1 R1] [H2 R2]. split; [by rewrite H2, H1, app_assoc|by rewrite R2]. Qed.
End operations.

(** [Duration.Milliseconds] *)
Definition Milliseconds (d : duration) : Z := Z.quot d 1000000.
