(* ===== verification/Logging.v ===== *)
(** Structured logging ([pkg/logging/logger.go]). The logger underneath (logr), the
    context's span and the format of times are parameters; a log line is a call. *)
From S2P Require Import Prelude GoStrings Unstructured Telemetry.

(** [LogLevel] *)
Abbreviation LogLevel := Z (only parsing).
Definition DebugLevel : LogLevel := 0.
Definition InfoLevel : LogLevel := 1.
Definition WarnLevel : LogLevel := 2.
Definition ErrorLevel : LogLevel := 3.

(** [LogLevel.String] *)
Definition LogLevel_String (l : LogLevel) : string :=
  if decide (l = DebugLevel) then "DEBUG"
  else if decide (l = InfoLevel) then "INFO"
  else if decide (l = WarnLevel) then "WARN"
  else if decide (l = ErrorLevel) then "ERROR"
  else "UNKNOWN".

(** [Fields]; a value is what JSON can hold. *)
Abbreviation Fields := (gmap string json).

(** The libraries underneath: logr's loggers; the trace and span id of a context that
    carries a valid span; the text and the type of an error; times in RFC 3339; and
    the order in which Go ranges over a map, which it leaves open. *)
Class LogLib := {
  Logr : Type;
  base_Log : Logr;
  WithName : Logr → string → Logr;
  WithValues : Logr → list (string * json) → Logr;
  Context : Type;
  SpanFromContext : Context → option (string * string);
  Err : Type;
  err_Error : Err → string;
  err_Type : Err → string;
  Errorf : string → Err;
  Format_RFC3339 : time → string;
  range : Fields → list (string * json)
}.

(** Ranging over a map visits each of its entries once. *)
Class LogLaws (L : LogLib) := range_entries m : range m ≡ₚ map_to_list m.

Section logging.
Context `{L : LogLib, Clock} {S : Type}.

(** The calls of logr: [Info] at a verbosity, and [Error] with a nil error. *)
Inductive log_call :=
| LogInfo (base : Logr) (verbosity : nat) (msg : string) (values : list (string * json))
| LogError (base : Logr) (msg : string) (values : list (string * json)).

Abbreviation Log := (Tel log_call S).

Record Logger := mkLogger { lg_base : Logr; lg_name : string }.

Definition NewLogger (name : string) : Logger := mkLogger (WithName base_Log name) name.

Definition WithContext (l : Logger) (ctx : Context) : Logger :=
  match SpanFromContext ctx with
  | Some (trace, span) =>
      mkLogger (WithValues (lg_base l) [("trace_id", JString trace); ("span_id", JString span)])
        (lg_name l)
  | None => mkLogger (lg_base l) (lg_name l)
  end.

Definition WithFields (l : Logger) (fields : Fields) : Logger :=
  mkLogger (WithValues (lg_base l) (range fields)) (lg_name l).

Definition WithLabSession (l : Logger) (namespace sessionID userID : string) : Logger :=
  WithFields l {["namespace" := JString namespace; "session_id" := JString sessionID;
                 "user_id" := JString userID]}.

Definition WithResource (l : Logger) (kind namespace name : string) : Logger :=
  WithFields l {["resource_kind" := JString kind; "resource_namespace" := JString namespace;
                 "resource_name" := JString name]}.

Definition WithError (l : Logger) (err : option Err) : Logger :=
  match err with
  | None => l
  | Some e => WithFields l {["error" := JString (err_Error e); "error_type" := JString (err_Type e);
                             "has_error" := JBool true]}
  end.

(** [for k, v := range fields { all[k] = v }] *)
Definition merge_fields (all fields : Fields) : Fields :=
  foldl (λ all kv, <[kv.1 := kv.2]> all) all (range fields).

Definition logWithFields (l : Logger) (level : LogLevel) (msg : string) (fieldsList : list Fields)
    : Log () :=
  let allFields := foldl merge_fields ∅ fieldsList in
  t ← now;
  let allFields := <["timestamp" := JString (Format_RFC3339 t)]> allFields in
  let allFields := <["level" := JString (LogLevel_String level)]> allFields in
  let allFields := <["logger" := JString (lg_name l)]> allFields in
  let values := range allFields in
  if decide (level = DebugLevel) then emit (LogInfo (lg_base l) 1 msg values)
  else if decide (level = InfoLevel) then emit (LogInfo (lg_base l) 0 msg values)
  else if decide (level = WarnLevel) then emit (LogInfo (lg_base l) 0 ("WARN: " +:+ msg) values)
  else if decide (level = ErrorLevel) then emit (LogError (lg_base l) msg values)
  else mret ().

Definition Debug (l : Logger) (msg : string) (fields : list Fields) : Log () :=
  logWithFields l DebugLevel msg fields.
Definition Info (l : Logger) (msg : string) (fields : list Fields) : Log () :=
  logWithFields l InfoLevel msg fields.
Definition Warn (l : Logger) (msg : string) (fields : list Fields) : Log () :=
  logWithFields l WarnLevel msg fields.
Definition Error (l : Logger) (err : option Err) (msg : string) (fields : list Fields) : Log () :=
  logWithFields (WithError l err) ErrorLevel msg fields.

Definition DebugWithContext (l : Logger) (ctx : Context) (msg : string) (fields : list Fields) :=
  Debug (WithContext l ctx) msg fields.
Definition InfoWithContext (l : Logger) (ctx : Context) (msg : string) (fields : list Fields) :=
  Info (WithContext l ctx) msg fields.
Definition WarnWithContext (l : Logger) (ctx : Context) (msg : string) (fields : list Fields) :=
  Warn (WithContext l ctx) msg fields.
Definition ErrorWithContext (l : Logger) (ctx : Context) (err : option Err) (msg : string)
    (fields : list Fields) :=
  Error (WithContext l ctx) err msg fields.

(** [ReconcileLogger] *)
Record ReconcileLogger := mkReconcileLogger {
  rl_Logger : Logger;
  rl_namespace : string;
  rl_name : string
}.

Definition NewReconcileLogger (name namespace resourceName : string) : ReconcileLogger :=
  mkReconcileLogger (WithFields (NewLogger "reconciler")
    {["controller" := JString name; "resource_namespace" := JString namespace;
      "resource_name" := JString resourceName]}) namespace resourceName.

Definition StartReconcile (rl : ReconcileLogger) (ctx : Context) : Log ReconcileLogger :=
  _ ← InfoWithContext (rl_Logger rl) ctx "Starting reconciliation" [];
  mret (mkReconcileLogger (WithContext (rl_Logger rl) ctx) (rl_namespace rl) (rl_name rl)).

Definition no_error (err : option Err) : bool := match err with None => true | Some _ => false end.

Definition EndReconcile (rl : ReconcileLogger) (ctx : Context) (d : duration) (err : option Err)
    : Log () :=
  let fields := {["duration_ms" := JNumber (Milliseconds d); "success" := JBool (no_error err)]} in
  match err with
  | Some _ => ErrorWithContext (rl_Logger rl) ctx err "Reconciliation failed" [fields]
  | None => InfoWithContext (rl_Logger rl) ctx "Reconciliation completed" [fields]
  end.

Definition LogOperation (rl : ReconcileLogger) (ctx : Context) (operation : string)
    (fn : Log (option Err)) : Log (option Err) :=
  start ← now;
  _ ← DebugWithContext (rl_Logger rl) ctx ("Starting " +:+ operation) [];
  err ← fn;
  d ← since start;
  let fields := {["operation" := JString operation; "duration_ms" := JNumber (Milliseconds d);
                  "success" := JBool (no_error err)]} in
  _ ← match err with
      | Some _ => ErrorWithContext (rl_Logger rl) ctx err
                    ("Operation " +:+ operation +:+ " failed") [fields]
      | None => DebugWithContext (rl_Logger rl) ctx
                    ("Operation " +:+ operation +:+ " completed") [fields]
      end;
  mret err.

(** [EventLogger], which only holds a logger. *)
Definition NewEventLogger : Logger := NewLogger "events".

Definition LogEvent (el : Logger) (ctx : Context) (eventType reason message : string)
    (obj : Fields) : Log () :=
  let fields := {["event_type" := JString eventType; "reason" := JString reason;
                  "object" := JObject obj]} in
  if decide (eventType = "Warning") then WarnWithContext el ctx message [fields]
  else if decide (eventType = "Error") then
    ErrorWithContext el ctx (Some (Errorf ("kubernetes event: " +:+ message))) message [fields]
  else InfoWithContext el ctx message [fields].

(** The package's loggers. *)
Definition ControllerLogger : Logger := NewLogger "controller".
Definition ReconcilerLogger : Logger := NewLogger "reconciler".
Definition MetricsLogger : Logger := NewLogger "metrics".
Definition CircuitLogger : Logger := NewLogger "circuit-breaker".
End logging.
