(* ===== verification/Tracing.v ===== *)
(** Tracing ([pkg/tracing/tracing.go]). OpenTelemetry's tracers, exporters and
    providers are parameters; a call of a span is an entry of the log, and a span is
    known by the position of its start in the log. *)
From S2P Require Import Prelude GoStrings Kube Types PodSettings Events Effects Reconciler Telemetry.

Definition ServiceName : string := "lab-session-controller".
Definition AttrNamespace : string := "k8s.namespace".
Definition AttrResourceName : string := "k8s.resource.name".
Definition AttrResourceKind : string := "k8s.resource.kind".
Definition AttrSessionID : string := "lab.session_id".
Definition AttrUserID : string := "lab.user_id".
Definition AttrOperation : string := "operation".
Definition AttrErrorType : string := "error.type".
Definition AttrRetryAttempt : string := "retry.attempt".

(** [attribute.KeyValue] *)
Inductive attr_value := AString (s : string) | ABool (b : bool) | AInt (z : Z).
Abbreviation KeyValue := (string * attr_value)%type (only parsing).

(** [TracingConfig]; the sample rate is only handed on. *)
Record TracingConfig (Rate : Type) := mkTracingConfig {
  Enabled : bool;
  OTLPEndpoint : string;
  cfg_ServiceName : string;
  ServiceVersion : string;
  SampleRate : Rate
}.
Arguments mkTracingConfig {_} _ _ _ _ _.
Arguments Enabled {_} _.
Arguments OTLPEndpoint {_} _.
Arguments cfg_ServiceName {_} _.
Arguments ServiceVersion {_} _.
Arguments SampleRate {_} _.

Inductive SpanKind := SpanKindServer | SpanKindInternal.
Inductive Code := CodeOk | CodeError.

(** The libraries underneath: the rate of sampling; tracers, the global one by name;
    the exporter, with the endpoint when one is given; the resource; the provider,
    its tracers and its shutdown. *)
Class TraceLib (E : Type) := {
  Rate : Type;
  zero_Rate : Rate;
  OtelTracer : Type;
  global_Tracer : string → OtelTracer;
  Exporter : Type;
  New_Exporter : option string → result E Exporter;
  Resource : Type;
  Merge_Resource : string → string → list (string * string) → result E Resource;
  Provider : Type;
  NewTracerProvider : Exporter → Resource → Rate → Provider;
  provider_Tracer : Provider → string → OtelTracer;
  Shutdown : Provider → option E;
  error_Error : E → string
}.

(** A span, and a context as far as tracing goes: the span it carries. *)
Definition Span : Type := nat.
Definition SpanContext : Type := option Span.

Section tracing.
Context {E : Type} `{T : TraceLib E} `{Clock} {S : Type}.

Record Tracer := mkTracer {
  tr_tracer : OtelTracer;
  tr_config : TracingConfig Rate;
  tr_provider : option Provider
}.

(** The calls of the tracing API. *)
Inductive trace_call :=
| StartSpan_call (tracer : OtelTracer) (parent : SpanContext) (name : string)
    (attrs : list KeyValue) (kind : SpanKind)
| AddEvent (span : Span) (name : string)
| SetAttributes (span : Span) (attrs : list KeyValue)
| SpanRecordError (span : Span) (err : E)
| SetStatus (span : Span) (code : Code) (description : string)
| EndSpan (span : Span).

Abbreviation Trace := (Tel trace_call S).

(** The errors of [NewTracer], wrapped. *)
Inductive TracerError := ErrExporter (e : E) | ErrResource (e : E).

(** [NewTracer], with the provider that it makes the global one, if any. *)
Definition NewTracer (config : TracingConfig Rate)
    : result TracerError Tracer * option Provider :=
  if negb (Enabled config) then (Ok (mkTracer (global_Tracer ServiceName) config None), None)
  else
    let endpoint := if decide (OTLPEndpoint config ≠ "") then Some (OTLPEndpoint config) else None in
    match New_Exporter endpoint with
    | Err e => (Err (ErrExporter e), None)
    | Ok exporter =>
        match Merge_Resource (cfg_ServiceName config) (ServiceVersion config)
                [("environment", "production")] with
        | Err e => (Err (ErrResource e), None)
        | Ok res =>
            let tp := NewTracerProvider exporter res (SampleRate config) in
            (Ok (mkTracer (provider_Tracer tp ServiceName) config (Some tp)), Some tp)
        end
    end.

(** [Close] *)
Definition Close (t : Tracer) : option E :=
  match tr_provider t with Some p => Shutdown p | None => None end.

(** [StartSpan] *)
Definition StartSpan (t : Tracer) (ctx : SpanContext) (name : string) (attrs : list KeyValue)
    (kind : SpanKind) : Trace (SpanContext * Span) := λ w,
  let span := length (log w) in
  (Done (Some span, span),
   mkWorld (reads w) (log w ++ [StartSpan_call (tr_tracer t) ctx name attrs kind]) (rest w)).

Definition ReconcileSpan (t : Tracer) (ctx : SpanContext) (namespace name : string) :=
  StartSpan t ctx "reconcile"
    [(AttrNamespace, AString namespace); (AttrResourceName, AString name);
     (AttrResourceKind, AString "LabSession"); (AttrOperation, AString "reconcile")] SpanKindServer.

Definition OperationSpan (t : Tracer) (ctx : SpanContext) (operation : string)
    (attrs : list KeyValue) :=
  StartSpan t ctx operation ([(AttrOperation, AString operation)] ++ attrs) SpanKindInternal.

(** [PodCreationSpan], [ServiceCreationSpan] and [PVCCreationSpan] differ in the name. *)
Definition creation_span (operation : string) (t : Tracer) (ctx : SpanContext)
    (namespace sessionID : string) :=
  StartSpan t ctx operation
    [(AttrNamespace, AString namespace); (AttrSessionID, AString sessionID);
     (AttrOperation, AString operation)] SpanKindInternal.
Definition PodCreationSpan := creation_span "create-pod".
Definition ServiceCreationSpan := creation_span "create-service".
Definition PVCCreationSpan := creation_span "create-pvc".

Definition RetrySpan (t : Tracer) (ctx : SpanContext) (operation : string) (attempt : Z) :=
  StartSpan t ctx ("retry-" +:+ operation)
    [(AttrOperation, AString operation); (AttrRetryAttempt, AInt attempt)] SpanKindInternal.

Definition RecordError (span : Span) (err : option E) (errorType : string) : Trace () :=
  match err with
  | Some e =>
      _ ← emit (SpanRecordError span e);
      _ ← emit (SetAttributes span [(AttrErrorType, AString errorType); ("error", ABool true)]);
      emit (SetStatus span CodeError (error_Error e))
  | None => mret ()
  end.

Definition RecordSuccess (span : Span) : Trace () :=
  _ ← emit (SetAttributes span [("success", ABool true)]);
  emit (SetStatus span CodeOk "").

Definition AddSessionContext (span : Span) (sessionID userID : string) : Trace () :=
  emit (SetAttributes span [(AttrSessionID, AString sessionID); (AttrUserID, AString userID)]).

Definition AddResourceContext (span : Span) (kind namespace name : string) : Trace () :=
  emit (SetAttributes span [(AttrResourceKind, AString kind); (AttrNamespace, AString namespace);
                            (AttrResourceName, AString name)]).

(** [Result.IsZero] *)
Definition Result_IsZero (r : Result) : bool := negb (Requeue r) && (RequeueAfter r =? 0).

(** What follows the wrapped call: error or success, and the event. *)
Definition record_outcome (span : Span) (err : option E) (errorType name : string) : Trace () :=
  match err with
  | Some _ => _ ← RecordError span err errorType; emit (AddEvent span (name +:+ ".failed"))
  | None => _ ← RecordSuccess span; emit (AddEvent span (name +:+ ".completed"))
  end.

(** [TracedReconciler.Reconcile], of a reconciler wrapped with a tracer. *)
Definition TracedReconcile (reconciler : SpanContext → string → string → Trace (Result * option E))
    (t : Tracer) (ctx : SpanContext) (namespace name : string) : Trace (Result * option E) :=
  x ← ReconcileSpan t ctx namespace name;
  let '(spanCtx, span) := x in
  defer (EndSpan span) (
    start ← now;
    _ ← emit (AddEvent span "reconciliation.started");
    x ← reconciler spanCtx namespace name;
    let '(result, err) := x in
    d ← since start;
    _ ← emit (SetAttributes span [("reconcile.duration_ms", AInt (Milliseconds d));
                                  ("reconcile.requeue", ABool (negb (Result_IsZero result)))]);
    _ ← (if 0 <? RequeueAfter result then
           emit (SetAttributes span [("reconcile.requeue_after_ms",
                                      AInt (Milliseconds (RequeueAfter result)))])
         else mret ());
    _ ← record_outcome span err "reconciliation" "reconciliation";
    mret (result, err)).

(** [Tracer.TracedOperation] *)
Definition TracedOperation (t : Tracer) (ctx : SpanContext) (name : string)
    (fn : SpanContext → Trace (option E)) : Trace (option E) :=
  x ← OperationSpan t ctx name [];
  let '(spanCtx, span) := x in
  defer (EndSpan span) (
    start ← now;
    _ ← emit (AddEvent span (name +:+ ".started"));
    err ← fn spanCtx;
    d ← since start;
    _ ← emit (SetAttributes span [("duration_ms", AInt (Milliseconds d))]);
    _ ← record_outcome span err name name;
    mret err).

(** ** The global tracer; [None] is nil *)

(** [InitTracing], with the new global tracer. *)
Definition InitTracing (config : TracingConfig Rate) (GlobalTracer : option Tracer)
    : option TracerError * option Tracer :=
  match (NewTracer config).1 with
  | Err e => (Some e, GlobalTracer)
  | Ok tracer => (None, Some tracer)
  end.

(** [GetTracer], with the new global tracer. *)
Definition GetTracer (GlobalTracer : option Tracer) : Tracer * option Tracer :=
  match GlobalTracer with
  | Some t => (t, GlobalTracer)
  | None =>
      let t := mkTracer (global_Tracer ServiceName)
        (mkTracingConfig false "" "" "" zero_Rate) None in (t, Some t)
  end.

(** [StartOperation] and [TraceOperation], on the tracer that [GetTracer] gives. *)
Definition StartOperation (GlobalTracer : option Tracer) (ctx : SpanContext) (name : string) :=
  OperationSpan (GetTracer GlobalTracer).1 ctx name [].
Definition TraceOperation (GlobalTracer : option Tracer) (ctx : SpanContext) (name : string)
    (fn : SpanContext → Trace (option E)) :=
  TracedOperation (GetTracer GlobalTracer).1 ctx name fn.
End tracing.
