(* ===== verification/Metrics.v ===== *)
(** Metrics ([pkg/metrics/metrics.go]). A call of a Prometheus vector is an entry of
    the log; floats and the conversion of durations to them are parameters. *)
From S2P Require Import Prelude Unstructured Telemetry.

(** The package's vectors. *)
Inductive metric :=
| labSessionsCreated
| labSessionsDeleted
| labSessionErrors
| labSessionsActive
| reconcileDuration
| podCreationDuration
| resourceUsage.

#[export] Instance metric_eq_dec : EqDecision metric.
Proof. solve_decision. Defined.

Inductive metric_kind := CounterVec | GaugeVec | HistogramVec.

(** Kind, name and labels as declared. *)
Definition declared (m : metric) : metric_kind * string * list string :=
  match m with
  | labSessionsCreated => (CounterVec, "lab_sessions_created_total", ["namespace"; "user_id"])
  | labSessionsDeleted => (CounterVec, "lab_sessions_deleted_total", ["namespace"; "user_id"; "reason"])
  | labSessionErrors => (CounterVec, "lab_session_errors_total", ["namespace"; "session_id"; "error_type"])
  | labSessionsActive => (GaugeVec, "lab_sessions_active", ["namespace"])
  | reconcileDuration =>
      (HistogramVec, "lab_session_reconcile_duration_seconds", ["namespace"; "result"])
  | podCreationDuration =>
      (HistogramVec, "lab_session_pod_creation_duration_seconds", ["namespace"])
  | resourceUsage => (GaugeVec, "lab_session_resource_usage", ["namespace"; "session_id"; "resource_type"])
  end.
Definition labels_of (m : metric) : list string := (declared m).2.

(** [float64], and [Duration.Seconds]. *)
Class FloatLib := { Float : Type; Seconds : duration → Float }.

Section metrics.
Context `{F : FloatLib, Clock} {S : Type}.

(** The methods of a member of a vector that are called. *)
Inductive method := Inc | Dec | Observe (v : Float) | Set_ (v : Float).
Inductive metric_call := Call (m : metric) (labels : list string) (f : method).

Abbreviation Metrics := (Tel metric_call S).

(** [vec.WithLabelValues(labels...).f()]: panics unless there is a value for each label. *)
Definition WithLabelValues (m : metric) (labels : list string) (f : method) : Metrics () :=
  if decide (length labels = length (labels_of m)) then emit (Call m labels f) else panic.

(** [Collector.Init]: [MustRegister], on the collectors that are registered by name,
    panics at one that is. *)
Definition MustRegister (ms : list metric) (registered : list string) : outcome (list string) :=
  foldl (λ o m, names ← o;
    let name := (declared m).1.2 in
    if decide (name ∈ names) then Panicked else Done (names ++ [name])) (Done registered) ms.
Definition Init (registered : list string) : outcome (list string) :=
  MustRegister [labSessionsCreated; labSessionsDeleted; labSessionErrors; labSessionsActive;
    reconcileDuration; podCreationDuration; resourceUsage] registered.

Definition RecordLabSessionCreated (namespace userID : string) : Metrics () :=
  _ ← WithLabelValues labSessionsCreated [namespace; userID] Inc;
  WithLabelValues labSessionsActive [namespace] Inc.

Definition RecordLabSessionDeleted (namespace userID reason : string) : Metrics () :=
  _ ← WithLabelValues labSessionsDeleted [namespace; userID; reason] Inc;
  WithLabelValues labSessionsActive [namespace] Dec.

Definition RecordLabSessionError (namespace sessionID errorType : string) : Metrics () :=
  WithLabelValues labSessionErrors [namespace; sessionID; errorType] Inc.

Definition RecordReconcileDuration (namespace result : string) (d : duration) : Metrics () :=
  WithLabelValues reconcileDuration [namespace; result] (Observe (Seconds d)).

Definition RecordPodCreationDuration (namespace : string) (d : duration) : Metrics () :=
  WithLabelValues podCreationDuration [namespace] (Observe (Seconds d)).

Definition RecordResourceUsage (namespace sessionID resourceType : string) (v : Float) : Metrics () :=
  WithLabelValues resourceUsage [namespace; sessionID; resourceType] (Set_ v).

(** [Timer], with the time it was started at; the collector has no fields. *)
Record Timer := mkTimer { timer_start : time }.

Definition NewTimer : Metrics Timer := t ← now; mret (mkTimer t).

Definition RecordReconcile (t : Timer) (namespace result : string) : Metrics () :=
  d ← since (timer_start t); RecordReconcileDuration namespace result d.

Definition RecordPodCreation (t : Timer) (namespace : string) : Metrics () :=
  d ← since (timer_start t); RecordPodCreationDuration namespace d.

(** [Time.Unix]: seconds since 1970. *)
Definition Unix (t : time) : Z := t `div` second - 62135596800.

(** [Collector.GetMetrics] *)
Definition GetMetrics : Metrics (gmap string json) :=
  t ← now;
  mret {["collector_initialized" := JBool true; "timestamp" := JNumber (Unix t)]}.
End metrics.
