(* ===== verification/Main.v ===== *)
(** The entry points: [cmd/controller/main.go], and [main.go] of the older controller.
    Flags and environment make the options; the start-up is a sequence of calls that
    may end the process. The manager, the client and the libraries' own flags are
    parameters. *)
From S2P Require Import Prelude GoStrings Kube Flags PodSettings.

(** Flags that libraries register, with the variables they set; the values of duration
    and integer flags. *)
Class ProcLib := {
  LibVars : Type;
  lib_defaults : LibVars;
  lib_flags : list (Flag LibVars);
  ParseDuration : string → option Z;
  ParseInt : string → option Z
}.

Section options.
Context `{P : ProcLib}.

(** The variables of [main]: [secureMetrics] and [enableHTTP2] are those of [main.go],
    [rabbitMQURL] that of [cmd/controller]. *)
Record Options := mkOptions {
  metricsAddr : string;
  probeAddr : string;
  enableLeaderElection : bool;
  watchNamespace : string;
  syncPeriod : duration;
  cacheSyncTimeout : duration;
  maxConcurrentReconciles : Z;
  gracefulShutdownTimeout : duration;
  secureMetrics : bool;
  enableHTTP2 : bool;
  rabbitMQURL : string;
  podSettings : PodSettings;
  libVars : LibVars
}.

Definition set_metricsAddr (v : string) (o : Options) : Options :=
  mkOptions v (probeAddr o) (enableLeaderElection o) (watchNamespace o) (syncPeriod o)
    (cacheSyncTimeout o) (maxConcurrentReconciles o) (gracefulShutdownTimeout o)
    (secureMetrics o) (enableHTTP2 o) (rabbitMQURL o) (podSettings o) (libVars o).
Definition set_probeAddr (v : string) (o : Options) : Options :=
  mkOptions (metricsAddr o) v (enableLeaderElection o) (watchNamespace o) (syncPeriod o)
    (cacheSyncTimeout o) (maxConcurrentReconciles o) (gracefulShutdownTimeout o)
    (secureMetrics o) (enableHTTP2 o) (rabbitMQURL o) (podSettings o) (libVars o).
Definition set_enableLeaderElection (v : bool) (o : Options) : Options :=
  mkOptions (metricsAddr o) (probeAddr o) v (watchNamespace o) (syncPeriod o)
    (cacheSyncTimeout o) (maxConcurrentReconciles o) (gracefulShutdownTimeout o)
    (secureMetrics o) (enableHTTP2 o) (rabbitMQURL o) (podSettings o) (libVars o).
Definition set_watchNamespace (v : string) (o : Options) : Options :=
  mkOptions (metricsAddr o) (probeAddr o) (enableLeaderElection o) v (syncPeriod o)
    (cacheSyncTimeout o) (maxConcurrentReconciles o) (gracefulShutdownTimeout o)
    (secureMetrics o) (enableHTTP2 o) (rabbitMQURL o) (podSettings o) (libVars o).
Definition set_syncPeriod (v : duration) (o : Options) : Options :=
  mkOptions (metricsAddr o) (probeAddr o) (enableLeaderElection o) (watchNamespace o) v
    (cacheSyncTimeout o) (maxConcurrentReconciles o) (gracefulShutdownTimeout o)
    (secureMetrics o) (enableHTTP2 o) (rabbitMQURL o) (podSettings o) (libVars o).
Definition set_cacheSyncTimeout (v : duration) (o : Options) : Options :=
  mkOptions (metricsAddr o) (probeAddr o) (enableLeaderElection o) (watchNamespace o)
    (syncPeriod o) v (maxConcurrentReconciles o) (gracefulShutdownTimeout o) (secureMetrics
    o) (enableHTTP2 o) (rabbitMQURL o) (podSettings o) (libVars o).
Definition set_maxConcurrentReconciles (v : Z) (o : Options) : Options :=
  mkOptions (metricsAddr o) (probeAddr o) (enableLeaderElection o) (watchNamespace o)
    (syncPeriod o) (cacheSyncTimeout o) v (gracefulShutdownTimeout o) (secureMetrics o)
    (enableHTTP2 o) (rabbitMQURL o) (podSettings o) (libVars o).
Definition set_gracefulShutdownTimeout (v : duration) (o : Options) : Options :=
  mkOptions (metricsAddr o) (probeAddr o) (enableLeaderElection o) (watchNamespace o)
    (syncPeriod o) (cacheSyncTimeout o) (maxConcurrentReconciles o) v (secureMetrics o)
    (enableHTTP2 o) (rabbitMQURL o) (podSettings o) (libVars o).
Definition set_secureMetrics (v : bool) (o : Options) : Options :=
  mkOptions (metricsAddr o) (probeAddr o) (enableLeaderElection o) (watchNamespace o)
    (syncPeriod o) (cacheSyncTimeout o) (maxConcurrentReconciles o) (gracefulShutdownTimeout
    o) v (enableHTTP2 o) (rabbitMQURL o) (podSettings o) (libVars o).
Definition set_enableHTTP2 (v : bool) (o : Options) : Options :=
  mkOptions (metricsAddr o) (probeAddr o) (enableLeaderElection o) (watchNamespace o)
    (syncPeriod o) (cacheSyncTimeout o) (maxConcurrentReconciles o) (gracefulShutdownTimeout
    o) (secureMetrics o) v (rabbitMQURL o) (podSettings o) (libVars o).
Definition set_rabbitMQURL (v : string) (o : Options) : Options :=
  mkOptions (metricsAddr o) (probeAddr o) (enableLeaderElection o) (watchNamespace o)
    (syncPeriod o) (cacheSyncTimeout o) (maxConcurrentReconciles o) (gracefulShutdownTimeout
    o) (secureMetrics o) (enableHTTP2 o) v (podSettings o) (libVars o).
Definition set_podSettings (v : PodSettings) (o : Options) : Options :=
  mkOptions (metricsAddr o) (probeAddr o) (enableLeaderElection o) (watchNamespace o)
    (syncPeriod o) (cacheSyncTimeout o) (maxConcurrentReconciles o) (gracefulShutdownTimeout
    o) (secureMetrics o) (enableHTTP2 o) (rabbitMQURL o) v (libVars o).
Definition set_libVars (v : LibVars) (o : Options) : Options :=
  mkOptions (metricsAddr o) (probeAddr o) (enableLeaderElection o) (watchNamespace o)
    (syncPeriod o) (cacheSyncTimeout o) (maxConcurrentReconciles o) (gracefulShutdownTimeout
    o) (secureMetrics o) (enableHTTP2 o) (rabbitMQURL o) (podSettings o) v.

(** The flags that both programs register. *)
Definition common_flags : list (Flag Options) :=
  [string_flag "metrics-bind-address" set_metricsAddr;
   string_flag "health-probe-bind-address" set_probeAddr;
   bool_flag "leader-elect" set_enableLeaderElection;
   string_flag "namespace" set_watchNamespace;
   parsed_flag ParseDuration "sync-period" set_syncPeriod;
   parsed_flag ParseDuration "cache-sync-timeout" set_cacheSyncTimeout;
   parsed_flag ParseInt "max-concurrent-reconciles" set_maxConcurrentReconciles;
   parsed_flag ParseDuration "graceful-shutdown-timeout" set_gracefulShutdownTimeout].

(** The flags of the pod settings and of the libraries. *)
Definition part_flags : list (Flag Options) :=
  (part_flag podSettings set_podSettings <$> settings_flags) ++
  (part_flag libVars set_libVars <$> lib_flags).

Definition controller_flags : list (Flag Options) :=
  common_flags ++ [string_flag "rabbitmq-url" set_rabbitMQURL] ++ part_flags.
Definition legacy_flags : list (Flag Options) :=
  common_flags ++ [bool_flag "metrics-secure" set_secureMetrics;
                   bool_flag "enable-http2" set_enableHTTP2] ++ part_flags.

(** The variables before the command line is parsed. *)
Definition empty_settings : PodSettings := mkPodSettings "" "" "" "" "" "" "" "" "" [].
Definition default_options (getenv : string → string) (url : string) : Options :=
  mkOptions ":8080" ":8081" false "" (10 * minute) (2 * minute) 10 (30 * second) false false url
    (BindFlags getenv empty_settings).1 lib_defaults.
End options.

(** * The process *)

Section process.
Context `{K : KubeLib, P : ProcLib} {E : Type}.
Variable url_Parse : string → option (string * string).
Variable IsDNS1123Subdomain : string → list string.

(** A change to the protocols of a TLS configuration. *)
Abbreviation TLSOpt := (list string → list string) (only parsing).
Definition disableHTTP2 : TLSOpt := λ _, ["http/1.1"].

(** [ctrl.Options], as far as it is set. *)
Record ManagerOptions := mkManagerOptions {
  mo_Scheme : list (string * string * string);
  mo_BindAddress : string;
  mo_SecureServing : bool;
  mo_MetricsTLS : list TLSOpt;
  mo_WebhookPort : option Z;
  mo_WebhookTLS : list TLSOpt;
  mo_HealthProbeBindAddress : string;
  mo_LeaderElection : bool;
  mo_LeaderElectionID : string;
  mo_SyncPeriod : duration;
  mo_DefaultNamespaces : option string;
  mo_GracefulShutdownTimeout : duration
}.

(** What [init] adds to the scheme, over the types of client-go. *)
Definition session_kinds : list (string * string * string) :=
  [("dozlab.io", "v1", "LabSession"); ("dozlab.io", "v1", "LabSessionList")].

(** The calls of a start-up. *)
Inductive main_call :=
| SetLogger (vars : LibVars)
| LogError (msg : string)
| LogInfo (msg : string)
| GetConfig
| NewManager (o : ManagerOptions)
| NewRabbitPublisher (url : string)
| SetupController (s : PodSettings) (events : bool) (maxConcurrentReconciles : Z)
| AddHealthzCheck (name : string)
| AddReadyzCheck (name : string)
| StartManager (version : option string)
| ClosePublisher.

(** What the calls answer: whether there is a configuration of the cluster, and the
    errors. *)
Record Answers := mkAnswers {
  a_Config : bool;
  a_NewManager : option E;
  a_Setup : option E;
  a_AddCheck : string → option E;
  a_Start : option E
}.

(** A part of the start-up: its calls, and the exit status if it ends the process. *)
Definition Proc (A : Type) : Type := list main_call * (Z + A).
Definition proc_bind {A B} (m : Proc A) (f : A → Proc B) : Proc B :=
  match m with
  | (l, inl n) => (l, inl n)
  | (l, inr a) => let '(l', r) := f a in (l ++ l', r)
  end.
#[export] Instance Proc_ret : MRet Proc := λ A a, ([], inr a).
#[export] Instance Proc_bind : MBind Proc := λ A B f m, proc_bind m f.

Definition call (c : main_call) : Proc () := ([c], inr ()).
(** [os.Exit], which runs no deferred call. *)
Definition os_Exit {A} (n : Z) : Proc A := ([], inl n).
(** [defer c] before [m]. *)
Definition deferred {A} (c : main_call) (m : Proc A) : Proc A :=
  match m with (l, inl n) => (l, inl n) | (l, inr a) => (l ++ [c], inr a) end.

(** A call that ends the process with status 1 when it answers with an error. *)
Definition must (c : main_call) (err : option E) (msg : string) : Proc () :=
  _ ← call c;
  match err with Some _ => _ ← call (LogError msg); os_Exit 1 | None => mret () end.

(** [flag.Parse] *)
Definition parse_flags (flags : list (Flag Options)) (args : list string) (o : Options)
    : Proc Options :=
  match Parse flags args o with
  | Parsed o _ => mret o
  | HelpAsked => os_Exit 0
  | BadFlags => os_Exit 2
  end.

(** [ctrl.GetConfigOrDie] *)
Definition GetConfigOrDie (a : Answers) : Proc () :=
  _ ← call GetConfig; if a_Config a then mret () else os_Exit 1.

(** The flags, the logger, and the check of the settings. *)
Definition read_options (flags : list (Flag Options)) (args : list string) (o : Options)
    : Proc Options :=
  o ← parse_flags flags args o;
  _ ← call (SetLogger (libVars o));
  match Validate url_Parse IsDNS1123Subdomain (podSettings o) with
  | [] => mret o
  | _ => _ ← call (LogError "invalid lab pod settings"); os_Exit 1
  end.

Definition watch_namespace (o : Options) : Proc (option string) :=
  if decide (watchNamespace o ≠ "")
  then _ ← call (LogInfo "watching specific namespace"); mret (Some (watchNamespace o))
  else mret None.

(** [getVersion] *)
Definition getVersion (getenv : string → string) : string :=
  let version := getenv "VERSION" in if decide (version = "") then "dev" else version.

(** [main] of [cmd/controller], with the exit status. *)
Definition controller_main (getenv : string → string) (args : list string) (a : Answers)
    : Proc () :=
  o ← read_options controller_flags args (default_options getenv (getenv "RABBITMQ_URL"));
  namespaces ← watch_namespace o;
  _ ← GetConfigOrDie a;
  _ ← must (NewManager (mkManagerOptions session_kinds (metricsAddr o) false [] (Some 9443) []
        (probeAddr o) (enableLeaderElection o) "dozlab-controller-leader-election" (syncPeriod o)
        namespaces (gracefulShutdownTimeout o))) (a_NewManager a) "unable to start manager";
  let rest (events : bool) :=
    _ ← must (SetupController (podSettings o) events (maxConcurrentReconciles o)) (a_Setup a)
          "unable to create controller";
    _ ← must (AddHealthzCheck "healthz") (a_AddCheck a "healthz") "unable to set up health check";
    _ ← must (AddReadyzCheck "readyz") (a_AddCheck a "readyz") "unable to set up ready check";
    _ ← must (AddReadyzCheck "cache-sync") (a_AddCheck a "cache-sync")
          "unable to set up cache sync check";
    _ ← call (LogInfo "starting manager");
    must (StartManager (Some (getVersion getenv))) (a_Start a) "problem running manager" in
  if decide (rabbitMQURL o ≠ "") then
    _ ← call (NewRabbitPublisher (rabbitMQURL o));
    deferred ClosePublisher (
      _ ← call (LogInfo "publishing LabSession phase changes"); rest true)
  else
    _ ← call (LogInfo "RABBITMQ_URL not set; LabSession phase changes are not published");
    rest false.

(** [main] of [main.go]. *)
Definition legacy_main (getenv : string → string) (args : list string) (a : Answers) : Proc () :=
  o ← read_options legacy_flags args (default_options getenv "");
  let tlsOpts := if negb (enableHTTP2 o) then [disableHTTP2] else [] in
  namespaces ← watch_namespace o;
  _ ← GetConfigOrDie a;
  _ ← must (NewManager (mkManagerOptions session_kinds (metricsAddr o) (secureMetrics o) tlsOpts
        None tlsOpts (probeAddr o) (enableLeaderElection o) "dozlab-controller-leader-election"
        (syncPeriod o) namespaces (gracefulShutdownTimeout o))) (a_NewManager a)
        "unable to start manager";
  _ ← must (SetupController (podSettings o) false (maxConcurrentReconciles o)) (a_Setup a)
        "unable to create controller";
  _ ← must (AddHealthzCheck "healthz") (a_AddCheck a "healthz") "unable to set up health check";
  _ ← must (AddReadyzCheck "readyz") (a_AddCheck a "readyz") "unable to set up ready check";
  _ ← must (AddHealthzCheck "controller-dependencies") (a_AddCheck a "controller-dependencies")
        "unable to set up controller dependencies health check";
  _ ← must (AddReadyzCheck "cache-sync") (a_AddCheck a "cache-sync")
        "unable to set up cache sync check";
  _ ← call (LogInfo "starting manager");
  must (StartManager None) (a_Start a) "problem running manager".

(** The exit status: 0 when [main] returns. *)
Definition exit_status (m : Proc ()) : Z := match m.2 with inl n => n | inr _ => 0 end.

(** The readiness check on the cache, given whether it synced within the timeout. *)
Definition cache_sync_check (synced : bool) (timeout : string) : option string :=
  if negb synced then Some ("cache not synced within timeout (" +:+ timeout +:+ ")") else None.

(** [checkControllerDependencies], given the answers of [kubernetes.NewForConfig] and
    [ServerVersion]; the context with a timeout that it makes is not used. *)
Inductive DependencyError := ErrCreateClient (e : E) | ErrConnect (e : E).
Definition checkControllerDependencies (a : Answers) (newForConfig serverVersion : option E)
    : Proc (option DependencyError) :=
  _ ← GetConfigOrDie a;
  match newForConfig with
  | Some e => mret (Some (ErrCreateClient e))
  | None => match serverVersion with
            | Some e => mret (Some (ErrConnect e))
            | None => mret None
            end
  end.
End process.
