(* ===== verification/ReconcilerLogic.v ===== *)
(** Reasoning about the reconciler's handlers: the [wp] rules of the monad [M],
    the tactic that runs a handler symbolically, and the specifications of the
    handlers' building blocks (failing a session, ensuring an object). *)
From S2P Require Import Prelude GoStrings Kube KubeTypes Types PodSettings ResourceBuilder Ingress.
From S2P Require Import Usage Events Effects SSHKeys Reconciler.

Section logic.
Context `{K : KubeLib}.
Context (R : event → Prop) (G : list event → op → Prop).

Lemma wp_M_bind {A B} (m : M A) (f : A → M B) s Q h :
  wp R G (m s) (λ h out, match out with
    | Done x => wp R G (f x.1 x.2) Q h | Panicked => Q h Panicked end) h →
  wp R G ((m ≫= f) s) Q h.
Proof. intros H. apply wp_bind. eapply wp_mono; [|exact H]. by intros h' [[a s']|]. Qed.

Lemma wp_M_ret {A} (a : A) s (Q : list event → outcome (A * LabSession) → Prop) h :
  Q h (Done (a, s)) → wp R G ((mret a : M A) s) Q h.
Proof. done. Qed.

Lemma wp_get_session s (Q : list event → outcome (LabSession * LabSession) → Prop) h :
  Q h (Done (s, s)) → wp R G (get_session s) Q h.
Proof. done. Qed.

Lemma wp_modify f s (Q : list event → outcome (unit * LabSession) → Prop) h :
  Q h (Done (tt, f s)) → wp R G (modify f s) Q h.
Proof. done. Qed.

Lemma wp_do_call o s (Q : list event → outcome (resp o * LabSession) → Prop) h :
  G h o → (∀ r, R (Ev o r) → Q (h ++ [Ev o r]) (Done (r, s))) → wp R G (do_call o s) Q h.
Proof. intros Ho HQ. split; [done|]. exact HQ. Qed.

Lemma wp_M_lift {A} (p : prog A) s (Q : list event → outcome (A * LabSession) → Prop) h :
  wp R G p (λ h out, match out with
    | Done a => Q h (Done (a, s)) | Panicked => Q h Panicked end) h →
  wp R G (lift p s) Q h.
Proof. intros H. apply wp_bind. eapply wp_mono; [|exact H]. by intros h' [a|]. Qed.

Lemma wp_lift_outcome {A} (o : outcome A) s
    (Q : list event → outcome (A * LabSession) → Prop) h :
  (∀ a, o = Done a → Q h (Done (a, s))) → (o = Panicked → Q h Panicked) →
  wp R G (lift (lift_outcome o) s) Q h.
Proof. intros H1 H2. apply wp_M_lift. destruct o; simpl; auto. Qed.

Lemma wp_write_session o answer s Q h :
  G h (o s) →
  (∀ r, R (Ev (o s) r) → Q (h ++ [Ev (o s) r])
     (Done (match answer s r with Ok s' => (None, s') | Err e => (Some e, s) end))) →
  wp R G (write_session o answer s) Q h.
Proof.
  intros Ho HQ. split; [done|]. intros r Hr. specialize (HQ r Hr). simpl in *.
  by destruct (answer s r).
Qed.

Lemma wp_StatusUpdate s (Q : list event → outcome (option error * LabSession) → Prop) h :
  G h (UpdateStatus s) →
  (∀ s', R (Ev (UpdateStatus s) (Ok s')) →
     Q (h ++ [Ev (UpdateStatus s) (Ok s')]) (Done (None, s'))) →
  (∀ e, R (Ev (UpdateStatus s) (Err e)) →
     Q (h ++ [Ev (UpdateStatus s) (Err e)]) (Done (Some e, s))) →
  wp R G (StatusUpdate s) Q h.
Proof. intros. apply wp_write_session; [done|]. intros [s'|e] ?; auto. Qed.

Lemma wp_Update s (Q : list event → outcome (option error * LabSession) → Prop) h :
  G h (UpdateSession s) →
  (∀ s', R (Ev (UpdateSession s) (Ok s')) →
     Q (h ++ [Ev (UpdateSession s) (Ok s')]) (Done (None, s'))) →
  (∀ e, R (Ev (UpdateSession s) (Err e)) →
     Q (h ++ [Ev (UpdateSession s) (Err e)]) (Done (Some e, s))) →
  wp R G (Update s) Q h.
Proof. intros. apply wp_write_session; [done|]. intros [s'|e] ?; auto. Qed.

Lemma wp_Patch from s (Q : list event → outcome (option error * LabSession) → Prop) h :
  G h (PatchSession from s) →
  (∀ s', R (Ev (PatchSession from s) (Ok s')) →
     Q (h ++ [Ev (PatchSession from s) (Ok s')]) (Done (None, s'))) →
  (∀ e, R (Ev (PatchSession from s) (Err e)) →
     Q (h ++ [Ev (PatchSession from s) (Err e)]) (Done (Some e, s))) →
  wp R G (Patch from s) Q h.
Proof. intros. apply wp_write_session; [done|]. intros [s'|e] ?; auto. Qed.

End logic.

(** Runs a handler symbolically: one rule of the monad per step, a case split at
    each answer the code tests. Guards and postconditions are left as goals. *)
Ltac wp_simp := cbn beta iota; cbn [fst snd].
Ltac head_of p := lazymatch p with ?f _ => head_of f | _ => p end.
Ltac wp_step :=
  lazymatch goal with
  | |- wp _ _ (match ?x with _ => _ end _) _ _ => destruct x eqn:?
  | |- wp _ _ (match ?x with _ => _ end) _ _ => destruct x eqn:?
  | |- wp _ _ (lift (lift_outcome _) _) _ _ =>
      apply wp_lift_outcome; [intros ? ?; wp_simp|intros ?; wp_simp]
  | |- wp _ _ ?p _ _ =>
      let f := head_of p in
      lazymatch f with
      | @mbind => apply wp_M_bind
      | @mret => apply wp_M_ret; wp_simp
      | @get_session => apply wp_get_session; wp_simp
      | @modify => apply wp_modify; wp_simp
      | @StatusUpdate => apply wp_StatusUpdate; [|intros ? ?; wp_simp|intros ? ?; wp_simp]
      | @Update => apply wp_Update; [|intros ? ?; wp_simp|intros ? ?; wp_simp]
      | @Patch => apply wp_Patch; [|intros ? ?; wp_simp|intros ? ?; wp_simp]
      | @do_call =>
          lazymatch goal with
          | |- wp ?R ?G (do_call ?o ?s) ?Q ?h =>
              apply (wp_do_call R G o s Q h); [|intros ? ?; wp_simp]
          end
      end
  end.
Ltac wp_run := repeat wp_step.

(** * Conditions *)

(** The status of a condition, by type. *)
Fixpoint cond_status (cs : list Condition) (t : string) : option string :=
  match cs with
  | [] => None
  | c :: cs' => if decide (cond_Type c = t) then Some (cond_Status c) else cond_status cs' t
  end.

Lemma set_condition_in_status cs new t :
  cond_status (set_condition_in cs new) t =
  if decide (cond_Type new = t) then Some (cond_Status new) else cond_status cs t.
Proof.
  induction cs as [|c cs IH]; simpl; [done|].
  repeat (case_decide; simpl); try congruence.
Qed.

Lemma set_condition_in_types cs new :
  cond_Type <$> set_condition_in cs new =
  if decide (cond_Type new ∈ cond_Type <$> cs) then cond_Type <$> cs
  else (cond_Type <$> cs) ++ [cond_Type new].
Proof.
  induction cs as [|c cs IH]; [by rewrite decide_False by set_solver|].
  csimpl. repeat (case_decide; csimpl); try congruence; try set_solver.
  all: rewrite IH; repeat case_decide; set_solver.
Qed.

(** * What the session's objects are called *)

Section ensure.
Context `{K : KubeLib}.

(** The names of the objects of kind [k] of a session. *)
Definition object_names (k : Kind) (sessionID : string) : list string :=
  match k with
  | KPVC => ["vm-data-" +:+ sessionID; "vscode-data-" +:+ sessionID]
  | KSecret => ["lab-session-" +:+ sessionID +:+ "-ssh"]
  | KPod => ["lab-session-" +:+ sessionID]
  | KService => ["lab-service-" +:+ sessionID]
  | KIngress => ["lab-ingress-" +:+ sessionID]
  end.

(** An object the reconciler may create for [s]: one of its names, in its
    namespace, with the session as controller. *)
Definition owned_new (s : LabSession) (k : Kind) (o : obj k) : Prop :=
  ∃ m, SetControllerReference (ObjMeta s) m = Ok (obj_meta k o) ∧
       meta_Namespace m = s_Namespace s ∧ meta_Name m ∈ object_names k (SessionID (Spec s)).

(** The calls [tr] show that the object described by [m] exists: it was read
    and is controlled by the session, it was created, or it already existed. *)
Definition ensured (s : LabSession) (k : Kind) (m : ObjectMeta) (tr : list event) : Prop :=
  (∃ found, Ev (Get k (meta_Namespace m) (meta_Name m)) (Ok found) ∈ tr ∧
            IsControlledBy (obj_meta k found) (ObjMeta s) = true) ∨
  (∃ o created, Ev (Create k o) (Ok created) ∈ tr ∧ obj_meta k o = m) ∨
  (∃ o e, Ev (Create k o) (Err e) ∈ tr ∧ obj_meta k o = m ∧ IsAlreadyExists e = true).

(** Some object of kind [k] and base name [n] was ensured. *)
Definition ensured_name (s : LabSession) (k : Kind) (n : string) (tr : list event) : Prop :=
  ∃ m m', SetControllerReference (ObjMeta s) m = Ok m' ∧ meta_Name m = n ∧
          meta_Namespace m = s_Namespace s ∧ ensured s k m' tr.

Lemma ensured_app s k m tr tr' : ensured s k m tr → ensured s k m (tr ++ tr').
Proof.
  intros [(o & ? & ?)|[(o & c & ? & ?)|(o & e & ? & ? & ?)]].
  - left. exists o. rewrite elem_of_app. auto.
  - right; left. exists o, c. rewrite elem_of_app. auto.
  - right; right. exists o, e. rewrite elem_of_app. auto.
Qed.

Lemma ensured_name_app s k n tr tr' : ensured_name s k n tr → ensured_name s k n (tr ++ tr').
Proof. intros (m & m' & ? & ? & ? & ?). exists m, m'. eauto using ensured_app. Qed.

Lemma ensured_name_prefix s k n tr tr' :
  tr `prefix_of` tr' → ensured_name s k n tr → ensured_name s k n tr'.
Proof. intros [x ->]. apply ensured_name_app. Qed.

(** Sessions that differ in their status only, and not in their phase. *)
Definition same_session (s s' : LabSession) : Prop :=
  ObjMeta s' = ObjMeta s ∧ Spec s' = Spec s ∧ Phase (Status s') = Phase (Status s) ∧
  StartTime (Status s') = StartTime (Status s).

#[global] Instance same_session_preorder : PreOrder same_session.
Proof.
  split; [by intros s|]. intros s1 s2 s3 (?&?&?&?) (?&?&?&?). repeat split; congruence.
Qed.

(** A session whose objects the builder can build. *)
Definition buildable (r : LabSessionReconciler) (s : LabSession) : Prop :=
  ∀ s', Spec s' = Spec s → s_Namespace s' = s_Namespace s →
    (∃ pod, BuildPod (r_ResourceBuilder r) s' = Done pod) ∧
    (∃ pvcs, BuildPVCs (r_ResourceBuilder r) s' = Done pvcs).

Lemma buildable_same r s s' :
  Spec s' = Spec s → ObjMeta s' = ObjMeta s → buildable r s → buildable r s'.
Proof. intros Hsp Hm Hb s2 Hsp2 Hns. apply Hb; [congruence|]. unfold s_Namespace in *. congruence. Qed.

End ensure.

(** * Specifications of the building blocks *)

Lemma BuildPod_meta `{K : KubeLib} rb s pod : BuildPod rb s = Done pod →
  meta_Name (pod_Meta pod) = "lab-session-" +:+ SessionID (Spec s) ∧
  meta_Namespace (pod_Meta pod) = s_Namespace s.
Proof.
  unfold BuildPod. intros H. by inv_outcome H.
Qed.

Lemma BuildPVCs_meta `{K : KubeLib} rb s pvcs : BuildPVCs rb s = Done pvcs →
  ∃ q1 q2, pvcs = [build_pvc rb s ("vm-data-" +:+ SessionID (Spec s)) q1;
                   build_pvc rb s ("vscode-data-" +:+ SessionID (Spec s)) q2].
Proof.
  unfold BuildPVCs. intros H. inv_outcome H. eauto.
Qed.

Lemma BuildIngress_meta `{K : KubeLib} rb s :
  meta_Name (ing_Meta (BuildIngress rb s)) = "lab-ingress-" +:+ SessionID (Spec s) ∧
  meta_Namespace (ing_Meta (BuildIngress rb s)) = s_Namespace s.
Proof. simpl. by case_decide. Qed.

Section specs.
Context `{K : KubeLib, KL : !KubeLaws K}.
Context (R : event → Prop) (G : list event → op → Prop).
Context (G_now : ∀ h, G h Now).
Context (G_get : ∀ h k ns n, G h (Get k ns n)).
Context (G_event : ∀ h t r m, G h (RecordEvent t r m)).

Lemma owned_new_intro s k (o : obj k) m m' :
  SetControllerReference (ObjMeta s) m = Ok m' → meta_Namespace m = s_Namespace s →
  meta_Name m ∈ object_names k (SessionID (Spec s)) → owned_new s k (with_meta k o m').
Proof.
  intros Hm Hns Hn. exists m. rewrite obj_meta_with_meta. auto.
Qed.

Lemma prefix_snoc (h h' : list event) e : h `prefix_of` h' → h `prefix_of` h' ++ [e].
Proof. apply prefix_app_r. Qed.
Hint Resolve prefix_snoc : core.

(** The object a step ensures, from the last calls of the history. *)
Lemma ensured_found s k m found h : IsControlledBy (obj_meta k found) (ObjMeta s) = true →
  ensured s k m (h ++ [Ev (Get k (meta_Namespace m) (meta_Name m)) (Ok found)]).
Proof. intros Hf. left. exists found. rewrite elem_of_app. set_solver. Qed.

Lemma ensured_created s k o m created h : obj_meta k o = m →
  ensured s k m (h ++ [Ev (Create k o) (Ok created)]).
Proof. intros <-. right; left. exists o, created. rewrite elem_of_app. set_solver. Qed.

Lemma ensured_exists s k o m e h : obj_meta k o = m → IsAlreadyExists e = true →
  ensured s k m (h ++ [Ev (Create k o) (Err e)]).
Proof. intros <- He. right; right. exists o, e. rewrite elem_of_app. set_solver. Qed.

Lemma ensured_name_intro s k m m' n h :
  SetControllerReference (ObjMeta s) m = Ok m' → meta_Name m = n →
  meta_Namespace m = s_Namespace s → ensured s k m' h → ensured_name s k n h.
Proof. intros. exists m, m'. auto. Qed.

(** The postcondition of the ensure steps: the history grows, the session keeps
    its identity and phase, and a step without error ensured its object. *)
Definition ensure_post (s : LabSession) (h : list event) (P : list event → Prop)
    : list event → outcome (option error * LabSession) → Prop :=
  λ h' out, h `prefix_of` h' ∧
    match out with
    | Done (e, s') => same_session s s' ∧ (e = None → P h')
    | Panicked => True
    end.

(** Closes the goals of an ensure step whose object is described by [m], with
    [Hn] and [Hns] its name and namespace. *)
Ltac close_ensured :=
  first [ by apply ensured_found | by apply ensured_created | by apply ensured_exists
        | apply ensured_app; close_ensured ].
Ltac close_ensure_step Hn Hns :=
  try solve [auto];
  try solve [split; [repeat apply prefix_snoc; reflexivity|];
    first [exact I | split; [by repeat split|]];
    first [by intros [=] | intros _; eapply ensured_name_intro;
      [eassumption | exact Hn | exact Hns | close_ensured]]].

Lemma wp_ensurePod r s h :
  (∀ h' o, h `prefix_of` h' → owned_new s KPod o → G h' (Create KPod o)) →
  wp R G (ensurePod r s)
    (ensure_post s h (ensured_name s KPod ("lab-session-" +:+ SessionID (Spec s)))) h.
Proof.
  intros HC. unfold ensurePod. wp_run.
  all: try match goal with Hb : BuildPod _ _ = Done _ |- _ =>
    destruct (BuildPod_meta _ _ _ Hb) as [Hn Hns] end.
  all: close_ensure_step Hn Hns.
  - apply HC; [auto|]. eapply owned_new_intro; [done..|]. rewrite Hn. set_solver.
Qed.

Lemma wp_ensureService s h :
  (∀ h' o, h `prefix_of` h' → owned_new s KService o → G h' (Create KService o)) →
  wp R G (ensureService s)
    (ensure_post s h (ensured_name s KService ("lab-service-" +:+ SessionID (Spec s)))) h.
Proof.
  intros HC. unfold ensureService. wp_run.
  all: pose proof (eq_refl : meta_Name (svc_Meta (BuildService s)) = _) as Hn;
    pose proof (eq_refl : meta_Namespace (svc_Meta (BuildService s)) = _) as Hns.
  all: close_ensure_step Hn Hns.
  apply HC; [auto|]. eapply owned_new_intro; [done..|]. set_solver.
Qed.

Lemma wp_ensureIngress r s h :
  (∀ h' o, h `prefix_of` h' → owned_new s KIngress o → G h' (Create KIngress o)) →
  wp R G (ensureIngress r s)
    (ensure_post s h (ensured_name s KIngress ("lab-ingress-" +:+ SessionID (Spec s)))) h.
Proof.
  intros HC. unfold ensureIngress. wp_run.
  all: destruct (BuildIngress_meta (r_ResourceBuilder r) s) as [Hn Hns].
  all: close_ensure_step Hn Hns.
  apply HC; [auto|]. eapply owned_new_intro; [done..|]. rewrite Hn. set_solver.
Qed.

(** The rest of the loop, once the claim [pvc] is ensured. *)
Lemma ensure_post_cons s h h1 pvc rest out h' :
  h `prefix_of` h1 → ensured_name s KPVC (meta_Name (pvc_Meta pvc)) h1 →
  ensure_post s h1 (λ h', Forall (λ pvc,
    ensured_name s KPVC (meta_Name (pvc_Meta pvc)) h') rest) h' out →
  ensure_post s h (λ h', Forall (λ pvc,
    ensured_name s KPVC (meta_Name (pvc_Meta pvc)) h') (pvc :: rest)) h' out.
Proof.
  intros Hh Hpvc [Hh1 Hout]. split; [by etrans|].
  destruct out as [[e s']|]; [|done]. destruct Hout as [Hs He]. split; [done|].
  intros ->. constructor; [|auto]. by eapply ensured_name_prefix.
Qed.

Lemma wp_ensurePVCs_loop s pvcs : ∀ h,
  Forall (λ pvc, meta_Namespace (pvc_Meta pvc) = s_Namespace s ∧
    meta_Name (pvc_Meta pvc) ∈ object_names KPVC (SessionID (Spec s))) pvcs →
  (∀ h' o, h `prefix_of` h' → owned_new s KPVC o → G h' (Create KPVC o)) →
  wp R G (ensurePVCs_loop pvcs s) (ensure_post s h (λ h',
    Forall (λ pvc, ensured_name s KPVC (meta_Name (pvc_Meta pvc)) h') pvcs)) h.
Proof.
  induction pvcs as [|pvc rest IH]; intros h Hpvcs HC; cbn [ensurePVCs_loop].
  - wp_run. by split; [|split; [|constructor]].
  - apply Forall_cons in Hpvcs as [[Hns Hn] Hrest]. wp_run.
    all: close_ensure_step (@eq_refl string (meta_Name (pvc_Meta pvc))) Hns.
    + eapply wp_mono; [|apply IH; [done|intros; apply HC; [etrans; [|done]; auto|done]]].
      intros h' out. apply ensure_post_cons; [auto|].
      eapply ensured_name_intro; [done..|]. by apply ensured_found.
    + apply HC; [auto|]. by eapply owned_new_intro.
    + eapply wp_mono; [|apply IH; [done|intros; apply HC; [etrans; [|done]; auto|done]]].
      intros h' out. apply ensure_post_cons; [auto|].
      eapply ensured_name_intro; [done..|]. close_ensured.
    + eapply wp_mono; [|apply IH; [done|intros; apply HC; [etrans; [|done]; auto|done]]].
      intros h' out. apply ensure_post_cons; [auto|].
      eapply ensured_name_intro; [done..|]. close_ensured.
Qed.

(** Both claims of the session are ensured. *)
Definition ensured_pvcs (s : LabSession) (h : list event) : Prop :=
  Forall (λ n, ensured_name s KPVC n h) (object_names KPVC (SessionID (Spec s))).

Lemma wp_ensurePVCs r s h :
  (∀ h' o, h `prefix_of` h' → owned_new s KPVC o → G h' (Create KPVC o)) →
  wp R G (ensurePVCs r s) (ensure_post s h (ensured_pvcs s)) h.
Proof.
  intros HC. unfold ensurePVCs. wp_run; [|by split].
  destruct (BuildPVCs_meta _ _ _ H) as (q1 & q2 & ->).
  eapply wp_mono; [|apply wp_ensurePVCs_loop; [|done]].
  - intros h' [[e s']|] [Hh Hout]; (split; [done|]); [|done].
    destruct Hout as [Hs He]. split; [done|]. intros ->.
    specialize (He eq_refl). apply Forall_cons in He as [H1 He].
    apply Forall_cons in He as [H2 _]. by repeat constructor.
  - repeat constructor; simpl; set_solver.
Qed.

Lemma wp_EnsureSSHKeySecret s h :
  (G h GenerateKey) → (∀ h' n, h `prefix_of` h' → G h' (RandRead n)) →
  (∀ h' o, h `prefix_of` h' → owned_new s KSecret o → G h' (Create KSecret o)) →
  wp R G (EnsureSSHKeySecret (ObjMeta s) (SessionID (Spec s)) (s_Namespace s))
    (λ h' out, h `prefix_of` h' ∧ match out with
      | Done (Ok _) => ensured_name s KSecret (SSHKeySecretName (SessionID (Spec s))) h'
      | _ => True end) h.
Proof.
  intros HK HR HC. unfold EnsureSSHKeySecret, BuildSSHKeySecret, openSSHPrivateKey, call.
  simpl. split; [done|]. intros [kp|e] _; simpl; [|by auto].
  split; [auto|]. intros [check|e] _; simpl; [|by auto].
  destruct (SetControllerReference _ _) as [m|e] eqn:Hm; simpl; [|by auto].
  split.
  - apply HC; [auto|]. eexists. split; [exact Hm|]. split; [done|]. simpl. set_solver.
  - intros [o|e] _; simpl.
    + split; [auto|]. eapply ensured_name_intro; [exact Hm|done..|]. close_ensured.
    + destruct (IsAlreadyExists e) eqn:?; simpl; (split; [auto|]); [|done].
      eapply ensured_name_intro; [exact Hm|done..|]. close_ensured.
Qed.

(** Failing a session writes the phase Failed and nothing else. *)
Lemma wp_updateStatusFailed r message err s h :
  (∀ h' s', h `prefix_of` h' → Phase (Status s') = SessionPhaseFailed →
     ObjMeta s' = ObjMeta s → Spec s' = Spec s → Message (Status s') = message →
     cond_status (Conditions (Status s')) ConditionTypeReady = Some ConditionFalse →
     G h' (UpdateStatus s')) →
  wp R G (updateStatusFailed r message err s) (λ h' out, h `prefix_of` h') h.
Proof.
  intros HU. unfold updateStatusFailed, sessionPod, setCondition. wp_run.
  all: repeat apply prefix_snoc; try done; auto.
  all: apply HU; [auto|try done..].
  all: simpl; rewrite set_condition_in_status; by rewrite decide_True.
Qed.

Lemma wp_handleCreateError r message err s h :
  (∀ h' s', h `prefix_of` h' → Phase (Status s') = SessionPhaseFailed →
     ObjMeta s' = ObjMeta s → Spec s' = Spec s → G h' (UpdateStatus s')) →
  wp R G (handleCreateError r message err s) (λ h' out, h `prefix_of` h') h.
Proof.
  intros HU. unfold handleCreateError. wp_run; auto.
  all: eapply wp_mono; [|apply wp_updateStatusFailed; intros;
    apply HU; [by etrans; [|done]; auto|done..]].
  all: intros h' [[u s']|] Hh; wp_simp; [|by etrans; [|exact Hh]; auto].
  all: wp_run; by etrans; [|exact Hh]; auto.
Qed.
End specs.
