(* ===== verification/ReconcilerGuard.v ===== *)
(** The guard of the reconciler: what is known of the history whenever the
    reconciler writes. One [wp] proof per handler establishes it; the theorems
    of ReconcilerSafety.v read it off. *)
From S2P Require Import Prelude GoStrings Kube KubeTypes Types PodSettings ResourceBuilder Ingress.
From S2P Require Import Usage Events Effects SSHKeys Reconciler ReconcilerLogic.

(** The moves of the state machine: from the phase the session was read in to
    the phase that is written. *)
Inductive phase_step : string → string → Prop :=
| step_start p : p = "" ∨ p = SessionPhasePending → phase_step p SessionPhaseCreating
| step_running : phase_step SessionPhaseCreating SessionPhaseRunning
| step_create_failed : phase_step SessionPhaseCreating SessionPhaseFailed
| step_stay : phase_step SessionPhaseRunning SessionPhaseRunning
| step_run_failed : phase_step SessionPhaseRunning SessionPhaseFailed.

Section guard.
Context `{K : KubeLib, KL : !KubeLaws K}.

(** What must have been ensured before an object of kind [k] is created. *)
Definition prerequisites (s : LabSession) (k : Kind) (h : list event) : Prop :=
  let sid := SessionID (Spec s) in
  let secret := ensured_name s KSecret (SSHKeySecretName sid) h in
  let pod := ensured_name s KPod ("lab-session-" +:+ sid) h in
  let service := ensured_name s KService ("lab-service-" +:+ sid) h in
  match k with
  | KPVC => True
  | KSecret => ensured_pvcs s h
  | KPod => ensured_pvcs s h ∧ secret
  | KService => ensured_pvcs s h ∧ secret ∧ pod
  | KIngress => ensured_pvcs s h ∧ secret ∧ pod ∧ service
  end.

(** All the session's objects were ensured. *)
Definition all_ensured (s : LabSession) (h : list event) : Prop :=
  prerequisites s KIngress h ∧
  ensured_name s KIngress ("lab-ingress-" +:+ SessionID (Spec s)) h.

(** The evidence behind a write of the phase Running: every object is there and
    the pod was read ready; the status describes that pod. *)
Definition running_evidence (s : LabSession) (h : list event) (s' : LabSession) : Prop :=
  ObjMeta s' = ObjMeta s ∧ Spec s' = Spec s ∧ all_ensured s h ∧
  (∃ pod n, Ev (Get KPod (s_Namespace s) n) (Ok pod) ∈ h ∧
     podTerminalReason pod = "" ∧ isPodReady pod = true ∧
     PodIP (Status s') = ps_PodIP (pod_Status pod) ∧
     VMIP (Status s') = calculateVMIP (ps_PodIP (pod_Status pod))) ∧
  Forall (λ t, cond_status (Conditions (Status s')) t = Some ConditionTrue)
    [ConditionTypePodReady; ConditionTypeServiceReady; ConditionTypeReady].

(** Calls that write nothing to the cluster. *)
Definition is_read (o : op) : Prop :=
  match o with
  | Now | Get _ _ _ | RecordEvent _ _ _ | GenerateKey | RandRead _ => True
  | _ => False
  end.

Definition creating_guard (s : LabSession) (h : list event) (o : op) : Prop :=
  match o with
  | Create k x => owned_new s k x ∧ prerequisites s k h
  | UpdateStatus s' =>
      Phase (Status s') = SessionPhaseFailed ∨
      (Phase (Status s') = SessionPhaseRunning ∧ running_evidence s h s')
  | _ => is_read o
  end.

Lemma ensured_pvcs_prefix s h h' : h `prefix_of` h' → ensured_pvcs s h → ensured_pvcs s h'.
Proof.
  intros Hh H. eapply Forall_impl; [exact H|]. intros n. by apply ensured_name_prefix.
Qed.

Lemma prerequisites_prefix s k h h' :
  h `prefix_of` h' → prerequisites s k h → prerequisites s k h'.
Proof.
  intros Hh. destruct k; simpl; intuition eauto using ensured_pvcs_prefix, ensured_name_prefix.
Qed.

Lemma all_ensured_prefix s h h' : h `prefix_of` h' → all_ensured s h → all_ensured s h'.
Proof. intros Hh [??]. split; eauto using prerequisites_prefix, ensured_name_prefix. Qed.

(** Evidence about a session is evidence about one that differs in status only. *)
Lemma owned_new_same s s1 k o : same_session s s1 → owned_new s1 k o → owned_new s k o.
Proof. intros (Hm&Hs&_&_). unfold owned_new, s_Namespace. by rewrite Hm, Hs. Qed.

Lemma ensured_name_same s s1 k n h :
  same_session s s1 → ensured_name s1 k n h ↔ ensured_name s k n h.
Proof.
  intros (Hm&Hs&_&_). unfold ensured_name, ensured, s_Namespace. by rewrite Hm.
Qed.

Lemma elem_of_snoc {A} (h : list A) e : e ∈ h ++ [e].
Proof. rewrite elem_of_app. set_solver. Qed.

Lemma prefix_snoc' {A} (h h' : list A) e : h `prefix_of` h' → h `prefix_of` h' ++ [e].
Proof. apply prefix_app_r. Qed.
Hint Resolve prefix_snoc' : core.

(** The guard's facts about reads, as the specifications of ReconcilerLogic ask. *)
Lemma creating_guard_now s h : creating_guard s h Now.
Proof. done. Qed.
Lemma creating_guard_get s h k ns n : creating_guard s h (Get k ns n).
Proof. done. Qed.
Lemma creating_guard_event s h t r m : creating_guard s h (RecordEvent t r m).
Proof. done. Qed.

(** Failing the session is within the guard. *)
Lemma creating_fail r message err s s1 h Q :
  (∀ h' out, Q h' out) → wp any_env (creating_guard s) (updateStatusFailed r message err s1) Q h.
Proof.
  intros HQ. eapply wp_mono; [|apply wp_updateStatusFailed; try done].
  - auto.
  - intros. by left.
Qed.

Lemma creating_error r message err s s1 h :
  wp any_env (creating_guard s) (handleCreateError r message err s1) any_end h.
Proof.
  eapply wp_mono; [|apply wp_handleCreateError; try done]; [done|].
  intros. by left.
Qed.

Lemma wp_updateEndpoints r s s1 h :
  wp any_env (creating_guard s) (updateEndpoints r s1) (λ h' out, h `prefix_of` h' ∧
    match out with
    | Done (_, s2) => s2 = s1 ∨
        ∃ service, s2 = set_Status (set_Endpoints (endpoints_of r s1 service)) s1
    | Panicked => False end) h.
Proof. unfold updateEndpoints. wp_run; try done; (split; [auto|]); eauto. Qed.

Lemma wp_become_running r s s1 pod n h :
  same_session s s1 → all_ensured s h →
  Ev (Get KPod (s_Namespace s) n) (Ok pod) ∈ h →
  podTerminalReason pod = "" → isPodReady pod = true →
  wp any_env (creating_guard s) (become_running r pod s1) any_end h.
Proof.
  intros (Hm&Hsp&_&_) Hall Hpod Hterm Hready. unfold become_running, setCondition.
  wp_run; [|done]. eapply wp_mono; [|apply wp_updateEndpoints].
  intros h' [[x s2]|] [Hh Hs2]; wp_simp; [|done]. wp_run; try done.
  right. assert (∀ s3 : LabSession, s3 = s2 → ObjMeta s3 = ObjMeta s ∧ Spec s3 = Spec s ∧
    Phase (Status s3) = SessionPhaseRunning ∧
    PodIP (Status s3) = ps_PodIP (pod_Status pod) ∧
    VMIP (Status s3) = calculateVMIP (ps_PodIP (pod_Status pod))) as Hs3.
  { intros s3 ->. destruct Hs2 as [->|[service ->]]; simpl; rewrite ?Hm, ?Hsp; done. }
  destruct (Hs3 s2 eq_refl) as (?&?&?&?&?).
  split; [done|]. split; [done|]. split; [done|]. split.
  { by eapply all_ensured_prefix; [|exact Hall]; auto. }
  split.
  { exists pod, n. split; [|done]. destruct Hh as [tl ->]. rewrite !elem_of_app. tauto. }
  repeat constructor; simpl; rewrite !set_condition_in_status; simpl;
    by repeat case_decide.
Qed.

Lemma wp_check_created_pod r s s1 h :
  same_session s s1 → all_ensured s h →
  wp any_env (creating_guard s) (check_created_pod r s1) any_end h.
Proof.
  intros Hs Hall. unfold check_created_pod. wp_run; try done.
  - apply creating_fail. by intros h' [[u s2]|]; wp_simp; wp_run.
  - apply (wp_become_running r s s1 a (PodName (Status s1))); [done|..].
    + by eapply all_ensured_prefix; [|exact Hall]; auto.
    + destruct Hs as (Hm&_). unfold s_Namespace. rewrite <- Hm. apply elem_of_snoc.
    + by apply dec_stable.
    + done.
Qed.

(** Creating: every step of the handler is within the guard. The session the
    later steps work on differs from [s] in its status only. *)
Lemma creating_create s s1 k h h' o :
  same_session s s1 → prerequisites s k h → h `prefix_of` h' →
  owned_new s1 k o → creating_guard s h' (Create k o).
Proof.
  intros Hs Hp Hh' Ho. split; [by eapply owned_new_same|]. by eapply prerequisites_prefix.
Qed.

(** One ensure step, with its error path. *)
Lemma creating_step r message (m : M (option error)) (next : M (Result * option error))
    (P : list event → Prop) s s1 h :
  same_session s s1 →
  wp any_env (creating_guard s) (m s1) (ensure_post s1 h P) h →
  (∀ h' s2, h `prefix_of` h' → same_session s s2 → P h' →
     wp any_env (creating_guard s) (next s2) any_end h') →
  wp any_env (creating_guard s)
    ((e ← m; match e with Some err => handleCreateError r message err | None => next end) s1)
    any_end h.
Proof.
  intros Hs Hm Hnext. apply wp_M_bind. eapply wp_mono; [|exact Hm].
  intros h1 [[[err|] s2]|] [Hh H2]; [apply creating_error| |done].
  destruct H2 as [Hs2 HP]. apply Hnext; [done|by etrans|auto].
Qed.

Lemma wp_creating_tail r s s1 h :
  same_session s s1 → prerequisites s KPod h →
  wp any_env (creating_guard s)
    ((e ← ensurePod r;
      match e with Some err => handleCreateError r "Failed to create Pod" err | None =>
      e ← ensureService;
      match e with Some err => handleCreateError r "Failed to create Service" err | None =>
      e ← ensureIngress r;
      match e with Some err => handleCreateError r "Failed to create Ingress" err | None =>
      check_created_pod r end end end) s1) any_end h.
Proof.
  intros Hs Hpre. eapply creating_step; [done|apply wp_ensurePod; try done; intros h' o;
    by apply (creating_create s s1 _ h)|].
  intros h1 s2 Hh1 Hs2 Hpod. rewrite (proj1 (proj2 Hs)) in Hpod.
  rewrite (ensured_name_same s s1) in Hpod by done.
  assert (prerequisites s KService h1) as Hp1.
  { destruct (prerequisites_prefix _ _ _ _ Hh1 Hpre) as [??]. by split. }
  eapply creating_step; [done|apply wp_ensureService; try done; intros h' o;
    by apply (creating_create s s2 _ h1)|].
  intros h2 s3 Hh2 Hs3 Hsvc. rewrite (proj1 (proj2 Hs2)) in Hsvc.
  rewrite (ensured_name_same s s2) in Hsvc by done.
  assert (prerequisites s KIngress h2) as Hp2.
  { destruct (prerequisites_prefix _ _ _ _ Hh2 Hp1) as (?&?&?). by repeat split. }
  eapply creating_step; [done|apply wp_ensureIngress; try done; intros h' o;
    by apply (creating_create s s3 _ h2)|].
  intros h3 s4 Hh3 Hs4 Hing. rewrite (proj1 (proj2 Hs3)) in Hing.
  rewrite (ensured_name_same s s3) in Hing by done.
  apply wp_check_created_pod; [done|]. split; [by eapply prerequisites_prefix|done].
Qed.

Lemma wp_reconcileCreating r s h :
  wp any_env (creating_guard s) (reconcileCreating r s) any_end h.
Proof.
  unfold reconcileCreating.
  apply (creating_step r "Failed to create PVCs" _ _ (ensured_pvcs s) s s h); [done|..].
  { apply wp_ensurePVCs; try done; intros; by split. }
  intros h1 s1 Hh1 Hs1 Hpvcs. wp_step. wp_step. wp_step. apply wp_M_lift.
  pose proof Hs1 as (Hm&Hsp&_).
  eapply wp_mono; [|apply (wp_EnsureSSHKeySecret any_env (creating_guard s)); try done].
  - intros h2 [[created|err]|] [Hh2 Hsec]; wp_simp; [|apply wp_M_bind, creating_fail|done].
    + rewrite Hsp, (ensured_name_same s s1) in Hsec by done.
      assert (prerequisites s KPod h2) as Hp.
      { split; [by eapply ensured_pvcs_prefix|done]. }
      wp_step. destruct created; wp_step; [done| |by apply wp_creating_tail].
      apply wp_creating_tail; [done|]. by eapply prerequisites_prefix; [|exact Hp]; auto.
    + by intros h3 [[u s2]|]; wp_simp; wp_run.
  - intros h' o Hh Ho. by apply (creating_create s s1 KSecret h1).
Qed.
(** * The phases *)

(** The PodReady condition that the code looks at: the session's, or that of the
    session which a status write of this run answered. *)
Definition ready_condition (s : LabSession) (h : list event) (c : Condition) : Prop :=
  cond_Type c = ConditionTypePodReady ∧
  (c ∈ Conditions (Status s) ∨
   ∃ s1 s2, Ev (UpdateStatus s1) (Ok s2) ∈ h ∧ c ∈ Conditions (Status s2)).

(** The evidence that a running session lost its pod: it has no pod name, or the
    pod was not found, or it has a terminal reason, or it is not ready and the
    clock read more than the timeout past the PodReady condition's transition. *)
Definition pod_lost (s : LabSession) (h : list event) : Prop :=
  ∃ x, Ev (Get KPod (s_Namespace s) (PodName (Status s))) x ∈ h ∧
    (PodName (Status s) = "" ∨
     match x with
     | Err e => IsNotFound e = true
     | Ok pod => podTerminalReason pod ≠ "" ∨
         (isPodReady pod = false ∧ ∃ now c, Ev Now now ∈ h ∧ ready_condition s h c ∧
            podUnreadyTimeout < time_sub now (cond_LastTransitionTime c))
     end).

Lemma ready_condition_prefix s h h' c :
  h `prefix_of` h' → ready_condition s h c → ready_condition s h' c.
Proof.
  intros [tl ->] [Ht Hc]. split; [done|]. destruct Hc as [Hc|(s1&s2&H&Hc)]; [auto|].
  right. exists s1, s2. rewrite elem_of_app. auto.
Qed.

Lemma pod_lost_prefix s h h' : h `prefix_of` h' → pod_lost s h → pod_lost s h'.
Proof.
  intros Hh (x&Hx&Hl). pose proof Hh as [tl ->].
  exists x. split; [rewrite elem_of_app; auto|]. destruct Hl as [?|Hl]; [auto|right].
  destruct x as [pod|]; [|done]. destruct Hl as [?|(?&now&c&?&?&?)]; [auto|right].
  split; [done|]. exists now, c. rewrite elem_of_app. eauto using ready_condition_prefix.
Qed.

Definition phase_guard (s : LabSession) (h : list event) (o : op) : Prop :=
  match o with
  | Create k x =>
      Phase (Status s) = SessionPhaseCreating ∧ owned_new s k x ∧ prerequisites s k h
  | UpdateStatus s' =>
      phase_step (Phase (Status s)) (Phase (Status s')) ∧
      (Phase (Status s) = SessionPhaseCreating → Phase (Status s') = SessionPhaseRunning →
       running_evidence s h s') ∧
      (Phase (Status s) = SessionPhaseRunning → Phase (Status s') = SessionPhaseFailed →
       pod_lost s h)
  | _ => is_read o
  end.

(** A write of Failed is within the guard of a session that lost its pod. *)
Lemma running_fail r message err s s1 h (Q : list event → outcome (unit * LabSession) → Prop) :
  Phase (Status s) = SessionPhaseRunning → pod_lost s h → (∀ h' out, Q h' out) →
  wp any_env (phase_guard s) (updateStatusFailed r message err s1) Q h.
Proof.
  intros Hs Hl HQ. eapply wp_mono; [|apply wp_updateStatusFailed; try done]; [auto|].
  intros h' s' Hh Hf _ _ _ _. simpl. rewrite Hs, Hf. split; [constructor|].
  split; [done|]. intros _ _. by eapply pod_lost_prefix.
Qed.

Lemma wp_wait_for_recovery r s s1 pod h :
  Phase (Status s) = SessionPhaseRunning →
  Ev (Get KPod (s_Namespace s) (PodName (Status s))) (Ok pod) ∈ h → isPodReady pod = false →
  (∀ c, c ∈ Conditions (Status s1) → cond_Type c = ConditionTypePodReady →
     ready_condition s h c) →
  wp any_env (phase_guard s) (wait_for_recovery r s1) any_end h.
Proof.
  intros Hs Hpod Hready Hc. unfold wait_for_recovery. wp_run; try done.
  apply running_fail; [done| |by intros ? [[? ?]|]; wp_simp; wp_run].
  destruct (FindStatusCondition_Some _ _ _ Heqo) as [Hin Ht].
  exists (Ok pod). split; [rewrite elem_of_app; auto|]. right; right. split; [done|].
  exists r0, c. split; [rewrite elem_of_app; set_solver|].
  split; [|by apply Z.ltb_lt]. eapply ready_condition_prefix; [|by apply Hc]. auto.
Qed.

Ltac close_fail H :=
  apply running_fail; [exact H| |by intros ? [[? ?]|]; wp_simp; wp_run].

Lemma wp_reconcileRunning r s h :
  Phase (Status s) = SessionPhaseRunning →
  wp any_env (phase_guard s) (reconcileRunning r s) any_end h.
Proof.
  intros Hs. unfold reconcileRunning, setCondition. wp_run; try done.
  all: try by (simpl; rewrite Hs; split; [constructor|by split]).
  - close_fail Hs. exists r0. split; [apply elem_of_snoc|].
    apply orb_true_iff in Heqb as [Hb|Hb]; [left; by apply bool_decide_eq_true in Hb|right].
    by destruct r0.
  - close_fail Hs. eexists. split; [apply elem_of_snoc|]. by right; left.
  - eapply wp_wait_for_recovery; [done| |done|].
    + rewrite !elem_of_app. set_solver.
    + intros c Hc Ht. split; [done|]. right. eexists _, s'. split; [apply elem_of_snoc|done].
  - eapply wp_wait_for_recovery; [done|apply elem_of_snoc|done|]. intros c Hc Ht. by split; [|left].
Qed.

Lemma wp_reconcilePending s h :
  Phase (Status s) = SessionPhasePending ∨ Phase (Status s) = "" →
  wp any_env (phase_guard s) (reconcilePending s) any_end h.
Proof.
  intros Hs. unfold reconcilePending. wp_run; try done.
  split; [constructor; naive_solver|]. simpl. split; [done|]. intros _ [=].
Qed.

Lemma wp_reconcilePhase r s h :
  wp any_env (phase_guard s) (reconcilePhase r s) any_end h.
Proof.
  unfold reconcilePhase, reconcileFailed. wp_step. wp_step. wp_simp. wp_step.
  { by apply wp_reconcilePending. }
  wp_step.
  { eapply wp_guard_mono; [|apply wp_reconcileCreating].
    intros h' [] ; simpl; try done.
    rewrite e. intros [->|[-> He]]; (split; [constructor|by split]). }
  wp_step; [by apply wp_reconcileRunning|]. by wp_run.
Qed.

(** * Publishing the phase *)

(** The published-phase annotation set to the session's phase. *)
Definition record_phase (s : LabSession) : LabSession :=
  set_Annotations (Some (<[PublishedPhaseAnnotation := Phase (Status s)]>
    (default ∅ (meta_Annotations (ObjMeta s))))) s.

(** The session's phase is one to publish. *)
Definition unpublished (s : LabSession) : Prop :=
  Phase (Status s) ≠ "" ∧ annotation (ObjMeta s) PublishedPhaseAnnotation ≠ Phase (Status s).

Definition publish_guard (s : LabSession) (h : list event) (o : op) : Prop :=
  match o with
  | PublishPhaseChange t c => t = None ∧ c = phaseChange s ∧ unpublished s
  | PatchSession from s' =>
      from = s ∧ s' = record_phase s ∧ unpublished s ∧
      last h = Some (Ev (PublishPhaseChange None (phaseChange s)) None)
  | _ => False
  end.

(** How publishing ends: the session keeps all but the annotation unless the
    server answered with another one, and the flag says whether the phase is
    left unpublished or unrecorded. *)
Definition publish_post (r : LabSessionReconciler) (s : LabSession) (h h' : list event)
    (out : outcome (bool * LabSession)) : Prop :=
  h `prefix_of` h' ∧
  match out with
  | Panicked => False
  | Done (pending, s') =>
      (h' = h ∧ s' = s ∧ pending = false ∧ (r_Events r = true → ¬ unpublished s)) ∨
      (∃ e, h' = h ++ [Ev (PublishPhaseChange None (phaseChange s)) (Some e)] ∧
         s' = s ∧ pending = true) ∨
      (∃ a, h' = h ++ [Ev (PublishPhaseChange None (phaseChange s)) None;
                       Ev (PatchSession s (record_phase s)) a] ∧
         match a with
         | Ok s1 => s' = s1 ∧ pending = false
         | Err _ => s' = record_phase s ∧ pending = true
         end)
  end.

Lemma wp_publishPhase r s h :
  wp any_env (publish_guard s) (publishPhase r s) (publish_post r s h) h.
Proof.
  unfold publishPhase. wp_step. wp_step. wp_simp. wp_step.
  { wp_run. split; [done|]. left. split; [done|]. split; [done|]. split; [done|].
    intros Hr [H1 H2]. rewrite Hr in Heqb. simpl in Heqb.
    apply orb_true_iff in Heqb as [Hb|Hb]; by apply bool_decide_eq_true in Hb. }
  assert (unpublished s) as Hu.
  { apply orb_false_iff in Heqb as [Hb H2]. apply orb_false_iff in Hb as [_ H1].
    split; by eapply bool_decide_eq_false. }
  wp_step. wp_step; [by split|]. wp_step.
  { wp_step. split; [auto|]. right; left. eauto. }
  destruct s as [m sp st]. destruct m as [? ? ? ? ? ? ? [ann|] ?].
  all: wp_run; simpl in *; simplify_eq; try done.
  all: try (split; [done|]; split; [done|]; split; [done|]; by rewrite last_snoc).
  all: (split; [auto|]); right; right; rewrite <- app_assoc; eexists; (split; [done|]); done.
Qed.

(** * Deletion *)

(** What [reconcileDelete] makes of the session before it writes it. *)
Definition terminating (s : LabSession) : LabSession :=
  set_Status (set_Usage no_usage) (set_Status (set_Message "Cleaning up lab session resources")
    (set_Status (set_Phase SessionPhaseTerminating) s)).

Definition without_finalizer (s : LabSession) : LabSession :=
  set_Finalizers (RemoveFinalizer (meta_Finalizers (ObjMeta s)) LabSessionFinalizer) s.
Definition with_finalizer (s : LabSession) : LabSession :=
  set_Finalizers (AddFinalizer (meta_Finalizers (ObjMeta s)) LabSessionFinalizer) s.

(** The session that the deletion goes on with after its status write. *)
Definition after_write (s : LabSession) (h : list event) (s1 : LabSession) : Prop :=
  s1 = terminating s ∨ Ev (UpdateStatus (terminating s)) (Ok s1) ∈ h.

Definition deletion_guard (s : LabSession) (h : list event) (o : op) : Prop :=
  match o with
  | UpdateStatus s' => s' = terminating s
  | RecordEvent _ _ _ => True
  | PublishPhaseChange t c => t = Some terminatingPublishTimeout ∧
      ∃ s1, c = phaseChange s1 ∧ after_write s h s1 ∧
        annotation (ObjMeta s1) PublishedPhaseAnnotation ≠ SessionPhaseTerminating
  | UpdateSession s' => ∃ s1, s' = without_finalizer s1 ∧ after_write s h s1
  | _ => False
  end.

Lemma wp_reconcileDelete_guard r s h :
  wp any_env (deletion_guard s) (reconcileDelete r s) any_end h.
Proof.
  unfold reconcileDelete. wp_run; try done.
  all: try (split; [done|]).
  all: eexists; (split; [reflexivity|]).
  all: try match goal with
       | Hb : _ && _ = true |- _ ∧ _ =>
           split; [|by apply andb_true_iff in Hb as [_ Hb%bool_decide_eq_true]]
       end.
  all: first [by left|right; rewrite !elem_of_app; set_solver].
Qed.

(** * One reconciliation *)

Definition deleting (s : LabSession) : bool :=
  negb (time_ptr_is_zero (meta_DeletionTimestamp (ObjMeta s))).
Definition finalized (s : LabSession) : bool :=
  ContainsFinalizer (meta_Finalizers (ObjMeta s)) LabSessionFinalizer.

(** The session that the phase's handler works on: the one that was read, with
    or without the annotation, or the one that the patch of the annotation
    answered. *)
Definition working (s : LabSession) (h : list event) (s1 : LabSession) : Prop :=
  s1 = s ∨ s1 = record_phase s ∨ Ev (PatchSession s (record_phase s)) (Ok s1) ∈ h.

(** The whole reconciliation, as a guard on its calls: the session is read first;
    a session that is being deleted is only torn down; a session without the
    finalizer only gets it; else the phase is published and then handled. *)
Definition fetched_guard (s : LabSession) (h : list event) (o : op) : Prop :=
  if deleting s then deletion_guard s h o
  else if finalized s then
    publish_guard s h o ∨ ∃ s1, working s h s1 ∧ phase_guard s1 h o
  else o = UpdateSession (with_finalizer s).

Definition reconcile_guard (ns n : string) (h : list event) (o : op) : Prop :=
  match h with
  | [] => o = GetSession ns n
  | e :: _ => ∃ s, e = Ev (GetSession ns n) (Ok s) ∧ fetched_guard s h o
  end.

Lemma reconcile_guard_intro s ns n h o :
  [Ev (GetSession ns n) (Ok s)] `prefix_of` h → fetched_guard s h o → reconcile_guard ns n h o.
Proof. intros [tl ->] H. by exists s. Qed.

Lemma wp_reconcile_fetched r s h :
  wp any_env (fetched_guard s) (reconcile_fetched r s) any_end h.
Proof.
  unfold reconcile_fetched. wp_step. wp_step. wp_simp.
  change (negb (time_ptr_is_zero _)) with (deleting s).
  change (ContainsFinalizer _ _) with (finalized s). wp_step.
  { eapply wp_guard_mono; [|apply wp_reconcileDelete_guard].
    intros h' o. unfold fetched_guard. by rewrite Heqb. }
  assert (∀ h' o, (if finalized s then publish_guard s h' o ∨ ∃ s1, working s h' s1 ∧ phase_guard s1 h' o
    else o = UpdateSession (with_finalizer s)) → fetched_guard s h' o) as Hlift.
  { intros h' o. unfold fetched_guard. by rewrite Heqb. }
  destruct (finalized s) eqn:Hf; cbn [negb]; [|by wp_run; try done; apply Hlift].
  apply wp_M_bind. eapply wp_guard_mono; [by intros; apply Hlift; left|].
  eapply wp_mono; [|apply wp_publishPhase].
  intros h1 [[pending s1]|] [Hh1 H1]; [|done]. wp_simp.
  assert (working s h1 s1) as Hw.
  { destruct H1 as [(_&->&_)|[(e&_&->&_)|([s2|e]&->&->&_)]]; unfold working; eauto.
    right; right. rewrite elem_of_app. set_solver. }
  apply wp_M_bind. eapply wp_mono; [|eapply wp_guard_prefix; [|apply wp_reconcilePhase]].
  - by intros h2 [[x s2]|] _; wp_simp; [wp_run|].
  - intros h2 o Hh2 Ho. apply Hlift. right. exists s1. split; [|done].
    destruct Hw as [->|[->|Hw]]; unfold working; auto.
    right; right. destruct Hh2 as [tl ->]. rewrite elem_of_app. auto.
Qed.

Lemma wp_Reconcile r ns n : wp any_env (reconcile_guard ns n) (Reconcile r ns n) any_end [].
Proof.
  unfold Reconcile, call. split; [done|]. intros [s|e] _; cbn [app].
  - apply wp_bind. eapply wp_guard_prefix, wp_mono; [| |apply wp_reconcile_fetched].
    + intros h o. apply reconcile_guard_intro.
    + by intros h [x|] _.
  - simpl. by destruct (IsNotFound e).
Qed.

(** What every call of a run of [Reconcile] satisfies. *)
Lemma Reconcile_guarded r ns n tr out :
  exec (Reconcile r ns n) tr out → guarded (reconcile_guard ns n) [] tr.
Proof. intros He. by eapply wp_exec_any; [apply wp_Reconcile|]. Qed.

End guard.
