(* ===== verification/LifeGuard.v ===== *)
(** What a reconciliation knows of the version it writes over: every update of a
    session carries the resource version of the last session the server answered
    with, and the status it writes is one edge of the phase machine away from
    that session, also in a run that writes twice. Used by Life.v, where several
    reconciliations work on one session. *)
From S2P Require Import Prelude GoStrings Kube KubeTypes Types PodSettings ResourceBuilder Ingress.
From S2P Require Import Usage Events Effects SSHKeys Reconciler ReconcilerLogic ReconcilerGuard.

Section life_guard.
Context `{K : KubeLib, KL : !KubeLaws K}.

(** The session that an answer decodes into the caller's object. *)
Definition answered_session (e : event) : option LabSession :=
  match e with
  | Ev o r =>
      match o return resp o → option LabSession with
      | GetSession _ _ | UpdateSession _ | UpdateStatus _ | PatchSession _ _ =>
          λ r : result error LabSession, match r with Ok s => Some s | Err _ => None end
      | _ => λ _, None
      end r
  end.

(** The last session the server answered with: the version an update is based on. *)
Definition base (h : list event) : option LabSession := last (omap answered_session h).

Lemma base_snoc h e :
  base (h ++ [e]) = match answered_session e with Some s => Some s | None => base h end.
Proof.
  unfold base. rewrite omap_app. simpl. destruct (answered_session e); [by rewrite last_snoc|].
  by rewrite app_nil_r.
Qed.

(** The server stores the status it is sent. *)
Definition truthful (e : event) : Prop :=
  match e with
  | Ev o r =>
      match o return resp o → Prop with
      | UpdateStatus s => λ r : result error LabSession,
          match r with Ok s' => Status s' = Status s | Err _ => True end
      | _ => λ _, True
      end r
  end.

Definition life_guard (h : list event) (o : op) : Prop :=
  match o with
  | UpdateStatus s' => ∃ b, base h = Some b ∧
      (phase_step (Phase (Status b)) (Phase (Status s')) ∨
       Phase (Status s') = SessionPhaseTerminating)
  | _ => True
  end.

(** Calls that answer with no session. *)
Definition sessionless (h : list event) (o : op) : Prop :=
  match o with
  | GetSession _ _ | UpdateSession _ | UpdateStatus _ | PatchSession _ _ => False
  | _ => True
  end.

Lemma sessionless_answer h o r : sessionless h o → answered_session (Ev o r) = None.
Proof. by destruct o. Qed.

Lemma sessionless_life h o : sessionless h o → life_guard h o.
Proof. by destruct o. Qed.

(** A program without session calls leaves the base alone, and is within the guard. *)
Lemma wp_sessionless {A} R (p : prog A) Q h :
  wp R sessionless p Q h → wp R life_guard p (λ h' out, Q h' out ∧ base h' = base h) h.
Proof.
  revert h. induction p as [a| |o k IH]; simpl; [done..|].
  intros h [Ho Hp]. split; [by apply sessionless_life|]. intros r Hr.
  eapply wp_mono; [|apply IH; auto]. simpl. intros h' out [HQ Hb]. split; [done|].
  by rewrite Hb, base_snoc, (sessionless_answer h).
Qed.

(** * The handlers *)

(** One ensure step of [reconcileCreating], with its error path. *)
Definition based (p : string) (h : list event) : Prop :=
  ∃ b, base h = Some b ∧ Phase (Status b) = p.

Lemma based_eq p h h' : base h' = base h → based p h → based p h'.
Proof. intros Hb (b&?&?). exists b. by rewrite Hb. Qed.

Lemma based_write p h s' : based p h →
  phase_step p (Phase (Status s')) → life_guard h (UpdateStatus s').
Proof. intros (b&Hb&<-) Hs. exists b. auto. Qed.

(** Reads do not change the base. *)
Ltac based_reads :=
  first [ done
        | eapply based_eq; [|eassumption]; rewrite ?base_snoc; done ].

Lemma life_fail r message err p s h (Q : list event → outcome (unit * LabSession) → Prop) :
  based p h → phase_step p SessionPhaseFailed → (∀ h' out, Q h' out) →
  wp truthful life_guard (updateStatusFailed r message err s) Q h.
Proof.
  intros Hb Hp HQ. unfold updateStatusFailed, sessionPod, setCondition.
  wp_run; try done.
  all: eapply based_write; [based_reads|exact Hp].
Qed.

Lemma life_create_error r message err s h :
  based SessionPhaseCreating h →
  wp truthful life_guard (handleCreateError r message err s) any_end h.
Proof.
  intros Hb. unfold handleCreateError.
  wp_run; try done.
  all: eapply life_fail; [based_reads|constructor|]; by intros ? [[? ?]|]; wp_simp; wp_run.
Qed.

Lemma life_creating_step r message (m : M (option error)) (next : M (Result * option error)) s h P :
  based SessionPhaseCreating h →
  wp truthful sessionless (m s) (ensure_post s h P) h →
  (∀ h' s', based SessionPhaseCreating h' → wp truthful life_guard (next s') any_end h') →
  wp truthful life_guard
    ((e ← m; match e with Some err => handleCreateError r message err | None => next end) s)
    any_end h.
Proof.
  intros Hb Hm Hnext. apply wp_M_bind. eapply wp_mono; [|by apply wp_sessionless, Hm].
  intros h1 [[[err|] s2]|] [_ Hh]; [| |done].
  - by apply life_create_error, (based_eq _ h).
  - by apply Hnext, (based_eq _ h).
Qed.

Lemma life_check_created_pod r s h :
  based SessionPhaseCreating h →
  wp truthful life_guard (check_created_pod r s) any_end h.
Proof.
  intros Hb. unfold check_created_pod, become_running, updateEndpoints, setCondition.
  wp_run; try done.
  all: try (eapply life_fail; [based_reads|constructor|]; by intros ? [[? ?]|]; wp_simp; wp_run).
  all: eapply based_write; [based_reads|]; simpl; constructor.
Qed.

Lemma life_creating_tail r s h :
  based SessionPhaseCreating h →
  wp truthful life_guard
    ((e ← ensurePod r;
      match e with Some err => handleCreateError r "Failed to create Pod" err | None =>
      e ← ensureService;
      match e with Some err => handleCreateError r "Failed to create Service" err | None =>
      e ← ensureIngress r;
      match e with Some err => handleCreateError r "Failed to create Ingress" err | None =>
      check_created_pod r end end end) s) any_end h.
Proof.
  intros Hb. eapply life_creating_step; [done|by apply wp_ensurePod|].
  intros h1 s1 Hb1. eapply life_creating_step; [done|by apply wp_ensureService|].
  intros h2 s2 Hb2. eapply life_creating_step; [done|by apply wp_ensureIngress|].
  intros h3 s3 Hb3. by apply life_check_created_pod.
Qed.

Lemma life_reconcileCreating r s h :
  based SessionPhaseCreating h →
  wp truthful life_guard (reconcileCreating r s) any_end h.
Proof.
  intros Hb. unfold reconcileCreating.
  eapply life_creating_step; [done|by apply wp_ensurePVCs|].
  intros h1 s1 Hb1. wp_step. wp_step. wp_step. apply wp_M_lift.
  eapply wp_mono; [|by apply wp_sessionless, (wp_EnsureSSHKeySecret truthful sessionless)].
  intros h2 [[created|err]|] [_ Hh2]; wp_simp; [|apply wp_M_bind|done].
  - wp_step. destruct created; wp_step; [done| |].
    + apply life_creating_tail. eapply based_eq; [|exact Hb1].
      by rewrite base_snoc.
    + by apply life_creating_tail, (based_eq _ h1).
  - eapply life_fail; [by eapply based_eq|constructor|]. by intros h3 [[u s2]|]; wp_simp; wp_run.
Qed.

Lemma life_wait_for_recovery r s h :
  based SessionPhaseRunning h → wp truthful life_guard (wait_for_recovery r s) any_end h.
Proof.
  intros Hb. unfold wait_for_recovery. wp_run; try done.
  eapply life_fail; [based_reads|constructor|]. by intros ? [[? ?]|]; wp_simp; wp_run.
Qed.

(** The second write of a run is based on the answer to the first. *)
Lemma life_reconcileRunning r s h :
  Phase (Status s) = SessionPhaseRunning → based SessionPhaseRunning h →
  wp truthful life_guard (reconcileRunning r s) any_end h.
Proof.
  intros Hs Hb. unfold reconcileRunning, setCondition. wp_run; try done.
  all: try (eapply life_fail; [based_reads|constructor|];
            by intros ? [[? ?]|]; wp_simp; wp_run).
  all: try (eapply based_write; [based_reads|simpl; rewrite Hs; constructor]).
  - apply life_wait_for_recovery. eexists. rewrite base_snoc. split; [done|].
    by match goal with Ht : truthful (Ev (UpdateStatus _) _) |- _ => simpl in Ht; rewrite Ht end.
  - apply life_wait_for_recovery. based_reads.
Qed.

Lemma life_reconcilePhase r s h :
  based (Phase (Status s)) h → wp truthful life_guard (reconcilePhase r s) any_end h.
Proof.
  intros Hb. unfold reconcilePhase, reconcileFailed. wp_step. wp_step. wp_simp. wp_step.
  { unfold reconcilePending. wp_run; try done.
    eapply based_write; [based_reads|]. constructor. naive_solver. }
  wp_step; [apply life_reconcileCreating; by rewrite <- e|].
  wp_step; [apply life_reconcileRunning; [done|by rewrite <- e]|]. by wp_run.
Qed.

Lemma life_reconcileDelete r s h :
  is_Some (base h) → wp truthful life_guard (reconcileDelete r s) any_end h.
Proof.
  intros [b Hb]. unfold reconcileDelete. wp_run; try done.
  exists b. auto.
Qed.

Lemma life_publishPhase r s h :
  wp truthful life_guard (publishPhase r s) (publish_post r s h) h.
Proof.
  eapply wp_guard_mono, wp_env_mono; [| |apply wp_publishPhase]; [by intros ? []|done].
Qed.

Lemma life_reconcile_fetched r s h :
  base h = Some s → wp truthful life_guard (reconcile_fetched r s) any_end h.
Proof.
  intros Hb. unfold reconcile_fetched. wp_step. wp_step. wp_simp. wp_step.
  { by apply life_reconcileDelete. }
  wp_step; [by wp_run|]. apply wp_M_bind. eapply wp_mono; [|apply life_publishPhase].
  intros h1 [[pending s1]|] [Hh1 H1]; [|done]. wp_simp. apply wp_M_bind.
  eapply wp_mono; [|apply life_reconcilePhase].
  { by intros h2 [[x s2]|] _; wp_simp; [wp_run|]. }
  destruct H1 as [(->&->&_)|[(e&->&->&_)|([s2|e]&->&H1)]].
  - by exists s.
  - exists s. by rewrite base_snoc.
  - destruct H1 as [-> _]. exists s2. change [?a; ?b] with ([a] ++ [b]).
    by rewrite app_assoc, base_snoc.
  - destruct H1 as [-> _]. exists s. change [?a; ?b] with ([a] ++ [b]).
    by rewrite app_assoc, !base_snoc.
Qed.

Lemma life_Reconcile r ns n : wp truthful life_guard (Reconcile r ns n) any_end [].
Proof.
  unfold Reconcile, call. split; [done|]. intros [s|e] _; cbn [app].
  - apply wp_bind. eapply wp_mono; [|by apply life_reconcile_fetched]. by intros h [x|] _.
  - simpl. by destruct (IsNotFound e).
Qed.

End life_guard.
