(* ===== verification/Cluster.v ===== *)
(** The life of one session: a transition system in which any number of
    reconciliations of the session run at the same time (a requeue that overlaps
    with a new leader, a process that was cut off), each against a cache that may
    lag behind, while users edit and delete the session. A step is one call of
    one reconciliation, with an answer that the API server or the broker may give:

    - a read of the session answers with any version it ever had, or an error;
    - an update carries the resource version of the session that was last
      answered, and is refused unless that is the current version; it leaves the
      status alone, and a status update changes nothing else;
    - a merge patch carries no resource version: it changes the annotations it
      mentions, in whatever version is current;
    - a deletion timestamp stays, and an object that has one disappears once its
      list of finalizers is empty;
    - a call that answers with an error may have had its effect.

    Answers about other objects, the clock and the keys are arbitrary. One object
    is followed: a session created later under the same name is another life. *)
From S2P Require Import Prelude GoStrings Kube KubeTypes Types Events Effects Reconciler.
From S2P Require Import ReconcilerGuard LifeGuard.

Section cluster.
Context `{K : KubeLib}.

(** The cluster and the broker: every version the session had, whether the object
    is gone, the phase changes the broker took, the names of created objects. *)
Record world := mkWorld {
  versions : list LabSession;
  gone : bool;
  published : list PhaseChange;
  created : list string
}.

Definition current (w : world) : option LabSession :=
  if gone w then None else last (versions w).

(** An object without finalizers goes with its deletion. *)
Definition vanishes (s : LabSession) : bool :=
  deleting s && match meta_Finalizers (ObjMeta s) with [] => true | _ => false end.

Definition store (s : LabSession) (w : world) : world :=
  mkWorld (versions w ++ [s]) (vanishes s) (published w) (created w).
Definition publish (c : PhaseChange) (w : world) : world :=
  mkWorld (versions w) (gone w) (published w ++ [c]) (created w).
Definition add_created (n : string) (w : world) : world :=
  mkWorld (versions w) (gone w) (published w) (created w ++ [n]).

(** * What the server makes of a write *)

Definition same_identity (s s' : LabSession) : Prop :=
  s_Name s' = s_Name s ∧ s_Namespace s' = s_Namespace s ∧
  meta_UID (ObjMeta s') = meta_UID (ObjMeta s).

(** The version after a status update with [sent]. *)
Definition status_updated (sent cur s' : LabSession) : Prop :=
  Status s' = Status sent ∧ ObjMeta s' = ObjMeta cur ∧ Spec s' = Spec cur.

(** The version after an update with [sent]. *)
Definition updated (sent cur s' : LabSession) : Prop :=
  Status s' = Status cur ∧ Spec s' = Spec sent ∧ same_identity cur s' ∧
  meta_DeletionTimestamp (ObjMeta s') = meta_DeletionTimestamp (ObjMeta cur) ∧
  meta_Finalizers (ObjMeta s') = meta_Finalizers (ObjMeta sent) ∧
  meta_Annotations (ObjMeta s') = meta_Annotations (ObjMeta sent).

Definition annotations (s : LabSession) : gmap string string :=
  default ∅ (meta_Annotations (ObjMeta s)).

(** The version after the merge patch between [from] and [to]. What a patch does
    that changes more than annotations is left open: the code makes none. *)
Definition patched (from to cur s' : LabSession) : Prop :=
  to = set_Annotations (meta_Annotations (ObjMeta to)) from →
  s' = set_Annotations (meta_Annotations (ObjMeta s')) cur ∧
  ∀ k, annotations s' !! k =
    if decide (annotations from !! k = annotations to !! k)
    then annotations cur !! k else annotations to !! k.

(** A write of the session: refused, or stored and answered, or stored with the
    answer lost. [lock] says what the write asks of the current version. *)
Definition written (w : world) (lock : LabSession → Prop) (change : LabSession → LabSession → Prop)
    (r : result error LabSession) (w' : world) : Prop :=
  (w' = w ∧ is_ok r = false) ∨
  ∃ cur s', current w = Some cur ∧ lock cur ∧ change cur s' ∧ w' = store s' w ∧
    match r with Ok answered => answered = s' | Err _ => True end.

(** The answers to a call of a reconciliation whose last answered session is [b],
    and the world afterwards. *)
Definition serves (b : option LabSession) (w : world) (o : op) : resp o → world → Prop :=
  match o with
  | GetSession _ _ => λ r w', w' = w ∧
      match r with Ok s => s ∈ versions w | Err _ => True end
  | UpdateStatus s => written w (λ cur, b = Some cur) (status_updated s)
  | UpdateSession s => written w (λ cur, b = Some cur) (updated s)
  | PatchSession from to => written w (λ _, True) (patched from to)
  | PublishPhaseChange _ c => λ r w',
      match r with None => w' = publish c w | Some _ => w' = w ∨ w' = publish c w end
  | Create k x => λ r w',
      w' = add_created (meta_Name (obj_meta k x)) w ∨ (w' = w ∧ is_ok r = false)
  | _ => λ _ w', w' = w
  end.

(** What users and other controllers do to the session: anything but write its
    status or the published-phase annotation, revoke its deletion, or take the
    controller's finalizer away. *)
Definition user_edit (s s' : LabSession) : Prop :=
  Status s' = Status s ∧ same_identity s s' ∧
  annotation (ObjMeta s') PublishedPhaseAnnotation = annotation (ObjMeta s) PublishedPhaseAnnotation ∧
  (deleting s = true → deleting s' = true) ∧ (finalized s = true → finalized s' = true).

(** * Runs *)

(** A reconciliation under way: what is left of it, and the calls it made. *)
Record running := mkRunning { todo : prog (Result * option error); done_calls : list event }.
Record system := mkSystem { sys_world : world; sys_runs : list running }.

Context (r : LabSessionReconciler) (ns n : string).

Inductive life : system → system → Prop :=
| life_edit w runs s s' :
    current w = Some s → user_edit s s' → life (mkSystem w runs) (mkSystem (store s' w) runs)
| life_start w runs :
    life (mkSystem w runs) (mkSystem w (mkRunning (Reconcile r ns n) [] :: runs))
| life_call w w' runs1 runs2 o k h x :
    serves (base h) w o x w' →
    life (mkSystem w (runs1 ++ mkRunning (Do o k) h :: runs2))
         (mkSystem w' (runs1 ++ mkRunning (k x) (h ++ [Ev o x]) :: runs2))
| life_stop w runs1 runs2 run :
    life (mkSystem w (runs1 ++ run :: runs2)) (mkSystem w (runs1 ++ runs2)).

(** A session as a user creates it: no phase yet, nothing published. *)
Definition fresh (s : LabSession) : Prop :=
  (Phase (Status s) = "" ∨ Phase (Status s) = SessionPhasePending) ∧
  annotation (ObjMeta s) PublishedPhaseAnnotation = "".

Definition reachable (s0 : LabSession) (w : world) : Prop :=
  ∃ runs, rtc life (mkSystem (mkWorld [s0] false [] []) []) (mkSystem w runs).

End cluster.
