(* ===== verification/Life.v ===== *)
(** The invariants of a session's whole life, for every reachable state of the
    system of Cluster.v: any number of overlapping reconciliations, each possibly
    working from a stale version. *)
From S2P Require Import Prelude GoStrings Kube KubeTypes Types Events Effects Reconciler.
From S2P Require Import ReconcilerLogic ReconcilerGuard LifeGuard Cluster.

(** The phase may change along an edge of the phase machine, or to Terminating
    once the session is being deleted. *)
Definition phase_edge (del : bool) (p p' : string) : Prop :=
  p' = p ∨ phase_step p p' ∨ (del = true ∧ p' = SessionPhaseTerminating).

Section life.
Context `{K : KubeLib, KL : !KubeLaws K}.

(** What holds between a version of the session and the next. *)
Record next_version (v v' : LabSession) : Prop := {
  next_identity : same_identity v v';
  next_deleting : deleting v = true → deleting v' = true;
  next_phase : phase_edge (deleting v) (Phase (Status v)) (Phase (Status v'));
  next_finalized : finalized v = true → finalized v' = true ∨ deleting v' = true
}.

(** The phase a version says was published was published, for this session. *)
Definition recorded (cs : list PhaseChange) (v : LabSession) : Prop :=
  annotation (ObjMeta v) PublishedPhaseAnnotation = "" ∨
  ∃ c, c ∈ cs ∧ pc_UID c = meta_UID (ObjMeta v) ∧
    pc_Phase c = annotation (ObjMeta v) PublishedPhaseAnnotation.

(** A published change describes a version, or a version that is being deleted as
    its deletion makes it. *)
Definition described (vs : list LabSession) (c : PhaseChange) : Prop :=
  ∃ v, v ∈ vs ∧ (c = phaseChange v ∨ (deleting v = true ∧ c = phaseChange (terminating v))).

Record world_inv (s0 : LabSession) (w : world) : Prop := {
  inv_first : versions w !! 0%nat = Some s0;
  inv_chain i v v' : versions w !! i = Some v → versions w !! S i = Some v' → next_version v v';
  inv_recorded v : v ∈ versions w → recorded (published w) v;
  inv_described c : c ∈ published w → described (versions w) c;
  inv_created : created w ≠ [] → ∃ v, v ∈ versions w ∧ finalized v = true;
  inv_gone : gone w = true → ∃ v, last (versions w) = Some v ∧ vanishes v = true
}.

(** What an answer in a run's history says of the world. *)
Definition told (w : world) (e : event) : Prop :=
  (∀ s, answered_session e = Some s → s ∈ versions w) ∧ truthful e ∧
  match e with
  | Ev o r =>
      match o return resp o → Prop with
      | PublishPhaseChange _ c => λ r : option error,
          match r with None => c ∈ published w | Some _ => True end
      | _ => λ _, True
      end r
  end.

Record run_inv (ns n : string) (w : world) (run : running) : Prop := {
  run_told : Forall (told w) (done_calls run);
  run_guard : wp any_env (reconcile_guard ns n) (todo run) any_end (done_calls run);
  run_life : wp truthful life_guard (todo run) any_end (done_calls run)
}.

Definition system_inv (s0 : LabSession) (ns n : string) (sys : system) : Prop :=
  world_inv s0 (sys_world sys) ∧ Forall (run_inv ns n (sys_world sys)) (sys_runs sys).

(** * The chain of versions *)

Lemma chain_preserves s0 w (P : LabSession → Prop) i j v v' :
  world_inv s0 w → (∀ v1 v2, next_version v1 v2 → P v1 → P v2) → (i ≤ j)%nat →
  versions w !! i = Some v → versions w !! j = Some v' → P v → P v'.
Proof.
  intros Hw HP Hij Hi. revert v'. induction Hij as [|j Hij IH]; intros v' Hj Hv.
  - by simplify_eq.
  - destruct (lookup_lt_is_Some_2 (versions w) j) as [v1 H1].
    { apply lookup_lt_Some in Hj. lia. }
    eapply HP; [by eapply inv_chain|auto].
Qed.

(** A property that versions keep holds of the last one. *)
Lemma chain_last s0 w (P : LabSession → Prop) v v' :
  world_inv s0 w → (∀ v1 v2, next_version v1 v2 → P v1 → P v2) →
  v ∈ versions w → last (versions w) = Some v' → P v → P v'.
Proof.
  intros Hw HP [i Hi]%list_elem_of_lookup Hl. rewrite last_lookup in Hl.
  eapply chain_preserves; [done..| |done|done]. apply lookup_lt_Some in Hi. lia.
Qed.

Lemma current_last w cur : current w = Some cur → last (versions w) = Some cur ∧ gone w = false.
Proof. unfold current. by destruct (gone w). Qed.

Lemma current_version w cur : current w = Some cur → cur ∈ versions w.
Proof. intros [Hl _]%current_last. by apply last_Some_elem_of. Qed.

(** All versions are one session. *)
Lemma version_identity s0 w v : world_inv s0 w → v ∈ versions w → same_identity s0 v.
Proof.
  intros Hw [i Hi]%list_elem_of_lookup.
  apply (chain_preserves s0 w (same_identity s0) 0 i s0 v Hw); [|lia|by eapply inv_first|done|done].
  intros v1 v2 [(?&?&?) _ _ _] (?&?&?). repeat split; congruence.
Qed.

Lemma same_uid s0 w v v' : world_inv s0 w → v ∈ versions w → v' ∈ versions w →
  meta_UID (ObjMeta v') = meta_UID (ObjMeta v).
Proof.
  intros Hw Hv Hv'. destruct (version_identity _ _ _ Hw Hv) as (_&_&->).
  by destruct (version_identity _ _ _ Hw Hv') as (_&_&->).
Qed.

Lemma current_deleting s0 w v cur : world_inv s0 w → v ∈ versions w → current w = Some cur →
  deleting v = true → deleting cur = true.
Proof.
  intros Hw Hv [Hl _]%current_last. eapply (chain_last _ _ (λ v, deleting v = true)); [done| |done..].
  intros v1 v2 Hn. apply Hn.
Qed.

(** * Growing the world *)

Lemma recorded_mono cs cs' v : cs ⊆ cs' → recorded cs v → recorded cs' v.
Proof. intros Hc [?|(c&?&?&?)]; [by left|right; eauto]. Qed.

Lemma described_mono vs vs' c : vs ⊆ vs' → described vs c → described vs' c.
Proof. intros Hv (v&?&?). exists v. eauto. Qed.

(** The world a call leaves: nothing is forgotten, and the session is as it was or
    has one more version. *)
Definition moved (w w' : world) : Prop :=
  (versions w' = versions w ∧ gone w' = gone w) ∨
  ∃ cur s, current w = Some cur ∧ next_version cur s ∧
    versions w' = versions w ++ [s] ∧ gone w' = vanishes s.

Definition extends (w w' : world) : Prop := moved w w' ∧ published w ⊆ published w'.

Lemma extends_versions w w' : extends w w' → versions w ⊆ versions w'.
Proof. intros [[[-> _]|(cur&s&_&_&->&_)] _]; set_solver. Qed.

Lemma told_mono w w' e : extends w w' → told w e → told w' e.
Proof.
  intros He (H1&H2&H3). pose proof (extends_versions _ _ He) as Hv. destruct He as [_ Hp]. split; [eauto|].
  split; [done|]. destruct e as [[] r]; try done. simpl in *. destruct r; auto.
Qed.

Lemma run_inv_mono ns n w w' run : extends w w' → run_inv ns n w run → run_inv ns n w' run.
Proof.
  intros He [Ht Hg Hl]. split; [|done..]. eapply Forall_impl; [done|]. intros e. by apply told_mono.
Qed.

Lemma extends_refl w : extends w w.
Proof. split; [by left|done]. Qed.

Lemma extends_store s cur w : current w = Some cur → next_version cur s → extends w (store s w).
Proof. intros. split; [right; exists cur, s; auto|done]. Qed.

Lemma world_inv_store s0 w cur s :
  world_inv s0 w → current w = Some cur → next_version cur s → recorded (published w) s →
  world_inv s0 (store s w).
Proof.
  intros Hw Hcur Hnext Hrec. pose proof (current_last _ _ Hcur) as [Hl Hg]. split; simpl.
  - rewrite lookup_app_l; [by eapply inv_first|]. pose proof (inv_first _ _ Hw) as H0.
    by apply lookup_lt_Some in H0.
  - intros i v v' Hi Hj. apply lookup_app_Some in Hj as [Hj|[Hlen Hj]].
    + rewrite lookup_app_l in Hi by (apply lookup_lt_Some in Hj; lia). by eapply inv_chain.
    + apply list_lookup_singleton_Some in Hj as [Hj ->].
      rewrite lookup_app_l in Hi.
      2: { destruct (decide (i < length (versions w))%nat); [done|].
           assert (S i - length (versions w) ≠ 0)%nat by lia. done. }
      rewrite last_lookup in Hl. replace (pred (length (versions w))) with i in Hl by
        (apply lookup_lt_Some in Hi; lia). by simplify_eq.
  - intros v [Hv|Hv]%elem_of_app; [by eapply inv_recorded|]. by apply list_elem_of_singleton in Hv as ->.
  - intros c Hc. eapply described_mono; [|by eapply inv_described]. set_solver.
  - intros Hc. destruct (inv_created _ _ Hw Hc) as (v&Hv&Hf). exists v. rewrite elem_of_app. auto.
  - intros Hv. exists s. by rewrite last_snoc.
Qed.

(** * One call *)

(** The session a run read first, for every later call. *)
Lemma run_fetched ns n w o k h :
  run_inv ns n w (mkRunning (Do o k) h) →
  (h = [] ∧ o = GetSession ns n) ∨
  ∃ s, s ∈ versions w ∧ head h = Some (Ev (GetSession ns n) (Ok s)) ∧ fetched_guard s h o.
Proof.
  intros [Ht [Hg _] _]. simpl in *. destruct h as [|e h]; [by left|right].
  destruct Hg as (s&->&Hg). exists s. apply Forall_cons in Ht as [[Ht _] _]. auto.
Qed.

Lemma run_told_elem ns n w p h e : run_inv ns n w (mkRunning p h) → e ∈ h → told w e.
Proof. intros Hr He. by apply (proj1 (Forall_forall _ _) (run_told _ _ _ _ Hr)). Qed.

(** The step from the current version that a run's write may make. *)
Lemma status_write_next s0 w ns n s k h cur s' :
  world_inv s0 w → run_inv ns n w (mkRunning (Do (UpdateStatus s) k) h) →
  current w = Some cur → base h = Some cur → status_updated s cur s' → next_version cur s'.
Proof.
  intros Hw Hr Hcur Hb (Hst&Hm&Hsp). split.
  - unfold same_identity, s_Name, s_Namespace. by rewrite Hm.
  - unfold deleting. by rewrite Hm.
  - rewrite Hst. destruct (run_life _ _ _ _ Hr) as [(b&Hb'&Hp) _]. simpl in Hb'. simplify_eq.
    destruct Hp as [Hp|Hp]; [by right; left|]. right; right. split; [|done].
    destruct (run_fetched _ _ _ _ _ _ Hr) as [[_ ?]|(s1&Hs1&_&Hg)]; [done|].
    unfold fetched_guard in Hg. destruct (deleting s1) eqn:Hd; [by eapply current_deleting|].
    destruct (finalized s1); [|done]. destruct Hg as [[]|(s2&_&Hs2&_)]. rewrite Hp in Hs2.
    inversion Hs2.
  - unfold finalized. rewrite Hm. auto.
Qed.

Lemma update_next s0 w ns n s k h cur s' :
  world_inv s0 w → run_inv ns n w (mkRunning (Do (UpdateSession s) k) h) →
  current w = Some cur → updated s cur s' → next_version cur s'.
Proof.
  intros Hw Hr Hcur (Hst&_&Hid&Hd&Hf&_). split; [done|unfold deleting; by rewrite Hd| |].
  { left. by rewrite Hst. }
  intros _. destruct (run_fetched _ _ _ _ _ _ Hr) as [[_ ?]|(s1&Hs1&_&Hg)]; [done|].
  unfold fetched_guard in Hg. destruct (deleting s1) eqn:Hd1.
  { right. unfold deleting. rewrite Hd. by eapply current_deleting. }
  destruct (finalized s1); [by destruct Hg as [[]|(?&_&[])]|]. left.
  simplify_eq. unfold finalized. rewrite Hf. apply ContainsFinalizer_Add.
Qed.

(** The annotation that an update sends is that of some version. *)
Lemma update_annotation s0 w ns n s k h :
  world_inv s0 w → run_inv ns n w (mkRunning (Do (UpdateSession s) k) h) →
  ∃ v, v ∈ versions w ∧ annotation (ObjMeta s) PublishedPhaseAnnotation =
                        annotation (ObjMeta v) PublishedPhaseAnnotation.
Proof.
  intros Hw Hr. destruct (run_fetched _ _ _ _ _ _ Hr) as [[_ ?]|(s1&Hs1&_&Hg)]; [done|].
  unfold fetched_guard in Hg. destruct (deleting s1).
  - destruct Hg as (s2&->&[->|Ha]); [by exists s1|]. exists s2. split; [|done].
    by destruct (run_told_elem _ _ _ _ _ _ Hr Ha) as [Ht _]; apply Ht.
  - destruct (finalized s1); [by destruct Hg as [[]|(?&_&[])]|]. simplify_eq. by exists s1.
Qed.

(** What a merge patch that only sets the annotation does. *)
Lemma patched_record s cur s' :
  unpublished s → patched s (record_phase s) cur s' →
  s' = set_Annotations (meta_Annotations (ObjMeta s')) cur ∧
  annotation (ObjMeta s') PublishedPhaseAnnotation = Phase (Status s).
Proof.
  intros [Hne Hu] Hp. destruct Hp as [Hs Hk]; [done|]. split; [done|].
  specialize (Hk PublishedPhaseAnnotation). unfold annotations, record_phase in Hk. simpl in Hk.
  rewrite lookup_insert_eq in Hk. unfold annotation, map_get in *.
  rewrite decide_False in Hk.
  - destruct (meta_Annotations (ObjMeta s')) as [a|]; simpl in Hk; [by rewrite Hk|done].
  - intros Heq. apply Hu. destruct (meta_Annotations (ObjMeta s)) as [a|]; simpl in Heq; [|done].
    by rewrite Heq.
Qed.

(** What a patch of a run is. *)
Lemma patch_guard ns n w from to k h :
  run_inv ns n w (mkRunning (Do (PatchSession from to) k) h) →
  from ∈ versions w ∧ to = record_phase from ∧ unpublished from ∧
  phaseChange from ∈ published w.
Proof.
  intros Hr. destruct (run_fetched _ _ _ _ _ _ Hr) as [[_ ?]|(s1&Hs1&_&Hg)]; [done|].
  unfold fetched_guard in Hg. destruct (deleting s1); [done|].
  destruct (finalized s1); [|done]. destruct Hg as [(->&->&Hu&Hl)|(?&_&[])].
  split; [done|]. split; [done|]. split; [done|].
  apply last_Some_elem_of in Hl. by eapply (run_told_elem _ _ _ _ _ _ Hr Hl).
Qed.

(** What a run publishes. *)
Lemma publish_described ns n w t c k h :
  run_inv ns n w (mkRunning (Do (PublishPhaseChange t c) k) h) → described (versions w) c.
Proof.
  intros Hr. destruct (run_fetched _ _ _ _ _ _ Hr) as [[_ ?]|(s1&Hs1&_&Hg)]; [done|].
  unfold fetched_guard in Hg. destruct (deleting s1) eqn:Hd.
  - destruct Hg as (_&s2&->&[->|Ha]&_); [by exists s1; auto|].
    exists s2. split; [|by left]. by destruct (run_told_elem _ _ _ _ _ _ Hr Ha) as [Ht _]; apply Ht.
  - destruct (finalized s1); [|done]. destruct Hg as [(_&->&_)|(?&_&[])]. exists s1. auto.
Qed.

(** A run creates objects only of a session that it read with the finalizer. *)
Lemma create_finalized ns n w kd x k h :
  run_inv ns n w (mkRunning (Do (Create kd x) k) h) →
  ∃ v, v ∈ versions w ∧ finalized v = true.
Proof.
  intros Hr. destruct (run_fetched _ _ _ _ _ _ Hr) as [[_ ?]|(s1&Hs1&_&Hg)]; [done|].
  unfold fetched_guard in Hg. destruct (deleting s1); [done|].
  destruct (finalized s1) eqn:Hf; [|done]. eauto.
Qed.

(** A write of the session keeps the invariant, if what it stores is a next
    version whose published phase was published. *)
Lemma written_inv s0 w lock change r w' :
  world_inv s0 w → written w lock change r w' →
  (∀ cur s', current w = Some cur → lock cur → change cur s' →
     next_version cur s' ∧ recorded (published w) s') →
  world_inv s0 w' ∧ extends w w' ∧
  (∀ s, r = Ok s → s ∈ versions w' ∧ ∃ cur, current w = Some cur ∧ change cur s).
Proof.
  intros Hw [[-> Hr]|(cur&s'&Hcur&Hlock&Hch&->&Hr)] Hnext.
  - split; [done|]. split; [apply extends_refl|]. by intros s ->.
  - destruct (Hnext _ _ Hcur Hlock Hch). split; [by eapply world_inv_store|].
    split; [by eapply extends_store|]. intros s ->. subst. simpl. split; [set_solver|eauto].
Qed.

Lemma recorded_annotation cs v s : recorded cs v →
  meta_UID (ObjMeta s) = meta_UID (ObjMeta v) →
  annotation (ObjMeta s) PublishedPhaseAnnotation = annotation (ObjMeta v) PublishedPhaseAnnotation →
  recorded cs s.
Proof. unfold recorded. by intros ? -> ->. Qed.

Lemma serve_status s0 ns n w s k h x w' :
  world_inv s0 w → run_inv ns n w (mkRunning (Do (UpdateStatus s) k) h) →
  serves (base h) w (UpdateStatus s) x w' →
  world_inv s0 w' ∧ extends w w' ∧ told w' (Ev (UpdateStatus s) x).
Proof.
  intros Hw Hr Hs. destruct (written_inv _ _ _ _ _ _ Hw Hs) as (?&?&Hx).
  { intros cur s' Hcur Hb Hu. split; [by eapply status_write_next|].
    eapply recorded_annotation; [by eapply inv_recorded, current_version| |];
      destruct Hu as (_&Hm&_); by rewrite Hm. }
  split; [done|]. split; [done|]. destruct x as [s1|]; [|done].
  destruct (Hx s1 eq_refl) as (Hin&cur&_&Hch). split; [by intros s2 [= <-]|]. split; [apply Hch|done].
Qed.

Lemma serve_update s0 ns n w s k h x w' :
  world_inv s0 w → run_inv ns n w (mkRunning (Do (UpdateSession s) k) h) →
  serves (base h) w (UpdateSession s) x w' →
  world_inv s0 w' ∧ extends w w' ∧ told w' (Ev (UpdateSession s) x).
Proof.
  intros Hw Hr Hs. destruct (written_inv _ _ _ _ _ _ Hw Hs) as (?&?&Hx).
  { intros cur s' Hcur Hb Hu. split; [by eapply update_next|].
    destruct (update_annotation _ _ _ _ _ _ _ Hw Hr) as (v&Hv&Ha).
    destruct Hu as (_&_&(_&_&Huid)&_&_&Hann).
    eapply recorded_annotation; [by eapply inv_recorded, Hv| |].
    - rewrite Huid. eapply same_uid; [done..|]. by eapply current_version.
    - rewrite <- Ha. unfold annotation. by rewrite Hann. }
  split; [done|]. split; [done|]. destruct x as [s1|]; [|done].
  destruct (Hx s1 eq_refl) as (Hin&_). split; [by intros s2 [= <-]|done].
Qed.

Lemma serve_patch s0 ns n w from to k h x w' :
  world_inv s0 w → run_inv ns n w (mkRunning (Do (PatchSession from to) k) h) →
  serves (base h) w (PatchSession from to) x w' →
  world_inv s0 w' ∧ extends w w' ∧ told w' (Ev (PatchSession from to) x).
Proof.
  intros Hw Hr Hs. destruct (patch_guard _ _ _ _ _ _ _ Hr) as (Hfrom&->&Hu&Hpub).
  destruct (written_inv _ _ _ _ _ _ Hw Hs) as (?&?&Hx).
  { intros cur s' Hcur _ Hp. destruct (patched_record _ _ _ Hu Hp) as [-> Ha]. split.
    - split; [done|done|by left|auto].
    - right. exists (phaseChange from). split; [done|]. split; [|done]. simpl.
      symmetry. eapply same_uid; [done..|]. by eapply current_version. }
  split; [done|]. split; [done|]. destruct x as [s1|]; [|done].
  destruct (Hx s1 eq_refl) as (Hin&_). split; [by intros s2 [= <-]|done].
Qed.

Lemma world_inv_publish s0 w c : world_inv s0 w → described (versions w) c →
  world_inv s0 (publish c w) ∧ extends w (publish c w).
Proof.
  intros Hw Hc. split; [|split; [by left|simpl; set_solver]]. destruct Hw. split; simpl; try done.
  - intros v Hv. eapply recorded_mono; [|by eauto]. set_solver.
  - intros c' [Hc'|Hc']%elem_of_app; [by eauto|]. by apply list_elem_of_singleton in Hc' as ->.
Qed.

Lemma serve_publish s0 ns n w t c k h x w' :
  world_inv s0 w → run_inv ns n w (mkRunning (Do (PublishPhaseChange t c) k) h) →
  serves (base h) w (PublishPhaseChange t c) x w' →
  world_inv s0 w' ∧ extends w w' ∧ told w' (Ev (PublishPhaseChange t c) x).
Proof.
  intros Hw Hr Hs.
  destruct (world_inv_publish s0 w c Hw (publish_described _ _ _ _ _ _ _ Hr)) as [Hp He].
  destruct x as [e|]; simpl in Hs; [destruct Hs as [->| ->]|subst w'].
  - by split; [|split; [apply extends_refl|]].
  - by split.
  - split; [done|]. split; [done|]. split; [done|]. split; [done|]. simpl. set_solver.
Qed.

Lemma serve_create s0 ns n w kd o k h x w' :
  world_inv s0 w → run_inv ns n w (mkRunning (Do (Create kd o) k) h) →
  serves (base h) w (Create kd o) x w' →
  world_inv s0 w' ∧ extends w w' ∧ told w' (Ev (Create kd o) x).
Proof.
  intros Hw Hr Hs. pose proof (create_finalized _ _ _ _ _ _ _ Hr) as Hf.
  destruct Hs as [->|[-> _]]; [|by split; [|split; [apply extends_refl|]]].
  split; [by destruct Hw; split|]. split; [|by split]. split; [by left|done].
Qed.

(** Every call, whatever the answer, keeps the invariant. *)
Lemma serve_inv s0 ns n w o k h x w' :
  world_inv s0 w → run_inv ns n w (mkRunning (Do o k) h) → serves (base h) w o x w' →
  world_inv s0 w' ∧ extends w w' ∧ told w' (Ev o x).
Proof.
  intros Hw Hr Hs. destruct o;
    eauto using serve_status, serve_update, serve_patch, serve_publish, serve_create.
  all: first [destruct Hs as [-> Hs]|simpl in Hs; subst w'].
  all: split; [done|]; split; [apply extends_refl|].
  all: split; [|done]; simpl; try done.
  destruct x as [s1|]; [|done]. by intros s2 [= <-].
Qed.

(** * Every step *)

Lemma next_version_edit cur s : user_edit cur s → next_version cur s.
Proof.
  intros (Hst&Hid&_&Hd&Hf). split; [done|done|left; by rewrite Hst|auto].
Qed.

Lemma life_step_inv r ns n s0 sys sys' :
  system_inv s0 ns n sys → life r ns n sys sys' →
  system_inv s0 ns n sys' ∧ moved (sys_world sys) (sys_world sys').
Proof.
  intros [Hw Hr] Hl. destruct Hl as [w runs s s' Hcur He|w runs|w w' runs1 runs2 o k h x Hs|w runs1 runs2 run];
    simpl in *.
  - pose proof (next_version_edit _ _ He) as Hnext. split; [|right; exists s, s'; auto].
    split; simpl.
    + eapply world_inv_store; [done..|]. destruct He as (_&(_&_&Hu)&Ha&_).
      eapply recorded_annotation; [by eapply inv_recorded, current_version|done..].
    + eapply Forall_impl; [done|]. intros run. by eapply run_inv_mono, extends_store.
  - split; [|by left]. split; [done|]. constructor; [|done]. split; simpl; [constructor|..].
    + apply wp_Reconcile.
    + apply life_Reconcile.
  - apply Forall_app in Hr as [Hr1 Hr2]. apply Forall_cons in Hr2 as [Hr Hr2].
    destruct (serve_inv _ _ _ _ _ _ _ _ _ Hw Hr Hs) as (Hw'&He&Ht). split; [|apply He].
    assert (∀ runs, Forall (run_inv ns n w) runs → Forall (run_inv ns n w') runs) as Hmono.
    { intros runs HF. eapply Forall_impl; [done|]. intros run. by apply run_inv_mono. }
    split; [done|]. simpl. apply Forall_app. split; [auto|]. constructor; [|auto].
    destruct (run_inv_mono _ _ _ _ _ He Hr) as [Htold [_ Hg] [_ Hlf]]. split; simpl in *.
    + apply Forall_app. by split; [|constructor].
    + by apply Hg.
    + apply Hlf, Ht.
  - split; [|by left]. apply Forall_app in Hr as [Hr1 Hr2].
    apply Forall_cons in Hr2 as [_ Hr2]. split; [done|]. apply Forall_app. auto.
Qed.

Lemma init_inv s0 ns n : fresh s0 → system_inv s0 ns n (mkSystem (mkWorld [s0] false [] []) []).
Proof.
  intros [_ Ha]. split; [|constructor]. split; simpl; try done.
  - intros v Hv. apply list_elem_of_singleton in Hv as ->. by left.
  - intros c Hc. by apply not_elem_of_nil in Hc.
Qed.

Lemma reachable_inv r ns n s0 sys :
  fresh s0 → rtc (life r ns n) (mkSystem (mkWorld [s0] false [] []) []) sys → system_inv s0 ns n sys.
Proof.
  intros Hs Hl. pose proof (init_inv s0 ns n Hs) as Hi. induction Hl; [done|].
  apply IHHl. by eapply life_step_inv.
Qed.
End life.
