(* ===== verification/LifeSpec.v ===== *)
(** What a session's life promises, over any number of reconciliations: it refines
    an abstract life cycle, its phases never go back, what is announced happened,
    and what was created is protected by the finalizer. *)
From S2P Require Import Prelude GoStrings Kube KubeTypes Types Events Effects Reconciler.
From S2P Require Import ReconcilerGuard LifeGuard Cluster Life.

(** * The abstract life cycle

    A session as its owner sees it. *)
Record lifecycle := mkLifecycle {
  lc_phase : string;
  lc_deleting : bool;
  lc_finalized : bool;
  lc_gone : bool
}.

Inductive lifecycle_step : lifecycle → lifecycle → Prop :=
(** the controller moves the session along the phase machine *)
| lc_work p p' d f : phase_step p p' →
    lifecycle_step (mkLifecycle p d f false) (mkLifecycle p' d f false)
(** and to Terminating only when it is being deleted *)
| lc_terminate p f :
    lifecycle_step (mkLifecycle p true f false) (mkLifecycle SessionPhaseTerminating true f false)
(** the finalizer is set *)
| lc_protect p d f :
    lifecycle_step (mkLifecycle p d f false) (mkLifecycle p d true false)
(** the user deletes the session, which is final *)
| lc_delete p d f :
    lifecycle_step (mkLifecycle p d f false) (mkLifecycle p true f false)
(** the finalizer is taken away, only in a deletion *)
| lc_release p f :
    lifecycle_step (mkLifecycle p true f false) (mkLifecycle p true false false)
(** the object goes, when it is deleted and free of the finalizer *)
| lc_vanish p :
    lifecycle_step (mkLifecycle p true false false) (mkLifecycle p true false true).

(** The order of the phases: a session only moves up. *)
Definition phase_rank (p : string) : nat :=
  if decide (p = "" ∨ p = SessionPhasePending) then 0
  else if decide (p = SessionPhaseCreating) then 1
  else if decide (p = SessionPhaseRunning) then 2
  else if decide (p = SessionPhaseTerminating) then 4 else 3.

Lemma phase_step_rank p p' : phase_step p p' → (phase_rank p ≤ phase_rank p')%nat.
Proof. destruct 1 as [p [->| ->]| | | |]; apply Nat.leb_le; vm_compute; reflexivity. Qed.

Lemma terminating_top p : (phase_rank p ≤ phase_rank SessionPhaseTerminating)%nat.
Proof.
  replace (phase_rank SessionPhaseTerminating) with 4%nat by (vm_compute; reflexivity).
  unfold phase_rank. repeat case_decide; lia.
Qed.

Lemma phase_edge_rank d p p' : phase_edge d p p' → (phase_rank p ≤ phase_rank p')%nat.
Proof. intros [->|[?|[_ ->]]]; [done|by apply phase_step_rank|apply terminating_top]. Qed.

Lemma phase_step_ends p p' : phase_step p p' →
  p ≠ SessionPhaseFailed ∧ p ≠ SessionPhaseTerminating ∧ p' ≠ SessionPhaseTerminating.
Proof. by destruct 1 as [p [->| ->]| | | |]. Qed.

Section spec.
Context `{K : KubeLib, KL : !KubeLaws K}.

(** The life-cycle state of a version; and of the world. *)
Definition view_version (v : LabSession) (g : bool) : lifecycle :=
  mkLifecycle (Phase (Status v)) (deleting v) (finalized v) g.
Definition view (s0 : LabSession) (w : world) : lifecycle :=
  view_version (default s0 (last (versions w))) (gone w).

Lemma phase_edge_steps p p' d f : phase_edge d p p' →
  rtc lifecycle_step (mkLifecycle p d f false) (mkLifecycle p' d f false).
Proof.
  intros [->|[Hp|[-> ->]]]; [done|by apply rtc_once; constructor..].
Qed.

Lemma flag_steps p d d' f f' : (d = true → d' = true) → (f = true → f' = true ∨ d' = true) →
  rtc lifecycle_step (mkLifecycle p d f false) (mkLifecycle p d' f' false).
Proof.
  intros Hd Hf. transitivity (mkLifecycle p d' f false).
  - destruct d, d'; try done; [by specialize (Hd eq_refl)|apply rtc_once; constructor].
  - destruct f, f'; try done; [|apply rtc_once; constructor].
    destruct Hf as [?| ->]; [done..|]. apply rtc_once. constructor.
Qed.

Lemma vanishes_spec s : vanishes s = true → deleting s = true ∧ finalized s = false.
Proof.
  unfold vanishes, finalized. intros [Hd Hf]%andb_true_iff. split; [done|].
  destruct (meta_Finalizers (ObjMeta s)); [apply ContainsFinalizer_nil|done].
Qed.

Lemma next_version_steps v v' :
  next_version v v' → rtc lifecycle_step (view_version v false) (view_version v' (vanishes v')).
Proof.
  intros [_ Hd Hp Hf]. unfold view_version. etrans; [by apply phase_edge_steps|].
  etrans; [by apply (flag_steps _ _ (deleting v') _ (finalized v'))|].
  destruct (vanishes v') eqn:Hv; [|done]. destruct (vanishes_spec _ Hv) as [-> ->].
  apply rtc_once. constructor.
Qed.

(** The simulation: a step of the system is some steps of the life cycle. *)
Lemma moved_steps s0 w w' : moved w w' → rtc lifecycle_step (view s0 w) (view s0 w').
Proof.
  unfold view. intros [[-> ->]|(cur&s&Hcur&Hn&->&->)]; [done|].
  destruct (current_last _ _ Hcur) as [-> ->]. rewrite last_snoc. by apply next_version_steps.
Qed.

(** C3: a session's life refines the abstract life cycle. Take a session without
    a phase, any number of reconciliations that overlap and are cut off anywhere,
    read stale versions and see calls fail that had their effect, and users who
    edit and delete the session in between: what the API server stores at any
    time is reached from the new session by the steps of the life cycle. The
    phase moves along the phase machine, Terminating is for a session that is
    being deleted, the finalizer is taken away only in a deletion, and nothing
    happens after the object is gone. *)
Theorem life_refines_lifecycle r ns n s0 w :
  fresh s0 → reachable r ns n s0 w →
  rtc lifecycle_step (view_version s0 false) (view s0 w).
Proof.
  intros Hs [runs Hl]. change w with (sys_world (mkSystem w runs)).
  change (view_version s0 false) with
    (view s0 (sys_world (mkSystem (mkWorld [s0] false [] []) []))).
  pose proof (init_inv s0 ns n Hs) as Hi. induction Hl as [|sys1 sys2 sys3 Hstep Hl IH]; [done|].
  destruct (life_step_inv _ _ _ _ _ _ Hi Hstep) as [Hi2 Hm].
  etrans; [by eapply moved_steps|by apply IH].
Qed.

(** A version in the phase Terminating is being deleted. *)
Lemma version_terminating_deleting s0 w v :
  fresh s0 → world_inv s0 w → v ∈ versions w →
  Phase (Status v) = SessionPhaseTerminating → deleting v = true.
Proof.
  intros Hs Hw [j Hj]%list_elem_of_lookup.
  apply (chain_preserves s0 w (λ v', Phase (Status v') = SessionPhaseTerminating →
    deleting v' = true) 0 j s0 v Hw); [|lia|by eapply inv_first|done|].
  - intros v1 v2 [_ Hd [Heq|[Hp|[Hd1 _]]] _] Hv Ht; [rewrite <- Heq in *; auto| |auto].
    by destruct (phase_step_ends _ _ Hp) as (_&_&?).
  - destruct Hs as [[->| ->] _]; intros [=].
Qed.

(** C7: phases never go back. In every history of versions that a session can
    have, a later version has the same identity and a phase that is no earlier in
    the order Pending, Creating, Running, Failed, Terminating; a failed session
    never works again; and a Terminating session is being deleted. *)
Theorem phases_never_go_back r ns n s0 w i j v v' :
  fresh s0 → reachable r ns n s0 w → (i ≤ j)%nat →
  versions w !! i = Some v → versions w !! j = Some v' →
  same_identity v v' ∧ (phase_rank (Phase (Status v)) ≤ phase_rank (Phase (Status v')))%nat ∧
  (Phase (Status v) = SessionPhaseFailed →
   Phase (Status v') = SessionPhaseFailed ∨ Phase (Status v') = SessionPhaseTerminating) ∧
  (Phase (Status v') = SessionPhaseTerminating → deleting v' = true).
Proof.
  intros Hs [runs Hl] Hij Hi Hj. pose proof (reachable_inv _ _ _ _ _ Hs Hl) as [Hw _].
  split; [|split; [|split]].
  - apply (chain_preserves s0 w (same_identity v) i j v v' Hw); try done.
    intros v1 v2 [(?&?&?) _ _ _] (?&?&?). repeat split; congruence.
  - apply (chain_preserves s0 w (λ v', phase_rank (Phase (Status v)) ≤ phase_rank (Phase (Status v')))%nat
      i j v v' Hw); try done.
    intros v1 v2 Hn Hle. etrans; [exact Hle|]. eapply phase_edge_rank, Hn.
  - intros Hf. apply (chain_preserves s0 w (λ v', Phase (Status v') = SessionPhaseFailed ∨
      Phase (Status v') = SessionPhaseTerminating) i j v v' Hw); [|done..|by left].
    intros v1 v2 [_ _ [->|[Hp|[_ ->]]] _] Hv; [done| |by right].
    by destruct (phase_step_ends _ _ Hp) as (?&?&_), Hv.
  - eapply version_terminating_deleting; [done..|]. by eapply list_elem_of_lookup_2.
Qed.

(** C8: announcements are true, and none is lost silently. At any time, every
    change to a phase other than Terminating that the broker took describes a
    version the session had; every change to Terminating describes such a version,
    or it describes a version that was being deleted in the way its deletion was
    about to write it, which need never have been stored, as the deletion goes on
    when the write is refused; and whenever a version says in its annotation that
    a phase was published, the broker did take a change of this session to that
    phase. *)
Theorem announcements_are_true r ns n s0 w :
  fresh s0 → reachable r ns n s0 w →
  (∀ c, c ∈ published w → pc_Phase c ≠ SessionPhaseTerminating →
     ∃ v, v ∈ versions w ∧ c = phaseChange v) ∧
  (∀ c, c ∈ published w → pc_Phase c = SessionPhaseTerminating →
     ∃ v, v ∈ versions w ∧ deleting v = true ∧ (c = phaseChange v ∨ c = phaseChange (terminating v))) ∧
  (∀ v, v ∈ versions w → annotation (ObjMeta v) PublishedPhaseAnnotation ≠ "" →
     ∃ c, c ∈ published w ∧ pc_UID c = meta_UID (ObjMeta v) ∧
       pc_Phase c = annotation (ObjMeta v) PublishedPhaseAnnotation).
Proof.
  intros Hs [runs Hl]. pose proof (reachable_inv _ _ _ _ _ Hs Hl) as [Hw _]. simpl in Hw. split; [|split].
  - intros c Hc Hp. destruct (inv_described _ _ Hw c Hc) as (v&Hv&[->|[_ ->]]); [eauto|by destruct Hp].
  - intros c Hc Hp. destruct (inv_described _ _ Hw c Hc) as (v&Hv&[->|[Hd ->]]); [|eauto].
    exists v. split; [done|]. split; [|auto]. by eapply version_terminating_deleting.
  - intros v Hv Ha. by destruct (inv_recorded _ _ Hw v Hv).
Qed.

(** C10: what was created is cleaned up after. Once any object was created for the
    session, its current version carries the controller's finalizer or is being
    deleted, so that it cannot disappear without a deletion by the controller;
    and when it is gone, it had been deleted and the finalizer taken away. *)
Theorem created_session_is_protected r ns n s0 w v :
  fresh s0 → reachable r ns n s0 w → last (versions w) = Some v →
  (created w ≠ [] → finalized v = true ∨ deleting v = true) ∧
  (gone w = true → deleting v = true ∧ finalized v = false).
Proof.
  intros Hs [runs Hl] Hv. pose proof (reachable_inv _ _ _ _ _ Hs Hl) as [Hw _]. simpl in Hw. split.
  - intros Hc. destruct (inv_created _ _ Hw Hc) as (v1&Hv1&Hf).
    apply (chain_last s0 w (λ v, finalized v = true ∨ deleting v = true) v1 v Hw); auto.
    intros v2 v3 [_ Hd _ Hfin] [?|?]; auto.
  - intros Hg. destruct (inv_gone _ _ Hw Hg) as (v1&Hv1&Hvan). simplify_eq.
    by apply vanishes_spec.
Qed.
End spec.
