(* ===== verification/ReconcilerSafety.v ===== *)
(** Safety of a reconciliation: the theorems about every run of [Reconcile], for
    all answers of the cluster, the broker and the clock, read off the guard of
    ReconcilerGuard.v. A call is named by its index [i] in the run; [take i tr]
    is what happened before it. *)
From S2P Require Import Prelude GoStrings Kube KubeTypes Types PodSettings ResourceBuilder Ingress.
From S2P Require Import Usage Events Effects SSHKeys Reconciler ReconcilerLogic ReconcilerGuard.

Section safety.
Context `{K : KubeLib, KL : !KubeLaws K}.

Lemma Reconcile_call r ns n tr out i o a :
  exec (Reconcile r ns n) tr out → tr !! i = Some (Ev o a) → reconcile_guard ns n (take i tr) o.
Proof. intros He Hi. eapply guarded_lookup; [by eapply Reconcile_guarded|done]. Qed.

(** The session that was read first, for every later call. *)
Lemma Reconcile_fetched_call r ns n tr out i o a :
  exec (Reconcile r ns n) tr out → tr !! i = Some (Ev o a) → o ≠ GetSession ns n →
  ∃ s, head tr = Some (Ev (GetSession ns n) (Ok s)) ∧ fetched_guard s (take i tr) o.
Proof.
  intros He Hi Ho. pose proof (Reconcile_call _ _ _ _ _ _ _ _ He Hi) as HG.
  destruct i as [|i]; [done|]. destruct tr as [|e tr]; [done|]. simpl in *.
  destruct HG as (s & -> & HG). eauto.
Qed.

(** C6: the phase machine. Every status write of a reconciliation moves the
    session along an edge of the phase machine: a session that was read as being
    deleted is only ever written as [Terminating]; any other carries the finalizer
    already and moves Pending/empty to Creating, Creating to Running or Failed,
    Running to Running or Failed. Nothing leaves Failed or Terminating. *)
Theorem status_write_follows_phase_machine r ns n tr out i s' a :
  exec (Reconcile r ns n) tr out → tr !! i = Some (Ev (UpdateStatus s') a) →
  ∃ s, head tr = Some (Ev (GetSession ns n) (Ok s)) ∧
    if deleting s then Phase (Status s') = SessionPhaseTerminating ∧ Usage (Status s') = no_usage
    else finalized s = true ∧ ∃ s1, working s (take i tr) s1 ∧
         phase_step (Phase (Status s1)) (Phase (Status s')).
Proof.
  intros He Hi. destruct (Reconcile_fetched_call _ _ _ _ _ _ _ _ He Hi) as (s&Hs&HG); [done|].
  exists s. split; [done|]. unfold fetched_guard in HG.
  destruct (deleting s); [by simpl in HG; subst|]. destruct (finalized s); [|done].
  split; [done|]. destruct HG as [[]|(s1&Hw&Hp&_)]. eauto.
Qed.

(** C1: a session is made Running only on evidence. Whenever a reconciliation
    writes the phase Running, either the session was Running already, or it was
    Creating and the run shows why: both volume claims, the SSH Secret, the pod,
    the Service and the Ingress were each read as owned by the session, created,
    or already there; the pod was read, with no terminal reason and ready; the
    status carries that pod's IP and the VM address computed from it; and the
    conditions PodReady, ServiceReady and Ready are all true. *)
Theorem running_needs_evidence r ns n tr out i s' a :
  exec (Reconcile r ns n) tr out → tr !! i = Some (Ev (UpdateStatus s') a) →
  Phase (Status s') = SessionPhaseRunning →
  ∃ s s1, head tr = Some (Ev (GetSession ns n) (Ok s)) ∧ working s (take i tr) s1 ∧
    (Phase (Status s1) = SessionPhaseRunning ∨
     (Phase (Status s1) = SessionPhaseCreating ∧ running_evidence s1 (take i tr) s')).
Proof.
  intros He Hi Hr. destruct (Reconcile_fetched_call _ _ _ _ _ _ _ _ He Hi) as (s&Hs&HG); [done|].
  exists s. unfold fetched_guard in HG. destruct (deleting s).
  { simpl in HG. subst s'. done. }
  destruct (finalized s); [|done]. destruct HG as [[]|(s1&Hw&Hp&Hev&_)].
  exists s1. split; [done|]. split; [done|]. rewrite Hr in Hp.
  inversion Hp; simplify_eq; auto.
Qed.

(** C13: a running session fails only when it lost its pod. Whenever a
    reconciliation writes Failed over Running, it has read the pod and: the
    session has no pod name, or the pod was not found, or the pod has a terminal
    reason, or it was not ready and a clock reading of this run lies more than
    two minutes after the last transition of the PodReady condition. *)
Theorem running_fails_on_evidence r ns n tr out i s s' a :
  exec (Reconcile r ns n) tr out → tr !! i = Some (Ev (UpdateStatus s') a) →
  head tr = Some (Ev (GetSession ns n) (Ok s)) → deleting s = false →
  Phase (Status s') = SessionPhaseFailed →
  ∃ s1, working s (take i tr) s1 ∧
    (Phase (Status s1) = SessionPhaseCreating ∨
     (Phase (Status s1) = SessionPhaseRunning ∧ pod_lost s1 (take i tr))).
Proof.
  intros He Hi Hs Hd Hf. destruct (Reconcile_fetched_call _ _ _ _ _ _ _ _ He Hi) as (s0&Hs0&HG);
    [done|].
  assert (s0 = s) as ->.
  { rewrite Hs in Hs0. apply (f_equal (fmap session_answer)) in Hs0. by simplify_eq/=. }
  unfold fetched_guard in HG. rewrite Hd in HG. destruct (finalized s); [|done].
  destruct HG as [[]|(s2&Hw&Hp&_&Hl)]. exists s2. split; [done|]. rewrite Hf in Hp.
  inversion Hp; simplify_eq; auto.
Qed.

(** C2: nothing is created before its time, under another name or without an
    owner. Every object that a reconciliation creates belongs to a session that
    was read with the finalizer set, not being deleted and in the phase Creating;
    the object has one of the session's own names, lies in the session's
    namespace and is controlled by the session; and the objects it depends on
    were ensured earlier in the same run (claims, then SSH Secret, then pod, then
    Service, then Ingress). *)
Theorem creates_are_owned_and_ordered r ns n tr out i k x a :
  exec (Reconcile r ns n) tr out → tr !! i = Some (Ev (Create k x) a) →
  ∃ s s1, head tr = Some (Ev (GetSession ns n) (Ok s)) ∧ deleting s = false ∧
    finalized s = true ∧ working s (take i tr) s1 ∧
    Phase (Status s1) = SessionPhaseCreating ∧
    meta_Name (obj_meta k x) ∈ object_names k (SessionID (Spec s1)) ∧
    meta_Namespace (obj_meta k x) = s_Namespace s1 ∧
    IsControlledBy (obj_meta k x) (ObjMeta s1) = true ∧
    prerequisites s1 k (take i tr).
Proof.
  intros He Hi. destruct (Reconcile_fetched_call _ _ _ _ _ _ _ _ He Hi) as (s&Hs&HG); [done|].
  unfold fetched_guard in HG. destruct (deleting s) eqn:Hd; [done|].
  destruct (finalized s) eqn:Hf; [|done]. destruct HG as [[]|(s1&Hw&Hp&(m&Hm&Hns&Hn)&Hpre)].
  destruct (SetControllerReference_spec _ _ _ Hm) as (Hc&Hn'&Hns'&_).
  exists s, s1. rewrite Hn', Hns'. auto 10.
Qed.

(** C11: the published phase. A phase change is published, and the annotation
    patched, only for the phase the session was read in, which is not empty and
    not what the annotation already records; the patch comes right after a
    publish that succeeded, and changes the annotation to that phase and nothing
    else. A session that is being deleted is not patched; its event has a
    deadline, tells of the session as its status write left it, and is published
    only when the annotation of that session does not record Terminating. *)
Theorem publish_before_record r ns n tr out i o a :
  exec (Reconcile r ns n) tr out → tr !! i = Some (Ev o a) →
  match o with
  | PublishPhaseChange timeout c => ∃ s, head tr = Some (Ev (GetSession ns n) (Ok s)) ∧
      if deleting s then timeout = Some terminatingPublishTimeout ∧
        ∃ s1, c = phaseChange s1 ∧ after_write s (take i tr) s1 ∧
          annotation (ObjMeta s1) PublishedPhaseAnnotation ≠ SessionPhaseTerminating
      else timeout = None ∧ c = phaseChange s ∧ unpublished s
  | PatchSession from to => head tr = Some (Ev (GetSession ns n) (Ok from)) ∧
      deleting from = false ∧ to = record_phase from ∧ unpublished from ∧
      last (take i tr) = Some (Ev (PublishPhaseChange None (phaseChange from)) None)
  | _ => True
  end.
Proof.
  intros He Hi. destruct o; try done.
  all: destruct (Reconcile_fetched_call _ _ _ _ _ _ _ _ He Hi) as (s'&Hs&HG); [done|].
  all: unfold fetched_guard in HG; destruct (deleting s') eqn:Hd; [simpl in HG|];
    [try done|destruct (finalized s'); [|done]; destruct HG as [HG|(s1&_&[])]].
  - simpl in HG. destruct HG as (->&->&?&?). by rewrite Hd.
  - exists s'. rewrite Hd. auto.
  - exists s'. rewrite Hd. auto.
Qed.

End safety.
