(* ===== verification/ReconcilerSpec.v ===== *)
(** What the reconciler's handlers do and return, branch by branch: deletion,
    the finalizer, failures, the retry of a failed publish, the bound on calls,
    and conditions. *)
From S2P Require Import Prelude GoStrings Kube KubeTypes Types PodSettings ResourceBuilder Ingress.
From S2P Require Import Usage Events Effects SSHKeys Reconciler ReconcilerLogic ReconcilerGuard.

Section spec.
Context `{K : KubeLib, KL : !KubeLaws K}.

(** The rest of a run, once the session is read. *)
Lemma Reconcile_rest r ns n s tr out :
  exec (Reconcile r ns n) (Ev (GetSession ns n) (Ok s) :: tr) out →
  ∃ out', exec (reconcile_fetched r s) tr out' ∧
    out = match out' with Done x => Done x.1 | Panicked => Panicked end.
Proof.
  intros He. apply exec_inv in He as (a & tr' & Heq & He).
  pose proof (f_equal (fmap session_answer ∘ head) Heq) as Ha.
  apply (f_equal tail) in Heq. simplify_eq/=.
  apply exec_bind_inv in He as [(tr1 & tr2 & x & -> & He & Hx)|[He ->]]; [|eauto].
  apply exec_inv in Hx as [-> ->]. rewrite app_nil_r. eauto.
Qed.

(** * Deletion *)

(** The session after the status write of [reconcileDelete]. *)
Definition after_status (s : LabSession) (a : result error LabSession) : LabSession :=
  match a with Ok s1 => s1 | Err _ => terminating s end.

(** The event of a deletion: published when there is a publisher and the
    annotation does not record the phase Terminating. *)
Definition deletion_event (r : LabSessionReconciler) (s : LabSession) (pub : list event) : Prop :=
  if r_Events r && bool_decide (annotation (ObjMeta s) PublishedPhaseAnnotation
                                ≠ SessionPhaseTerminating)
  then ∃ e, pub = [Ev (PublishPhaseChange (Some terminatingPublishTimeout) (phaseChange s)) e]
  else pub = [].

Definition is_gone (a : result error LabSession) : bool :=
  match a with Err e => IsNotFound e | Ok _ => false end.

Definition deletion_result (a2 : result error LabSession) : Result * option error :=
  match a2 with
  | Err e => if IsNotFound e then (no_requeue, None) else (no_requeue, Some e)
  | Ok _ => (no_requeue, None)
  end.

(** All a deletion does, from the answer of its status write. *)
Definition deletion_run (r : LabSessionReconciler) (s : LabSession) (tr : list event)
    (out : Result * option error) : Prop :=
  ∃ a1, if is_gone a1
    then tr = [Ev (UpdateStatus (terminating s)) a1] ∧ out = (no_requeue, None)
    else ∃ pub a2, deletion_event r (after_status s a1) pub ∧
      tr = [Ev (UpdateStatus (terminating s)) a1;
            Ev (RecordEvent EventTypeNormal "Terminating" "Cleaning up lab session") tt] ++ pub
           ++ [Ev (UpdateSession (without_finalizer (after_status s a1))) a2] ∧
      out = deletion_result a2.

Lemma deletion_gone r s e : IsNotFound e = true →
  deletion_run r s [Ev (UpdateStatus (terminating s)) (Err e)] (no_requeue, None).
Proof. intros He. exists (Err e). simpl. by rewrite He. Qed.

Lemma deletion_torn_down r s a1 (u : unit) pub a2 out :
  is_gone a1 = false → deletion_event r (after_status s a1) pub → deletion_result a2 = out →
  deletion_run r s ([Ev (UpdateStatus (terminating s)) a1;
      Ev (RecordEvent EventTypeNormal "Terminating" "Cleaning up lab session") u] ++ pub
    ++ [Ev (UpdateSession (without_finalizer (after_status s a1))) a2]) out.
Proof. destruct u. intros Ha1 Hpub <-. exists a1. rewrite Ha1. eauto. Qed.

Lemma deletion_event_intro r s e :
  deletion_event r s (if r_Events r && bool_decide (annotation (ObjMeta s)
      PublishedPhaseAnnotation ≠ SessionPhaseTerminating)
    then [Ev (PublishPhaseChange (Some terminatingPublishTimeout) (phaseChange s)) e] else []).
Proof. unfold deletion_event. destruct (_ && _); eauto. Qed.

Lemma wp_reconcileDelete r s h :
  wp any_env no_guard (reconcileDelete r s) (λ h' out, ∃ tr x, h' = h ++ tr ∧
    out = Done x ∧ deletion_run r s tr x.1) h.
Proof.
  unfold reconcileDelete. wp_run; try done.
  all: simplify_eq; rewrite <- ?app_assoc; do 2 eexists; (split; [reflexivity|]);
    (split; [reflexivity|]); cbn [fst app].
  all: try by apply deletion_gone.
  all: lazymatch goal with
    | |- deletion_run ?r ?s [Ev _ ?a1; Ev _ ?u; ?p; Ev _ ?a2] ?out =>
        apply (deletion_torn_down r s a1 u [p] a2 out)
    | |- deletion_run ?r ?s [Ev _ ?a1; Ev _ ?u; Ev _ ?a2] ?out =>
        apply (deletion_torn_down r s a1 u [] a2 out) end.
  all: simpl; try done.
  all: repeat match goal with H : IsNotFound _ = _ |- _ => rewrite H end; try done.
  all: fold (terminating s) in *; unfold deletion_event;
    match goal with H : r_Events _ && _ = _ |- _ => rewrite H end; eauto.
Qed.

(** C9: deletion. Reconciling a session that is being deleted (with the
    finalizer or not) does exactly this: write the status Terminating with no
    usage; if the session is already gone, stop; else record the event, publish
    the change with a deadline when there is a publisher and the annotation does
    not record it yet, and remove the finalizer, whatever the status write and
    the publisher answered. It never panics, never creates anything and its
    result is that of the finalizer update alone, not found being no error. *)
Theorem deletion_tears_down r ns n s tr out :
  deleting s = true → exec (Reconcile r ns n) (Ev (GetSession ns n) (Ok s) :: tr) out →
  ∃ x, out = Done x ∧ deletion_run r s tr x.
Proof.
  intros Hs He. apply Reconcile_rest in He as (out' & He & ->).
  unfold reconcile_fetched in He. cbv beta delta [mbind M_bind get_session] in He. simpl in He.
  unfold deleting in Hs. rewrite Hs in He.
  destruct (wp_exec_any _ _ _ _ _ (wp_reconcileDelete r s []) He)
    as [(tr' & x & -> & -> & Hx) _]. eauto.
Qed.

(** The finalizer comes first. Reconciling a live session that lacks the
    finalizer makes one write, the session with the finalizer added, and nothing
    else; it asks to be called again, or returns the error of the write. *)
Theorem finalizer_comes_first r ns n s tr out :
  deleting s = false → finalized s = false →
  exec (Reconcile r ns n) (Ev (GetSession ns n) (Ok s) :: tr) out →
  ∃ a, tr = [Ev (UpdateSession (with_finalizer s)) a] ∧
    finalized (with_finalizer s) = true ∧
    out = Done (match a with Ok _ => (requeue_now, None) | Err e => (no_requeue, Some e) end).
Proof.
  intros Hd Hf He. apply Reconcile_rest in He as (out' & He & ->).
  unfold reconcile_fetched in He. cbv beta delta [mbind M_bind get_session] in He. simpl in He.
  unfold deleting in Hd. unfold finalized in Hf. rewrite Hd, Hf in He. simpl in He.
  apply exec_inv in He as (a & tr' & -> & He). exists a.
  destruct a; simpl in He; apply exec_inv in He as [-> ->]; (split; [done|]).
  all: split; [apply ContainsFinalizer_Add|done].
Qed.

(** * Requeues *)

(** No handler asks for a negative delay. *)
Definition sound_delay (h : list event) (out : outcome (Result * option error * LabSession))
    : Prop :=
  match out with Done (res, _, _) => 0 ≤ RequeueAfter res | Panicked => True end.

Create HintDb delay.

(** Passes over a step whose effects do not matter. *)
Ltac wp_skip :=
  eapply wp_mono; [|apply wp_trivial];
  let out := fresh "out" in intros ? out _; destruct out as [[? ?]|]; wp_simp; [|done].
Ltac wp_delay :=
  repeat lazymatch goal with
  | |- sound_delay _ _ => done
  | |- wp _ _ (?f _ _) sound_delay _ => first [wp_step | solve [eauto 2 with delay nocore]]
  | |- _ => first [wp_step | exact I | wp_skip]
  end.

Lemma handleCreateError_delay r m e s h :
  wp any_env no_guard (handleCreateError r m e s) sound_delay h.
Proof. unfold handleCreateError. wp_delay. Qed.
Hint Resolve handleCreateError_delay : delay.

Lemma become_running_delay r pod s h :
  wp any_env no_guard (become_running r pod s) sound_delay h.
Proof. unfold become_running. wp_delay. Qed.
Hint Resolve become_running_delay : delay.

Lemma check_created_pod_delay r s h :
  wp any_env no_guard (check_created_pod r s) sound_delay h.
Proof. unfold check_created_pod. wp_delay. Qed.
Hint Resolve check_created_pod_delay : delay.

Lemma reconcileCreating_delay r s h :
  wp any_env no_guard (reconcileCreating r s) sound_delay h.
Proof. unfold reconcileCreating. wp_delay. Qed.
Hint Resolve reconcileCreating_delay : delay.

Lemma reconcileRunning_delay r s h :
  wp any_env no_guard (reconcileRunning r s) sound_delay h.
Proof. unfold reconcileRunning, wait_for_recovery. wp_delay. Qed.
Hint Resolve reconcileRunning_delay : delay.

Lemma reconcilePhase_delay r s h :
  wp any_env no_guard (reconcilePhase r s) sound_delay h.
Proof. unfold reconcilePhase, reconcilePending, reconcileFailed. wp_delay. Qed.

(** A publish, or the record of one, that failed. *)
Definition failed_publish (e : event) : bool :=
  match e with
  | Ev o a => match o return resp o → bool with
      | PublishPhaseChange None _ => λ a, match a with Some _ => true | None => false end
      | PatchSession _ _ => λ a, match a with Err _ => true | Ok _ => false end
      | _ => λ _, false
      end a
  end.

(** The adjustment of the result after a failed publish. *)
Lemma retry_publish_pending x res err :
  0 ≤ RequeueAfter x.1 → retry_publish true x = (res, err) →
  is_Some err ∨ Requeue res = true ∨ 0 < RequeueAfter res ≤ publishRetryDelay.
Proof.
  destruct x as [[rq after] [e|]]; unfold retry_publish, publishRetryDelay, second; simpl.
  { intros _ [= <- <-]. eauto. }
  destruct rq; simpl; [intros _ [= <- <-]; auto|].
  intros Hd. destruct (_ || _) eqn:Hc; intros [= <- <-]; right; right; simpl; lia.
Qed.

(** The run of a live session that has the finalizer: the phase is published,
    then handled. *)
Lemma Reconcile_live r ns n s tr out :
  deleting s = false → finalized s = true →
  exec (Reconcile r ns n) (Ev (GetSession ns n) (Ok s) :: tr) out →
  ∃ tr1 tr2 pending s1, tr = tr1 ++ tr2 ∧
    publish_post r s [] tr1 (Done (pending, s1)) ∧
    ∃ out2, exec (reconcilePhase r s1) tr2 out2 ∧
    out = match out2 with
          | Done x => Done (retry_publish pending x.1)
          | Panicked => Panicked
          end.
Proof.
  intros Hd Hf He. apply Reconcile_rest in He as (out' & He & ->).
  unfold reconcile_fetched in He. cbv beta delta [mbind M_bind get_session] in He.
  cbn [prog_bind fst snd] in He. unfold deleting in Hd. unfold finalized in Hf.
  rewrite Hd, Hf in He. cbn [negb] in He.
  apply exec_bind_inv in He as [(tr1 & tr2 & [pending s1] & -> & He1 & He2)|[He ->]];
    (destruct (wp_exec_any _ _ _ _ _ (wp_publishPhase r s []) ltac:(eassumption)) as [Hp _]);
    [|by destruct Hp].
  exists tr1, tr2, pending, s1. split; [done|]. split; [done|]. cbn [fst snd] in He2.
  apply exec_bind_inv in He2 as [(tr3 & tr4 & [x s2] & -> & He2 & He3)|[He2 ->]]; [|eauto].
  apply exec_inv in He3 as [-> ->]. rewrite app_nil_r. eauto.
Qed.

(** C12: a failed publish is retried. When the broker refuses the event, or the
    annotation cannot be patched, the reconciliation of a live session still
    handles the phase, and its result makes the controller come back: it is an
    error, or an immediate requeue, or a requeue within thirty seconds. *)
Theorem failed_publish_is_retried r ns n s tr res err :
  deleting s = false → finalized s = true →
  exec (Reconcile r ns n) (Ev (GetSession ns n) (Ok s) :: tr) (Done (res, err)) →
  existsb failed_publish tr = true →
  is_Some err ∨ Requeue res = true ∨ 0 < RequeueAfter res ≤ publishRetryDelay.
Proof.
  intros Hd Hf He Hfail.
  destruct (Reconcile_live _ _ _ _ _ _ Hd Hf He) as (tr1&tr2&pending&s1&->&[_ Hp]&out2&He2&Hout).
  destruct (wp_exec_any _ _ _ _ _ (wp_reconcilePhase r s1 []) He2) as [_ HG].
  assert (existsb failed_publish tr2 = false) as Hno.
  { apply not_true_iff_false. intros Hex. apply existsb_exists in Hex as (e & Hin & Hb).
    apply list_elem_of_In in Hin. destruct (guarded_elem _ _ _ HG Hin) as [h Hh].
    destruct e as [[] ?]; simpl in *; done. }
  rewrite existsb_app, Hno, orb_false_r in Hfail.
  assert (pending = true) as ->.
  { by destruct Hp as [(->&_)|[(e&_&_&->)|([s2|e]&->&_&Hp)]]. }
  destruct out2 as [[[res2 err2] s2]|]; [|done].
  destruct (wp_exec_any _ _ _ _ _ (reconcilePhase_delay r s1 []) He2) as [Hdelay _].
  apply (retry_publish_pending (res2, err2)); [done|]. by injection Hout.
Qed.

(** * The number of calls *)

Create HintDb calls.

Lemma calls_wp {A} n (p : prog A) h :
  calls n p → wp any_env no_guard p (λ h' _, (length h' ≤ length h + n)%nat) h.
Proof. auto. Qed.

Ltac calls_done := rewrite ?length_app in *; simpl in *; lia.
Ltac calls_sub :=
  eapply wp_mono; [|eapply calls_wp; solve [eauto 2 with calls nocore]];
  let Hlen := fresh "Hlen" in let out := fresh "out" in
  intros ? out Hlen; cbv beta in *; destruct out as [[? ?]|]; wp_simp.
Ltac wp_calls :=
  repeat lazymatch goal with
  | |- (_ ≤ _)%nat => calls_done
  | |- no_guard _ _ => exact I
  | |- _ => first [wp_step | calls_sub]
  end.

Lemma sessionPod_calls s : calls 1 (sessionPod s).
Proof. intros h. unfold sessionPod. wp_calls. Qed.
Hint Resolve sessionPod_calls : calls.

Lemma setCondition_calls t st re m s : calls 1 (setCondition t st re m s).
Proof. intros h. unfold setCondition. wp_calls. Qed.
Hint Resolve setCondition_calls : calls.

Lemma updateStatusFailed_calls r m e s : calls 4 (updateStatusFailed r m e s).
Proof. intros h. unfold updateStatusFailed. wp_calls. Qed.
Hint Resolve updateStatusFailed_calls : calls.

Lemma handleCreateError_calls r m e s : calls 5 (handleCreateError r m e s).
Proof. intros h. unfold handleCreateError. wp_calls. Qed.
Hint Resolve handleCreateError_calls : calls.

Lemma updateEndpoints_calls r s : calls 1 (updateEndpoints r s).
Proof. intros h. unfold updateEndpoints. wp_calls. Qed.
Hint Resolve updateEndpoints_calls : calls.

Lemma ensurePVCs_loop_calls pvcs : ∀ s, calls (3 * length pvcs) (ensurePVCs_loop pvcs s).
Proof.
  induction pvcs as [|pvc pvcs IH]; intros s h; cbn [ensurePVCs_loop]; wp_calls.
  all: eapply wp_mono; [|apply IH]; intros ? ? Hlen; cbv beta in *; calls_done.
Qed.

Lemma ensurePVCs_calls r s : calls 6 (ensurePVCs r s).
Proof.
  intros h. unfold ensurePVCs. wp_step. wp_step. wp_simp. wp_step. wp_step; [|calls_done].
  destruct (BuildPVCs_meta _ _ _ H) as (q1 & q2 & ->). apply ensurePVCs_loop_calls.
Qed.
Hint Resolve ensurePVCs_calls : calls.

Lemma ensurePod_calls r s : calls 3 (ensurePod r s).
Proof. intros h. unfold ensurePod. wp_calls. Qed.
Lemma ensureService_calls s : calls 3 (ensureService s).
Proof. intros h. unfold ensureService. wp_calls. Qed.
Lemma ensureIngress_calls r s : calls 3 (ensureIngress r s).
Proof. intros h. unfold ensureIngress. wp_calls. Qed.
Hint Resolve ensurePod_calls ensureService_calls ensureIngress_calls : calls.

Lemma EnsureSSHKeySecret_calls o id ns : calls 3 (EnsureSSHKeySecret o id ns).
Proof.
  intros h. unfold EnsureSSHKeySecret, BuildSSHKeySecret, openSSHPrivateKey, call. simpl.
  split; [done|]. intros [kp|e] _; simpl; [|calls_done].
  split; [done|]. intros [check|e] _; simpl; [|calls_done].
  destruct (SetControllerReference _ _); simpl; [|calls_done].
  split; [done|]. intros [o'|e] _; simpl; [calls_done|].
  destruct (IsAlreadyExists e); simpl; calls_done.
Qed.

Lemma lift_calls {A} n (p : prog A) s : calls n p → calls n (lift p s).
Proof. intros Hp h. apply wp_M_lift. eapply wp_mono; [|apply Hp]. by intros h' []. Qed.

Lemma ensure_secret_calls o id ns s : calls 3 (lift (EnsureSSHKeySecret o id ns) s).
Proof. apply lift_calls, EnsureSSHKeySecret_calls. Qed.
Hint Resolve ensure_secret_calls : calls.

Lemma become_running_calls r pod s : calls 6 (become_running r pod s).
Proof. intros h. unfold become_running. wp_calls. Qed.
Hint Resolve become_running_calls : calls.

Lemma check_created_pod_calls r s : calls 7 (check_created_pod r s).
Proof. intros h. unfold check_created_pod. wp_calls. Qed.
Hint Resolve check_created_pod_calls : calls.

Lemma reconcileCreating_calls r s : calls 26 (reconcileCreating r s).
Proof. intros h. unfold reconcileCreating. wp_calls. Qed.
Hint Resolve reconcileCreating_calls : calls.

Lemma wait_for_recovery_calls r s : calls 5 (wait_for_recovery r s).
Proof. intros h. unfold wait_for_recovery. wp_calls. Qed.
Hint Resolve wait_for_recovery_calls : calls.

Lemma reconcileRunning_calls r s : calls 8 (reconcileRunning r s).
Proof. intros h. unfold reconcileRunning. wp_calls. Qed.
Hint Resolve reconcileRunning_calls : calls.

Lemma reconcilePhase_calls r s : calls 26 (reconcilePhase r s).
Proof. intros h. unfold reconcilePhase, reconcilePending, reconcileFailed. wp_calls. Qed.

Lemma publishPhase_calls r s : calls 2 (publishPhase r s).
Proof.
  intros h. unfold publishPhase. wp_step. wp_step. wp_simp. wp_step; [wp_calls|].
  destruct (meta_Annotations (ObjMeta s)) as [ann|] eqn:Ha; wp_calls.
Qed.

Lemma reconcileDelete_calls r s : calls 4 (reconcileDelete r s).
Proof. intros h. unfold reconcileDelete. wp_calls. Qed.
Hint Resolve reconcilePhase_calls publishPhase_calls reconcileDelete_calls : calls.

Lemma reconcile_fetched_calls r s : calls 28 (reconcile_fetched r s).
Proof. intros h. unfold reconcile_fetched. wp_calls. Qed.

(** C23: a bound on the work. Whatever the cluster, the broker and the clock
    answer, a reconciliation ends after at most 29 calls (26 of the handler of
    the phase Creating, two to publish the phase, one to read the session). *)
Theorem Reconcile_is_bounded r ns n tr out :
  exec (Reconcile r ns n) tr out → (length tr ≤ 29)%nat.
Proof.
  intros He. eapply calls_exec; [|exact He]. intros h. unfold Reconcile, call.
  split; [done|]. intros [s|e] _; cbn [fst snd].
  - apply wp_bind. eapply wp_mono; [|apply reconcile_fetched_calls].
    intros h' [x|] Hlen; [|by calls_done]. simpl. calls_done.
  - simpl. destruct (IsNotFound e); simpl; calls_done.
Qed.

End spec.

(** * Conditions *)

Lemma set_condition_in_unchanged cs new c :
  NoDup (cond_Type <$> cs) → c ∈ cs → cond_Type c = cond_Type new →
  cond_Status c = cond_Status new → set_condition_in cs new = cs.
Proof.
  induction cs as [|c' cs IH]; csimpl; [by intros _ ?%not_elem_of_nil|].
  intros [Hnin Hnd]%NoDup_cons Hc Ht Hs. apply elem_of_cons in Hc as [->|Hc].
  - by rewrite decide_True, decide_False by naive_solver.
  - rewrite decide_False; [by rewrite IH|]. intros Heq. apply Hnin.
    rewrite Heq, <- Ht. by apply list_elem_of_fmap_2.
Qed.

Lemma set_condition_in_elem cs new c : c ∈ set_condition_in cs new → c ∈ cs ∨ c = new.
Proof.
  induction cs as [|c' cs IH]; simpl; [set_solver|].
  repeat case_decide; rewrite ?elem_of_cons; naive_solver.
Qed.

(** Conditions are a map by type. Setting a condition on conditions with
    distinct types keeps the types distinct, gives the set type its new status
    and every other type the status it had, adds nothing but the new condition,
    and changes nothing at all when the status is the one already there, so that
    the transition time that the unready timeout counts from is kept. *)
Theorem set_condition_is_map_update cs new :
  NoDup (cond_Type <$> cs) →
  NoDup (cond_Type <$> set_condition_in cs new) ∧
  (∀ t, cond_status (set_condition_in cs new) t =
     if decide (cond_Type new = t) then Some (cond_Status new) else cond_status cs t) ∧
  (∀ c, c ∈ set_condition_in cs new → c ∈ cs ∨ c = new) ∧
  (∀ c, c ∈ cs → cond_Type c = cond_Type new → cond_Status c = cond_Status new →
     set_condition_in cs new = cs).
Proof.
  intros Hnd. split; [|split; [|split]].
  - rewrite set_condition_in_types. case_decide as Hin; [done|].
    apply NoDup_app. split; [done|]. split; [|apply NoDup_singleton].
    intros x Hx ->%list_elem_of_singleton. done.
  - intros t. apply set_condition_in_status.
  - intros c. apply set_condition_in_elem.
  - intros c. by apply set_condition_in_unchanged.
Qed.
