(* ===== verification/ReconcilerFailures.v ===== *)
(** How a session fails: what [updateStatusFailed] does, which evidence makes a
    running session fail and that a lost pod always does, when an error of an
    ensure step is final, and the errors that the code cannot report. *)
From S2P Require Import Prelude GoStrings Kube KubeTypes Types PodSettings ResourceBuilder Ingress.
From S2P Require Import Usage Events Effects SSHKeys Reconciler ReconcilerLogic ReconcilerGuard.

Section failures.
Context `{K : KubeLib, KL : !KubeLaws K}.

(** * Failing a session *)

(** The status write of a failure, with its message and reason. *)
Definition failed_session (s s' : LabSession) (message reason : string) : Prop :=
  Phase (Status s') = SessionPhaseFailed ∧ Message (Status s') = message ∧
  Reason (Status s') = reason ∧ ObjMeta s' = ObjMeta s ∧ Spec s' = Spec s ∧
  cond_status (Conditions (Status s')) ConditionTypeReady = Some ConditionFalse.

(** The calls of a failure: reads, then one status write with any answer [a],
    then the warning event. *)
Definition fail_calls (s : LabSession) (message reason : string) (tr : list event) : Prop :=
  ∃ pre s' a, tr = pre ++ [Ev (UpdateStatus s') a;
      Ev (RecordEvent EventTypeWarning "Failed" (message +:+ ": " +:+ reason)) tt] ∧
    Forall (λ e, is_read (ev_op e)) pre ∧ failed_session s s' message reason.

Definition builds_PVCs (r : LabSessionReconciler) (s : LabSession) : Prop :=
  ∃ pvcs, BuildPVCs (r_ResourceBuilder r) s = Done pvcs.

Lemma fail_calls_intro s s' message reason pre a (u : unit) :
  Forall (λ e, is_read (ev_op e)) pre → failed_session s s' message reason →
  fail_calls s message reason (pre ++ [Ev (UpdateStatus s') a;
    Ev (RecordEvent EventTypeWarning "Failed" (message +:+ ": " +:+ reason)) u]).
Proof. destruct u. exists pre, s', a. auto. Qed.

Lemma failed_session_intro s s' message reason usage c :
  ObjMeta s' = ObjMeta s → Spec s' = Spec s →
  Status s' = set_Conditions (set_condition_in (Conditions (Status s)) c)
    (set_Usage usage (set_Reason reason (set_Message message
      (set_Phase SessionPhaseFailed (Status s))))) →
  cond_Type c = ConditionTypeReady → cond_Status c = ConditionFalse →
  failed_session s s' message reason.
Proof.
  unfold failed_session. intros -> -> -> Hc Hf. simpl.
  rewrite set_condition_in_status, Hc, Hf. by rewrite decide_True.
Qed.

Lemma wp_updateStatusFailed_calls r message err s h :
  builds_PVCs r s →
  wp any_env no_guard (updateStatusFailed r message (Some err) s) (λ h' out,
    ∃ tr s2, h' = h ++ tr ∧ fail_calls s message (error_text err) tr ∧ out = Done (tt, s2)) h.
Proof.
  intros [pvcs Hpvcs].
  unfold updateStatusFailed, sessionPod, setCondition. wp_run; try done.
  all: try by (exfalso; match goal with H : BuildPVCs ?rb _ = Panicked |- _ =>
    change (BuildPVCs rb s = Panicked) in H; congruence end).
  all: rewrite <- !app_assoc; cbn [app]; do 2 eexists; (split; [reflexivity|]);
    (split; [|repeat match goal with u : resp (RecordEvent _ _ _) |- _ => destruct u end; done]).
  all: lazymatch goal with
    | |- fail_calls _ _ _ [?p; Ev (UpdateStatus ?s') ?a; Ev _ ?u] =>
        apply (fail_calls_intro s s' message (error_text err) [p] a u)
    | |- fail_calls _ _ _ [?p; ?q; Ev (UpdateStatus ?s') ?a; Ev _ ?u] =>
        apply (fail_calls_intro s s' message (error_text err) [p; q] a u) end.
  all: try by repeat constructor.
  all: eapply failed_session_intro; [done|done|reflexivity|done..].
Qed.
(** * Losing the pod *)

(** Why a running session that reads [x] for its pod fails at once. *)
Definition lost_reason (s : LabSession) (x : result error Pod) : option string :=
  match x with
  | Ok pod =>
      if decide (PodName (Status s) = "") then Some "pod was deleted"
      else if decide (podTerminalReason pod = "") then None else Some (podTerminalReason pod)
  | Err e =>
      if decide (PodName (Status s) = "" ∨ IsNotFound e = true) then Some "pod was deleted" else None
  end.

(** The session is failed, and the result is final. *)
Definition fails_with (r : LabSessionReconciler) (s : LabSession) (message reason : string)
    (tr : list event) (out : outcome (Result * option error * LabSession)) : Prop :=
  fail_calls s message reason tr ∧ ∃ s2, out = Done (no_requeue, None, s2).

Lemma updateStatusFailed_result r s message err (x : Result * option error) tr out :
  builds_PVCs r s →
  exec ((_ ← updateStatusFailed r message (Some err); mret x : M _) s) tr out →
  fail_calls s message (error_text err) tr ∧ ∃ s2, out = Done (x, s2).
Proof.
  intros Hp He. apply exec_bind_inv in He as [(tr1&tr2&[u s2]&->&He1&He2)|[He ->]].
  - destruct (wp_exec_any _ _ _ _ _ (wp_updateStatusFailed_calls r message err s [] Hp) He1)
      as [(tr'&s3&->&Hc&Heq) _]. apply exec_inv in He2 as [-> ->]. rewrite app_nil_r.
    split; [done|eauto].
  - destruct (wp_exec_any _ _ _ _ _ (wp_updateStatusFailed_calls r message err s [] Hp) He)
      as [(?&?&_&_&[=]) _].
Qed.

Lemma updateStatusFailed_then r s message err tr out :
  builds_PVCs r s →
  exec ((_ ← updateStatusFailed r message (Some err); mret (no_requeue, None) : M _) s) tr out →
  fails_with r s message (error_text err) tr out.
Proof. apply updateStatusFailed_result. Qed.

(** C14: a lost pod fails the session. When a running session reads that its pod
    is gone or has a terminal reason, the handler reads what the session still
    holds, writes the status Failed once, with that reason and the condition
    Ready false, records the warning, and returns a final result: no error and
    no requeue, whatever the status write answered. *)
Theorem lost_pod_fails_session r s x reason tr out :
  builds_PVCs r s → lost_reason s x = Some reason →
  exec (reconcileRunning r s) (Ev (Get KPod (s_Namespace s) (PodName (Status s))) x :: tr) out →
  fails_with r s "Pod failed" reason tr out.
Proof.
  intros Hp Hl He. unfold reconcileRunning in He.
  cbv beta delta [mbind M_bind get_session do_call lift call] in He. cbn [prog_bind fst snd] in He.
  apply exec_inv in He as (x' & tr' & Heq & He).
  pose proof (f_equal (fmap pod_answer ∘ head) Heq) as Hx.
  apply (f_equal tail) in Heq. simplify_eq/=.
  unfold lost_reason in Hl. destruct x' as [pod|e].
  - rewrite orb_false_r in He. case_bool_decide; simpl in He.
    + rewrite decide_True in Hl by done. simplify_eq. by apply updateStatusFailed_then in He.
    + rewrite decide_False in Hl by done.
      destruct (decide (podTerminalReason pod = "")); [done|]. simplify_eq.
      destruct (decide (podTerminalReason pod ≠ "")); [|done].
      by apply updateStatusFailed_then in He.
  - case_decide as Hd; [|done]. simplify_eq.
    assert (bool_decide (PodName (Status s) = "") || IsNotFound e = true) as Hb.
    { apply orb_true_iff. rewrite bool_decide_eq_true. done. }
    rewrite Hb in He. by apply updateStatusFailed_then in He.
Qed.

(** * Errors of the ensure steps *)

(** What becomes of the error [err] of an ensure step: the clock is read if the
    session has a start time; the session is failed, with the error's text as its
    reason and a final result, when the error is permanent or the start is more
    than ten minutes past; else nothing is written and the error is returned. *)
Definition final_or_retried (r : LabSessionReconciler) (s : LabSession) (message : string)
    (err : error) (tr : list event) (out : outcome (Result * option error * LabSession)) : Prop :=
  ∃ now tr',
    tr = (if StartTime (Status s) then [Ev Now now] else []) ++ tr' ∧
    if isPermanentCreateError err ||
       match StartTime (Status s) with
       | Some start => creatingTimeout <? now - start
       | None => false
       end
    then fails_with r s message (error_text err) tr' out
    else tr' = [] ∧ out = Done (no_requeue, Some err, s).

Lemma handleCreateError_spec r message err s tr out :
  builds_PVCs r s → exec (handleCreateError r message err s) tr out →
  final_or_retried r s message err tr out.
Proof.
  intros Hp He. unfold handleCreateError in He.
  cbv beta delta [mbind M_bind get_session] in He. cbn [prog_bind fst snd] in He.
  unfold final_or_retried. destruct (StartTime (Status s)) as [start|].
  - cbn in He. apply exec_inv in He as (now & tr' & -> & He). exists now, tr'. split; [done|].
    rewrite time_sub_gt in He by (unfold creatingTimeout, in_int64; by vm_compute).
    destruct (_ || _); [by apply updateStatusFailed_then in He|]. by apply exec_inv in He.
  - cbn in He. exists 0, tr. split; [done|].
    destruct (_ || _); [by apply updateStatusFailed_then in He|]. by apply exec_inv in He.
Qed.

(** The ensure steps whose errors go through [handleCreateError], with the message. *)
Definition ensure_steps (r : LabSessionReconciler) : list (string * M (option error)) :=
  [("Failed to create PVCs", ensurePVCs r); ("Failed to create Pod", ensurePod r);
   ("Failed to create Service", ensureService); ("Failed to create Ingress", ensureIngress r)].

(** How a run of [reconcileCreating] that got as far as [tr1] and the session [s1] in
    its ensure steps goes on. *)
Definition creating_outcome (r : LabSessionReconciler) (s s1 : LabSession) (tr1 tr2 : list event)
    (out : outcome (Result * option error * LabSession)) : Prop :=
  (** every object was ensured: the pod is checked *)
  (all_ensured s tr1 ∧ exec (check_created_pod r s1) tr2 out) ∨
  (** a step ended with an error *)
  (∃ message step err s0 pre tr', (message, step) ∈ ensure_steps r ∧ same_session s s0 ∧
     tr1 = pre ++ tr' ∧ exec (step s0) tr' (Done (Some err, s1)) ∧
     final_or_retried r s1 message err tr2 out) ∨
  (** the SSH Secret could not be ensured *)
  (∃ err pre tr' s2, tr1 = pre ++ tr' ∧
     exec (EnsureSSHKeySecret (ObjMeta s) (SessionID (Spec s)) (s_Namespace s)) tr' (Done (Err err)) ∧
     fail_calls s1 "Failed to create SSH key Secret" (error_text err) tr2 ∧
     out = Done (requeue_after (30 * second), Some err, s2)).

(** The run after the calls [pre] ends in one of these ways. *)
Definition creating_ends (r : LabSessionReconciler) (s : LabSession) (pre tr : list event)
    (out : outcome (Result * option error * LabSession)) : Prop :=
  ∃ tr1 tr2 s1, tr = tr1 ++ tr2 ∧ same_session s s1 ∧ creating_outcome r s s1 (pre ++ tr1) tr2 out.

Lemma creating_ends_app r s pre tr1 tr2 out :
  creating_ends r s (pre ++ tr1) tr2 out → creating_ends r s pre (tr1 ++ tr2) out.
Proof.
  intros (tr3&tr4&s1&->&Hs&Ho). exists (tr1 ++ tr3), tr4, s1. by rewrite !app_assoc in *.
Qed.

(** Nothing in an ensure step panics once the objects can be built. *)
Definition safe {A} (p : prog A) : Prop := ∀ tr out, exec p tr out → out ≠ Panicked.

Lemma wp_safe {A} (p : prog A) : wp any_env no_guard p (λ _ out, out ≠ Panicked) [] → safe p.
Proof. intros Hp tr out He. by destruct (wp_exec_any _ _ _ _ _ Hp He). Qed.

Lemma ensurePVCs_safe r s : builds_PVCs r s → safe (ensurePVCs r s).
Proof.
  intros [pvcs Hp]. apply wp_safe. unfold ensurePVCs. wp_run; [|congruence].
  clear. generalize (@nil event) as h. induction a as [|pvc rest IH]; intros h; cbn [ensurePVCs_loop];
    wp_run; done || apply IH.
Qed.

Lemma ensurePod_safe r s : (∃ pod, BuildPod (r_ResourceBuilder r) s = Done pod) → safe (ensurePod r s).
Proof. intros [pod Hp]. apply wp_safe. unfold ensurePod. wp_run; done || congruence. Qed.

Lemma ensureService_safe s : safe (ensureService s).
Proof. apply wp_safe. unfold ensureService. by wp_run. Qed.

Lemma ensureIngress_safe r s : safe (ensureIngress r s).
Proof. apply wp_safe. unfold ensureIngress. by wp_run. Qed.

Lemma EnsureSSHKeySecret_safe owner sid ns : safe (EnsureSSHKeySecret owner sid ns).
Proof.
  apply wp_safe. unfold EnsureSSHKeySecret, BuildSSHKeySecret, openSSHPrivateKey, call. simpl.
  split; [done|]. intros [kp|e] _; simpl; [|done]. split; [done|]. intros [check|e] _; simpl; [|done].
  destruct (SetControllerReference _ _); simpl; [|done]. split; [done|].
  intros [o|e] _; simpl; [done|]. by destruct (IsAlreadyExists e).
Qed.

(** One ensure step of the run, with its error path. *)
Lemma creating_step_ends r message (m : M (option error)) next P s s1 pre tr out :
  buildable r s → (message, m) ∈ ensure_steps r → same_session s s1 →
  wp any_env no_guard (m s1) (ensure_post s1 pre P) pre → safe (m s1) →
  (∀ tr1 tr2 s2, same_session s1 s2 → P (pre ++ tr1) → pre `prefix_of` pre ++ tr1 →
     exec (next s2) tr2 out → creating_ends r s (pre ++ tr1) tr2 out) →
  exec ((e ← m; match e with Some err => handleCreateError r message err | None => next end) s1) tr out →
  creating_ends r s pre tr out.
Proof.
  intros Hb Hin Hs Hwp Hsafe Hnext He.
  apply exec_bind_inv in He as [(tr1&tr2&[e s2]&->&H1&H2)|[He _]]; [|by apply Hsafe in He].
  destruct (wp_exec_app _ _ _ _ _ _ _ Hwp H1) as [[Hpre [Hs2 HP]] _]; [by apply Forall_true|].
  cbn [fst snd] in H2. destruct e as [err|].
  - exists tr1, tr2, s2. assert (same_session s s2) as Hss by (by etrans). split; [done|].
    split; [done|]. right; left. exists message, m, err, s1, pre, tr1.
    do 4 (split; [done|]). apply handleCreateError_spec; [|done].
    destruct Hss as (Hm&Hsp&_). apply Hb; [done|]. unfold s_Namespace. by rewrite Hm.
  - apply creating_ends_app. by eapply Hnext; [| |exact Hpre|exact H2]; auto.
Qed.

Lemma buildable_session r s s1 : buildable r s → same_session s s1 →
  (∃ pod, BuildPod (r_ResourceBuilder r) s1 = Done pod) ∧ builds_PVCs r s1.
Proof. intros Hb (Hm&Hsp&_). apply Hb; [done|]. unfold s_Namespace. by rewrite Hm. Qed.

Lemma ensured_name_session s s1 k n h : same_session s s1 →
  ensured_name s1 k (n +:+ SessionID (Spec s1)) h → ensured_name s k (n +:+ SessionID (Spec s)) h.
Proof. intros Hs. rewrite (ensured_name_same s s1) by done. by rewrite (proj1 (proj2 Hs)). Qed.

Lemma creating_tail_ends r s s1 pre tr out :
  buildable r s → same_session s s1 → prerequisites s KPod pre →
  exec ((e ← ensurePod r;
    match e with Some err => handleCreateError r "Failed to create Pod" err | None =>
    e ← ensureService;
    match e with Some err => handleCreateError r "Failed to create Service" err | None =>
    e ← ensureIngress r;
    match e with Some err => handleCreateError r "Failed to create Ingress" err | None =>
    check_created_pod r end end end) s1) tr out →
  creating_ends r s pre tr out.
Proof.
  intros Hb Hs Hpre. eapply creating_step_ends; [done|by right; left|done|by apply wp_ensurePod|
    by apply ensurePod_safe, (buildable_session r s)|].
  intros tr1 tr2 s2 Hs2 Hpod%(ensured_name_session s) Hh1; [|done].
  assert (same_session s s2) as Hss2 by (by etrans).
  eapply creating_step_ends; [done|by do 2 right; left|done|by apply wp_ensureService|
    by apply ensureService_safe|].
  intros tr3 tr4 s3 Hs3 Hsvc%(ensured_name_session s) Hh2; [|done].
  assert (same_session s s3) as Hss3 by (by etrans).
  eapply creating_step_ends; [done|by do 3 right; left|done|by apply wp_ensureIngress|
    by apply ensureIngress_safe|].
  intros tr5 tr6 s4 Hs4 Hing%(ensured_name_session s) Hh3 He; [|done].
  exists [], tr6, s4. split; [done|]. split; [by etrans|]. left. rewrite app_nil_r. split; [|done].
  split; [|done]. destruct Hpre as [Hpvcs Hsec].
  apply (prerequisites_prefix _ _ _ _ Hh3). split; [|split; [|split]].
  - by do 2 (eapply ensured_pvcs_prefix; [eassumption|]).
  - by do 2 (eapply ensured_name_prefix; [eassumption|]).
  - by eapply ensured_name_prefix.
  - done.
Qed.

Lemma exec_lift {A} (p : prog A) s tr a s' :
  exec (lift p s) tr (Done (a, s')) → exec p tr (Done a) ∧ s' = s.
Proof.
  intros He. apply exec_bind_inv in He as [(tr1&tr2&b&->&He&Hr)|[_ [=]]].
  apply exec_inv in Hr as [-> [= -> ->]]. by rewrite app_nil_r.
Qed.

Lemma lift_safe {A} (p : prog A) s : safe p → safe (lift p s).
Proof.
  intros Hp tr out He ->. apply exec_bind_inv in He as [(tr1&tr2&b&->&_&Hr)|[He _]].
  - by apply exec_inv in Hr as [_ [=]].
  - by apply Hp in He.
Qed.

Lemma Secret_ensured s s1 pre tr created :
  same_session s s1 →
  exec (EnsureSSHKeySecret (ObjMeta s1) (SessionID (Spec s1)) (s_Namespace s1)) tr (Done (Ok created)) →
  ensured_name s KSecret (SSHKeySecretName (SessionID (Spec s))) (pre ++ tr).
Proof.
  intros Hs He.
  assert (wp any_env no_guard (EnsureSSHKeySecret (ObjMeta s1) (SessionID (Spec s1)) (s_Namespace s1))
    (λ h' out, pre `prefix_of` h' ∧ match out with
      | Done (Ok _) => ensured_name s1 KSecret (SSHKeySecretName (SessionID (Spec s1))) h'
      | _ => True end) pre) as Hwp by (by apply wp_EnsureSSHKeySecret).
  destruct (wp_exec_app _ _ _ _ _ _ _ Hwp He) as [[_ Hn] _]; [by apply Forall_true|].
  rewrite (ensured_name_same s s1) in Hn by done. by rewrite (proj1 (proj2 Hs)) in Hn.
Qed.

(** The SSH Secret, between the claims and the pod. *)
Lemma creating_secret_ends r s s1 pre tr out :
  buildable r s → same_session s s1 → ensured_pvcs s pre →
  exec ((s ← get_session;
    x ← lift (EnsureSSHKeySecret (ObjMeta s) (SessionID (Spec s)) (s_Namespace s));
    match x with
    | Err err =>
        _ ← updateStatusFailed r "Failed to create SSH key Secret" (Some err);
        mret (requeue_after (30 * second), Some err)
    | Ok created =>
    _ ← (if created : bool then do_call (RecordEvent EventTypeNormal "SSHKeyCreated"
           ("Created SSH key Secret " +:+ SSHKeySecretName (SessionID (Spec s))))
         else mret tt);
    e ← ensurePod r;
    match e with Some err => handleCreateError r "Failed to create Pod" err | None =>
    e ← ensureService;
    match e with Some err => handleCreateError r "Failed to create Service" err | None =>
    e ← ensureIngress r;
    match e with Some err => handleCreateError r "Failed to create Ingress" err | None =>
    check_created_pod r end end end end) s1) tr out →
  creating_ends r s pre tr out.
Proof.
  intros Hb Hs Hpvcs He. pose proof Hs as (Hm&Hsp&_).
  cbv beta delta [mbind M_bind get_session] in He. cbn [prog_bind fst snd] in He.
  apply exec_bind_inv in He as [(tr1&tr2&[x s2]&->&H1&H2)|[He _]].
  2: { by apply (lift_safe _ _ (EnsureSSHKeySecret_safe _ _ _)) in He. }
  apply exec_lift in H1 as [H1 ->]. cbn [fst snd] in H2. destruct x as [created|err].
  - apply creating_ends_app.
    apply exec_bind_inv in H2 as [(tr3&tr4&[[] s3]&->&H2&H3)|[H2 _]]; cbn [fst snd] in *.
    + apply creating_ends_app. assert (s3 = s1) as ->.
      { destruct created; [apply exec_inv in H2 as (?&?&_&H2)|]; by apply exec_inv in H2 as [_ [= <-]]. }
      eapply creating_tail_ends; [done|done| |exact H3].
      apply (prerequisites_prefix _ _ (pre ++ tr1)); [by apply prefix_app_r|].
      split; [by eapply ensured_pvcs_prefix; [apply prefix_app_r|]|]. by eapply Secret_ensured.
    + destruct created; [apply exec_inv in H2 as (?&?&_&H2)|]; by apply exec_inv in H2 as [_ [=]].
  - apply updateStatusFailed_result in H2 as [Hf [s2 ->]]; [|by apply (buildable_session r s)].
    exists tr1, tr2, s1. split; [done|]. split; [done|]. right; right.
    exists err, pre, tr1, s2. split; [done|]. unfold s_Namespace in *. by rewrite Hm, Hsp in H1.
Qed.

(** C21: an error of an ensure step is final or retried. Take any run of the handler
    of the phase Creating of a session whose objects can be built: it does not
    panic, and it goes on in one of three ways. Either the volume claims, the SSH
    Secret, the pod, the Service and the Ingress were all ensured, and the pod is
    checked. Or one of the steps that ensure the claims, the pod, the Service or
    the Ingress ended with an error: the session is failed, with the error's text
    as its reason and a final result, when the error is permanent (not owned,
    invalid, bad request) or more than ten minutes have passed since the start;
    else nothing is written and the error is returned, so that the controller
    retries. Or the SSH Secret could not be ensured: then the session is failed at
    once, whatever the error and however young the session, and the error is
    returned as well. *)
Theorem create_error_is_final_or_retried r s tr out :
  buildable r s → exec (reconcileCreating r s) tr out →
  ∃ tr1 tr2 s1, tr = tr1 ++ tr2 ∧ same_session s s1 ∧ creating_outcome r s s1 tr1 tr2 out.
Proof.
  intros Hb He. apply (creating_ends_app r s [] [] tr).
  unfold reconcileCreating in He. eapply creating_step_ends; [done|by left|reflexivity|
    by apply wp_ensurePVCs|by apply ensurePVCs_safe, (buildable_session r s)| |exact He].
  clear He. intros tr1 tr2 s1 Hs1 Hpvcs _ He. cbn [app] in *. by eapply creating_secret_ends.
Qed.

(** * A storage size that does not parse *)

(** The session's own storage size is not a quantity. *)
Definition bad_storage (s : LabSession) : Prop :=
  rc_Storage (Resources (Spec s)) ≠ "" ∧
  is_ok (ParseQuantity (rc_Storage (Resources (Spec s)))) = false.

Lemma BuildPVCs_bad_storage rb s : bad_storage s → BuildPVCs rb s = Panicked.
Proof.
  intros [Hne Hbad]. unfold BuildPVCs, MustParse. rewrite decide_True by done.
  by destruct (ParseQuantity _).
Qed.

(** C22: a storage size that does not parse panics the handlers. The VM's size
    falls back to the default disk, but the volume claims are built with
    [MustParse]: the handler of the phase Creating panics before its first call,
    and failing the session panics before the status is written, so that such a
    session is neither created nor failed. *)
Theorem bad_storage_panics r s :
  bad_storage s →
  (∀ tr out, exec (reconcileCreating r s) tr out → tr = [] ∧ out = Panicked) ∧
  (∀ message err tr out, exec (updateStatusFailed r message err s) tr out →
     Forall (λ e, is_read (ev_op e)) tr ∧ out = Panicked) ∧
  (∀ size, vm_size (r_ResourceBuilder r) s = Done size →
     diskSize (r_ResourceBuilder r) = Done (Disk size)).
Proof.
  intros Hb. split; [|split].
  - intros tr out He. unfold reconcileCreating, ensurePVCs in He.
    cbv beta delta [mbind M_bind get_session lift] in He. cbn [prog_bind fst snd] in He.
    rewrite BuildPVCs_bad_storage in He by done. by apply exec_inv in He.
  - intros message err tr out He.
    apply (wp_exec_any (λ _ o, is_read o) _ (λ _ out, out = Panicked)) in He.
    + destruct He as [-> HG]. split; [|done]. apply Forall_forall. intros e Hin.
      by destruct (guarded_elem _ _ _ HG Hin).
    + unfold updateStatusFailed, sessionPod. wp_run; try done.
      all: match goal with H : BuildPVCs ?rb _ = Done ?x |- _ =>
        change (BuildPVCs rb s = Done x) in H; by rewrite BuildPVCs_bad_storage in H end.
  - intros size Hs. unfold vm_size in Hs. inv_outcome Hs. rewrite Hx. f_equal.
    unfold positive_quantity at 1. destruct Hb as [_ Hb]. by destruct (ParseQuantity _).
Qed.

End failures.
