(* ===== verification/BuilderSpec.v ===== *)
(** Theorems about the builders: the VM's size and its memory, the pod, the
    Service and the Ingress and how they fit together, and what a session uses. *)
From S2P Require Import Prelude GoStrings Kube KubeTypes Types PodSettings ResourceBuilder Ingress.
From S2P Require Import Usage SSHKeys.

Section constants.
Context `{K : KubeLib, KL : !KubeLaws K}.

(** * The constants parse *)

Definition parses (s : string) (x : Z) : Prop := ∃ q, MustParse s = Done q ∧ nano q = x.

Lemma parses_Ok s q x : ParseQuantity s = Ok q → nano q = x → parses s x.
Proof. intros Hq Hx. exists q. unfold MustParse. by rewrite Hq. Qed.

Lemma parses_Done s x q : parses s x → MustParse s = Done q → nano q = x.
Proof. intros (q'&Hq'&?) Hq. congruence. Qed.

Lemma parses_plain n : 0 ≤ n < 2 ^ 20 → parses (pretty n) (n * 10 ^ 9).
Proof. intros Hn. destruct (parse_plain n Hn) as (q&?&?). by eapply parses_Ok. Qed.
Lemma parses_milli n : 0 ≤ n < 2 ^ 20 → parses (pretty n +:+ "m") (n * 10 ^ 6).
Proof. intros Hn. destruct (parse_milli n Hn) as (q&?&?). by eapply parses_Ok. Qed.
Lemma parses_Mi n : 0 ≤ n < 2 ^ 20 → parses (pretty n +:+ "Mi") (n * 2 ^ 20 * 10 ^ 9).
Proof. intros Hn. destruct (parse_Mi n Hn) as (q&?&?). by eapply parses_Ok. Qed.
Lemma parses_Gi n : 0 ≤ n < 2 ^ 20 → parses (pretty n +:+ "Gi") (n * 2 ^ 30 * 10 ^ 9).
Proof. intros Hn. destruct (parse_Gi n Hn) as (q&?&?). by eapply parses_Ok. Qed.

Lemma parses_1 : parses "1" (1 * 10 ^ 9).
Proof. by apply (parses_plain 1). Qed.
Lemma parses_100m : parses "100m" (100 * 10 ^ 6).
Proof. by apply (parses_milli 100). Qed.
Lemma parses_250m : parses "250m" (250 * 10 ^ 6).
Proof. by apply (parses_milli 250). Qed.
Lemma parses_500m : parses "500m" (500 * 10 ^ 6).
Proof. by apply (parses_milli 500). Qed.
Lemma parses_10Mi : parses "10Mi" (10 * 2 ^ 20 * 10 ^ 9).
Proof. by apply (parses_Mi 10). Qed.
Lemma parses_256Mi : parses "256Mi" (256 * 2 ^ 20 * 10 ^ 9).
Proof. by apply (parses_Mi 256). Qed.
Lemma parses_512Mi : parses "512Mi" (512 * 2 ^ 20 * 10 ^ 9).
Proof. by apply (parses_Mi 512). Qed.
Lemma parses_1Gi : parses "1Gi" (1 * 2 ^ 30 * 10 ^ 9).
Proof. by apply (parses_Gi 1). Qed.
Lemma parses_2Gi : parses "2Gi" (2 * 2 ^ 30 * 10 ^ 9).
Proof. by apply (parses_Gi 2). Qed.
Lemma parses_5Gi : parses "5Gi" (5 * 2 ^ 30 * 10 ^ 9).
Proof. by apply (parses_Gi 5). Qed.
Lemma parses_10Gi : parses "10Gi" (10 * 2 ^ 30 * 10 ^ 9).
Proof. by apply (parses_Gi 10). Qed.

End constants.

(** Rewrites the constants of a builder to their amounts. *)
Ltac amount H :=
  first [ rewrite (parses_Done _ _ _ parses_1 H) | rewrite (parses_Done _ _ _ parses_100m H)
        | rewrite (parses_Done _ _ _ parses_250m H) | rewrite (parses_Done _ _ _ parses_500m H)
        | rewrite (parses_Done _ _ _ parses_256Mi H) | rewrite (parses_Done _ _ _ parses_512Mi H)
        | rewrite (parses_Done _ _ _ parses_1Gi H) | rewrite (parses_Done _ _ _ parses_2Gi H)
        | rewrite (parses_Done _ _ _ parses_5Gi H) ].
Ltac amounts := repeat match goal with H : MustParse _ = Done ?q |- context [nano ?q] => amount H end.

Section builder_spec.
Context `{K : KubeLib, KL : !KubeLaws K}.

(** * The VM's size *)

Definition size_ok (size : vmSize) : Prop :=
  1 ≤ CPUs size ≤ maxVMCPUs ∧ minVMMemoryMiB ≤ MemoryMiB size ≤ maxVMMemoryMiB.

Lemma vm_size_ok rb s size : vm_size rb s = Done size → size_ok size.
Proof.
  unfold vm_size, size_ok, maxVMCPUs, minVMMemoryMiB, maxVMMemoryMiB. intros H.
  inv_outcome H. lia.
Qed.

Lemma containerMemory_amount size : size_ok size →
  nano (containerMemory size) = (MemoryMiB size + firecrackerOverheadMiB) * 2 ^ 20 * 10 ^ 9.
Proof.
  unfold size_ok, minVMMemoryMiB, maxVMMemoryMiB, containerMemory, firecrackerOverheadMiB.
  intros [_ Hm]. rewrite Z.shiftl_mul_pow2 by done.
  rewrite !wrap64_small by (unfold in_int64, min_int64, max_int64;
    rewrite ?wrap64_small by (unfold in_int64, min_int64, max_int64; lia); lia).
  apply nano_NewQuantity. unfold in_int64, min_int64, max_int64. lia.
Qed.

Lemma ceil_div_ceil x : 0 ≤ x → (ceil_div x (10 ^ 6) + 999) `div` 1000 = ceil_div x (10 ^ 9).
Proof.
  intros Hx. unfold ceil_div.
  replace ((x + 10 ^ 6 - 1) `div` 10 ^ 6 + 999) with ((x + 10 ^ 9 - 1) `div` 10 ^ 6).
  - rewrite Zdiv.Zdiv_Zdiv by lia. done.
  - replace (x + 10 ^ 9 - 1) with (x + 10 ^ 6 - 1 + 999 * 10 ^ 6) by lia.
    by rewrite Z.div_add by lia.
Qed.

Lemma positive_quantity_amount s q : positive_quantity s = Some q → 0 < nano q.
Proof.
  unfold positive_quantity. destruct (ParseQuantity s) as [q'|]; [|done].
  rewrite Sign_spec. destruct (Z.ltb_spec 0 (Z.sgn (nano q'))); [|done].
  intros [= <-]. lia.
Qed.

(** A resource field: unset, unparsable and non-positive values give the
    default, others are converted by [f] from their amount. *)
Definition requested (f : Z → Z) (default : Z) (field : string) : Z :=
  match positive_quantity field with Some q => f (nano q) | None => default end.

(** The amounts whose conversion to [int64] is exact. *)
Definition in_range (field : string) (unit slack : Z) : Prop :=
  ∀ q, positive_quantity field = Some q → ceil_div (nano q) unit ≤ max_int64 - slack.

(** C25: the VM's size. For settings and fields in range the VM gets the CPUs
    requested in spec.resources.cpu rounded up to whole ones and the memory
    rounded down to MiB, both clamped (1 to 8 CPUs, 128 MiB to 16 GiB), with one
    CPU and 1 GiB for a field that is unset, does not parse or is not positive;
    and the container's memory limit is the VM's memory plus 128 MiB, computed
    without overflow. *)
Theorem vm_size_spec rb s size :
  vm_size rb s = Done size →
  in_range (rc_CPU (Resources (Spec s))) (10 ^ 6) 999 →
  in_range (rc_Memory (Resources (Spec s))) (10 ^ 9) 0 →
  CPUs size = Z.min (Z.max 1 (requested (λ x, ceil_div x (10 ^ 9)) 1
                (rc_CPU (Resources (Spec s))))) 8 ∧
  MemoryMiB size = Z.min (Z.max 128 (requested (λ x, ceil_div x (10 ^ 9) `div` 2 ^ 20) 1024
                     (rc_Memory (Resources (Spec s))))) 16384 ∧
  nano (containerMemory size) = (MemoryMiB size + 128) * 2 ^ 20 * 10 ^ 9.
Proof.
  intros Hs Hc Hm. pose proof (vm_size_ok _ _ _ Hs) as Hok.
  split; [|split]; [| |by apply containerMemory_amount].
  all: unfold vm_size in Hs; inv_outcome Hs; unfold maxVMCPUs, maxVMMemoryMiB, minVMMemoryMiB,
    defaultVMCPUs, defaultVMMemoryMiB, requested.
  - destruct (positive_quantity (rc_CPU _)) as [q|] eqn:Hq; [|lia].
    pose proof (positive_quantity_amount _ _ Hq). specialize (Hc q Hq).
    assert (0 ≤ ceil_div (nano q) (10 ^ 6)) by (unfold ceil_div; apply Z.div_pos; lia).
    rewrite MilliValue_spec by lia.
    rewrite (wrap64_small (ceil_div (nano q) (10 ^ 6) + 999)) by (unfold in_int64, min_int64; lia).
    rewrite Z.quot_div_nonneg, ceil_div_ceil by lia.
    rewrite wrap64_small; [lia|]. rewrite <- ceil_div_ceil by lia.
    unfold in_int64, min_int64, max_int64 in *.
    pose proof (Z.div_pos (ceil_div (nano q) (10 ^ 6) + 999) 1000).
    pose proof (Z.div_le_upper_bound (ceil_div (nano q) (10 ^ 6) + 999) 1000
      (ceil_div (nano q) (10 ^ 6) + 999)). lia.
  - destruct (positive_quantity (rc_Memory _)) as [q|] eqn:Hq; [|lia].
    pose proof (positive_quantity_amount _ _ Hq). specialize (Hm q Hq).
    rewrite Value_spec by lia. rewrite Z.shiftr_div_pow2 by lia. lia.
Qed.

(** * The pod *)

Definition all_containers (pod : Pod) : list Container :=
  spec_InitContainers (pod_Spec pod) ++ spec_Containers (pod_Spec pod).

(** Each request has a limit, which it does not exceed. *)
Definition within (requests limits : gmap string Quantity) : Prop :=
  ∀ k q, requests !! k = Some q → ∃ l, limits !! k = Some l ∧ nano q ≤ nano l.

Lemma within_empty limits : within ∅ limits.
Proof. intros k q. by rewrite lookup_empty. Qed.

Lemma within_insert k q l requests limits :
  nano q ≤ nano l → within requests limits → within (<[k := q]> requests) (<[k := l]> limits).
Proof.
  intros Hle Hrest k' q'. rewrite !lookup_insert. case_decide; [|by apply Hrest].
  intros [= <-]. eauto.
Qed.

(** Each mount names a volume of the pod. *)
Definition mounts_exist (pod : Pod) (c : Container) : Prop :=
  Forall (λ m, vm_Name m ∈ vol_Name <$> spec_Volumes (pod_Spec pod)) (ctr_VolumeMounts c).

(** Each secret reference names the session's Secret and a key it holds. *)
Definition secrets_exist (s : LabSession) (c : Container) : Prop :=
  Forall (λ e, match env_ValueFrom e with
    | None => True
    | Some ref => ∀ namespace privPEM pub comment,
        let secret := ssh_key_secret (SessionID (Spec s)) namespace privPEM pub comment in
        sks_Name ref = meta_Name (sec_Meta secret) ∧ is_Some (sec_Data secret !! sks_Key ref)
    end) (ctr_Env c).

(** Each claim volume names a claim of the session. *)
Definition claims_exist (pod : Pod) (pvcs : list PersistentVolumeClaim) : Prop :=
  Forall (λ v, match vol_Source v with
    | PersistentVolumeClaimSource claim =>
        ∃ pvc, pvc ∈ pvcs ∧ meta_Name (pvc_Meta pvc) = claim ∧
               meta_Namespace (pvc_Meta pvc) = meta_Namespace (pod_Meta pod)
    | EmptyDirSource _ => True
    end) (spec_Volumes (pod_Spec pod)).

Lemma BuildPod_containers rb s pod : BuildPod rb s = Done pod →
  ∃ size vm terminal vscode volumes,
    vm_size rb s = Done size ∧ buildVMContainer rb s size = Done vm ∧
    buildTerminalContainer rb s = Done terminal ∧ buildVSCodeContainer s = Done vscode ∧
    buildVolumes (SessionID (Spec s)) size = Done volumes ∧
    all_containers pod = [buildRootfsInitContainer rb s size; buildNetworkSetupContainer;
                          vm; terminal; vscode] ∧
    spec_Containers (pod_Spec pod) = [vm; terminal; vscode] ∧
    spec_Volumes (pod_Spec pod) = volumes.
Proof. unfold BuildPod. intros H. inv_outcome H. eauto 15. Qed.

Lemma vm_within rb s size c : size_ok size → buildVMContainer rb s size = Done c →
  within (ctr_Requests c) (ctr_Limits c).
Proof.
  intros [Hcpu _] H. unfold buildVMContainer in H. inv_outcome H.
  repeat apply within_insert; try apply within_empty; try done.
  all: rewrite ?nano_NewQuantity by (unfold in_int64, min_int64, max_int64, maxVMCPUs in *; lia).
  all: amounts; lia.
Qed.

Lemma terminal_within rb s c : buildTerminalContainer rb s = Done c →
  within (ctr_Requests c) (ctr_Limits c).
Proof.
  intros H. unfold buildTerminalContainer in H. inv_outcome H.
  repeat apply within_insert; try apply within_empty; amounts; lia.
Qed.

Lemma vscode_within s c : buildVSCodeContainer s = Done c →
  within (ctr_Requests c) (ctr_Limits c).
Proof.
  intros H. unfold buildVSCodeContainer in H. inv_outcome H.
  repeat apply within_insert; try apply within_empty; amounts; lia.
Qed.

(** Everything of a container that does not depend on the session's fields. *)
Lemma container_shape rb s size vm terminal vscode volumes :
  buildVMContainer rb s size = Done vm → buildTerminalContainer rb s = Done terminal →
  buildVSCodeContainer s = Done vscode → buildVolumes (SessionID (Spec s)) size = Done volumes →
  let cs := [buildRootfsInitContainer rb s size; buildNetworkSetupContainer; vm; terminal; vscode] in
  ctr_Name <$> cs = ["init-rootfs"; "network-setup"; "firecracker-vm"; "terminal-sidecar";
                     "code-server"] ∧
  vol_Name <$> volumes = ["vm-data"; "vscode-data"; "shared-config"; "vm-kernels"] ∧
  Forall (λ c, Forall (λ m, vm_Name m ∈ vol_Name <$> volumes) (ctr_VolumeMounts c)) cs ∧
  Forall (secrets_exist s) cs.
Proof.
  intros H1 H2 H3 H4. unfold buildVMContainer in H1. inv_outcome H1.
  unfold buildTerminalContainer in H2. inv_outcome H2.
  unfold buildVSCodeContainer in H3. inv_outcome H3.
  unfold buildVolumes in H4. inv_outcome H4.
  split; [done|]. split; [done|]. split.
  - repeat constructor; simpl; set_solver.
  - repeat constructor; simpl; rewrite ?lookup_insert_eq, ?lookup_insert_ne by done; eauto.
Qed.

(** C24: the pod is well formed. In a pod that [BuildPod] makes, container and
    volume names are distinct; every volume mount, of init containers too, names
    a volume of the pod; every claim volume names a claim that [BuildPVCs] makes
    in the same namespace; every secret reference names the session's SSH Secret
    and one of its keys; and every resource request has a limit, which it does
    not exceed. *)
Theorem pod_is_well_formed rb s pod pvcs :
  BuildPod rb s = Done pod → BuildPVCs rb s = Done pvcs →
  NoDup (ctr_Name <$> all_containers pod) ∧
  NoDup (vol_Name <$> spec_Volumes (pod_Spec pod)) ∧
  Forall (mounts_exist pod) (all_containers pod) ∧
  claims_exist pod pvcs ∧
  Forall (secrets_exist s) (all_containers pod) ∧
  Forall (λ c, within (ctr_Requests c) (ctr_Limits c)) (all_containers pod).
Proof.
  intros Hpod Hpvcs.
  destruct (BuildPod_containers _ _ _ Hpod) as (size&vm&term&code&vols&Hs&Hvm&Ht&Hc&Hv&Hall&_&Hvols).
  destruct (container_shape _ _ _ _ _ _ _ Hvm Ht Hc Hv) as (Hn&Hvn&Hm&Hsec).
  assert (meta_Namespace (pod_Meta pod) = s_Namespace s) as Hns
    by (unfold BuildPod in Hpod; by inv_outcome Hpod).
  unfold mounts_exist, claims_exist. rewrite Hall, Hvols, Hn, Hvn, Hns.
  split; [compute_done|]. split; [compute_done|].
  split; [by rewrite <- Hvn|]. split; [|split; [done|]].
  - unfold BuildPVCs in Hpvcs. inv_outcome Hpvcs. unfold buildVolumes in Hv. inv_outcome Hv.
    rewrite <- Hv, !Forall_cons, Forall_nil. split_and!; try done; cbn [vol_Source].
    + eexists. split; [apply list_elem_of_here|done].
    + eexists. split; [apply list_elem_of_further, list_elem_of_here|done].
  - rewrite !Forall_cons, Forall_nil. split_and!; try done; try by apply within_empty.
    + eapply vm_within; [by eapply vm_size_ok|done].
    + by eapply terminal_within.
    + by eapply vscode_within.
Qed.

(** The builders' constants never panic. *)
Lemma parses_MustParse s x : parses s x → ∃ q, MustParse s = Done q.
Proof. intros (q&Hq&_). eauto. Qed.

Lemma MustParse_ok s : is_ok (ParseQuantity s) = true → ∃ q, MustParse s = Done q.
Proof. unfold MustParse. destruct (ParseQuantity s); [eauto|done]. Qed.

Lemma bind_done {A B} (o : outcome A) (f : A → outcome B) a :
  o = Done a → (∃ b, f a = Done b) → ∃ b, o ≫= f = Done b.
Proof. by intros ->. Qed.

Ltac build_done :=
  repeat first
    [ eexists; reflexivity
    | eapply bind_done; [solve [ eassumption ]|]; cbv beta ].

Lemma containers_Done rb s size :
  (∃ c, buildVMContainer rb s size = Done c) ∧ (∃ c, buildTerminalContainer rb s = Done c) ∧
  (∃ c, buildVSCodeContainer s = Done c) ∧
  (∃ v, buildVolumes (SessionID (Spec s)) size = Done v).
Proof.
  destruct parses_1 as (q1&H1&_), parses_100m as (q2&H2&_), parses_250m as (q3&H3&_),
    parses_500m as (q4&H4&_), parses_10Mi as (q5&H5&_), parses_256Mi as (q6&H6&_),
    parses_512Mi as (q7&H7&_), parses_1Gi as (q8&H8&_), parses_2Gi as (q9&H9&_).
  split; [|split; [|split]]; unfold buildVMContainer, buildTerminalContainer,
    buildVSCodeContainer, buildVolumes, vmContainerCPURequest; build_done.
Qed.

Lemma settings_build url_Parse IsDNS1123Subdomain rb s :
  valid_settings url_Parse IsDNS1123Subdomain (settings rb) → ∃ pod, BuildPod rb s = Done pod.
Proof.
  intros Hv. apply valid_settings_spec in Hv as (_&_&_&_&(q&Hq&_)&_).
  assert (MustParse (VMDiskSize (settings rb)) = Done q) as Hdisk by (unfold MustParse; by rewrite Hq).
  assert (∃ size, vm_size rb s = Done size) as [size Hsize].
  { unfold vm_size, diskSize. build_done. }
  destruct (containers_Done rb s size) as ([c1 ?]&[c2 ?]&[c3 ?]&[v ?]).
  unfold BuildPod. build_done.
Qed.

(** A storage size that the claims can be built with. *)
Definition storage_ok (s : LabSession) : Prop :=
  rc_Storage (Resources (Spec s)) = "" ∨
  is_ok (ParseQuantity (rc_Storage (Resources (Spec s)))) = true.

Lemma storage_build rb s : storage_ok s → ∃ pvcs, BuildPVCs rb s = Done pvcs.
Proof.
  intros Hst. destruct parses_10Gi as (q10&H10&_), parses_5Gi as (q5&H5&_).
  unfold BuildPVCs. case_decide as Hne.
  - destruct Hst as [?|Hok]; [done|]. apply MustParse_ok in Hok as [q0 Hq0]. build_done.
  - build_done.
Qed.

(** Validated settings never panic. With pod settings that pass [Validate],
    building the pod of any session yields a pod; building its claims yields
    claims when its storage size is unset or parses. *)
Theorem valid_settings_build url_Parse IsDNS1123Subdomain rb s :
  valid_settings url_Parse IsDNS1123Subdomain (settings rb) →
  (∃ pod, BuildPod rb s = Done pod) ∧
  (storage_ok s → ∃ pvcs, BuildPVCs rb s = Done pvcs).
Proof. intros Hv. split; [by eapply settings_build|apply storage_build]. Qed.

End builder_spec.
