(* ===== verification/ReconcilerLiveness.v ===== *)
(** Progress: what a reconciliation achieves when the cluster cooperates. The answers
    of the API server are those of a server that stores what it is sent and of
    controllers that do not get in the way; the broker may fail as it likes. *)
From S2P Require Import Prelude GoStrings Kube KubeTypes Types PodSettings ResourceBuilder Ingress.
From S2P Require Import Usage Events Effects SSHKeys Reconciler ReconcilerLogic ReconcilerGuard LifeGuard.
From S2P Require Import BuilderSpec ReconcilerSpec.

Section liveness.
Context `{K : KubeLib, KL : !KubeLaws K}.

(** The metadata that writes of the controller do not change. *)
Definition kept (m m' : ObjectMeta) : Prop :=
  meta_Name m' = meta_Name m ∧ meta_Namespace m' = meta_Namespace m ∧ meta_UID m' = meta_UID m ∧
  meta_DeletionTimestamp m' = meta_DeletionTimestamp m ∧ meta_Finalizers m' = meta_Finalizers m.

(** What the server stores of a session that it is sent: spec, status and metadata but
    for annotations and bookkeeping. *)
Definition stored (sent s : LabSession) : Prop :=
  Status s = Status sent ∧ Spec s = Spec sent ∧ kept (ObjMeta sent) (ObjMeta s).

(** An object of the session: every version of the session controls it. *)
Definition own (u : string) (k : Kind) (o : obj k) : Prop :=
  ∀ m, meta_UID m = u → IsControlledBy (obj_meta k o) m = true.

(** Answers that cooperate with a session with uid [u]: objects that are found are the
    session's own, what is not found can be created, and pods, when one is found, are
    as [pods] says; [up] says that the pod is found. *)
Definition smooth (u : string) (pods : Pod → Prop) (up : bool) (e : event) : Prop :=
  match e with
  | Ev o r =>
      match o return resp o → Prop with
      | GetSession _ _ => λ r : result error LabSession, is_ok r = true
      | UpdateSession sent | UpdateStatus sent => λ r : result error LabSession,
          ∃ s, r = Ok s ∧ stored sent s
      | PatchSession _ sent => λ r : result error LabSession,
          match r with Ok s => stored sent s | Err _ => True end
      | Get k _ _ => λ r : result error (obj k),
          match r with
          | Ok o => own u k o ∧ match k return obj k → Prop with KPod => pods | _ => λ _, True end o
          | Err e => IsNotFound e = true ∧ (k = KPod → up = false)
          end
      | Create k _ => λ r : result error (obj k),
          match r with Ok _ => True | Err e => IsAlreadyExists e = true end
      | GenerateKey => λ r : result error KeyPair, is_ok r = true
      | RandRead _ => λ r : result error (list ascii), is_ok r = true
      | _ => λ _, True
      end r
  end.

(** The same object with the same spec, whatever became of its status. *)
Definition same_object (s s' : LabSession) : Prop :=
  Spec s' = Spec s ∧ s_Name s' = s_Name s ∧ s_Namespace s' = s_Namespace s ∧
  meta_UID (ObjMeta s') = meta_UID (ObjMeta s) ∧
  meta_DeletionTimestamp (ObjMeta s') = meta_DeletionTimestamp (ObjMeta s).

#[global] Instance same_object_preorder : PreOrder same_object.
Proof. split; [by repeat split|]. intros s1 s2 s3 (?&?&?&?&?) (?&?&?&?&?). repeat split; congruence. Qed.

#[global] Instance stored_preorder : PreOrder stored.
Proof.
  split; [by repeat split|]. intros s1 s2 s3 (?&?&?&?&?&?&?) (?&?&?&?&?&?&?). repeat split; congruence.
Qed.

Lemma stored_object s s' : stored s s' → same_object s s'.
Proof. by intros (_&?&?&?&?&?&_). Qed.

(** The controller handles the session again: after an error, at once, or later. *)
Definition comes_back (x : Result * option error) : Prop :=
  is_Some x.2 ∨ Requeue x.1 = true ∨ 0 < RequeueAfter x.1.

Lemma wp_quiet {A} R (p : prog A) Q h : wp R sessionless p Q h →
  wp R no_guard p (λ h' out, Q h' out ∧ base h' = base h) h.
Proof. intros Hp. eapply wp_guard_mono; [|by apply wp_sessionless]. done. Qed.

Context (r : LabSessionReconciler) (u : string) (pods : Pod → Prop) (up : bool).
Abbreviation R := (smooth u pods up).

(** An ensure step succeeds and changes at most the names in the status. *)
Definition step_ok (s : LabSession) (h : list event) (out : outcome (option error * LabSession)) : Prop :=
  ∃ s', out = Done (None, s') ∧ same_session s s'.

Lemma owner_ok s m e : SetControllerReference (ObjMeta s) m = Err e →
  meta_OwnerReferences m = [] → meta_Namespace m = s_Namespace s → False.
Proof. intros He Ho Hn. pose proof (SetControllerReference_ok (ObjMeta s) m Ho Hn). by rewrite He in *. Qed.

Lemma BuildPod_owners rb s pod : BuildPod rb s = Done pod → meta_OwnerReferences (pod_Meta pod) = [].
Proof. unfold BuildPod. intros H. by inv_outcome H. Qed.

Lemma BuildIngress_owners rb s : meta_OwnerReferences (ing_Meta (BuildIngress rb s)) = [].
Proof. simpl. by case_decide. Qed.

(** Closes a step that went well; refutes a path that needs an answer that does not
    cooperate. *)
Ltac smooth_case :=
  try solve [eexists; split; [reflexivity|by repeat split]];
  exfalso; repeat match goal with
  | H : smooth _ _ _ _ |- _ => simpl in H
  | H : _ ∧ _ |- _ => destruct H
  | H : own (meta_UID (ObjMeta ?s)) _ _ |- _ => specialize (H (ObjMeta s) eq_refl)
  | H : own _ _ _, Hu : meta_UID (ObjMeta _) = u |- _ => specialize (H _ Hu)
  end; simpl in *; try congruence.

Lemma smooth_ensurePod s h : meta_UID (ObjMeta s) = u → buildable r s →
  wp R sessionless (ensurePod r s) (step_ok s) h.
Proof.
  intros Hu Hb. destruct (proj1 (Hb s eq_refl eq_refl)) as [pod Hpod].
  unfold ensurePod. wp_run; try done; smooth_case.
  eapply owner_ok; [eassumption|by eapply BuildPod_owners|by eapply BuildPod_meta].
Qed.

Lemma smooth_ensureService s h : meta_UID (ObjMeta s) = u →
  wp R sessionless (ensureService s) (step_ok s) h.
Proof. intros Hu. unfold ensureService. wp_run; try done; smooth_case. by eapply owner_ok; [eassumption|..]. Qed.

Lemma smooth_ensureIngress s h : meta_UID (ObjMeta s) = u →
  wp R sessionless (ensureIngress r s) (step_ok s) h.
Proof.
  intros Hu. unfold ensureIngress. wp_run; try done; smooth_case.
  eapply owner_ok; [eassumption|apply BuildIngress_owners|apply BuildIngress_meta].
Qed.

Lemma smooth_ensurePVCs_loop pvcs : ∀ s h, meta_UID (ObjMeta s) = u →
  Forall (λ pvc, meta_OwnerReferences (pvc_Meta pvc) = [] ∧
                 meta_Namespace (pvc_Meta pvc) = s_Namespace s) pvcs →
  wp R sessionless (ensurePVCs_loop pvcs s) (step_ok s) h.
Proof.
  induction pvcs as [|pvc pvcs IH]; intros s h Hu Hp; cbn [ensurePVCs_loop]; [wp_run; smooth_case|].
  apply Forall_cons in Hp as [[Ho Hns] Hp]. wp_run; try done; try (by apply IH); smooth_case.
  by eapply owner_ok; [eassumption|..].
Qed.

Lemma smooth_ensurePVCs s h : meta_UID (ObjMeta s) = u → buildable r s →
  wp R sessionless (ensurePVCs r s) (step_ok s) h.
Proof.
  intros Hu Hb. destruct (proj2 (Hb s eq_refl eq_refl)) as [pvcs Hpvcs].
  unfold ensurePVCs. wp_run; [|congruence].
  destruct (BuildPVCs_meta r.(r_ResourceBuilder) s a ltac:(done)) as (q1&q2&->).
  apply smooth_ensurePVCs_loop; [done|]. by repeat constructor.
Qed.

Lemma smooth_EnsureSSHKeySecret s h :
  wp R sessionless (EnsureSSHKeySecret (ObjMeta s) (SessionID (Spec s)) (s_Namespace s))
    (λ _ out, ∃ created, out = Done (Ok created)) h.
Proof.
  unfold EnsureSSHKeySecret, BuildSSHKeySecret, openSSHPrivateKey, call. simpl.
  split; [done|]. intros [kp|e] He; simpl; [|done]. split; [done|]. intros [check|e] He2; simpl; [|done].
  destruct (SetControllerReference _ _) as [m|e] eqn:Hm; simpl;
    [|exfalso; by apply (owner_ok s _ _ Hm)].
  split; [done|]. intros [o|e] Hr; simpl; [by eauto|]. simpl in Hr. rewrite Hr. simpl. by eauto.
Qed.
(** ** The handlers *)

Lemma same_session_object s s' : same_session s s' → same_object s s'.
Proof. intros (Hm&Hsp&_&_). unfold same_object, s_Name, s_Namespace. by rewrite Hm, Hsp. Qed.

(** How a handler ends: with result [x], and [b] as the last session that the server
    answered with. *)
Definition ends (P : LabSession → Result * option error → Prop) (h : list event)
    (out : outcome (Result * option error * LabSession)) : Prop :=
  ∃ x s' b, out = Done (x, s') ∧ base h = Some b ∧ P b x.

Lemma smooth_step message (m : M (option error)) next s h Q :
  wp R sessionless (m s) (step_ok s) h →
  (∀ h' s', base h' = base h → same_session s s' → wp R no_guard (next s') Q h') →
  wp R no_guard ((e ← m; match e with
                         | Some err => handleCreateError r message err
                         | None => next
                         end) s) Q h.
Proof.
  intros Hm Hn. apply wp_M_bind. eapply wp_mono; [|by apply wp_quiet, Hm].
  intros h' out [(s'&->&Hs) Hb]. wp_simp. by apply Hn.
Qed.

(** Creating reaches the check of the pod. *)
Lemma smooth_creating s h Q : meta_UID (ObjMeta s) = u → buildable r s →
  (∀ h' s', base h' = base h → same_session s s' → wp R no_guard (check_created_pod r s') Q h') →
  wp R no_guard (reconcileCreating r s) Q h.
Proof.
  intros Hu Hb Hcheck. unfold reconcileCreating.
  apply smooth_step; [by apply smooth_ensurePVCs|]. intros h1 s1 Hb1 Hs1.
  assert (meta_UID (ObjMeta s1) = u ∧ buildable r s1) as [Hu1 Hbu1].
  { destruct Hs1 as (Hm&Hsp&_). rewrite Hm. split; [done|]. by apply (buildable_same r s). }
  wp_step. wp_step. wp_step. apply wp_M_lift.
  eapply wp_mono; [|apply wp_quiet, smooth_EnsureSSHKeySecret].
  intros h2 out [(c&->) Hb2]. wp_simp. apply wp_M_bind.
  apply (wp_mono _ _ _ (λ h3 out, out = Done (tt, s1) ∧ base h3 = base h)).
  2: { destruct c; wp_run; try done; rewrite ?base_snoc; simpl; (split; [|congruence]); [|done].
       by match goal with a : resp _ |- _ => destruct a end. }
  intros h3 out [-> Hb3]. wp_simp.
  apply smooth_step; [by apply smooth_ensurePod|]. intros h4 s4 Hb4 Hs4.
  assert (meta_UID (ObjMeta s4) = u) as Hu4 by (destruct Hs4 as (->&_); done).
  apply smooth_step; [by apply smooth_ensureService|]. intros h5 s5 Hb5 Hs5.
  assert (meta_UID (ObjMeta s5) = u) as Hu5 by (destruct Hs5 as (->&_); done).
  apply smooth_step; [by apply smooth_ensureIngress|]. intros h6 s6 Hb6 Hs6.
  apply Hcheck; [congruence|]. by repeat (etrans; [eassumption|]).
Qed.
(** The pod is looked for again when it is not there or not ready. *)
Lemma smooth_wait s h b : base h = Some b →
  (∀ p, pods p → podTerminalReason p = "" ∧ isPodReady p = false) →
  wp R no_guard (check_created_pod r s) (ends (λ b' x, b' = b ∧ comes_back x)) h.
Proof.
  intros Hb Hp. unfold check_created_pod. wp_run; try done.
  all: try match goal with H : smooth _ _ _ (Ev (Get KPod _ _) (Ok _)) |- _ =>
    destruct H as [_ [? ?]%Hp]; congruence end.
  all: eexists _, _, _; (split; [done|]); (split; [by rewrite base_snoc|]).
  all: split; [done|]; first [by left | by right; right].
Qed.

(** A session that is up. *)
Definition is_up (s : LabSession) : Prop :=
  Phase (Status s) = SessionPhaseRunning ∧
  cond_status (Conditions (Status s)) ConditionTypeReady = Some ConditionTrue.

Lemma up_ends s sent s' h x s2 : base h = Some s' → stored sent s' → is_up sent →
  same_object s sent → ends (λ b _, is_up b ∧ same_object s b) h (Done (x, s2)).
Proof.
  intros Hb Hst Hup Hs. exists x, s2, s'. split; [done|]. split; [done|].
  split; [|by etrans; [|apply stored_object]]. unfold is_up. by destruct Hst as [-> _].
Qed.

(** Refutes a path of a handler that an answer that does not cooperate leads to. *)
Ltac smooth_refute Hp :=
  exfalso; repeat match goal with
  | H : smooth _ _ _ (Ev (Get KPod _ _) (Ok _)) |- _ => destruct H as [_ [? ?]%Hp]
  | H : smooth _ _ _ (Ev (Get KPod _ _) (Err _)) |- _ => destruct H as [_ H]; specialize (H eq_refl)
  | H : smooth _ _ _ (Ev (UpdateStatus _) (Err _)) |- _ => by destruct H as (?&?&_)
  | H : smooth _ _ _ (Ev (UpdateSession _) (Err _)) |- _ => by destruct H as (?&?&_)
  end; try congruence.

Lemma smooth_ready s h : up = true → buildable r s →
  (∀ p, pods p → podTerminalReason p = "" ∧ isPodReady p = true) →
  wp R no_guard (check_created_pod r s) (ends (λ b x, is_up b ∧ same_object s b)) h.
Proof.
  intros Hup Hbu Hp. unfold check_created_pod, become_running, updateEndpoints, setCondition.
  wp_run; try done; try solve [smooth_refute Hp].
  all: try match goal with H : smooth _ _ _ (Ev (UpdateStatus _) (Ok _)) |- _ =>
    destruct H as (?&[= <-]&Hst) end.
  all: try (eapply up_ends; [by rewrite !base_snoc|exact Hst| |by repeat split];
    split; [done|]; simpl; rewrite set_condition_in_status; by rewrite decide_True).
  match goal with H : BuildPVCs _ ?s' = Panicked |- _ =>
    destruct (proj2 (Hbu s' eq_refl eq_refl)); congruence end.
Qed.

Lemma smooth_pending s h :
  wp R no_guard (reconcilePending s)
    (ends (λ b x, Phase (Status b) = SessionPhaseCreating ∧ kept (ObjMeta s) (ObjMeta b) ∧
                  same_object s b ∧ comes_back x)) h.
Proof.
  unfold reconcilePending. wp_run; try done; [|smooth_refute (λ _ : (), I)].
  match goal with H : smooth _ _ _ (Ev (UpdateStatus _) (Ok _)) |- _ =>
    destruct H as (?&[= <-]&Hst) end.
  eexists _, _, _. split; [done|]. split; [by rewrite !base_snoc|].
  split; [by destruct Hst as [-> _]|]. split; [apply Hst|].
  split; [by apply stored_object in Hst|by right; left].
Qed.

(** Publishing leaves the session as the server stores it. *)
Lemma smooth_publishPhase s h : base h = Some s →
  wp R no_guard (publishPhase r s) (λ h' out, ∃ pending s' b,
    out = Done (pending, s') ∧ base h' = Some b ∧ stored s s' ∧ stored s b) h.
Proof.
  intros Hb. eapply wp_mono; [|eapply wp_answers, wp_guard_mono, wp_env_mono, wp_publishPhase]; [|done|done].
  intros h' out [[_ Hp] (tr&Htr&HR)]. destruct out as [[pending s']|]; [|done].
  assert (stored s (record_phase s)) as Hrec by (by repeat split).
  destruct Hp as [(->&->&->&_)|[(e&->&->&->)|([s1|e]&->&->&->)]].
  - by exists false, s, s.
  - exists true, s, s. rewrite base_snoc. by repeat split.
  - apply app_inv_head in Htr as <-. apply Forall_cons in HR as [_ [Hs1 _]%Forall_cons].
    exists false, s1, s1. change [?a; ?b] with ([a] ++ [b]). rewrite app_assoc, base_snoc.
    split; [done|]. split; [done|]. split; by etrans.
  - exists true, (record_phase s), s. change [?a; ?b] with ([a] ++ [b]).
    rewrite app_assoc, !base_snoc. by repeat split.
Qed.

(** ** A run *)

(** A session on its way up, and how far it has to go. *)
Definition coming (s : LabSession) : Prop :=
  deleting s = false ∧
  Phase (Status s) ∈ [""; SessionPhasePending; SessionPhaseCreating].
Definition stage (s : LabSession) : nat :=
  if finalized s then if decide (Phase (Status s) = SessionPhaseCreating) then 1 else 2 else 3.

Lemma retry_publish_back p x : comes_back x → comes_back (retry_publish p x).
Proof.
  destruct x as [[rq d] err]. unfold retry_publish. destruct (_ && _) eqn:Hc; [|done].
  intros [He|[Hr|Hd]]; unfold comes_back; simpl in *; auto. by right; right.
Qed.

(** From creation on, a run ends as the check of the pod does. *)
Lemma smooth_fetched_creating s h (P : LabSession → Result * option error → Prop) :
  meta_UID (ObjMeta s) = u → buildable r s → base h = Some s → coming s → stage s = 1%nat →
  (∀ p x b, P b x → P b (retry_publish p x)) →
  (∀ h' s' b, base h' = Some b → stored s b → same_object s s' → buildable r s' →
     wp R no_guard (check_created_pod r s') (ends P) h') →
  wp R no_guard (reconcile_fetched r s) (ends P) h.
Proof.
  intros Hu Hbu Hb [Hd _] Hst HP Hcheck. unfold reconcile_fetched. wp_step. wp_step. wp_simp.
  change (negb (time_ptr_is_zero _)) with (deleting s). rewrite Hd.
  change (ContainsFinalizer _ _) with (finalized s). unfold stage in Hst.
  destruct (finalized s); [|done]. case_decide as Hph; [|done]. cbn [negb].
  apply wp_M_bind. eapply wp_mono; [|by apply smooth_publishPhase].
  intros h1 out (pending&s1&b1&->&Hb1&Hs1&Hsb). wp_simp. apply wp_M_bind.
  unfold reconcilePhase. wp_step. wp_step. wp_simp.
  rewrite decide_False, decide_True by (destruct Hs1 as [-> _]; rewrite Hph; naive_solver).
  assert (same_object s s1) as Hso by by apply stored_object.
  assert (buildable r s1) as Hbu1.
  { intros s2 Hsp Hns. apply Hbu; destruct Hso as (?&?&?&_); congruence. }
  apply smooth_creating; [by destruct Hso as (_&_&_&->&_)|done|].
  intros h2 s2 Hb2 Hs2. eapply wp_mono; [|eapply (Hcheck h2 s2 b1)].
  - intros h3 out (x&s3&b3&->&Hb3&HPb). wp_simp. wp_run. eexists _, _, _. eauto.
  - congruence.
  - done.
  - etrans; [done|]. by apply same_session_object.
  - destruct Hs2 as (Hm&Hsp&_). by apply (buildable_same r s1).
Qed.
Lemma ends_mono (P P' : LabSession → Result * option error → Prop) h out :
  (∀ b x, P b x → P' b x) → ends P h out → ends P' h out.
Proof. intros HP (x&s'&b&?&?&?). exists x, s', b. auto. Qed.

Lemma stored_coming s s' : stored s s' → coming s → coming s'.
Proof. intros (Hst&_&_&_&_&Hd&_) [Hdel Hph]. unfold coming, deleting. by rewrite Hst, Hd. Qed.

Lemma stored_stage s s' : stored s s' → stage s' = stage s.
Proof. intros (Hst&_&_&_&_&_&Hf). unfold stage, finalized. by rewrite Hst, Hf. Qed.

Lemma stage_bound s : (1 ≤ stage s ≤ 3)%nat.
Proof. unfold stage. repeat case_match; lia. Qed.

(** A run while the pod is not ready. *)
Definition on_the_way (s b : LabSession) (x : Result * option error) : Prop :=
  same_object s b ∧ coming b ∧ comes_back x ∧ (stage b ≤ 1 `max` pred (stage s))%nat.

Lemma smooth_starting s h : base h = Some s → coming s → finalized s = true →
  Phase (Status s) ≠ SessionPhaseCreating →
  wp R no_guard (reconcile_fetched r s) (ends (on_the_way s)) h.
Proof.
  intros Hb [Hd Hph] Hf Hne. unfold reconcile_fetched. wp_step. wp_step. wp_simp.
  change (negb (time_ptr_is_zero _)) with (deleting s). rewrite Hd.
  change (ContainsFinalizer _ _) with (finalized s). rewrite Hf. cbn [negb].
  apply wp_M_bind. eapply wp_mono; [|by apply smooth_publishPhase].
  intros h1 out (pending&s1&b1&->&Hb1&Hs1&Hsb). wp_simp. apply wp_M_bind.
  unfold reconcilePhase. wp_step. wp_step. wp_simp.
  rewrite decide_True by (destruct Hs1 as [-> _]; set_solver).
  eapply wp_mono; [|apply smooth_pending].
  intros h2 out (x&s2&b&->&Hb2&Hpb&Hk&Hso&Hx). wp_simp. wp_run.
  eexists _, _, b. split; [done|]. split; [done|].
  split; [etrans; [by apply (stored_object _ s1)|done]|].
  assert (deleting b = false ∧ finalized b = true) as [Hdb Hfb].
  { destruct Hk as (_&_&_&Hkd&Hkf), Hs1 as (_&_&_&_&_&H1d&H1f).
    unfold deleting, finalized in *. by rewrite Hkd, Hkf, H1d, H1f. }
  split; [split; [done|rewrite Hpb; set_solver]|]. split; [by apply retry_publish_back|].
  unfold stage. rewrite Hf, Hfb, Hpb, decide_True by done. lia.
Qed.

Lemma smooth_unfinalized s h : coming s → finalized s = false →
  wp R no_guard (reconcile_fetched r s) (ends (on_the_way s)) h.
Proof.
  intros [Hd Hph] Hf. unfold reconcile_fetched. wp_step. wp_step. wp_simp.
  change (negb (time_ptr_is_zero _)) with (deleting s). rewrite Hd.
  change (ContainsFinalizer _ _) with (finalized s). rewrite Hf. cbn [negb].
  wp_run; try done; [|smooth_refute (λ _ : (), I)].
  match goal with H : smooth _ _ _ (Ev (UpdateSession _) (Ok _)) |- _ =>
    destruct H as (b&[= <-]&Hst) end.
  eexists _, _, _. split; [done|]. split; [by rewrite base_snoc|].
  split; [by apply stored_object in Hst|]. split; [apply (stored_coming _ _ Hst); by split|].
  split; [by right; left|].
  rewrite (stored_stage _ _ Hst). unfold stage, finalized. cbn [ObjMeta meta_Finalizers set_Finalizers].
  rewrite ContainsFinalizer_Add. fold (finalized s). rewrite Hf. repeat case_match; lia.
Qed.

Lemma waiting_run s h : base h = Some s → coming s → meta_UID (ObjMeta s) = u → buildable r s →
  (∀ p, pods p → podTerminalReason p = "" ∧ isPodReady p = false) →
  wp R no_guard (reconcile_fetched r s) (ends (on_the_way s)) h.
Proof.
  intros Hb Hc Hu Hbu Hp. destruct (finalized s) eqn:Hf; [|by apply smooth_unfinalized].
  destruct (decide (Phase (Status s) = SessionPhaseCreating)) as [Hph|]; [|by apply smooth_starting].
  assert (stage s = 1%nat) as Hst by (unfold stage; by rewrite Hf, decide_True).
  apply smooth_fetched_creating; try done.
  - intros p x b (?&?&?&?). split; [done|]. split; [done|]. by split; [apply retry_publish_back|].
  - intros h' s' b Hb' Hsb Hs' Hbu'. eapply wp_mono; [|by apply smooth_wait].
    intros h2 out. apply ends_mono. intros b' x [-> Hx]. split; [by apply stored_object|].
    split; [by eapply stored_coming|]. split; [done|]. rewrite (stored_stage _ _ Hsb). lia.
Qed.

(** A run that finds the pod ready. *)
Lemma ready_run s h : base h = Some s → coming s → stage s = 1%nat → meta_UID (ObjMeta s) = u →
  buildable r s → up = true →
  (∀ p, pods p → podTerminalReason p = "" ∧ isPodReady p = true) →
  wp R no_guard (reconcile_fetched r s) (ends (λ b _, is_up b ∧ same_object s b)) h.
Proof.
  intros Hb Hc Hst Hu Hbu Hup Hp. apply smooth_fetched_creating; try done.
  intros h' s' b Hb' Hsb Hs' Hbu'. eapply wp_mono; [|by apply smooth_ready].
  intros h2 out. apply ends_mono. intros b' x [Hx Hs]. split; [done|]. by etrans.
Qed.
End liveness.

(** * Runs one after the other *)

Section runs.
Context `{K : KubeLib, KL : !KubeLaws K}.
Context (r : LabSessionReconciler) (ns n : string).

(** The calls of a run after the read of the session, and how it ends. *)
Abbreviation run_record := (list event * outcome (Result * option error))%type (only parsing).

(** Each run reads the session as the run before left it, but for annotations and
    labels, which others may edit. *)
Inductive runs : LabSession → list run_record → LabSession → Prop :=
| runs_nil s : runs s [] s
| runs_cons s s1 tr out b rest s' :
    stored s s1 →
    exec (Reconcile r ns n) (Ev (GetSession ns n) (Ok s1) :: tr) out →
    base (Ev (GetSession ns n) (Ok s1) :: tr) = Some b →
    runs b rest s' → runs s ((tr, out) :: rest) s'.

Lemma runs_app s rs1 rs2 s' : runs s (rs1 ++ rs2) s' → ∃ m, runs s rs1 m ∧ runs m rs2 s'.
Proof.
  revert s. induction rs1 as [|x rs1 IH]; intros s Hr; [exists s; by split; [constructor|]|].
  inversion Hr; subst. edestruct IH as (m&?&?); [eassumption|]. exists m. split; [by econstructor|done].
Qed.

Lemma run_ends R P s tr out :
  wp R no_guard (reconcile_fetched r s) (ends P) [Ev (GetSession ns n) (Ok s)] →
  exec (Reconcile r ns n) (Ev (GetSession ns n) (Ok s) :: tr) out → Forall R tr →
  ∃ x b, out = Done x ∧ base (Ev (GetSession ns n) (Ok s) :: tr) = Some b ∧ P b x.
Proof.
  intros Hw (out'&He&->)%Reconcile_rest HR.
  destruct (wp_exec_app _ _ _ _ _ _ _ Hw He HR) as [(x&s'&b&->&Hb&HP) _]. by exists x, b.
Qed.

Definition waiting (p : Pod) : Prop := podTerminalReason p = "" ∧ isPodReady p = false.
Definition ready (p : Pod) : Prop := podTerminalReason p = "" ∧ isPodReady p = true.

Lemma same_object_buildable s s' : same_object s s' → buildable r s → buildable r s'.
Proof. intros (Hsp&_&Hns&_) Hb s2 ? ?. apply Hb; congruence. Qed.

Definition returned (x : run_record) : Prop := ∃ res, x.2 = Done res ∧ comes_back res.

Lemma waiting_runs u s rs s' : runs s rs s' → coming s → meta_UID (ObjMeta s) = u → buildable r s →
  Forall (λ x, Forall (smooth u waiting false) x.1) rs →
  coming s' ∧ same_object s s' ∧ Forall returned rs ∧
  (stage s' ≤ 1 `max` (stage s - length rs))%nat.
Proof.
  induction 1 as [s|s s1 tr out b rest s' Hs He Hb Hr IH]; intros Hc Hu Hbu Hsm.
  { split; [done|]. split; [done|]. split; [constructor|]. simpl. lia. }
  apply Forall_cons in Hsm as [Htr Hrest]. pose proof (stored_object _ _ Hs) as Hso.
  assert (meta_UID (ObjMeta s1) = u) as Hu1 by (destruct Hso as (_&_&_&->&_); done).
  edestruct (run_ends (smooth u waiting false) (on_the_way s1)) as (x&b'&->&Hb'&Hso'&Hcb&Hx&Hst);
    [|exact He|done|].
  { apply (waiting_run r u waiting false); [done|by eapply stored_coming|done| |done].
    by eapply same_object_buildable. }
  rewrite Hb in Hb'. injection Hb' as <-.
  assert (meta_UID (ObjMeta b) = u) as Hub by (destruct Hso' as (_&_&_&->&_); done).
  assert (buildable r b) as Hbb by (do 2 (eapply same_object_buildable; [eassumption|]); done).
  destruct (IH Hcb Hub Hbb Hrest) as (Hc'&Hs'&Hret&Hst'). split; [done|].
  split; [by do 2 (etrans; [eassumption|])|]. split; [constructor; [|done]; by exists x|].
  rewrite (stored_stage _ _ Hs) in Hst. simpl. lia.
Qed.

(** C4: a session comes up. Let the settings be valid and the session's storage size one
    that parses. From any state on the way up, when reconciliations follow one another,
    reading what the one before left, and the API server does what it is asked (objects
    that are found are the session's, what is missing can be created; the broker may
    fail in every run), then two runs or more that do not find a ready pod, and one that
    does, leave the session Running with its Ready condition true, as the same object.
    No run panics, and every run before the last makes the controller come back. *)
Theorem session_comes_up url_Parse IsDNS1123Subdomain s rs tr out s' :
  valid_settings url_Parse IsDNS1123Subdomain (settings (r_ResourceBuilder r)) →
  storage_ok s → coming s → runs s (rs ++ [(tr, out)]) s' → (2 ≤ length rs)%nat →
  Forall (λ x, Forall (smooth (meta_UID (ObjMeta s)) waiting false) x.1) rs →
  Forall (smooth (meta_UID (ObjMeta s)) ready true) tr →
  is_up s' ∧ same_object s s' ∧ (∃ x, out = Done x) ∧ Forall returned rs.
Proof.
  intros Hv Hstore Hc Hr Hlen Hrs Htr.
  assert (buildable r s) as Hbu.
  { intros s2 Hsp _. split; [by eapply settings_build|]. apply storage_build.
    unfold storage_ok. by rewrite Hsp. }
  apply runs_app in Hr as (m&Hm&Hlast).
  destruct (waiting_runs _ _ _ _ Hm Hc eq_refl Hbu Hrs) as (Hcm&Hsm&Hret&Hst).
  inversion Hlast as [|? s1 ? ? b ? ? Hs1 He Hb Hnil]; subst. inversion Hnil; subst.
  pose proof (stored_object _ _ Hs1) as Hso.
  assert (same_object s s1) as Hss by by etrans.
  edestruct (run_ends (smooth (meta_UID (ObjMeta s)) ready true)
    (λ b _, is_up b ∧ same_object s1 b)) as (x&b'&->&Hb'&Hup&Hs');
    [|exact He|done|].
  { apply (ready_run r _ ready true); [done|by eapply stored_coming| |by destruct Hss as (_&_&_&->&_)| |done..].
    - rewrite (stored_stage _ _ Hs1). pose proof (stage_bound s). pose proof (stage_bound m). lia.
    - by eapply same_object_buildable. }
  rewrite Hb in Hb'. injection Hb' as <-. split; [done|]. split; [by etrans|]. eauto.
Qed.
End runs.
