(* ===== verification/WiringSpec.v ===== *)
(** How a session's objects fit together and what they add up to: Service and
    Ingress ports, routes and endpoints, names, addresses, and usage. *)
From S2P Require Import Prelude GoStrings Kube KubeTypes Types PodSettings ResourceBuilder Ingress.
From S2P Require Import Usage SSHKeys Events Effects Reconciler ReconcilerLogic BuilderSpec.

Section wiring.
Context `{K : KubeLib, KL : !KubeLaws K}.

(** * Ports *)

Definition pod_ports (pod : Pod) : list Z :=
  flat_map (λ c, port_ContainerPort <$> ctr_Ports c) (spec_Containers (pod_Spec pod)).

(** C34: traffic reaches the containers. The Service of a session selects the
    pod of the same session, in the same namespace, and each of its target ports
    is a port of one of the pod's containers; each Ingress path leads to that
    Service, in the same namespace, at one of its ports. *)
Theorem service_and_ingress_reach_pod rb s pod :
  BuildPod rb s = Done pod →
  let service := BuildService s in
  let ingress := BuildIngress rb s in
  svc_Selector service ⊆ meta_Labels (pod_Meta pod) ∧
  meta_Namespace (svc_Meta service) = meta_Namespace (pod_Meta pod) ∧
  meta_Namespace (ing_Meta ingress) = meta_Namespace (svc_Meta service) ∧
  Forall (λ p, sp_TargetPort p ∈ pod_ports pod) (svc_Ports service) ∧
  Forall (λ p, path_ServiceName p = meta_Name (svc_Meta service) ∧
               path_ServicePort p ∈ sp_Port <$> svc_Ports service) (ing_Paths ingress).
Proof.
  intros Hpod. destruct (BuildPod_meta _ _ _ Hpod) as [_ Hns].
  assert (meta_Labels (pod_Meta pod) = session_labels s) as ->
    by (unfold BuildPod in Hpod; by inv_outcome Hpod).
  destruct (BuildPod_containers _ _ _ Hpod) as (size&vm&term&code&vols&_&Hvm&Ht&Hc&_&_&Hcs&_).
  assert (pod_ports pod = [VMSSHPort; 8081; 8080]) as Hports.
  { unfold pod_ports. rewrite Hcs. unfold buildVMContainer in Hvm. inv_outcome Hvm.
    unfold buildTerminalContainer in Ht. inv_outcome Ht.
    unfold buildVSCodeContainer in Hc. by inv_outcome Hc. }
  intros service ingress. rewrite Hports, Hns.
  split; [|split; [done|split; [apply BuildIngress_meta|split]]].
  - unfold service, session_labels; simpl. apply insert_mono, insert_mono, map_empty_subseteq.
  - repeat constructor; unfold VMSSHPort; set_solver.
  - repeat constructor; simpl; set_solver.
Qed.

(** * Routes *)

(** The segments of a path. *)
Definition segments (path : string) : list string := Split path ascii_slash.

Lemma SessionPath_segments sessionID app :
  has_char ascii_slash sessionID = false → has_char ascii_slash app = false →
  segments (SessionPath sessionID app) = [""; "sessions"; sessionID; app].
Proof.
  intros Hs Ha. unfold segments.
  change (SessionPath sessionID app) with
    ("" +:+ String ascii_slash ("sessions" +:+ String ascii_slash (sessionID +:+ String ascii_slash app))).
  by rewrite !Split_app_char, Split_no_char.
Qed.

Lemma ingress_app_no_slash app : app ∈ ingressApps.*1 → has_char ascii_slash app = false.
Proof. unfold ingressApps. simpl. set_solver. Qed.

Lemma ing_Paths_spec rb s :
  path_Path <$> ing_Paths (BuildIngress rb s) =
  (λ app, SessionPath (SessionID (Spec s)) app.1) <$> ingressApps.
Proof. done. Qed.

(** A path of one session's Ingress that is a prefix of another's. *)
Lemma route_prefix rb1 rb2 s1 s2 p1 p2 :
  has_char ascii_slash (SessionID (Spec s1)) = false →
  has_char ascii_slash (SessionID (Spec s2)) = false →
  p1 ∈ path_Path <$> ing_Paths (BuildIngress rb1 s1) →
  p2 ∈ path_Path <$> ing_Paths (BuildIngress rb2 s2) →
  segments p1 `prefix_of` segments p2 →
  SessionID (Spec s1) = SessionID (Spec s2) ∧ p1 = p2.
Proof.
  rewrite !ing_Paths_spec. intros H1 H2 Hp1 Hp2 Hpre.
  apply list_elem_of_fmap in Hp1 as (a1&->&Ha1), Hp2 as (a2&->&Ha2).
  assert (has_char ascii_slash a1.1 = false ∧ has_char ascii_slash a2.1 = false) as [Hs1 Hs2]
    by (split; by apply ingress_app_no_slash, list_elem_of_fmap_2).
  rewrite !SessionPath_segments in Hpre by done.
  destruct Hpre as [tl Heq]. simplify_eq/=. split; congruence.
Qed.

(** C35: routes of different sessions do not overlap, as long as the session ids have
    no slash. A route of one session matches by prefix, segment by segment. Take
    two sessions whose ids are free of slashes (an id with a slash gives object
    names that are no DNS names): a path of one Ingress is a prefix of a path of
    the other only when session and application are the same; so with different
    ids, neither of the two paths is a prefix of the other. *)
Theorem routes_are_disjoint rb1 rb2 s1 s2 p1 p2 :
  has_char ascii_slash (SessionID (Spec s1)) = false →
  has_char ascii_slash (SessionID (Spec s2)) = false →
  p1 ∈ path_Path <$> ing_Paths (BuildIngress rb1 s1) →
  p2 ∈ path_Path <$> ing_Paths (BuildIngress rb2 s2) →
  (segments p1 `prefix_of` segments p2 → SessionID (Spec s1) = SessionID (Spec s2) ∧ p1 = p2) ∧
  (SessionID (Spec s1) ≠ SessionID (Spec s2) →
   ¬ segments p1 `prefix_of` segments p2 ∧ ¬ segments p2 `prefix_of` segments p1).
Proof.
  intros H1 H2 Hp1 Hp2. split; [by eapply route_prefix|].
  intros Hne. split; intros Hpre; apply Hne.
  - by destruct (route_prefix rb1 rb2 s1 s2 p1 p2).
  - by destruct (route_prefix rb2 rb1 s2 s1 p2 p1).
Qed.

(** The endpoints are the routes. [SessionEndpoints] gives one URL per
    application of the Ingress: the public base URL without trailing slashes,
    the Ingress path of the application and a slash; nothing else is in the map. *)
Theorem endpoints_are_routes rb s app url :
  SessionEndpoints rb (SessionID (Spec s)) !! app = Some url ↔
  ∃ port, (app, port) ∈ ingressApps ∧
    SessionPath (SessionID (Spec s)) app ∈ path_Path <$> ing_Paths (BuildIngress rb s) ∧
    url = TrimRight (PublicBaseURL (settings rb)) ascii_slash
          +:+ SessionPath (SessionID (Spec s)) app +:+ "/".
Proof.
  rewrite ing_Paths_spec. unfold SessionEndpoints, ingressApps. simpl.
  rewrite !lookup_insert, lookup_empty. split.
  - repeat case_decide; [intros [= <-]..|done]; subst; eexists.
    + split; [apply list_elem_of_further, list_elem_of_here|]. split; [set_solver|done].
    + split; [apply list_elem_of_here|]. split; [set_solver|done].
  - intros (port&Hin&_&->). apply elem_of_cons in Hin as [[= -> ->]|Hin]; [done|].
    apply list_elem_of_singleton in Hin as [= -> ->]. done.
Qed.

(** * Names *)

Lemma list_ascii_app s t : String.list_ascii_of_string (s +:+ t) =
  String.list_ascii_of_string s ++ String.list_ascii_of_string t.
Proof. induction s as [|a s IH]; [done|]. rewrite string_cons_app. simpl. by rewrite IH. Qed.

Lemma string_app_inj_r s1 s2 t : s1 +:+ t = s2 +:+ t → s1 = s2.
Proof.
  intros Heq. apply (f_equal String.list_ascii_of_string) in Heq.
  rewrite !list_ascii_app in Heq. apply app_inv_tail in Heq.
  rewrite <- (String.string_of_list_ascii_of_string s1),
    <- (String.string_of_list_ascii_of_string s2). by rewrite Heq.
Qed.

Lemma object_names_inj k n a b :
  n ∈ object_names k a → n ∈ object_names k b → a = b.
Proof.
  destruct k; simpl; rewrite ?elem_of_cons, ?elem_of_nil.
  - intros [->|[->|[]]] [H|[H|[]]]; by simplify_eq/=.
  - intros [->|[]] [H|[]]. simplify_eq/=. by apply string_app_inj_r in H.
  - intros [->|[]] [H|[]]. by simplify_eq/=.
  - intros [->|[]] [H|[]]. by simplify_eq/=.
  - intros [->|[]] [H|[]]. by simplify_eq/=.
Qed.

Lemma BuildPVCs_names rb s pvcs : BuildPVCs rb s = Done pvcs →
  (λ pvc, meta_Name (pvc_Meta pvc)) <$> pvcs = object_names KPVC (SessionID (Spec s)).
Proof. intros H. by destruct (BuildPVCs_meta _ _ _ H) as (q1&q2&->). Qed.

(** Sessions do not share objects. For sessions with different session ids,
    whatever the settings, the pods, Services, Ingresses and SSH Secrets have
    different names, and no claim of one has the name of a claim of the other. *)
Theorem sessions_share_no_object rb1 rb2 s1 s2 :
  SessionID (Spec s1) ≠ SessionID (Spec s2) →
  meta_Name (svc_Meta (BuildService s1)) ≠ meta_Name (svc_Meta (BuildService s2)) ∧
  meta_Name (ing_Meta (BuildIngress rb1 s1)) ≠ meta_Name (ing_Meta (BuildIngress rb2 s2)) ∧
  SSHKeySecretName (SessionID (Spec s1)) ≠ SSHKeySecretName (SessionID (Spec s2)) ∧
  (∀ pod1 pod2, BuildPod rb1 s1 = Done pod1 → BuildPod rb2 s2 = Done pod2 →
     meta_Name (pod_Meta pod1) ≠ meta_Name (pod_Meta pod2)) ∧
  (∀ pvcs1 pvcs2 p1 p2, BuildPVCs rb1 s1 = Done pvcs1 → BuildPVCs rb2 s2 = Done pvcs2 →
     p1 ∈ pvcs1 → p2 ∈ pvcs2 → meta_Name (pvc_Meta p1) ≠ meta_Name (pvc_Meta p2)).
Proof.
  intros Hne.
  assert (∀ k n1 n2, n1 ∈ object_names k (SessionID (Spec s1)) →
    n2 ∈ object_names k (SessionID (Spec s2)) → n1 ≠ n2) as Hinj.
  { intros k n1 n2 H1 H2 ->. apply Hne. by eapply object_names_inj. }
  split_and!.
  - apply (Hinj KService); set_solver.
  - rewrite !(proj1 (BuildIngress_meta _ _)). apply (Hinj KIngress); set_solver.
  - apply (Hinj KSecret); set_solver.
  - intros pod1 pod2 H1 H2. rewrite (proj1 (BuildPod_meta _ _ _ H1)), (proj1 (BuildPod_meta _ _ _ H2)).
    apply (Hinj KPod); set_solver.
  - intros pvcs1 pvcs2 p1 p2 H1 H2 Hp1 Hp2. apply (Hinj KPVC).
    + rewrite <- (BuildPVCs_names _ _ _ H1). by apply (list_elem_of_fmap_2 (λ pvc, meta_Name (pvc_Meta pvc))).
    + rewrite <- (BuildPVCs_names _ _ _ H2). by apply (list_elem_of_fmap_2 (λ pvc, meta_Name (pvc_Meta pvc))).
Qed.

(** * Addresses *)

(** The VM's address. For a pod address of four dotted parts whose last is
    a decimal octet, the VM's address is the same with the last part plus one
    (so 255 gives 256, which is no octet); any other number of parts gives the
    empty address. *)
Theorem calculateVMIP_spec a b c d :
  Forall (λ p, has_char ascii_dot p = false) [a; b; c] → 0 ≤ d ≤ 255 →
  calculateVMIP (Join [a; b; c; Itoa d] ".") = Join [a; b; c; Itoa (d + 1)] "." ∧
  (∀ ip, length (Split ip ascii_dot) ≠ 4%nat → calculateVMIP ip = "").
Proof.
  intros Hp Hd. split.
  - unfold calculateVMIP. change "." with (String ascii_dot "").
    rewrite Split_Join; [|done|].
    + rewrite Sscanf_d_Itoa by (unfold in_int64, min_int64, max_int64; lia). simpl.
      by rewrite wrap64_small by (unfold in_int64, min_int64, max_int64; lia).
    + change [a; b; c; Itoa d] with ([a; b; c] ++ [Itoa d]). apply Forall_app. split; [done|].
      apply Forall_singleton. by apply has_char_Itoa.
  - intros ip Hne. unfold calculateVMIP.
    by destruct (Split ip ascii_dot) as [|? [|? [|? [|? [|? ?]]]]].
Qed.

(** * Usage *)

Definition sum_nano (qs : list Quantity) : Z := foldr (λ q x, nano q + x) 0 qs.

Lemma add_all_nano qs : ∀ q, nano (add_all q qs) = nano q + sum_nano qs.
Proof.
  unfold add_all. induction qs as [|q' qs IH]; intros q; simpl; [lia|].
  rewrite IH, Add_spec. lia.
Qed.

Lemma resource_get_insert k q m : resource_get (<[k := q]> m) k = q.
Proof. unfold resource_get. by rewrite lookup_insert_eq. Qed.

Lemma resource_get_insert_ne k k' q m :
  k ≠ k' → resource_get (<[k := q]> m) k' = resource_get m k'.
Proof. intros Hne. unfold resource_get. by rewrite lookup_insert_ne. Qed.

(** What the containers of the session's pod request. *)
Lemma pod_requests rb s pod : BuildPod rb s = Done pod → ∃ size,
  vm_size rb s = Done size ∧
  sum_nano ((λ c, resource_get (ctr_Requests c) ResourceCPU) <$> spec_Containers (pod_Spec pod))
    = 850 * 10 ^ 6 ∧
  sum_nano ((λ c, resource_get (ctr_Requests c) ResourceMemory) <$> spec_Containers (pod_Spec pod))
    = (MemoryMiB size + 128 + 256 + 1024) * 2 ^ 20 * 10 ^ 9.
Proof.
  intros Hpod.
  destruct (BuildPod_containers _ _ _ Hpod) as (size&vm&term&code&vols&Hs&Hvm&Ht&Hc&_&_&Hcs&_).
  exists size. split; [done|]. rewrite Hcs.
  unfold buildVMContainer in Hvm. inv_outcome Hvm.
  unfold buildTerminalContainer in Ht. inv_outcome Ht.
  unfold buildVSCodeContainer in Hc. inv_outcome Hc.
  repeat first [rewrite resource_get_insert | rewrite resource_get_insert_ne by done].
  amounts. rewrite containerMemory_amount by (by eapply vm_size_ok).
  unfold firecrackerOverheadMiB. split; lia.
Qed.

(** The usage of a session. For a live pod with the spec that [BuildPod]
    made and the claims that [BuildPVCs] made, the usage is running, with 850m of
    CPU, the VM's memory plus 1408 MiB, and the sum of the two claims; for a pod
    that is absent, being deleted, failed or succeeded it is the claims alone. *)
Theorem usage_of_session rb s pod pvcs live :
  BuildPod rb s = Done pod → BuildPVCs rb s = Done pvcs →
  pod_Spec live = pod_Spec pod →
  ∃ size cpu memory storage vm_storage,
    vm_size rb s = Done size ∧ nano cpu = 850 * 10 ^ 6 ∧
    nano memory = (MemoryMiB size + 1408) * 2 ^ 20 * 10 ^ 9 ∧
    MustParse (if decide (rc_Storage (Resources (Spec s)) ≠ "")
               then rc_Storage (Resources (Spec s)) else "10Gi") = Done vm_storage ∧
    nano storage = nano vm_storage + 5 * 2 ^ 30 * 10 ^ 9 ∧
    let disk := if bool_decide (nano storage = 0) then "" else Quantity_String storage in
    usageOf (Some live) pvcs =
      (if podHoldsResources (Some live)
       then mkLabSessionUsage true (Quantity_String cpu) (Quantity_String memory) disk
       else mkLabSessionUsage false "" "" disk) ∧
    usageOf None pvcs = mkLabSessionUsage false "" "" disk.
Proof.
  intros Hpod Hpvcs Hlive. destruct (pod_requests _ _ _ Hpod) as (size&Hs&Hcpu&Hmem).
  unfold usageOf. rewrite Hlive, IsZero_spec.
  set (cpu := add_all _ _). set (memory := add_all _ _). set (storage := add_all _ _).
  exists size, cpu, memory, storage.
  assert (nano (NewQuantity 0 BinarySI) = 0) as H0 by by apply nano_NewQuantity.
  assert (nano (NewMilliQuantity 0 DecimalSI) = 0) as H0' by by apply nano_NewMilliQuantity.
  assert (nano cpu = 850 * 10 ^ 6) by (unfold cpu; rewrite add_all_nano, Hcpu, H0'; lia).
  assert (nano memory = (MemoryMiB size + 1408) * 2 ^ 20 * 10 ^ 9)
    by (unfold memory; rewrite add_all_nano, Hmem, H0; lia).
  assert (nano storage = sum_nano ((λ pvc, resource_get (pvc_Requests pvc) ResourceStorage) <$> pvcs))
    as Hst by (unfold storage; rewrite add_all_nano, H0; lia).
  clearbody cpu memory storage. unfold BuildPVCs in Hpvcs. inv_outcome Hpvcs. exists x.
  do 4 (split; [done|]). split; [|done].
  rewrite Hst, !resource_get_insert. amounts. lia.
Qed.

(** The size limit of the kernels volume. It is twice the disk's size in
    bytes exactly when that fits in an [int64]; a disk of 2^62 bytes or more
    gives a negative limit. *)
Theorem kernels_limit_spec disk :
  0 ≤ Quantity_Value disk →
  (Quantity_Value disk < 2 ^ 62 →
   nano (vmKernelsSizeLimit disk) = 2 * Quantity_Value disk * 10 ^ 9) ∧
  (2 ^ 62 ≤ Quantity_Value disk → nano (vmKernelsSizeLimit disk) < 0).
Proof.
  intros H0. unfold vmKernelsSizeLimit. pose proof (Value_range disk) as Hr.
  unfold in_int64, min_int64, max_int64 in Hr.
  rewrite nano_NewQuantity by apply wrap64_range. split; intros Hlt.
  - rewrite wrap64_small by (unfold in_int64, min_int64, max_int64; lia). lia.
  - assert (wrap64 (Quantity_Value disk * 2) = Quantity_Value disk * 2 - 2 ^ 64) as ->; [|lia].
    unfold wrap64. rewrite <- (Z.mod_unique _ _ 1 (Quantity_Value disk * 2 + 2 ^ 63 - 2 ^ 64));
      lia.
Qed.

End wiring.
