(* ===== verification/SSHSpec.v ===== *)
(** The SSH keys can be read back: decoders for the OpenSSH formats that
    SSHKeys.v writes, and their round trips. The decoders are written from the
    formats, and are what an SSH client or server does with the Secret. *)
From S2P Require Import Prelude GoStrings Kube KubeTypes Types ResourceBuilder Events Effects.
From S2P Require Import SSHKeys.

(** * Decoders *)

(** A big-endian 32-bit integer in front of a byte string. *)
Definition read_u32 (b : list ascii) : option (Z * list ascii) :=
  match b with
  | b0 :: b1 :: b2 :: b3 :: b' =>
      Some (Z_of_byte b0 * 2 ^ 24 + Z_of_byte b1 * 2 ^ 16 + Z_of_byte b2 * 2 ^ 8 + Z_of_byte b3, b')
  | _ => None
  end.

(** A length-prefixed field. *)
Definition read_field (b : list ascii) : option (list ascii * list ascii) :=
  '(n, b) ← read_u32 b;
  if decide (n ≤ Z.of_nat (length b))
  then Some (take (Z.to_nat n) b, drop (Z.to_nat n) b) else None.

(** Consumes a given byte string. *)
Definition expect (p b : list ascii) : option (list ascii) :=
  if decide (take (length p) b = p) then Some (drop (length p) b) else None.

Definition expect_field (f b : list ascii) : option (list ascii) :=
  '(g, b) ← read_field b; if decide (f = g) then Some b else None.

(** The value of a base64 character, and base64. *)
Definition sextet (a : ascii) : option Z :=
  Z.of_nat ∘ fst <$> list_find (λ b, b = a) base64_alphabet.

Fixpoint base64_decode (t : list ascii) : option (list ascii) :=
  match t with
  | [] => Some []
  | c0 :: c1 :: c2 :: c3 :: t' =>
      s0 ← sextet c0; s1 ← sextet c1;
      if decide (c2 = "="%char ∧ c3 = "="%char ∧ t' = []) then
        Some [byte_of_Z (Z.shiftr (s0 * 2 ^ 18 + s1 * 2 ^ 12) 16)]
      else s2 ← sextet c2;
      if decide (c3 = "="%char ∧ t' = []) then
        let v := s0 * 2 ^ 18 + s1 * 2 ^ 12 + s2 * 2 ^ 6 in
        Some [byte_of_Z (Z.shiftr v 16); byte_of_Z (Z.shiftr v 8)]
      else s3 ← sextet c3;
        let v := s0 * 2 ^ 18 + s1 * 2 ^ 12 + s2 * 2 ^ 6 + s3 in
        b ← base64_decode t';
        Some (byte_of_Z (Z.shiftr v 16) :: byte_of_Z (Z.shiftr v 8) :: byte_of_Z v :: b)
  | _ => None
  end.

(** A PEM file with the given type: header and footer, lines of base64. *)
Definition pem_decode (ty : string) (file : list ascii) : option (list ascii) :=
  let header := bytes "-----BEGIN " ++ bytes ty ++ bytes "-----" ++ [newline] in
  let footer := bytes "-----END " ++ bytes ty ++ bytes "-----" ++ [newline] in
  b ← expect header file;
  let n := (length b - length footer)%nat in
  if decide (drop n b = footer) then base64_decode (filter (λ a, a ≠ newline) (take n b)) else None.

(** The public key blob. *)
Definition decode_public_blob (b : list ascii) : option (list ascii) :=
  b ← expect_field (bytes "ssh-ed25519") b;
  '(pub, b) ← read_field b;
  if decide (b = []) then Some pub else None.

(** The padding of the private section: 1, 2, 3, ... *)
Definition padding (n : nat) : list ascii := (λ i, byte_of_Z (Z.of_nat i)) <$> seq 1 n.

(** The private section: equal check ints, key type, keys, comment, padding to
    a multiple of eight. *)
Definition decode_private_section (b : list ascii) : option (list ascii * list ascii * string) :=
  if decide (Z.of_nat (length b) mod 8 = 0 ∧ take 4 b = take 4 (drop 4 b)) then
    b ← expect_field (bytes "ssh-ed25519") (drop 8 b);
    '(pub, b) ← read_field b;
    '(priv, b) ← read_field b;
    '(comment, b) ← read_field b;
    if decide (b = padding (length b) ∧ (length b < 8)%nat)
    then Some (pub, priv, String.string_of_list_ascii comment) else None
  else None.

(** An OpenSSH private key without passphrase: both keys and the comment. *)
Definition decode_private_key (b : list ascii) : option (list ascii * list ascii * string) :=
  b ← expect (bytes "openssh-key-v1" ++ ["000"%char]) b;
  b ← expect_field (bytes "none") b;
  b ← expect_field (bytes "none") b;
  b ← expect_field [] b;
  '(n, b) ← read_u32 b;
  if decide (n = 1) then
    '(blob, b) ← read_field b;
    pub1 ← decode_public_blob blob;
    '(private, b) ← read_field b;
    '(pub, priv, comment) ← decode_private_section private;
    if decide (b = [] ∧ pub1 = pub) then Some (pub, priv, comment) else None
  else None.

(** A line of an authorized_keys file: the public key and the comment. *)
Fixpoint before_space (t : list ascii) : list ascii * list ascii :=
  match t with
  | [] => ([], [])
  | a :: t' => if decide (a = " "%char) then ([], t')
               else let '(x, y) := before_space t' in (a :: x, y)
  end.

Definition decode_authorized_key (t : list ascii) : option (list ascii * string) :=
  t ← expect (bytes "ssh-ed25519 ") t;
  let '(text, rest) := before_space t in
  b ← base64_decode text;
  pub ← decode_public_blob b;
  let n := (length rest - 1)%nat in
  if decide (drop n rest = [newline])
  then Some (pub, String.string_of_list_ascii (take n rest)) else None.

(** * Bytes *)

Lemma Z_of_byte_range a : 0 ≤ Z_of_byte a < 256.
Proof. unfold Z_of_byte. pose proof (N_ascii_bounded a). lia. Qed.

Lemma Z_of_byte_of_Z z : Z_of_byte (byte_of_Z z) = z mod 256.
Proof.
  unfold Z_of_byte, byte_of_Z. pose proof (Z.mod_pos_bound z 256).
  rewrite N_ascii_embedding by lia. lia.
Qed.

Lemma byte_of_Z_of_byte a z : z mod 256 = Z_of_byte a → byte_of_Z z = a.
Proof.
  unfold byte_of_Z. intros ->. unfold Z_of_byte. rewrite N2Z.id. apply ascii_N_embedding.
Qed.

(** * Fields *)

Definition field (f : list ascii) : list ascii := sshString [] f.

Lemma sshString_app b f : sshString b f = b ++ field f.
Proof. unfold field, sshString, AppendUint32. by rewrite <- !app_assoc. Qed.

Lemma AppendUint32_app b v : AppendUint32 b v = b ++ AppendUint32 [] v.
Proof. done. Qed.

Lemma read_AppendUint32 v rest :
  0 ≤ v < 2 ^ 32 → read_u32 (AppendUint32 [] v ++ rest) = Some (v, rest).
Proof.
  intros Hv. simpl. rewrite !Z_of_byte_of_Z, !Z.shiftr_div_pow2 by lia. do 2 f_equal.
  change (2 ^ 24) with 16777216. change (2 ^ 16) with 65536. change (2 ^ 8) with 256.
  change (2 ^ 32) with 4294967296 in Hv. Z.to_euclidean_division_equations. lia.
Qed.

Definition short (f : list ascii) : Prop := Z.of_nat (length f) < 2 ^ 32.

Lemma read_field_app f rest : short f → read_field (field f ++ rest) = Some (f, rest).
Proof.
  intros Hf. unfold read_field, field, sshString. rewrite <- app_assoc.
  rewrite wrap_u32_small, read_AppendUint32 by (unfold short in Hf; lia). simpl.
  rewrite decide_True by (rewrite length_app; lia).
  by rewrite Nat2Z.id, take_app_length, drop_app_length.
Qed.

Lemma expect_app p rest : expect p (p ++ rest) = Some rest.
Proof. unfold expect. by rewrite take_app_length, drop_app_length, decide_True. Qed.

Lemma expect_field_app f rest : short f → expect_field f (field f ++ rest) = Some rest.
Proof. intros Hf. unfold expect_field. rewrite read_field_app by done. simpl. by rewrite decide_True. Qed.

Lemma field_length f : length (field f) = (4 + length f)%nat.
Proof. done. Qed.

(** * Base64 *)

Lemma base64_alphabet_sextets :
  Forall (λ n : nat, sextet (base64_char (Z.of_nat n)) = Some (Z.of_nat n)) (seq 0 64).
Proof. compute_done. Qed.

Lemma sextet_base64_char v : sextet (base64_char v) = Some (v mod 64).
Proof.
  pose proof (Z.mod_pos_bound v 64 ltac:(lia)) as Hv.
  pose proof (proj1 (Forall_forall _ _) base64_alphabet_sextets (Z.to_nat (v mod 64))) as H.
  cbv beta in H. rewrite Z2Nat.id in H by lia.
  assert (base64_char (v mod 64) = base64_char v) as Heq
    by (unfold base64_char; by rewrite Zmod_mod).
  rewrite <- Heq. apply H. apply elem_of_seq. lia.
Qed.

Lemma base64_char_regular v a : sextet a = None → base64_char v ≠ a.
Proof. intros Ha <-. by rewrite sextet_base64_char in Ha. Qed.

(** The sextets of a 24-bit value. *)
Lemma sextets_value v : 0 ≤ v < 2 ^ 24 →
  (Z.shiftr v 18 mod 64) * 2 ^ 18 + (Z.shiftr v 12 mod 64) * 2 ^ 12 +
  (Z.shiftr v 6 mod 64) * 2 ^ 6 + v mod 64 = v.
Proof.
  intros Hv. rewrite !Z.shiftr_div_pow2 by lia.
  change (2 ^ 24) with 16777216 in Hv. change (2 ^ 18) with 262144. change (2 ^ 12) with 4096.
  change (2 ^ 6) with 64. Z.to_euclidean_division_equations. lia.
Qed.

Lemma value_bytes x y z : let v := Z_of_byte x * 65536 + Z_of_byte y * 256 + Z_of_byte z in
  byte_of_Z (Z.shiftr v 16) = x ∧ byte_of_Z (Z.shiftr v 8) = y ∧ byte_of_Z v = z.
Proof.
  pose proof (Z_of_byte_range x). pose proof (Z_of_byte_range y). pose proof (Z_of_byte_range z).
  intros v. rewrite !Z.shiftr_div_pow2 by lia. unfold v.
  change (2 ^ 16) with 65536. change (2 ^ 8) with 256.
  split; [|split]; apply byte_of_Z_of_byte; Z.to_euclidean_division_equations; lia.
Qed.

Lemma value_range x y z : 0 ≤ Z_of_byte x * 65536 + Z_of_byte y * 256 + Z_of_byte z < 2 ^ 24.
Proof.
  pose proof (Z_of_byte_range x). pose proof (Z_of_byte_range y). pose proof (Z_of_byte_range z). lia.
Qed.

(** Three bytes at a time. *)
Lemma triples_ind (P : list ascii → Prop) :
  P [] → (∀ x, P [x]) → (∀ x y, P [x; y]) → (∀ x y z b, P b → P (x :: y :: z :: b)) → ∀ b, P b.
Proof.
  intros H0 H1 H2 H3. fix go 1. intros [|x [|y [|z b]]]; [done|apply H1|apply H2|apply H3, go].
Qed.

Lemma decode_triple x y z b t : base64_decode t = Some b →
  let v := Z_of_byte x * 65536 + Z_of_byte y * 256 + Z_of_byte z in
  base64_decode (base64_char (Z.shiftr v 18) :: base64_char (Z.shiftr v 12) ::
    base64_char (Z.shiftr v 6) :: base64_char v :: t) = Some (x :: y :: z :: b).
Proof.
  intros Ht v. cbn [base64_decode]. rewrite !sextet_base64_char. cbn [mbind option_bind].
  rewrite !decide_False by (intros (?&?); by eapply (base64_char_regular _ "="%char)).
  rewrite Ht. cbn [mbind option_bind].
  rewrite sextets_value by (by apply value_range).
  pose proof (value_bytes x y z) as Hb. cbv zeta in Hb. fold v in Hb.
  by destruct Hb as (->&->&->).
Qed.

(** The last group, of two bytes or one. *)
Lemma decode_pair x y :
  let v := Z_of_byte x * 65536 + Z_of_byte y * 256 in
  base64_decode [base64_char (Z.shiftr v 18); base64_char (Z.shiftr v 12);
    base64_char (Z.shiftr v 6); "="%char] = Some [x; y].
Proof.
  intros v. cbn [base64_decode]. rewrite !sextet_base64_char. cbn [mbind option_bind].
  rewrite decide_False by (intros (?&_); by eapply (base64_char_regular _ "="%char)).
  rewrite decide_True by done.
  pose proof (value_range x y "000"%char) as Hr. pose proof (value_bytes x y "000"%char) as Hb.
  cbv zeta in Hb. change (Z_of_byte "000"%char) with 0 in Hr, Hb. rewrite Z.add_0_r in Hr, Hb. fold v in Hr, Hb.
  assert (v mod 64 = 0) as Hv by (unfold v; Z.to_euclidean_division_equations; lia).
  pose proof (sextets_value v Hr) as Hs. rewrite Hv, Z.add_0_r in Hs. rewrite Hs.
  by destruct Hb as (->&->&_).
Qed.

Lemma decode_single x :
  let v := Z_of_byte x * 65536 in
  base64_decode [base64_char (Z.shiftr v 18); base64_char (Z.shiftr v 12); "="%char; "="%char]
  = Some [x].
Proof.
  intros v. cbn [base64_decode]. rewrite !sextet_base64_char. cbn [mbind option_bind].
  rewrite decide_True by done.
  pose proof (value_range x "000"%char "000"%char) as Hr.
  pose proof (value_bytes x "000"%char "000"%char) as Hb.
  cbv zeta in Hb. change (Z_of_byte "000"%char) with 0 in Hr, Hb. rewrite !Z.add_0_r in Hr, Hb. fold v in Hr, Hb.
  assert (v mod 64 = 0 ∧ Z.shiftr v 6 mod 64 = 0) as [Hv Hv6].
  { rewrite Z.shiftr_div_pow2 by lia. change (2 ^ 6) with 64. unfold v.
    split; Z.to_euclidean_division_equations; lia. }
  pose proof (sextets_value v Hr) as Hs. rewrite Hv, Hv6, Z.mul_0_l, !Z.add_0_r in Hs. rewrite Hs.
  by destruct Hb as (->&_&_).
Qed.

Lemma base64_round_trip b : base64_decode (base64_encode b) = Some b.
Proof.
  induction b as [|x|x y|x y z b IH] using triples_ind; [done|apply decode_single|apply decode_pair|].
  by apply decode_triple.
Qed.

(** The characters of base64 text. *)
Definition base64_text (a : ascii) : Prop := a = "="%char ∨ ∃ v, a = base64_char v.

Lemma base64_encode_text b : Forall base64_text (base64_encode b).
Proof.
  induction b as [|x|x y|x y z b IH] using triples_ind; cbn [base64_encode];
    repeat (apply Forall_cons_2; [first [by left | by right; eexists]|]); done.
Qed.

Lemma base64_text_not a c : base64_text a → sextet c = None → c ≠ "="%char → a ≠ c.
Proof. intros [->|[v ->]] Hc Hne; [done|]. by apply base64_char_regular. Qed.

(** * PEM *)

(** The lines hold the text. *)
Lemma pem_lines_text fuel : ∀ b, (length b ≤ fuel)%nat →
  Forall (λ a, a ≠ newline) b → filter (λ a, a ≠ newline) (pem_lines fuel b) = b.
Proof.
  induction fuel as [|fuel IH]; intros b Hlen Hb.
  - by destruct b; [|simpl in Hlen; lia].
  - destruct b as [|a b]; [done|]. cbn [pem_lines]. set (l := a :: b) in *.
    rewrite !filter_app, IH.
    + rewrite filter_cons_False by auto. rewrite filter_nil, app_nil_l.
      rewrite (filter_all _ (take 64 l)); [apply take_drop|by apply Forall_take].
    + rewrite length_drop. lia.
    + by apply Forall_drop.
Qed.

Lemma pem_round_trip ty b : pem_decode ty (pem_EncodeToMemory ty b) = Some b.
Proof.
  unfold pem_decode, pem_EncodeToMemory. set (footer := bytes "-----END " ++ _).
  set (body := pem_lines _ _).
  replace (bytes "-----BEGIN " ++ bytes ty ++ bytes "-----" ++ [newline] ++ body ++ footer)
    with ((bytes "-----BEGIN " ++ bytes ty ++ bytes "-----" ++ [newline]) ++ body ++ footer)
    by (by rewrite <- !app_assoc).
  rewrite expect_app. cbn [mbind option_bind].
  rewrite length_app, Nat.add_sub, drop_app_length, take_app_length, decide_True by done.
  unfold body. rewrite pem_lines_text; [apply base64_round_trip|done|].
  eapply Forall_impl; [apply base64_encode_text|]. intros a Ha. by apply base64_text_not.
Qed.

(** * Keys *)

Lemma public_blob_round_trip pub : short pub → decode_public_blob (publicKeyBlob pub) = Some pub.
Proof.
  intros Hp. unfold decode_public_blob, publicKeyBlob.
  rewrite (sshString_app (sshString _ _) pub), (sshString_app [] (bytes "ssh-ed25519")).
  cbn [app]. rewrite expect_field_app by done. cbn [mbind option_bind].
  rewrite <- (app_nil_r (field pub)), read_field_app by done. done.
Qed.

(** The padding loop appends the bytes 1, 2, ... up to a multiple of eight. *)
Lemma pad_private_from n : ∀ fuel i b,
  (n ≤ fuel)%nat → (n < 8)%nat → (i + n < 256)%nat →
  (Z.of_nat (length b) + Z.of_nat n) mod 8 = 0 →
  pad_private fuel (Z.of_nat i) b = b ++ ((λ i, byte_of_Z (Z.of_nat i)) <$> seq i n).
Proof.
  induction n as [|n IH]; intros fuel i b Hf Hn Hi Hmod.
  - rewrite Z.add_0_r in Hmod. rewrite app_nil_r.
    destruct fuel; simpl; by rewrite (proj2 (Z.eqb_eq _ _) Hmod).
  - destruct fuel as [|fuel]; [lia|]. cbn [pad_private].
    rewrite (proj2 (Z.eqb_neq _ _)) by (Z.to_euclidean_division_equations; lia).
    rewrite (Z.mod_small (Z.of_nat i + 1)) by lia.
    replace (Z.of_nat i + 1) with (Z.of_nat (S i)) by lia.
    rewrite IH; [by rewrite <- app_assoc|lia..|]. rewrite length_app. simpl length.
    rewrite <- Hmod. f_equal. lia.
Qed.

(** Seven rounds are enough. *)
Lemma pad_private_spec b : ∃ n, (n < 8)%nat ∧
  pad_private 7 1 b = b ++ padding n ∧ Z.of_nat (length (pad_private 7 1 b)) mod 8 = 0.
Proof.
  set (n := Z.to_nat ((- Z.of_nat (length b)) mod 8)).
  assert ((n < 8)%nat ∧ (Z.of_nat (length b) + Z.of_nat n) mod 8 = 0) as [Hn Hmod].
  { unfold n. split; Z.to_euclidean_division_equations; lia. }
  exists n. pose proof (pad_private_from n 7 1 b ltac:(lia) Hn ltac:(lia) Hmod) as Hpad.
  change (Z.of_nat 1) with 1 in Hpad. split; [done|]. split; [done|].
  rewrite Hpad, length_app, length_fmap, length_seq. by rewrite Nat2Z.inj_add.
Qed.

Lemma padding_length n : length (padding n) = n.
Proof. unfold padding. by rewrite length_fmap, length_seq. Qed.

(** A session's comment is read back. *)
Lemma string_of_bytes s : String.string_of_list_ascii (bytes s) = s.
Proof. apply String.string_of_list_ascii_of_string. Qed.

Lemma private_section_fields check pub priv comment :
  private_section check pub priv comment =
  pad_private 7 1 (check ++ check ++ field (bytes "ssh-ed25519") ++ field pub ++ field priv ++
    field (bytes comment)).
Proof. unfold private_section. by rewrite !sshString_app, <- !app_assoc. Qed.

Lemma private_section_round_trip check pub priv comment :
  length check = 4%nat → short pub → short priv → short (bytes comment) →
  decode_private_section (private_section check pub priv comment) = Some (pub, priv, comment).
Proof.
  intros Hc Hpub Hpriv Hcom. rewrite private_section_fields. set (body := check ++ _).
  destruct (pad_private_spec body) as (n&Hn&Hpad&Hmod). unfold decode_private_section.
  rewrite Hpad in Hmod |- *. unfold body. rewrite <- !app_assoc.
  assert (∀ x, take 4 (check ++ x) = check ∧ drop 4 (check ++ x) = x) as Hcheck
    by (intros x; by rewrite <- Hc, take_app_length, drop_app_length).
  change 8%nat with (4 + 4)%nat. rewrite <- drop_drop, !(proj2 (Hcheck _)), !(proj1 (Hcheck _)).
  rewrite decide_True by (split; [by rewrite <- Hmod; unfold body; rewrite <- !app_assoc|done]).
  rewrite expect_field_app by done. cbn [mbind option_bind].
  do 3 (rewrite read_field_app by done; cbn [mbind option_bind]).
  rewrite padding_length, decide_True by done. by rewrite string_of_bytes.
Qed.

Lemma openSSHPrivateKey_blob_fields check pub priv comment :
  openSSHPrivateKey_blob check pub priv comment =
  (bytes "openssh-key-v1" ++ ["000"%char]) ++ field (bytes "none") ++ field (bytes "none") ++
  field [] ++ AppendUint32 [] 1 ++ field (publicKeyBlob pub) ++
  field (private_section check pub priv comment).
Proof.
  unfold openSSHPrivateKey_blob.
  rewrite !sshString_app, AppendUint32_app, <- !app_assoc. done.
Qed.

Lemma publicKeyBlob_length pub : length (publicKeyBlob pub) = (19 + length pub)%nat.
Proof. unfold publicKeyBlob. rewrite !sshString_app, !length_app, !field_length. simpl. lia. Qed.

Lemma private_section_length check pub priv comment : length check = 4%nat →
  (length (private_section check pub priv comment) <
   length pub + length priv + String.length comment + 64)%nat.
Proof.
  intros Hc. rewrite private_section_fields. set (body := check ++ _).
  destruct (pad_private_spec body) as (n&Hn&->&_). unfold body.
  rewrite !length_app, !field_length, padding_length, Hc.
  assert (length (bytes comment) = String.length comment) as ->; [|simpl; lia].
  unfold bytes. clear. induction comment; simpl; auto.
Qed.

Lemma private_key_round_trip check pub priv comment :
  length check = 4%nat →
  Z.of_nat (length pub + length priv + String.length comment) < 2 ^ 31 →
  decode_private_key (openSSHPrivateKey_blob check pub priv comment) = Some (pub, priv, comment).
Proof.
  intros Hc Hlen. pose proof (private_section_length check pub priv comment Hc) as Hsec.
  assert (length (bytes comment) = String.length comment) as Hcl.
  { unfold bytes. clear. induction comment; simpl; auto. }
  assert (short pub ∧ short priv ∧ short (bytes comment) ∧ short (publicKeyBlob pub) ∧
    short (private_section check pub priv comment)) as (?&?&?&?&?).
  { unfold short. rewrite Hcl, publicKeyBlob_length. lia. }
  rewrite openSSHPrivateKey_blob_fields. unfold decode_private_key.
  rewrite expect_app. cbn [mbind option_bind].
  do 3 (rewrite expect_field_app by done; cbn [mbind option_bind]).
  rewrite read_AppendUint32 by done. cbn [mbind option_bind]. rewrite decide_True by done.
  rewrite read_field_app by done. cbn [mbind option_bind].
  rewrite public_blob_round_trip by done. cbn [mbind option_bind].
  rewrite <- (app_nil_r (field (private_section _ _ _ _))), read_field_app by done.
  cbn [mbind option_bind]. rewrite private_section_round_trip by done.
  cbn [mbind option_bind]. by rewrite decide_True.
Qed.

(** C37: the private key can be read back. For a key pair and a comment of any
    practical length, and four check bytes, the PEM file that the code stores
    decodes to the same public key, private key and comment: header, base64
    lines and footer, the OpenSSH envelope without encryption, the check bytes
    repeated, and a padding of 1, 2, ... up to a multiple of eight. *)
Theorem stored_private_key_round_trip check pub priv comment :
  length check = 4%nat →
  Z.of_nat (length pub + length priv + String.length comment) < 2 ^ 31 →
  pem_decode "OPENSSH PRIVATE KEY" (pem_EncodeToMemory "OPENSSH PRIVATE KEY"
    (openSSHPrivateKey_blob check pub priv comment)) ≫= decode_private_key
  = Some (pub, priv, comment).
Proof.
  intros Hc Hlen. rewrite pem_round_trip. by apply private_key_round_trip.
Qed.

Lemma before_space_app t rest : Forall (λ a, a ≠ " "%char) t →
  before_space (t ++ " "%char :: rest) = (t, rest).
Proof.
  induction 1 as [|a t Ha Ht IH]; simpl; [done|]. rewrite decide_False by done. by rewrite IH.
Qed.

(** The authorized key can be read back. The line that goes to the VM
    decodes to the same public key and comment. *)
Theorem authorized_key_round_trip pub comment :
  Z.of_nat (length pub) < 2 ^ 32 →
  decode_authorized_key (authorizedKey pub comment) = Some (pub, comment).
Proof.
  intros Hp. unfold decode_authorized_key, authorizedKey. rewrite expect_app.
  cbn [mbind option_bind]. change (bytes " " ++ bytes comment ++ [newline])
    with (" "%char :: bytes comment ++ [newline]).
  rewrite before_space_app.
  - rewrite base64_round_trip. cbn [mbind option_bind].
    rewrite public_blob_round_trip by done. cbn [mbind option_bind].
    rewrite length_app, Nat.add_sub, drop_app_length, take_app_length, decide_True by done.
    by rewrite string_of_bytes.
  - eapply Forall_impl; [apply base64_encode_text|]. intros a Ha. by apply base64_text_not.
Qed.
