(* ===== verification/PublisherSpec.v ===== *)
(** Theorems about the event bus: events identify and carry the phase change,
    a publish that returns no error was confirmed, and connections do not leak. *)
From S2P Require Import Prelude GoStrings Events Publisher.

(** * The event *)

(** The event identifier. When the phases have no dot, as the phases of a
    session have not, two changes give the same event id exactly when they are of
    the same session uid and phase, so that a phase that is published twice has
    the same id and two phases never share one. *)
Theorem event_id_identifies_change p1 p2 t1 t2 :
  has_char ascii_dot (pc_Phase p1) = false → has_char ascii_dot (pc_Phase p2) = false →
  ev_ID (PhaseChange_Event p1 t1) = ev_ID (PhaseChange_Event p2 t2) ↔
  pc_UID p1 = pc_UID p2 ∧ pc_Phase p1 = pc_Phase p2.
Proof.
  intros H1 H2. simpl. split; [by apply dotted_inj|]. by intros [-> ->].
Qed.

(** The event carries the change. A consumer that knows the session's uid
    recovers the whole phase change from the event, an empty reason and no
    endpoints included. *)
Theorem event_carries_change p now : decode_event (pc_UID p) (PhaseChange_Event p now) = p.
Proof.
  destruct p as [uid ns n user sid phase msg reason eps].
  unfold decode_event, PhaseChange_Event, event_endpoints, event_string. simpl.
  destruct (decide (0 < Z.of_nat (size eps))) as [Hs|Hs];
    destruct (decide (reason ≠ "")) as [Hr|Hr]; simpl;
    repeat first [rewrite lookup_insert_eq | rewrite lookup_insert_ne by done];
    rewrite ?lookup_empty; f_equal.
  all: first [by apply dec_stable in Hr | symmetry; apply map_size_empty_inv; lia].
Qed.

Section publisher_spec.
Context {E : Type} (Marshal : Event → result E (list ascii)).

(** * Connections *)

(** The connections that the calls leave open: dialled, and neither closed nor
    seen closed since. *)
Definition live_after (l : gset Conn) (c : amqp_call E) : gset Conn :=
  match c with
  | Dial _ (Ok c) => {[c]} ∪ l
  | ConnIsClosed c true | CloseConn c _ => l ∖ {[c]}
  | _ => l
  end.
Definition live (log : list (amqp_call E)) : gset Conn := foldl live_after ∅ log.

Lemma live_app log log' : live (log ++ log') = foldl live_after (live log) log'.
Proof. apply foldl_app. Qed.

(** The publisher knows every live connection. *)
Definition owns (p : RabbitPublisher) (l : gset Conn) : Prop :=
  ∀ c, c ∈ l → conn p = Some c.

Lemma reset_owns b p l : owns p l →
  owns (reset (E:=E) b p).1 (foldl live_after l (reset b p).2) ∧
  foldl live_after l (reset b p).2 = ∅.
Proof.
  intros Ho. assert (foldl live_after l (reset b p).2 = ∅) as Hl.
  { unfold reset. simpl. apply set_eq. intros x. split; [|set_solver].
    destruct (conn p) as [c|] eqn:Hc.
    - destruct (b_ConnIsClosed b c); simpl; intros Hx; exfalso;
        apply elem_of_difference in Hx as [Hx Hn]; apply Ho in Hx; set_solver.
    - simpl. intros Hx. apply Ho in Hx. congruence. }
  split; [rewrite Hl; intros c; set_solver|done].
Qed.

Lemma live_dial l c : l = ∅ → c ∈ ({[c]} ∪ l : gset Conn).
Proof. set_solver. Qed.

(** Getting a channel: the publisher owns what is live, and on success the
    channel is on its connection. *)
Lemma channel_owns b p l : owns p l → (ch p = None ∨ ch p = conn p) →
  let '(p', log, r) := channel (E:=E) b p in
  owns p' (foldl live_after l log) ∧ (ch p' = None ∨ ch p' = conn p') ∧ closed p' = closed p ∧
  match r with Ok c => conn p' = Some c ∧ closed p = false | Err _ => True end.
Proof.
  intros Ho Hch. unfold channel. destruct (closed p) eqn:Hc; [auto|].
  destruct (reset_owns b p l Ho) as [_ Hl].
  assert ((reset b p).1 = set_conn None None p) as Hr by done.
  destruct (reset b p) as [p0 log0]. simpl in Hl, Hr. subst p0.
  destruct (ch p) as [c|] eqn:Hp; [destruct (b_ChannelIsClosed b c)|].
  all: repeat (destruct_match; simpl).
  all: rewrite ?foldl_app; simpl; rewrite ?Hl; simpl.
  all: unfold owns; split_and!; auto; try (by intros x; set_solver).
  all: try by destruct Hch; congruence.
  by rewrite Hp.
Qed.

Lemma publish_owns b deadline now change p l :
  owns p l → (ch p = None ∨ ch p = conn p) →
  let '(p', log, r) := PublishPhaseChange Marshal b deadline now change p in
  owns p' (foldl live_after l log) ∧ (ch p' = None ∨ ch p' = conn p') ∧ closed p' = closed p.
Proof.
  intros Ho Hch. unfold PublishPhaseChange. destruct (Marshal _) as [body|]; [|auto].
  pose proof (channel_owns b p l Ho Hch) as Hc.
  destruct (channel b p) as [[p1 log1] [c|e]]; destruct Hc as (Ho1&Hch1&Hcl&Hc); [|auto].
  destruct (reset_owns b p1 _ Ho1) as [_ Hl].
  assert ((reset b p1).1 = set_conn None None p1) as Hr by done.
  destruct (reset b p1) as [p2 log2]. simpl in Hl, Hr. subst p2.
  repeat (destruct_match; simpl); rewrite !foldl_app; simpl; rewrite ?foldl_app; simpl; rewrite ?Hl.
  all: by split_and!; auto; intros x; set_solver.
Qed.

(** The publisher's life: operations, each with any answers of the client, and
    the calls they made so far. *)
Inductive life (u : string) : RabbitPublisher → list (amqp_call E) → Prop :=
| life_new : life u (NewRabbitPublisher u) []
| life_publish p log b deadline now change p' log' r :
    life u p log → PublishPhaseChange Marshal b deadline now change p = (p', log', r) →
    life u p' (log ++ log')
| life_close p log b p' log' r :
    life u p log → Close b p = (p', log', r) → life u p' (log ++ log').

Lemma Close_owns b p l : owns p l →
  let '(p', log, r) := Close (E:=E) b p in
  foldl live_after l log = ∅ ∧ conn p' = None ∧ ch p' = None ∧ closed p' = true.
Proof.
  intros Ho. destruct (reset_owns b p l Ho) as [_ Hl]. unfold reset in Hl. unfold Close. simpl in Hl.
  destruct (conn p) as [c|]; [destruct (b_ConnIsClosed b c)|]; simpl in *; auto.
Qed.

Lemma life_owns u p log : life u p log →
  owns p (live log) ∧ (ch p = None ∨ ch p = conn p) ∧ (closed p = true → live log = ∅).
Proof.
  induction 1 as [|p log b dl now chg p' log' r Hl IH Hp|p log b p' log' r Hl IH Hc].
  - split; [intros c; set_solver|]. split; [by left|done].
  - destruct IH as (Ho&Hch&Hcl). rewrite live_app.
    pose proof (publish_owns b dl now chg p (live log) Ho Hch) as H. rewrite Hp in H.
    destruct H as (Ho'&Hch'&Hcl'). split; [done|]. split; [done|]. rewrite Hcl'. intros Hc.
    unfold PublishPhaseChange, channel in Hp. rewrite Hc in Hp.
    destruct (Marshal _); simplify_eq; simpl; auto.
  - destruct IH as (Ho&Hch&Hcl). rewrite live_app.
    pose proof (Close_owns b p (live log) Ho) as H. rewrite Hc in H.
    destruct H as (Hl'&Hcn&Hchn&_). rewrite Hl'. split; [intros c; set_solver|]. auto.
Qed.

(** C36: connections do not leak. After any sequence of publishes and closes,
    whatever the client answered in each, the connections that are open are at
    most the one that the publisher holds; after a close there is none, and
    publishing makes no further call of the client. *)
Theorem connections_do_not_leak u p log :
  life u p log →
  (∀ c, c ∈ live log → conn p = Some c) ∧
  (closed p = true → live log = ∅ ∧
   ∀ b deadline now change, ∃ err,
     PublishPhaseChange Marshal b deadline now change p = (p, [], Some err)).
Proof.
  intros Hl. destruct (life_owns _ _ _ Hl) as (Ho&_&Hc). split; [done|].
  intros Hcl. split; [auto|]. intros b dl now chg. unfold PublishPhaseChange, channel. rewrite Hcl.
  destruct (Marshal _); eauto.
Qed.

(** * Publishing *)

(** The message of a phase change. *)
Definition message (p : RabbitPublisher) (deadline : option duration) (now : time)
    (change : PhaseChange) (body : list ascii) : Publishing :=
  mkPublishing ExchangeName TypeLabSessionPhaseChanged (default (publishTimeout p) deadline)
    "application/json" Persistent (pc_UID change +:+ "." +:+ pc_Phase change) now
    TypeLabSessionPhaseChanged Source body.

Definition is_publish (c : amqp_call E) : bool :=
  match c with PublishMessage _ _ _ => true | _ => false end.
Definition is_ack (c : amqp_call E) : bool :=
  match c with WaitConfirm _ (Ok true) => true | _ => false end.

Lemma reset_calls b p :
  existsb is_publish (reset b p).2 = false ∧ existsb is_ack (reset b p).2 = false.
Proof. unfold reset. simpl. by repeat destruct_match. Qed.

Lemma channel_calls b p p' log r : channel b p = (p', log, r) →
  existsb is_publish log = false ∧ existsb is_ack log = false ∧
  publishTimeout p' = publishTimeout p ∧
  match r with Ok c => ch p' = Some c | Err _ => True end.
Proof.
  unfold channel. destruct (reset_calls b p) as [Hp Ha].
  assert ((reset b p).1 = set_conn None None p) as Hr by done.
  destruct (reset b p) as [p0 log0]. simpl in Hp, Ha, Hr. subst p0. intros H.
  repeat (destruct_match_in H; simplify_eq/=; rewrite ?existsb_app, ?Hp, ?Ha; simpl; try done).
Qed.

(** What a publish without an error did. *)
Lemma publish_confirmed b deadline now change p p' log r :
  PublishPhaseChange Marshal b deadline now change p = (p', log, r) →
  (r = None ↔ existsb is_ack log = true) ∧
  (r = None → ∃ body c pre,
    Marshal (PhaseChange_Event change now) = Ok body ∧
    log = pre ++ [PublishMessage c (message p deadline now change body) None;
                  WaitConfirm c (Ok true)] ∧
    existsb is_publish pre = false ∧ ch p' = Some c).
Proof.
  unfold PublishPhaseChange. destruct (Marshal _) as [body|e] eqn:Hm; [|by intros; simplify_eq].
  destruct (channel b p) as [[p1 log1] [c|e]] eqn:Hc; apply channel_calls in Hc as (Hp&Ha&Ht&Hch);
    [|intros; simplify_eq; by rewrite Ha].
  destruct (reset_calls b p1) as [Hrp Hra]. destruct (reset b p1) as [p2 log2]. simpl in Hrp, Hra.
  destruct (b_Publish b) as [e|]; [|destruct (b_Wait b) as [[]|e]]; intros; simplify_eq;
    rewrite !existsb_app, Ha, ?Hra; simpl; try done.
  split; [done|]. intros _. exists body, c, log1. rewrite <- app_assoc. done.
Qed.

(** No error means confirmed. A publish returns no error exactly when the
    broker acknowledged a message; then the calls end with the one message that
    was handed to it and its acknowledgement, and that message is the encoded
    event: persistent, under the event type as routing key and the event id as
    message id, within the caller's deadline or the publisher's timeout. *)
Theorem no_error_means_confirmed b deadline now change p p' log r :
  PublishPhaseChange Marshal b deadline now change p = (p', log, r) →
  (r = None ↔ existsb is_ack log = true) ∧
  (r = None → ∃ body c pre,
    Marshal (PhaseChange_Event change now) = Ok body ∧
    log = pre ++ [PublishMessage c (message p deadline now change body) None;
                  WaitConfirm c (Ok true)] ∧
    existsb is_publish pre = false ∧ ch p' = Some c).
Proof. apply publish_confirmed. Qed.

(** A failure reconnects. When handing over the message or waiting for its
    acknowledgement fails, the publisher drops its connection, so that the next
    publish dials again; a message that the broker refuses keeps the channel. *)
Theorem failed_publish_reconnects b deadline now change p p' log r :
  PublishPhaseChange Marshal b deadline now change p = (p', log, Some r) →
  match r with
  | ErrPublish _ | ErrWait _ => conn p' = None ∧ ch p' = None ∧
      (closed p' = false → ∀ b', ∃ log', (channel (E:=E) b' p').1.2 = Dial (url p') (b_Dial b') :: log')
  | ErrNotConfirmed => is_Some (ch p')
  | ErrMarshal _ | ErrClosed => p' = p ∧ log = []
  | _ => conn p' = None ∧ ch p' = None
  end.
Proof.
  unfold PublishPhaseChange. destruct (Marshal _) as [body|e] eqn:Hm; [|by intros; simplify_eq].
  destruct (channel b p) as [[p1 log1] [c|e]] eqn:Hc.
  - apply channel_calls in Hc as (_&_&_&Hch).
    assert ((reset b p1).1 = set_conn None None p1) as Hr by done.
    destruct (reset b p1) as [p2 log2]. simpl in Hr. subst p2.
    destruct (b_Publish b) as [e|]; [|destruct (b_Wait b) as [[]|e]]; intros; simplify_eq; eauto.
    all: split; [done|]; split; [done|]; intros Hcl b'; unfold channel; simpl in *; rewrite Hcl;
      simpl; repeat destruct_match; simpl; eauto.
  - intros; simplify_eq. unfold channel, reset in Hc.
    destruct (closed p); simplify_eq; [done|].
    repeat (destruct_match_in Hc; simplify_eq/=; try done).
Qed.

End publisher_spec.
