(* ===== verification/Bus.v ===== *)
(** The controller on its event bus: the system of Cluster.v in which the publishes of
    all reconciliations go through one publisher. What the controller relies on is the
    class [PhaseBus]; the RabbitMQ publisher is an instance. *)
From S2P Require Import Prelude GoStrings Kube KubeTypes Types Events Publisher PublisherSpec Effects.
From S2P Require Import Reconciler ReconcilerGuard LifeGuard Cluster Life.

(** A publisher with state [P], whose calls are [C]. *)
Class PhaseBus (P C : Type) := {
  (** one publish: the context's time left, the change, the calls it made, and whether
      it returned no error *)
  bus_publish : P → option duration → PhaseChange → P → list C → bool → Prop;
  bus_close : P → P → list C → Prop;
  (** the calls show that the broker has the change, in the part that they hold *)
  bus_confirmed : PhaseChange → list C → Prop;
  bus_confirmed_app c l l1 l2 : bus_confirmed c l → bus_confirmed c (l1 ++ l ++ l2);
  bus_publish_confirmed p t c p' l : bus_publish p t c p' l true → bus_confirmed c l
}.

Section bus.
Context `{K : KubeLib, KL : !KubeLaws K} {P C : Type} `{B : PhaseBus P C}.
Context (r : LabSessionReconciler) (ns n : string).

Definition is_publish_op (o : op) : bool :=
  match o with PublishPhaseChange _ _ => true | _ => false end.

(** The system, its publisher, and the calls that the publisher made. *)
Record bus_system := mkBusSystem {
  bs_system : system;
  bs_publisher : P;
  bs_calls : list C
}.

(** The steps of [life]; a publish is answered by the publisher, and counts as taken by
    the broker when it was confirmed. The publisher may be closed at any time. *)
Inductive bus_life : bus_system → bus_system → Prop :=
| bus_edit w runs s s' p l :
    current w = Some s → user_edit s s' →
    bus_life (mkBusSystem (mkSystem w runs) p l) (mkBusSystem (mkSystem (store s' w) runs) p l)
| bus_start w runs p l :
    bus_life (mkBusSystem (mkSystem w runs) p l)
             (mkBusSystem (mkSystem w (mkRunning (Reconcile r ns n) [] :: runs)) p l)
| bus_stop w runs1 runs2 run p l :
    bus_life (mkBusSystem (mkSystem w (runs1 ++ run :: runs2)) p l)
             (mkBusSystem (mkSystem w (runs1 ++ runs2)) p l)
| bus_call w w' runs1 runs2 o k h x p l :
    is_publish_op o = false → serves (base h) w o x w' →
    bus_life (mkBusSystem (mkSystem w (runs1 ++ mkRunning (Do o k) h :: runs2)) p l)
             (mkBusSystem (mkSystem w' (runs1 ++ mkRunning (k x) (h ++ [Ev o x]) :: runs2)) p l)
| bus_publishes w runs1 runs2 t c k h (x : option error) p p' l l' :
    let o := PublishPhaseChange t c in
    bus_publish p t c p' l' (match x with None => true | Some _ => false end) →
    bus_life (mkBusSystem (mkSystem w (runs1 ++ mkRunning (Do o k) h :: runs2)) p l)
             (mkBusSystem (mkSystem (match x with None => publish c w | Some _ => w end)
                (runs1 ++ mkRunning (k x) (h ++ [Ev o x]) :: runs2)) p' (l ++ l'))
| bus_closes sys p p' l l' :
    bus_close p p' l' → bus_life (mkBusSystem sys p l) (mkBusSystem sys p' (l ++ l')).

(** The bus restricts the world: every step is one of [life], or of the publisher alone. *)
Lemma bus_life_simulates b b' : bus_life b b' →
  life r ns n (bs_system b) (bs_system b') ∨ bs_system b' = bs_system b.
Proof.
  destruct 1; [left; by econstructor|left; constructor|left; constructor|left; by constructor| |by right].
  left. apply (life_call r ns n w _ runs1 runs2 o k h x). by destruct x; [left|].
Qed.

(** What holds of the bus: the world's invariant, and every change that the broker took
    was confirmed to the publisher. *)
Definition bus_inv (s0 : LabSession) (b : bus_system) : Prop :=
  system_inv s0 ns n (bs_system b) ∧
  ∀ c, c ∈ published (sys_world (bs_system b)) → bus_confirmed c (bs_calls b).

Lemma confirmed_more c l l' : bus_confirmed c l → bus_confirmed c (l ++ l').
Proof. apply (bus_confirmed_app c l []). Qed.

Lemma confirmed_later c l l' : bus_confirmed c l → bus_confirmed c (l' ++ l).
Proof. intros Hc. rewrite <- (app_nil_r l). by apply bus_confirmed_app. Qed.

Lemma serves_published b w o x w' :
  is_publish_op o = false → serves b w o x w' → published w' = published w.
Proof.
  assert (∀ lock change rs, written w lock change rs w' → published w' = published w) as Hw.
  { intros lock change rs [[-> _]|(cur&s'&_&_&_&->&_)]; done. }
  destruct o; simpl; intros Ho Hs; try done; try (by eapply Hw); try by subst w'.
  - by destruct Hs as [-> _].
  - by destruct Hs as [->|[-> _]].
Qed.

Lemma bus_step_inv s0 b b' : bus_inv s0 b → bus_life b b' → bus_inv s0 b'.
Proof.
  intros [Hs Hc] Hl. split.
  { destruct (bus_life_simulates _ _ Hl) as [Hl'| ->]; [|done]. by eapply life_step_inv. }
  destruct Hl as [| | |w w' runs1 runs2 o k h x p l Ho Hsv
    |w runs1 runs2 t c k h x p p' l l' o Hp|]; simpl in *; try done.
  - by rewrite (serves_published _ _ _ _ _ Ho Hsv).
  - destruct x as [e|]; [intros c' Hc'; by apply confirmed_more, Hc|].
    intros c' [Hc'|Hc']%elem_of_app; [by apply confirmed_more, Hc|].
    apply list_elem_of_singleton in Hc' as ->. by apply confirmed_later, (bus_publish_confirmed p t c p').
  - intros c' Hc'. by apply confirmed_more, Hc.
Qed.

Definition bus_init (s0 : LabSession) (p : P) : bus_system :=
  mkBusSystem (mkSystem (mkWorld [s0] false [] []) []) p [].

Lemma bus_reachable_inv s0 p b : fresh s0 → rtc bus_life (bus_init s0 p) b → bus_inv s0 b.
Proof.
  intros Hs Hl. assert (bus_inv s0 (bus_init s0 p)) as Hi.
  { split; [by apply init_inv|]. simpl. intros c Hc. by apply not_elem_of_nil in Hc. }
  induction Hl; [done|]. apply IHHl. by eapply bus_step_inv.
Qed.

(** A phase that a version records was confirmed. *)
Lemma bus_recorded s0 p b v : fresh s0 → rtc bus_life (bus_init s0 p) b →
  v ∈ versions (sys_world (bs_system b)) → annotation (ObjMeta v) PublishedPhaseAnnotation ≠ "" →
  ∃ c, pc_UID c = meta_UID (ObjMeta v) ∧
    pc_Phase c = annotation (ObjMeta v) PublishedPhaseAnnotation ∧ bus_confirmed c (bs_calls b).
Proof.
  intros Hs Hl Hv Ha. destruct (bus_reachable_inv _ _ _ Hs Hl) as [[Hw _] Hc].
  destruct (inv_recorded _ _ Hw v Hv) as [?|(c&Hin&?&?)]; [done|]. exists c. auto.
Qed.
End bus.

(** * The RabbitMQ publisher on the bus *)

Section rabbit.
Context `{K : KubeLib, KL : !KubeLaws K} {E : Type} (Marshal : Event → result E (list ascii)).

(** The broker acknowledged a message with the encoded event of the change. *)
Definition acknowledged (c : PhaseChange) (l : list (amqp_call E)) : Prop :=
  ∃ now body conn m pre post, Marshal (PhaseChange_Event c now) = Ok body ∧
    l = pre ++ [PublishMessage conn m None; WaitConfirm conn (Ok true)] ++ post ∧
    msg_Body m = body ∧ msg_MessageId m = pc_UID c +:+ "." +:+ pc_Phase c ∧
    msg_DeliveryMode m = Persistent.

#[export] Program Instance RabbitBus : PhaseBus RabbitPublisher (amqp_call E) := {|
  bus_publish p t c p' l ok := ∃ b now err,
    Publisher.PublishPhaseChange Marshal b t now c p = (p', l, err) ∧
    ok = match err with None => true | Some _ => false end;
  bus_close p p' l := ∃ b err, Close b p = (p', l, err);
  bus_confirmed := acknowledged
|}.
Next Obligation.
  intros c l l1 l2 (now&body&conn&m&pre&post&Hm&->&?&?&?).
  exists now, body, conn, m, (l1 ++ pre), (post ++ l2). by rewrite <- !app_assoc.
Qed.
Next Obligation.
  intros p t c p' l (b&now&[e|]&Hp&Hok); [done|].
  destruct (proj2 (publish_confirmed Marshal _ _ _ _ _ _ _ _ Hp) eq_refl) as (body&cn&pre&Hm&->&_).
  exists now, body, cn, (message p t now c body), pre, []. by rewrite app_nil_r.
Qed.

(** The publisher's own life within the system's. *)
Lemma bus_publisher_life u r ns n s0 b :
  rtc (bus_life (B := RabbitBus) r ns n) (bus_init s0 (NewRabbitPublisher u)) b →
  PublisherSpec.life Marshal u (bs_publisher b) (bs_calls b).
Proof.
  assert (∀ b1 b2, bus_life (B := RabbitBus) r ns n b1 b2 →
    PublisherSpec.life Marshal u (bs_publisher b1) (bs_calls b1) →
    PublisherSpec.life Marshal u (bs_publisher b2) (bs_calls b2)) as Hstep.
  { intros b1 b2 Hl Hp. destruct Hl as [| | | |w runs1 runs2 t c k h x p p' l l' o Hpub
      |sys p p' l l' Hc]; simpl in *; try done.
    - destruct Hpub as (br&now&err&Hpub&_). by eapply PublisherSpec.life_publish.
    - destruct Hc as (br&err&Hc). by eapply PublisherSpec.life_close. }
  intros Hl. remember (bus_init s0 (NewRabbitPublisher u)) as b0 eqn:Hb0.
  assert (PublisherSpec.life Marshal u (bs_publisher b0) (bs_calls b0)) as Hi.
  { subst b0. exact (PublisherSpec.life_new Marshal u). }
  clear Hb0. induction Hl; [done|]. eauto.
Qed.
End rabbit.
