(* ===== verification/BusSpec.v ===== *)
(** What the session records is what the broker has. *)
From S2P Require Import Prelude GoStrings Kube KubeTypes Types Events Publisher PublisherSpec Effects.
From S2P Require Import Reconciler ReconcilerGuard LifeGuard Cluster Life Bus.

Section spec.
Context `{K : KubeLib, KL : !KubeLaws K} {E : Type} (Marshal : Event → result E (list ascii)).

(** C5: what is recorded was acknowledged. Let all reconciliations of a session,
    overlapping, stale or cut off, publish through one RabbitMQ publisher, whose
    connection may fail and which may be closed at any time. Whenever a version of
    the session says in its annotation that a phase was published, the broker
    acknowledged a persistent message with the encoded event of a change of this
    session to that phase, under the event's id; and the publisher leaks no
    connection meanwhile. *)
Theorem recorded_phases_were_acknowledged (r : LabSessionReconciler) (ns n u : string)
    (s0 : LabSession) (b : bus_system) :
  fresh s0 →
  rtc (bus_life (B := RabbitBus Marshal) r ns n) (bus_init s0 (NewRabbitPublisher u)) b →
  (∀ v, v ∈ versions (sys_world (bs_system b)) →
     annotation (ObjMeta v) PublishedPhaseAnnotation ≠ "" →
     ∃ c, pc_UID c = meta_UID (ObjMeta v) ∧
       pc_Phase c = annotation (ObjMeta v) PublishedPhaseAnnotation ∧
       acknowledged Marshal c (bs_calls b)) ∧
  (∀ c, c ∈ live (bs_calls b) → conn (bs_publisher b) = Some c).
Proof.
  intros Hs Hl. split; [intros v; by eapply (bus_recorded (B := RabbitBus Marshal))|].
  apply (life_owns Marshal u). by eapply bus_publisher_life.
Qed.
End spec.
