(* ===== verification/BreakerSpec.v ===== *)
(** The circuit breaker under concurrent callers: each call is two steps of the
    breaker, [beforeRequest] and [afterRequest], between which any number of steps
    of other callers may come. *)
From S2P Require Import Prelude CircuitBreaker.

Section breaker_spec.
Context {E : Type}.

(** A breaker and the generations of the requests in flight. *)
Record sys := mkSys { sys_cb : CircuitBreaker E; inflight : list Z }.

(** What a caller does: ask to run and be admitted, in a generation, or rejected,
    report a result, read the state, reset. *)
Inductive action := Admit (g : Z) | Reject | Finish | ReadState | DoReset.

#[global] Instance action_eq_dec : EqDecision action.
Proof. solve_decision. Defined.

Inductive step : action → sys → sys → Prop :=
| step_admit cb fl now cb' g :
    beforeRequest cb now = (cb', Ok g) → step (Admit g) (mkSys cb fl) (mkSys cb' (g :: fl))
| step_reject cb fl now cb' e :
    beforeRequest cb now = (cb', Err e) → step Reject (mkSys cb fl) (mkSys cb' fl)
| step_finish cb fl1 g fl2 success now :
    step Finish (mkSys cb (fl1 ++ g :: fl2)) (mkSys (afterRequest cb g success now) (fl1 ++ fl2))
| step_GetState cb fl now : step ReadState (mkSys cb fl) (mkSys (GetState cb now).1 fl)
| step_Reset cb fl now : step DoReset (mkSys cb fl) (mkSys (Reset cb now) fl).

(** A run of the callers. *)
Inductive steps : list action → sys → sys → Prop :=
| steps_nil s : steps [] s s
| steps_cons a l s1 s2 s3 : step a s1 s2 → steps l s2 s3 → steps (a :: l) s1 s3.

(** The requests in flight that were admitted in generation [g]. *)
Definition current (g : Z) (fl : list Z) : Z :=
  Z.of_nat (length (filter (λ x, x = g) fl)).

(** The requests that were admitted in generation [g]. *)
Definition admitted (g : Z) (l : list action) : Z :=
  Z.of_nat (length (filter (λ a, a = Admit g) l)).

(** Few enough generations and requests that no counter wraps. *)
Definition small (n : nat) : Prop := Z.of_nat n < 2 ^ 32 - 2.

(** The invariant, [n] being a bound on the generations and requests so far. *)
Record inv (config : Config E) (n : nat) (s : sys) : Prop := {
  inv_max : maxRequests (sys_cb s) =
    if decide (cfg_MaxRequests config = 0) then 1 else cfg_MaxRequests config;
  inv_generation : 1 ≤ generation (sys_cb s) ≤ 1 + Z.of_nat n;
  inv_tokens : Forall (λ g, g ≤ generation (sys_cb s)) (inflight s);
  inv_successes : 0 ≤ TotalSuccesses (counts (sys_cb s));
  inv_failures : 0 ≤ TotalFailures (counts (sys_cb s));
  inv_requests : Requests (counts (sys_cb s)) = TotalSuccesses (counts (sys_cb s)) +
    TotalFailures (counts (sys_cb s)) + current (generation (sys_cb s)) (inflight s);
  inv_bound : Requests (counts (sys_cb s)) ≤ Z.of_nat n;
  inv_half_open : state (sys_cb s) = StateHalfOpen →
    Requests (counts (sys_cb s)) ≤ maxRequests (sys_cb s) ∧ TotalSuccesses (counts (sys_cb s)) = 0
}.

Lemma current_nonneg g fl : 0 ≤ current g fl.
Proof. unfold current. lia. Qed.

Lemma current_cons g x fl : current g (x :: fl) = (if decide (x = g) then 1 else 0) + current g fl.
Proof. unfold current. rewrite filter_cons. case_decide; simpl length; lia. Qed.

Lemma current_app g fl1 fl2 : current g (fl1 ++ fl2) = current g fl1 + current g fl2.
Proof. unfold current. rewrite filter_app, length_app. lia. Qed.

Lemma current_fresh g fl : Forall (λ x, x < g) fl → current g fl = 0.
Proof.
  induction 1 as [|x fl Hx Hfl IH]; [done|]. rewrite current_cons, decide_False by lia. lia.
Qed.

(** * Preservation *)

Lemma inv_mono config n m s : (n ≤ m)%nat → inv config n s → inv config m s.
Proof. intros Hle []. constructor; try done; lia. Qed.

Lemma inv_new_generation config n cb fl fl' st x ch :
  inv config n (mkSys cb fl) → Forall (λ g, g ≤ generation cb) fl' → small n →
  0 ≤ cfg_MaxRequests config →
  inv config (S n) (mkSys (set_dynamic cb st (wrap_u64 (generation cb + 1)) no_counts x ch) fl').
Proof.
  intros [] Hfl Hn Hm. unfold small in Hn. simpl in *.
  rewrite wrap_u64_small by lia.
  constructor; simpl; try done; try lia.
  - eapply Forall_impl; [done|]. simpl. lia.
  - rewrite current_fresh; [lia|]. eapply Forall_impl; [done|]. simpl. lia.
  - intros _. rewrite inv_max0. case_decide; lia.
Qed.

Section preservation.
Context (config : Config E) (Hmax : 0 ≤ cfg_MaxRequests config).

Lemma inv_toNewGeneration n cb fl now :
  inv config n (mkSys cb fl) → small n → inv config (S n) (mkSys (toNewGeneration cb now) fl).
Proof. intros Hi Hn. eapply inv_new_generation; [done|apply Hi|done..]. Qed.

Lemma inv_setState n cb fl st now :
  inv config n (mkSys cb fl) → small n → inv config (S n) (mkSys (setState cb st now) fl).
Proof.
  intros Hi Hn. unfold setState. case_decide; [by eapply inv_mono; [|done]; lia|].
  simpl. destruct (onStateChange cb); unfold toNewGeneration, set_dynamic; simpl;
    (eapply inv_new_generation; [done|apply Hi|done..]).
Qed.

Lemma inv_currentState n cb fl now :
  inv config n (mkSys cb fl) → small n → inv config (S n) (mkSys (currentState cb now) fl).
Proof.
  intros Hi Hn. unfold currentState.
  destruct (state cb); repeat case_match; try by eapply inv_mono; [|done]; lia.
  - by apply inv_toNewGeneration.
  - by apply inv_setState.
Qed.

Lemma inv_admit n cb fl now cb' g :
  inv config n (mkSys cb fl) → small (S n) → beforeRequest cb now = (cb', Ok g) →
  inv config (2 + n) (mkSys cb' (g :: fl)).
Proof.
  intros Hi Hn. unfold beforeRequest.
  pose proof (inv_currentState n cb fl now Hi ltac:(unfold small in *; lia)) as Hc.
  set (cb1 := currentState cb now) in *. destruct Hc. simpl in *.
  destruct (decide (state cb1 = StateOpen)) as [|Ho]; [done|].
  destruct (decide (state cb1 = StateHalfOpen ∧ _)) as [|Hr]; [done|]. intros [= <- <-].
  rewrite wrap_u32_small by (unfold small in *; pose proof (current_nonneg (generation cb1) fl); lia).
  constructor; simpl; try done; try lia.
  - by constructor.
  - rewrite current_cons, decide_True by done. lia.
  - intros Hh. destruct (inv_half_open0 Hh). split; [|done].
    destruct (decide (maxRequests cb1 ≤ Requests (counts cb1))); [naive_solver|lia].
Qed.

(** A result of the current generation, before it may change the state. *)
Lemma inv_result n cb fl1 fl2 s f cs cf :
  inv config n (mkSys cb (fl1 ++ generation cb :: fl2)) → small n →
  0 ≤ s → 0 ≤ f → s + f = 1 →
  (state cb = StateHalfOpen → s = 0) →
  inv config n (mkSys (set_counts (mkCounts (Requests (counts cb))
    (TotalSuccesses (counts cb) + s) (TotalFailures (counts cb) + f) cs cf) cb) (fl1 ++ fl2)).
Proof.
  intros [] Hn Hs Hf Hsf Hh. simpl in *.
  rewrite current_app, current_cons, decide_True in inv_requests0 by done.
  constructor; simpl; try done; try lia.
  - apply Forall_app in inv_tokens0 as [? [??]%Forall_cons]. by apply Forall_app.
  - rewrite current_app. lia.
  - intros Ho. destruct (inv_half_open0 Ho). rewrite (Hh Ho). lia.
Qed.

Lemma inv_drop n cb fl1 g fl2 :
  inv config n (mkSys cb (fl1 ++ g :: fl2)) → g ≠ generation cb →
  inv config n (mkSys cb (fl1 ++ fl2)).
Proof.
  intros [] Hg. simpl in *.
  rewrite current_app, current_cons, decide_False in inv_requests0 by done.
  constructor; simpl; try done.
  - apply Forall_app in inv_tokens0 as [? [??]%Forall_cons]. by apply Forall_app.
  - rewrite current_app. lia.
Qed.

Lemma inv_counts_small n s : inv config n s → small n →
  0 ≤ TotalSuccesses (counts (sys_cb s)) ≤ Z.of_nat n ∧
  0 ≤ TotalFailures (counts (sys_cb s)) ≤ Z.of_nat n.
Proof.
  intros [] _. pose proof (current_nonneg (generation (sys_cb s)) (inflight s)). lia.
Qed.

Lemma inv_finish n cb fl1 g fl2 success now :
  inv config n (mkSys cb (fl1 ++ g :: fl2)) → small (S n) →
  inv config (2 + n) (mkSys (afterRequest cb g success now) (fl1 ++ fl2)).
Proof.
  intros Hi Hn. unfold afterRequest.
  pose proof (inv_currentState n cb _ now Hi ltac:(unfold small in *; lia)) as Hc.
  set (cb1 := currentState cb now) in *.
  destruct (inv_counts_small _ _ Hc Hn) as [Hs Hf]. simpl in Hs, Hf. unfold small in Hn.
  case_decide as Hg; [by eapply inv_mono; [|eapply inv_drop; [exact Hc|done]]; lia|].
  assert (g = generation cb1) as -> by (by destruct (decide (g = generation cb1)); [|naive_solver]).
  destruct success; unfold onSuccess, onFailure.
  - rewrite (wrap_u32_small (TotalSuccesses _ + 1)) by lia. case_decide as Ho.
    + unfold setState. simpl. rewrite decide_False by congruence.
      pose proof (inv_tokens _ _ _ Hc) as Ht. simpl in Ht.
      apply Forall_app in Ht as [? [??]%Forall_cons].
      destruct (onStateChange cb1); unfold toNewGeneration, set_dynamic, set_counts; simpl;
        (eapply inv_new_generation; [exact Hc|by apply Forall_app|done..]).
    + eapply inv_mono; [|rewrite <- (Z.add_0_r (TotalFailures _)); apply inv_result; try done]; lia.
  - rewrite (wrap_u32_small (TotalFailures _ + 1)) by lia.
    assert (inv config (S n) (mkSys (set_counts (mkCounts (Requests (counts cb1))
      (TotalSuccesses (counts cb1)) (TotalFailures (counts cb1) + 1) 0
      (wrap_u32 (ConsecutiveFailures (counts cb1) + 1))) cb1) (fl1 ++ fl2))) as Hr.
    { rewrite <- (Z.add_0_r (TotalSuccesses _)). apply inv_result; try done; lia. }
    case_match; [by apply inv_setState|by eapply inv_mono; [|exact Hr]; lia].
Qed.

Lemma inv_step n a s s' : inv config n s → small (S n) → step a s s' → inv config (2 + n) s'.
Proof.
  intros Hi Hn Hs. destruct Hs as [cb fl now cb' g Hb|cb fl now cb' e Hb| |cb fl now|cb fl now].
  - by eapply inv_admit.
  - unfold beforeRequest in Hb. eapply (inv_mono config (S n)); [lia|].
    repeat case_decide; simplify_eq; apply inv_currentState; try done; unfold small in *; lia.
  - by apply inv_finish.
  - eapply (inv_mono config (S n)); [lia|]. apply inv_currentState; [done|unfold small in *; lia].
  - eapply (inv_mono config (S n)); [lia|]. apply inv_toNewGeneration; [done|unfold small in *; lia].
Qed.

Lemma inv_initial now : inv config 0 (mkSys (NewCircuitBreaker config now) []).
Proof. constructor; simpl; try done; try (by vm_compute). Qed.

Lemma steps_inv l s s' : steps l s s' → ∀ n, inv config n s → small (n + 2 * length l) →
  inv config (n + 2 * length l) s'.
Proof.
  induction 1 as [s|a l s1 s2 s3 Hs Hl IH]; intros n Hi Hn.
  - by rewrite Nat.add_0_r.
  - simpl length in *. replace (n + 2 * S (length l))%nat with (2 + n + 2 * length l)%nat in * by lia.
    apply IH; [|done]. apply (inv_step n a s1); [done|unfold small in *; lia|done].
Qed.

(** * Admissions *)

(** The breaker moves on by at most [k] generations; a new generation has no
    requests yet, and within one the requests stay as they are. *)
Definition moves (k : Z) (cb cb' : CircuitBreaker E) : Prop :=
  generation cb ≤ generation cb' ≤ generation cb + k ∧
  (generation cb' = generation cb → Requests (counts cb') = Requests (counts cb)) ∧
  (generation cb < generation cb' → Requests (counts cb') = 0).

(** The generation can still grow by [k]. *)
Definition room (k : Z) (cb : CircuitBreaker E) : Prop :=
  0 ≤ generation cb ∧ generation cb + k < 2 ^ 64.

Lemma moves_refl k cb : 0 ≤ k → moves k cb cb.
Proof. unfold moves. lia. Qed.

Lemma moves_trans k1 k2 cb1 cb2 cb3 : moves k1 cb1 cb2 → moves k2 cb2 cb3 → moves (k1 + k2) cb1 cb3.
Proof.
  intros (H1&H2&H3) (H4&H5&H6). split; [lia|]. split; intros Hg; [by rewrite H5, H2 by lia|].
  destruct (decide (generation cb2 = generation cb3)) as [He|]; [|apply H6; lia].
  rewrite H5 by done. apply H3. lia.
Qed.

Lemma toNewGeneration_moves cb now : room 1 cb → moves 1 cb (toNewGeneration cb now).
Proof. intros [??]. unfold moves, toNewGeneration. simpl. rewrite wrap_u64_small by lia. lia. Qed.

Lemma setState_moves cb st now : room 1 cb → moves 1 cb (setState cb st now).
Proof.
  intros Hr. unfold setState. case_decide; [apply moves_refl; lia|].
  pose proof (toNewGeneration_moves (set_dynamic cb st (generation cb) (counts cb) (expiry cb)
    (changes cb)) now Hr) as Hm. cbv zeta. by case_match.
Qed.

Lemma currentState_moves cb now : room 1 cb → moves 1 cb (currentState cb now).
Proof.
  intros Hr. unfold currentState. pose proof (moves_refl 1 cb).
  destruct (state cb); repeat case_match; auto using toNewGeneration_moves, setState_moves, moves_refl with lia.
Qed.

Lemma afterRequest_moves cb g ok now : room 2 cb → moves 2 cb (afterRequest cb g ok now).
Proof.
  intros [??]. pose proof (currentState_moves cb now ltac:(unfold room; lia)) as Hm.
  unfold afterRequest. set (cb1 := currentState cb now) in *.
  apply (moves_trans 1 1 _ cb1); [done|]. pose proof Hm as [Hg _].
  case_decide; [apply moves_refl; lia|]. destruct ok; unfold onSuccess, onFailure.
  all: match goal with |- moves _ _ (if ?b then setState ?cb2 ?st ?now else _) =>
    pose proof (setState_moves cb2 st now ltac:(unfold room; simpl; lia));
    destruct b; [done|unfold moves; simpl; lia] end.
Qed.

(** The requests are those admitted, [l] being what the callers did so far. *)
Definition counted (l : list action) (cb : CircuitBreaker E) : Prop :=
  Requests (counts cb) = admitted (generation cb) l ∧ ∀ g, Admit g ∈ l → g ≤ generation cb.

Lemma admitted_snoc g l a : admitted g (l ++ [a]) = admitted g l + if decide (a = Admit g) then 1 else 0.
Proof.
  unfold admitted. rewrite filter_app, length_app, filter_cons, filter_nil.
  case_decide; simpl length; lia.
Qed.

Lemma admitted_none g l : Admit g ∉ l → admitted g l = 0.
Proof.
  intros Hg. unfold admitted. induction l as [|a l IH]; [done|].
  apply not_elem_of_cons in Hg as [Ha Hl]. rewrite filter_cons, decide_False by congruence. auto.
Qed.

Lemma counted_moves k l cb cb' : moves k cb cb' → counted l cb → counted l cb'.
Proof.
  intros (Hg&Hsame&Hnew) [Hr Hl]. split; [|intros g Hin; specialize (Hl g Hin); lia].
  destruct (decide (generation cb' = generation cb)) as [He|Hne]; [by rewrite Hsame, Hr, He|].
  rewrite Hnew, admitted_none by (try (intros ?%Hl); lia). done.
Qed.

Lemma counted_other l a cb : (∀ g, a ≠ Admit g) → counted l cb → counted (l ++ [a]) cb.
Proof.
  intros Ha [Hr Hl]. split; [by rewrite admitted_snoc, decide_False, Z.add_0_r|].
  intros g [Hin|Hin%list_elem_of_singleton]%elem_of_app; [by apply Hl|by destruct (Ha g)].
Qed.

Lemma counted_admit l cb now cb' g :
  room 1 cb → 0 ≤ Requests (counts (currentState cb now)) < 2 ^ 32 - 1 →
  beforeRequest cb now = (cb', Ok g) → counted l cb → counted (l ++ [Admit g]) cb'.
Proof.
  intros Hroom Hb Hr Hc. apply (counted_moves 1 _ _ (currentState cb now)) in Hc as [Hreq Hl];
    [|by apply currentState_moves].
  unfold beforeRequest in Hr. set (cb1 := currentState cb now) in *.
  repeat case_decide; simplify_eq. split; simpl.
  - rewrite wrap_u32_small, admitted_snoc, decide_True by (done || lia). lia.
  - intros g [Hin|Hin%list_elem_of_singleton]%elem_of_app; [by apply Hl|]. by simplify_eq.
Qed.

Lemma rejected_current (cb : CircuitBreaker E) now cb' e :
  beforeRequest cb now = (cb', Err e) → cb' = currentState cb now.
Proof. unfold beforeRequest. repeat case_decide; by intros [=]. Qed.

Lemma counted_step n l a s s' :
  inv config n s → small (S n) → step a s s' → counted l (sys_cb s) → counted (l ++ [a]) (sys_cb s').
Proof.
  intros Hi Hn Hs Hc. pose proof (inv_generation _ _ _ Hi) as Hg. unfold small in Hn.
  destruct Hs as [cb fl now cb' g Hb|cb fl now cb' e Hb|cb fl1 g fl2 ok now|cb fl now|cb fl now];
    simpl in *; [|apply counted_other; [done|]..].
  - apply (counted_admit l cb now); [unfold room; lia| |done|done].
    destruct (inv_currentState n cb fl now Hi ltac:(unfold small; lia)). simpl in *.
    pose proof (current_nonneg (generation (currentState cb now)) fl). lia.
  - apply rejected_current in Hb as ->.
    eapply counted_moves; [|exact Hc]. apply currentState_moves. unfold room. lia.
  - eapply counted_moves; [|exact Hc]. apply afterRequest_moves. unfold room. lia.
  - eapply counted_moves; [|exact Hc]. apply currentState_moves. unfold room. lia.
  - eapply counted_moves; [|exact Hc]. apply toNewGeneration_moves. unfold room. lia.
Qed.

Lemma steps_counted l s s' : steps l s s' → ∀ n l0, inv config n s →
  small (n + 2 * length l) → counted l0 (sys_cb s) → counted (l0 ++ l) (sys_cb s').
Proof.
  induction 1 as [s|a l s1 s2 s3 Hs Hl IH]; intros n l0 Hi Hn Hc; [by rewrite app_nil_r|].
  change (a :: l) with ([a] ++ l). rewrite app_assoc. unfold small in Hn. simpl length in Hn.
  apply (IH (2 + n)%nat); [|unfold small; lia|].
  - apply (inv_step n a s1); [done|unfold small; lia|done].
  - eapply counted_step; [done|unfold small; lia|done..].
Qed.

(** C38: the breaker's accounting. However concurrent callers interleave, up to
    2^31 steps, the requests of the current generation are those that were
    admitted in it, and they are its successes, its failures and those still in
    flight; so a half-open breaker admits at most MaxRequests of them, one by
    default, whatever became of those it admitted, and none succeeded yet; and no
    request in flight belongs to a later generation. *)
Theorem breaker_accounting l now s :
  steps l (mkSys (NewCircuitBreaker config now) []) s → Z.of_nat (length l) < 2 ^ 31 - 1 →
  let cb := sys_cb s in
  Requests (counts cb) = admitted (generation cb) l ∧
  Requests (counts cb) = TotalSuccesses (counts cb) + TotalFailures (counts cb) +
    current (generation cb) (inflight s) ∧
  Forall (λ g, g ≤ generation cb) (inflight s) ∧
  (state cb = StateHalfOpen →
   admitted (generation cb) l ≤
     (if decide (cfg_MaxRequests config = 0) then 1 else cfg_MaxRequests config) ∧
   current (generation cb) (inflight s) ≤ maxRequests cb ∧ TotalSuccesses (counts cb) = 0).
Proof.
  intros Hl Hn.
  destruct (steps_counted l _ s Hl 0 [] (inv_initial now) ltac:(unfold small; lia)) as [Hr _].
  { split; [done|]. by intros g ?%not_elem_of_nil. }
  destruct (steps_inv l _ s Hl 0 (inv_initial now) ltac:(unfold small; lia)).
  split; [done|]. split; [done|]. split; [done|]. intros Hh. destruct (inv_half_open0 Hh).
  split; [|split; [lia|done]]. rewrite <- inv_max0. simpl in Hr. lia.
Qed.

End preservation.
(** * A half-open breaker that cannot recover *)

(** All probes of a half-open breaker are used up, and none is in flight. *)
Definition stuck (s : sys) : Prop :=
  state (sys_cb s) = StateHalfOpen ∧ maxRequests (sys_cb s) ≤ Requests (counts (sys_cb s)) ∧
  current (generation (sys_cb s)) (inflight s) = 0.

Lemma stuck_step a s s' : stuck s → step a s s' → a ≠ DoReset → stuck s' ∧ ∀ g, a ≠ Admit g.
Proof.
  intros (Hh&Hm&Hc) Hs Ha.
  destruct Hs as [cb fl now cb' g Hb|cb fl now cb' e Hb|cb fl1 g fl2 ok now|cb fl now|];
    [| | | |done]; simpl in *.
  - unfold beforeRequest, currentState in Hb. rewrite Hh in Hb.
    rewrite decide_False, decide_True in Hb by (congruence || done). done.
  - unfold beforeRequest, currentState in Hb. rewrite Hh in Hb.
    rewrite decide_False, decide_True in Hb by (congruence || done). by simplify_eq.
  - unfold afterRequest, currentState. rewrite Hh. rewrite current_app, current_cons in Hc.
    pose proof (current_nonneg (generation cb) fl1). pose proof (current_nonneg (generation cb) fl2).
    destruct (decide (g = generation cb)) as [->|Hg]; [lia|].
    rewrite decide_True by done. split; [|done]. split; [done|]. split; [done|].
    simpl. rewrite current_app. lia.
  - unfold GetState, currentState. by rewrite Hh.
Qed.

Definition default_config (name : string) : Config E := mkConfig name 0 0 0 None false None.

(** The breaker of a caller whose function fails at each of the times [ts]. *)
Definition fail_at (e : E) (cb : CircuitBreaker E) (ts : list time) : CircuitBreaker E :=
  foldl (λ cb t, (Execute cb t t (Done (Some e))).1.1) cb ts.

(** C39: a failed probe is final. Once a half-open breaker has used up its probes
    without success, no request is ever admitted again and the breaker stays half
    open, whatever the callers do short of a reset and however much time passes;
    and the default configuration gets there: six failures, the timeout, and one
    failed probe. *)
Theorem failed_probe_sticks :
  (∀ l s s', stuck s → steps l s s' → DoReset ∉ l → (∀ g, Admit g ∉ l) ∧ stuck s') ∧
  (∀ name e, stuck (mkSys (fail_at e (NewCircuitBreaker (default_config name) 1)
     [second; second; second; second; second; second; 62 * second]) [])).
Proof.
  split; [|by intros name e; vm_compute].
  induction l as [|a l IH]; intros s s' Hs Hl Ha; inversion Hl as [|? ? ? s2 ? Hst Hrest]; subst.
  - split; [by intros g ?%not_elem_of_nil|done].
  - destruct (stuck_step _ _ _ Hs Hst) as [Hs2 Hna]; [set_solver|].
    destruct (IH s2 s' Hs2 Hrest) as [??]; [set_solver|].
    split; [|done]. intros g [?|?]%elem_of_cons; [by destruct (Hna g)|by destruct (H g)].
Qed.

Lemma open_rejects (cb : CircuitBreaker E) t1 t2 fn :
  state cb = StateOpen → t1 ≤ expiry cb →
  Execute cb t1 t2 fn = (cb, false, Done (Some (ErrOpen (name cb)))).
Proof.
  intros Ho Ht. unfold Execute, beforeRequest, currentState. rewrite Ho.
  rewrite (proj2 (Z.ltb_ge _ _)) by done. by rewrite decide_True.
Qed.

(** Six failures in a row open a default breaker. After at most five failed
    calls a new default breaker is closed and has counted each; after the sixth
    it is open until sixty seconds later, and until then rejects every call
    without running it. *)
Theorem default_breaker_opens_after_six name e now ts :
  let cb := fail_at e (NewCircuitBreaker (default_config name) now) ts in
  ((length ts ≤ 5)%nat → state cb = StateClosed ∧
     ConsecutiveFailures (counts cb) = Z.of_nat (length ts)) ∧
  (length ts = 6%nat → state cb = StateOpen ∧
     ∃ t, last ts = Some t ∧ expiry cb = t + 60 * second ∧
     ∀ t1 t2 fn, t1 ≤ t + 60 * second →
       Execute cb t1 t2 fn = (cb, false, Done (Some (ErrOpen name)))).
Proof.
  intros cb. subst cb. split.
  - intros Hlen. do 6 (destruct ts as [|? ts]; [by vm_compute|]). simpl in Hlen. lia.
  - intros Hlen. do 6 (destruct ts as [|? ts]; [done|]). destruct ts; [|done]. split; [done|].
    eexists. split; [done|]. split; [done|]. intros t1 t2 fn Ht. by apply open_rejects.
Qed.

(** [Reset] does not close the breaker. It starts a new generation with zero
    counts in the state the breaker is in; an open breaker then rejects calls for
    another whole timeout. *)
Theorem reset_keeps_state (cb : CircuitBreaker E) now :
  state (Reset cb now) = state cb ∧ counts (Reset cb now) = no_counts ∧
  (state cb = StateOpen → ∀ t, t ≤ now + timeout cb →
   beforeRequest (Reset cb now) t = (Reset cb now, Err (ErrOpen (name cb)))).
Proof.
  split; [done|]. split; [done|]. intros Ho t Ht.
  assert (state (Reset cb now) = StateOpen) as Hs by done.
  assert (expiry (Reset cb now) = now + timeout cb) as Hx by (simpl; by rewrite Ho).
  unfold beforeRequest, currentState. rewrite Hs, Hx, (proj2 (Z.ltb_ge _ _)) by done.
  by rewrite decide_True.
Qed.

End breaker_spec.
