(* ===== verification/LabErrorsSpec.v ===== *)
(** What the structured errors promise: every error that the builder makes is well
    formed, an error is either retried or returned and never both, which errors of
    the Kubernetes API are retried, what happens to a wrapped error, and what the
    metrics count. *)
From S2P Require Import Prelude GoStrings Kube Reconciler LabErrors.

Section spec.
Context `{K : KubeLib} {any : Type} (any_string : string → any).

(** * The builder *)

(** A call of the builder. *)
Inductive builder_call :=
| BUnderlying (err : option (go_error any))
| BSession (namespace sessionID userID : string)
| BOperation (operation : string)
| BRetryAfter (d : duration)
| BContext (key : string) (value : any)
| BContextMap (ctx : gmap string any).

Definition builder_apply (c : builder_call) (e : LabSessionError any) : outcome (LabSessionError any) :=
  match c with
  | BUnderlying err => Done (WithUnderlying err e)
  | BSession ns s u => Done (WithSession ns s u e)
  | BOperation o => Done (WithOperation o e)
  | BRetryAfter d => Done (WithRetryAfter d e)
  | BContext k v => WithContext k v e
  | BContextMap m => WithContextMap m e
  end.

Fixpoint builder_run (cs : list builder_call) (e : LabSessionError any) : outcome (LabSessionError any) :=
  match cs with
  | [] => Done e
  | c :: cs => e ← builder_apply c e; builder_run cs e
  end.

(** The delay that the calls set last; what they write into the context. *)
Fixpoint calls_delay (cs : list builder_call) (d : option duration) : option duration :=
  match cs with
  | [] => d
  | BRetryAfter d :: cs => calls_delay cs (Some d)
  | _ :: cs => calls_delay cs d
  end.
Fixpoint calls_context (cs : list builder_call) (m : gmap string any) : gmap string any :=
  match cs with
  | [] => m
  | BContext k v :: cs => calls_context cs (<[k := v]> m)
  | BContextMap m' :: cs => calls_context cs (m' ∪ m)
  | _ :: cs => calls_context cs m
  end.

(** What every error under construction satisfies. *)
Record well_formed (now : time) (t m : string) (d : option duration) (ctx : gmap string any)
    (e : LabSessionError any) : Prop := {
  wf_Type : le_Type e = t;
  wf_Message : le_Message e = m;
  wf_Timestamp : le_Timestamp e = now;
  wf_Context : le_Context e = Some ctx;
  wf_RetryAfter : le_RetryAfter e = default 0 d;
  wf_Retryable : IsRetryable e = isRetryableType t || bool_decide (is_Some d)
}.

Lemma builder_apply_wf c now t m d ctx e :
  well_formed now t m d ctx e →
  ∃ e', builder_apply c e = Done e' ∧
    well_formed now t m (calls_delay [c] d) (calls_context [c] ctx) e'.
Proof.
  intros [????? Hr]. destruct c; simpl; try by (eexists; split; [done|split]).
  - eexists. split; [done|]. split; try done. by rewrite orb_true_r.
  - unfold WithContext. rewrite wf_Context0. eexists. split; [done|]. by split.
  - unfold WithContextMap. case_decide; subst.
    + eexists. split; [done|]. rewrite (left_id_L ∅ (∪)). by split.
    + rewrite wf_Context0. eexists. split; [done|]. by split.
Qed.

Lemma builder_run_wf cs : ∀ now t m d ctx e,
  well_formed now t m d ctx e →
  ∃ e', builder_run cs e = Done e' ∧
    well_formed now t m (calls_delay cs d) (calls_context cs ctx) e'.
Proof.
  induction cs as [|c cs IH]; intros now t m d ctx e Hwf; [by exists e|].
  destruct (builder_apply_wf c _ _ _ _ _ _ Hwf) as (e1&He1&Hwf1).
  destruct (IH _ _ _ _ _ _ Hwf1) as (e2&He2&Hwf2). exists e2. simpl. rewrite He1. simpl.
  split; [done|]. by destruct c.
Qed.

Lemma GetRetryAfter_pos (e : LabSessionError any) : 0 < GetRetryAfter e.
Proof. unfold GetRetryAfter. destruct (Z.ltb_spec 0 (le_RetryAfter e)); unfold second; lia. Qed.

(** C32: every error that the builder makes is well formed. Whatever calls follow
    [NewError], none panics; the error keeps its type, message and time, has a
    context that holds the last value written under each key, is retryable exactly
    when its type is or a delay was set, and always names a positive delay, the
    last one set if that is positive. *)
Theorem built_errors_are_well_formed now t m cs :
  ∃ e, builder_run cs (NewError now t m) = Done e ∧
    le_Type e = t ∧ le_Message e = m ∧ le_Timestamp e = now ∧
    GetContext e = calls_context cs ∅ ∧
    IsRetryable e = isRetryableType t || bool_decide (is_Some (calls_delay cs None)) ∧
    0 < GetRetryAfter e ∧
    (∀ d, calls_delay cs None = Some d → 0 < d → GetRetryAfter e = d).
Proof.
  destruct (builder_run_wf cs now t m None ∅ (NewError now t m)) as (e&He&[]).
  { split; simpl; try done. by rewrite orb_false_r. }
  exists e. split; [done|]. split; [done|]. split; [done|]. split; [done|].
  split; [unfold GetContext; by rewrite wf_Context0|]. split; [done|].
  split; [apply GetRetryAfter_pos|]. intros d Hd Hpos. unfold GetRetryAfter.
  rewrite wf_RetryAfter0, Hd. simpl. by rewrite (proj2 (Z.ltb_lt _ _)).
Qed.

(** * Decisions *)

Definition is_lab (e : go_error any) : bool := match e with GLab _ => true | _ => false end.

(** An error of the API that no retry can help. *)
Definition permanent (e : go_error any) : bool :=
  let has p := go_api_error p e in
  has api_IsNotFound || has api_IsAlreadyExists || has api_IsUnauthorized || has api_IsForbidden ||
  ((has api_IsInvalid || has api_IsBadRequest) &&
   negb (has api_IsConflict || has api_IsServerTimeout || has api_IsTimeout || has api_IsTooManyRequests)).

Definition classify_delays : list duration := [5 * second; 10 * second; 30 * second; 60 * second].

Lemma classify_spec now (e : go_error any) :
  let c := classify_error now e in
  IsRetryable c = negb (permanent e) ∧ le_Underlying c = Some e ∧
  le_Type c ≠ ErrorTypeCritical ∧
  (permanent e = false → GetRetryAfter c ∈ classify_delays).
Proof.
  unfold classify_error, permanent.
  repeat (match goal with |- context [go_api_error ?p e] => destruct (go_api_error p e) end; simpl).
  all: split; [vm_compute; reflexivity|]; split; [done|]; split; [by vm_compute|].
  all: intros; try done.
  all: unfold classify_delays, GetRetryAfter; simpl; set_solver.
Qed.

Lemma ReconcileResult_decide now e :
  ReconcileResult now (Some (GLab e)) = decide_result (any:=any) e.
Proof. done. Qed.

(** C31: an error is retried or returned, never both. For every error, Handle
    answers what ReconcileResult does of it; the answer is either a requeue after
    a positive delay and no error, or an error that is not retryable and no
    requeue. An error that is not one of the package's is returned exactly when no
    retry can help: not found, already existing, not allowed, or invalid and not
    in conflict, timed out or throttled; otherwise it is retried in 5 to 60
    seconds. *)
Theorem error_decision eh now (err : go_error any) attempt :
  (Handle eh now (Some err) attempt).2 = ReconcileResult now (Some err) ∧
  ((∃ d, 0 < d ∧ ReconcileResult now (Some err) = (requeue_after d, None)) ∨
   (∃ e, IsRetryable e = false ∧ ReconcileResult now (Some err) = (no_requeue, Some (GLab e)))) ∧
  (is_lab err = false →
     if permanent err
     then ReconcileResult now (Some err) = (no_requeue, Some (GLab (classify_error now err)))
     else ∃ d, d ∈ classify_delays ∧ ReconcileResult now (Some err) = (requeue_after d, None)).
Proof.
  assert (∀ e, (∃ d, 0 < d ∧ decide_result (any:=any) e = (requeue_after d, None)) ∨
    (∃ e', IsRetryable e' = false ∧ decide_result e = (no_requeue, Some (GLab e')))) as Hd.
  { intros e. unfold decide_result. destruct (IsRetryable e) eqn:He.
    - left. exists (GetRetryAfter e). split; [apply GetRetryAfter_pos|done].
    - right. eauto. }
  split; [by destruct err|]. split; [destruct err; apply Hd|].
  intros Hl. replace (ReconcileResult now (Some err)) with (decide_result (classify_error now err))
    by (by destruct err).
  destruct (classify_spec now err) as (Hr&_&_&Hdel). unfold decide_result. rewrite Hr.
  destruct (permanent err); simpl; [done|]. eauto.
Qed.

(** C33: a wrapped error loses its decision. An error of the package that is wrapped
    once is handled by the API error beneath it alone, whatever its own type,
    retryability and delay: no critical callback ever runs; with an API error
    beneath it that no retry can help, the wrapped error is classified anew and
    returned; else it is retried after the delay of that class, with the retry
    callback getting the new error, and when there is no API error beneath it that is
    the class of unknown API errors and thirty seconds. Unwrapped, a critical error
    that is not retryable runs the callback and is returned. *)
Theorem wrapped_error_loses_decision eh now m (e : LabSessionError any) attempt :
  let classified := classify_error now (GWrap m (GLab e)) in
  Handle eh now (Some (GWrap m (GLab e))) attempt =
    (if permanent (GLab e) then ([], (no_requeue, Some (GLab classified)))
     else (if eh_onRetry eh then [CalledRetry classified attempt] else [],
           (requeue_after (GetRetryAfter classified), None))) ∧
  le_Type classified ≠ ErrorTypeCritical ∧
  (permanent (GLab e) = false → GetRetryAfter classified ∈ classify_delays) ∧
  ((∀ p, go_api_error p (GLab e) = false) →
   permanent (GLab e) = false ∧ GetRetryAfter classified = 30 * second) ∧
  (le_Type e = ErrorTypeCritical → IsRetryable e = false → eh_onCritical eh = true →
   Handle eh now (Some (GLab e)) attempt = ([CalledCritical e], (no_requeue, Some (GLab e)))).
Proof.
  intros classified. destruct (classify_spec now (GWrap m (GLab e))) as (Hr&_&Ht&Hd).
  change (permanent (GWrap m (GLab e))) with (permanent (GLab e)) in *. fold classified in Hr, Ht, Hd.
  split; [|split; [done|split; [done|split]]].
  - unfold Handle, ReconcileResult, decide_result. fold classified.
    rewrite bool_decide_false, Hr by done. by destruct (permanent (GLab e)).
  - intros Hp. unfold permanent. rewrite !Hp. split; [done|]. unfold classified, classify_error.
    change (go_api_error ?p (GWrap m (GLab e))) with (go_api_error p (GLab e)). by rewrite !Hp.
  - intros Hc Hn Ho. unfold Handle. rewrite bool_decide_true, Hn, Ho by done. simpl.
    unfold decide_result. by rewrite Hn.
Qed.

(** * Metrics *)

Definition record_all (es : list (time * LabSessionError any)) : ErrorMetrics :=
  foldl (λ em x, RecordError x.1 x.2 em) NewErrorMetrics es.

(** How many recorded errors satisfy [p]. *)
Definition count_errors (p : LabSessionError any → bool) (es : list (time * LabSessionError any))
    : Z := Z.of_nat (length (filter (λ x, p x.2 = true) es)).
Definition has_type (t : string) (e : LabSessionError any) : bool := bool_decide (le_Type e = t).

Lemma count_errors_snoc p es x :
  count_errors p (es ++ [x]) = count_errors p es + (if p x.2 then 1 else 0).
Proof.
  unfold count_errors. rewrite filter_app, length_app. unfold filter at 2; simpl.
  destruct (p x.2) eqn:Hp.
  - rewrite decide_True by done. simpl. lia.
  - rewrite decide_False by congruence. simpl. lia.
Qed.

Lemma count_errors_range p es : 0 ≤ count_errors p es ≤ Z.of_nat (length es).
Proof. unfold count_errors. pose proof (length_filter (λ x, p x.2 = true) es). lia. Qed.

Lemma wrap64_count p es x : Z.of_nat (length (es ++ [x])) ≤ max_int64 →
  wrap64 (count_errors p es + 1) = count_errors p es + 1.
Proof.
  rewrite length_app. simpl. intros Hl. pose proof (count_errors_range p es).
  apply wrap64_small. unfold in_int64, min_int64, max_int64 in *. lia.
Qed.

(** The metrics count the errors. After any sequence of fewer than 2^63
    recorded errors, starting from new metrics: the counter of each type is the
    number of errors of that type, and a type that never occurred has none; the
    retry and critical counters are the numbers of retryable and of critical
    errors, the latter the same as the counter of its type; and the last error
    time is that of the last error. *)
Theorem metrics_count_errors es :
  Z.of_nat (length es) ≤ max_int64 →
  (∀ t, em_errorCounts (record_all es) !! t =
     if decide (count_errors (has_type t) es = 0) then None
     else Some (count_errors (has_type t) es)) ∧
  em_retryCount (record_all es) = count_errors IsRetryable es ∧
  em_criticalCount (record_all es) = count_errors (has_type ErrorTypeCritical) es ∧
  em_lastErrorTime (record_all es) = default 0 (fst <$> last es).
Proof.
  induction es as [|x es IH] using rev_ind; intros Hl; [by repeat split|].
  destruct IH as (Ht&Hr&Hc&_); [rewrite length_app in Hl; simpl in Hl; lia|].
  unfold record_all. rewrite foldl_app. fold (record_all es). simpl.
  split; [|split; [|split]].
  - intros t. rewrite count_errors_snoc. pose proof (count_errors_range (has_type t) es).
    destruct (has_type t x.2) eqn:Hx.
    + apply bool_decide_eq_true in Hx as <-. rewrite lookup_insert_eq, Ht.
      rewrite (decide_False (P := _ + 1 = 0)) by lia. f_equal.
      rewrite <- (wrap64_count _ es x) by done. case_decide as Hz; simpl; [by rewrite Hz|done].
    + apply bool_decide_eq_false in Hx. rewrite lookup_insert_ne by done.
      by rewrite Ht, Z.add_0_r.
  - rewrite count_errors_snoc, Hr. destruct (IsRetryable x.2); [by apply (wrap64_count _ es x)|lia].
  - rewrite count_errors_snoc, Hc. destruct (has_type ErrorTypeCritical x.2) eqn:Hx.
    + apply bool_decide_eq_true in Hx. rewrite decide_True by done. by apply (wrap64_count _ es x).
    + apply bool_decide_eq_false in Hx. rewrite decide_False by done. lia.
  - by rewrite last_snoc.
Qed.

End spec.
