(* ===== verification/LegacySpec.v ===== *)
(** What the older controller ([controllers/], Legacy.v) does: retries are bounded
    and back off, the limits of a pod are capped, Running is written only for a
    running pod, and the finalizer is taken away only when the session's pod and
    service are gone. *)
From S2P Require Import Prelude GoStrings Kube KubeTypes Types Unstructured PodSettings.
From S2P Require Import ResourceBuilder Events Effects SSHKeys Reconciler Legacy.

Section logic.
Context `{K : KubeLib} (R : event → Prop) (G : list event → op → Prop).

Lemma wp_call_bind {B} o (f : resp o → prog B) Q h :
  G h o → (∀ x, R (Ev o x) → wp R G (f x) Q (h ++ [Ev o x])) → wp R G (call o ≫= f) Q h.
Proof. done. Qed.

(** Continues after a part whose outcome does not matter. *)
Lemma wp_then {A B} (p : prog A) (f : A → prog B) (P : list event → Prop) Q h :
  wp R G p (λ h' out, P h' ∧ ∃ a, out = Done a) h →
  (∀ a h', P h' → wp R G (f a) Q h') → wp R G (p ≫= f) Q h.
Proof.
  intros Hp Hf. apply wp_bind. eapply wp_mono; [|exact Hp]. intros h' out [HP [a ->]].
  simpl. auto.
Qed.
End logic.

(** One step of a handler of this controller. *)
Ltac call_step := apply wp_call_bind; [|intros ? ?].

Section spec.
Context `{K : KubeLib, KL : !KubeLaws K, U : UnstructuredLib, UL : !UnstructuredLaws U}.
Context (int64_out_of_range : Z → Z) (Format_RFC3339 : time → string).

Abbreviation delay := (calculateRetryDelay int64_out_of_range).

(** * Backoff *)

Definition base_delay (r : LabSessionReconciler) : duration :=
  if l_BaseRetryDelay r =? 0 then BaseRetryInterval else l_BaseRetryDelay r.

Lemma float64_exact z : Z.abs z < 2 ^ 53 → float64_of_int64 z = z.
Proof. intros Hz. unfold float64_of_int64. by rewrite (proj2 (Z.ltb_lt (Z.abs z) (2 ^ 53))). Qed.

Lemma int64_exact z : in_int64 z → int64_of_float64 int64_out_of_range z = z.
Proof.
  intros [Hl Hu]. unfold int64_of_float64.
  by rewrite (proj2 (Z.leb_le min_int64 z)), (proj2 (Z.leb_le z max_int64)).
Qed.

Lemma calculateRetryDelay_spec r a :
  0 < base_delay r < 2 ^ 53 → 1 ≤ a ≤ 10 →
  delay r a = Z.min (60 * second) (base_delay r * 2 ^ (a - 1)).
Proof.
  intros Hb Ha. unfold calculateRetryDelay. fold (base_delay r).
  rewrite (proj2 (Z.leb_gt a 0)) by lia. rewrite float64_exact by lia.
  assert (0 < 2 ^ (a - 1) ≤ 2 ^ 9) as Hp.
  { split; [apply Z.pow_pos_nonneg; lia|apply Z.pow_le_mono_r; lia]. }
  rewrite int64_exact.
  - destruct (Z.ltb_spec (60 * second) (base_delay r * 2 ^ (a - 1))); lia.
  - unfold in_int64, min_int64, max_int64.
    assert (base_delay r * 2 ^ (a - 1) ≤ 2 ^ 53 * 2 ^ 9) by nia. lia.
Qed.

(** The pauses in a run, and its reads of the session. *)
Definition pause (e : event) : option duration :=
  match ev_op e with Sleep d => Some d | _ => None end.
Definition pauses (tr : list event) : list duration := omap pause tr.
Definition is_read_of (ns n : string) (e : event) : bool :=
  match ev_op e with GetUnstructured a b => bool_decide (a = ns ∧ b = n) | _ => false end.

Definition reads (ns n : string) (tr : list event) : list event := List.filter (is_read_of ns n) tr.

(** The pauses between the attempts from [a] on, when there are [n] of them. *)
Definition backoff (r : LabSessionReconciler) (a : Z) (n : nat) : list duration :=
  (λ i, delay r (a + Z.of_nat i + 1)) <$> seq 0 n.

Lemma backoff_S r a n : backoff r a (S n) = delay r (a + 1) :: backoff r (a + 1) n.
Proof.
  unfold backoff. simpl. f_equal; [f_equal; lia|]. rewrite <- seq_shift, <- list_fmap_compose.
  apply list_fmap_ext. intros i x _. simpl. f_equal. lia.
Qed.

(** What the loop of [getWithRetry] does: at most [more] retries, each after the
    next pause; no error if the last read had none, the error itself if it was
    not found, and an error that wraps the last one otherwise. *)
Lemma getWithRetry_loop_exec r ns n more : ∀ a tr out,
  exec (getWithRetry_loop int64_out_of_range r ns n more a) tr out →
  ∃ k x, (k ≤ more)%nat ∧ last tr = Some (Ev (GetUnstructured ns n) x) ∧
    length (reads ns n tr) = S k ∧ length tr = (2 * k + 1)%nat ∧
    pauses tr = backoff r a k ∧
    match x with
    | Ok u => out = Done (Ok u)
    | Err e => if IsNotFound e then out = Done (Err e) else k = more ∧
        out = Done (Err (EWrap ("failed after " +:+ Itoa (a + Z.of_nat more + 1) +:+ " attempts") e))
    end.
Proof.
  assert (∀ x tr, reads ns n (Ev (GetUnstructured ns n) x :: tr) =
    Ev (GetUnstructured ns n) x :: reads ns n tr) as Hone.
  { intros x tr. unfold reads. simpl. unfold is_read_of at 1. simpl.
    by rewrite (bool_decide_true (ns = ns ∧ n = n)). }
  induction more as [|more IH]; intros a tr out He; simpl in He;
    apply exec_inv in He as (x&tr'&->&He).
  - exists 0%nat, x. destruct x as [u|e]; simpl in He; [|destruct (IsNotFound e) eqn:Hn];
      apply exec_inv in He as [-> ->]; rewrite Hone, ?Hn; simpl; auto 10.
    split; [lia|]. rewrite Z.add_0_r. auto 10.
  - destruct x as [u|e]; simpl in He; [|destruct (IsNotFound e) eqn:Hn].
    + exists 0%nat, (Ok u). apply exec_inv in He as [-> ->]. rewrite Hone.
      split; [lia|]. auto 10.
    + exists 0%nat, (Err e). apply exec_inv in He as [-> ->]. rewrite Hone, Hn.
      split; [lia|]. auto 10.
    + apply exec_inv in He as (y&tr2&->&He). apply IH in He as (k&x&Hk&Hl&Hf&Hlen&Hp&Hx).
      exists (S k), x. split; [lia|]. split; [by rewrite !last_cons, Hl|].
      split; [|split; [simpl; lia|split]].
      * rewrite Hone. simpl. by rewrite <- Hf.
      * by rewrite backoff_S, <- Hp.
      * destruct x as [u|e']; [done|]. destruct (IsNotFound e'); [done|].
        destruct Hx as [-> ->]. split; [done|].
        by replace (a + Z.of_nat (S more) + 1) with (a + 1 + Z.of_nat more + 1) by lia.
Qed.

(** C27: reads back off. A session is read at most five times, with a pause before
    each new attempt that doubles from the base delay and is capped at a minute;
    with the default of two seconds this takes at most thirty seconds. The pause
    before attempt k + 1 is base * 2^(k - 1) without jitter, where the comment in
    [calculateRetryDelay] says base * 2^k with jitter. An error "not found" is
    returned at once; any other error only after the fifth attempt, wrapped. *)
Theorem get_retries_back_off r ns n tr out :
  0 < base_delay r < 2 ^ 53 →
  exec (getWithRetry int64_out_of_range r ns n) tr out →
  ∃ k x, (k ≤ 4)%nat ∧ length (reads ns n tr) = S k ∧ length tr = (2 * k + 1)%nat ∧
    pauses tr = take k ((λ i, Z.min (60 * second) (base_delay r * 2 ^ i)) <$> [0; 1; 2; 3]) ∧
    (base_delay r = BaseRetryInterval → foldr Z.add 0 (pauses tr) ≤ 30 * second) ∧
    last tr = Some (Ev (GetUnstructured ns n) x) ∧
    match x with
    | Ok u => out = Done (Ok u)
    | Err e => if IsNotFound e then out = Done (Err e)
               else k = 4%nat ∧ out = Done (Err (EWrap "failed after 5 attempts" e))
    end.
Proof.
  intros Hb He. apply getWithRetry_loop_exec in He as (k&x&Hk&Hl&Hr&Hlen&Hp&Hx).
  assert (pauses tr = take k ((λ i, Z.min (60 * second) (base_delay r * 2 ^ i)) <$> [0; 1; 2; 3]))
    as Hpause.
  { rewrite Hp. unfold backoff. simpl in Hk.
    destruct k as [|[|[|[|[|k]]]]]; [..|lia]; simpl;
      rewrite ?calculateRetryDelay_spec by (first [done|lia]); done. }
  exists k, x. split; [done|]. split; [done|]. split; [done|]. split; [done|].
  split; [|split; [done|by destruct x]].
  intros Hd. rewrite Hpause, Hd. simpl in Hk.
  by destruct k as [|[|[|[|[|k]]]]]; [..|lia]; vm_compute.
Qed.

(** * Limits *)

(** C26: the limits of a pod are capped. Whatever a session's spec asks for, the
    amounts that [extractResourceLimits] answers are quantities, of memory at most
    16Gi and of CPUs at most 8; a request within the cap is passed on as it is. *)
Theorem limits_are_capped spec :
  (∃ q, ParseQuantity (rl_Memory (extractResourceLimits spec)) = Ok q ∧
        nano q ≤ 16 * 2 ^ 30 * 10 ^ 9) ∧
  (∃ q, ParseQuantity (rl_CPU (extractResourceLimits spec)) = Ok q ∧ nano q ≤ 8 * 10 ^ 9) ∧
  (∀ m s q, spec !! "resources" = Some (JObject m) → m !! "memory" = Some (JString s) →
     ParseQuantity s = Ok q → nano q ≤ 16 * 2 ^ 30 * 10 ^ 9 →
     rl_Memory (extractResourceLimits spec) = s).
Proof.
  destruct (parse_Gi 16 ltac:(lia)) as (q16&H16&N16).
  destruct (parse_Gi 4 ltac:(lia)) as (q4&H4&N4).
  destruct (parse_plain 8 ltac:(lia)) as (q8&H8&N8).
  destruct (parse_plain 2 ltac:(lia)) as (q2&H2&N2).
  change (pretty 16 +:+ "Gi") with MaxMemoryLimit in H16.
  change (pretty 4 +:+ "Gi") with DefaultMemoryLimit in H4.
  change (pretty 8) with MaxCPULimit in H8. change (pretty 2) with DefaultCPULimit in H2.
  assert (∀ s mx qm t qd, ParseQuantity mx = Ok qm → nano qd ≤ nano qm →
    ParseQuantity (if decide (t = "memory") then DefaultMemoryLimit else DefaultCPULimit) = Ok qd →
    ∃ q, ParseQuantity (enforceResourceLimits s mx t) = Ok q ∧ nano q ≤ nano qm) as Hcap.
  { intros s mx qm t qd Hm Hle Hd. unfold enforceResourceLimits.
    destruct (ParseQuantity s) as [q|] eqn:Hs; [|eauto]. rewrite Hm, Cmp_spec.
    destruct (Z.ltb_spec 0 (Z.sgn (nano q - nano qm))); [by exists qm|]. exists q.
    split; [done|]. destruct (Z.sgn_spec (nano q - nano qm)); lia. }
  split; [|split].
  - rewrite <- N16. apply (Hcap _ _ q16 _ q4); [done|lia|done].
  - rewrite <- N8. apply (Hcap _ _ q8 _ q2); [done|lia|done].
  - intros m s q Hres Hmem Hs Hq. unfold extractResourceLimits, getStringFromMap. simpl.
    rewrite Hres. simpl. rewrite Hmem. simpl. unfold enforceResourceLimits.
    rewrite Hs, H16, Cmp_spec. destruct (Z.ltb_spec 0 (Z.sgn (nano q - nano q16))); [|done].
    destruct (Z.sgn_spec (nano q - nano q16)); lia.
Qed.

(** * Status writes *)

(** The status of an object is [st]. *)
Definition has_status (u : Unstructured) (st : json_map) : Prop :=
  u_Object u !! "status" = Some (JObject st).

(** The calls of a status update. *)
Definition status_call (e : event) : Prop :=
  match ev_op e with
  | GetUnstructured _ _ | UpdateUnstructuredStatus _ | Now | Sleep _ => True
  | _ => False
  end.

Definition only_status_calls (h h' : list event) : Prop :=
  ∃ tl, h' = h ++ tl ∧ Forall status_call tl.

#[local] Instance only_status_calls_preorder : PreOrder only_status_calls.
Proof.
  split.
  - intros h. exists []. by rewrite app_nil_r.
  - intros h1 h2 h3 (t1&->&H1) (t2&->&H2). exists (t1 ++ t2).
    rewrite app_assoc. split; [done|]. by apply Forall_app.
Qed.

Lemma only_status_snoc h e : status_call e → only_status_calls h (h ++ [e]).
Proof. intros He. exists [e]. by split; [|constructor]. Qed.

Lemma only_status_elem h h' e : only_status_calls h h' → e ∈ h' → ¬ status_call e → e ∈ h.
Proof.
  intros (tl&->&Htl) [He|He]%elem_of_app Hs; [done|]. by apply (proj1 (Forall_forall _ _) Htl) in He.
Qed.

Lemma only_status_prefix h h' e : only_status_calls h h' → e ∈ h → e ∈ h'.
Proof. intros (tl&->&_) He. apply elem_of_app. by left. Qed.

Lemma copy_status_has obj fresh st : has_status obj st → has_status (copy_status obj fresh) st.
Proof.
  unfold has_status, copy_status. intros Hs. pose proof (NestedMap_spec (u_Object obj) "status") as HN.
  rewrite Hs in HN. rewrite HN. simpl. by rewrite SetNestedMap_spec, lookup_insert_eq.
Qed.

Section status.
Context (R : event → Prop) (G : list event → op → Prop).
Context (G_get : ∀ h ns n, G h (GetUnstructured ns n)).
Context (G_now : ∀ h, G h Now) (G_sleep : ∀ h d, G h (Sleep d)).

(** The end of a status update: only its calls were made. *)
Definition status_post {A} (h : list event) : list event → outcome A → Prop :=
  λ h' out, only_status_calls h h' ∧ ∃ a, out = Done a.

Lemma wp_updateStatusWithRetry r st more : ∀ obj a h,
  has_status obj st →
  (∀ h' u, only_status_calls h h' → has_status u st → G h' (UpdateUnstructuredStatus u)) →
  wp R G (updateStatusWithRetry_loop int64_out_of_range r obj more a) (status_post h) h.
Proof.
  induction more as [|more IH]; intros obj a h Hst HG; cbn [updateStatusWithRetry_loop].
  - call_step; [by apply HG|]. destruct x as [u|e].
    { split; [by apply only_status_snoc|eauto]. }
    apply wp_bind. destruct (IsConflict e).
    + call_step; [auto|]. simpl. split; [|eauto].
      by etrans; [apply only_status_snoc|apply only_status_snoc].
    + split; [by apply only_status_snoc|eauto].
  - call_step; [by apply HG|]. destruct x as [u|e].
    { split; [by apply only_status_snoc|eauto]. }
    assert (∀ obj' h1, has_status obj' st → only_status_calls h h1 →
      wp R G (_ ← call (Sleep (delay r (a + 1)));
        updateStatusWithRetry_loop int64_out_of_range r obj' more (a + 1)) (status_post h) h1) as Hnext.
    { intros obj' h1 Hst' Hh1. call_step; [auto|].
      assert (only_status_calls h (h1 ++ [Ev (Sleep (delay r (a + 1))) x])) as Hh2.
      { etrans; [done|by apply only_status_snoc]. }
      eapply wp_mono; [|apply IH; [done|]].
      - intros h2 out [Hh Ho]. split; [by etrans|done].
      - intros h2 u Hh. apply HG. by etrans. }
    apply wp_bind. destruct (IsConflict e).
    + call_step; [auto|]. simpl. apply Hnext.
      * destruct x as [fresh|]; [by apply copy_status_has|done].
      * by etrans; [apply only_status_snoc|apply only_status_snoc].
    + simpl. apply Hnext; [done|by apply only_status_snoc].
Qed.

(** The status that [updateStatus] writes. *)
Definition written_status (st extra : json_map) (phase message : string) : Prop :=
  ∃ now, st = extra ∪ <["phase" := JString phase]> (<["message" := JString message]>
    {[ "lastUpdateTime" := JString (Format_RFC3339 now) ]}).

Lemma wp_updateStatus r s phase message extra h :
  (∀ h' u st, only_status_calls h h' → has_status u st →
     written_status st extra phase message → G h' (UpdateUnstructuredStatus u)) →
  wp R G (updateStatus int64_out_of_range Format_RFC3339 r s phase message extra)
    (status_post h) h.
Proof.
  intros HG. unfold updateStatus. call_step; [auto|]. destruct x as [fresh|e].
  - call_step; [auto|]. eapply wp_mono; [|eapply wp_updateStatusWithRetry].
    + intros h' out [Hh Ho]. split; [|done]. etrans; [|exact Hh].
      by etrans; [apply only_status_snoc|apply only_status_snoc].
    + unfold has_status. simpl. by rewrite SetNestedMap_spec, lookup_insert_eq.
    + intros h' u Hh Hu. eapply HG; [|exact Hu|by eexists]. etrans; [|exact Hh].
      by etrans; [apply only_status_snoc|apply only_status_snoc].
  - split; [by apply only_status_snoc|eauto].
Qed.
End status.

(** * The guard of a reconciliation *)

Definition l_finalized (s : Unstructured) : bool :=
  ContainsFinalizer (meta_Finalizers (u_Meta s)) LabSessionFinalizer.
Definition l_deleting (s : Unstructured) : bool :=
  match meta_DeletionTimestamp (u_Meta s) with Some _ => true | None => false end.
Definition l_sessionID (s : Unstructured) : string :=
  getNestedString (u_Object s) ["spec"; "sessionId"].

Definition protected (s : Unstructured) : Unstructured :=
  set_u_Finalizers (AddFinalizer (meta_Finalizers (u_Meta s)) LabSessionFinalizer) s.
Definition released (s : Unstructured) : Unstructured :=
  set_u_Finalizers (RemoveFinalizer (meta_Finalizers (u_Meta s)) LabSessionFinalizer) s.

(** The object of kind [k] was read, and not found. *)
Definition read_gone (k : Kind) (ns n : string) (h : list event) : Prop :=
  ∃ e, Ev (Get k ns n) (Err e) ∈ h ∧ IsNotFound e = true.

(** The session's pod and service are gone. *)
Definition resources_gone (s : Unstructured) (h : list event) : Prop :=
  l_sessionID s ≠ "" →
  read_gone KPod (u_Namespace s) ("lab-session-" +:+ l_sessionID s) h ∧
  read_gone KService (u_Namespace s) ("lab-service-" +:+ l_sessionID s) h.

(** The pod was read or created in this run. *)
Definition pod_answered (h : list event) (pod : Pod) : Prop :=
  (∃ ns n, Ev (Get KPod ns n) (Ok pod) ∈ h) ∨ (∃ p, Ev (Create KPod p) (Ok pod) ∈ h).

(** A status that may be written for a session that is not being deleted. *)
Definition live_status (st : json_map) (h : list event) : Prop :=
  ∃ p, st !! "phase" = Some (JString p) ∧ p ∈ ["Creating"; "Failed"; "Running"] ∧
    (p = "Running" → ∃ pod, pod_answered h pod ∧ ps_Phase (pod_Status pod) = PodRunning ∧
       st !! "podName" = Some (JString (meta_Name (pod_Meta pod))) ∧
       st !! "podIP" = Some (JString (ps_PodIP (pod_Status pod)))).

Definition working_guard (s : Unstructured) (h : list event) (o : op) : Prop :=
  match o with
  | UpdateUnstructuredStatus u => ∃ st, has_status u st ∧ live_status st h
  | Create k x => IsControlledBy (obj_meta k x) (u_Meta s) = true
  | UpdateUnstructured _ => False
  | _ => True
  end.

Definition teardown_guard (s : Unstructured) (h : list event) (o : op) : Prop :=
  match o with
  | UpdateUnstructuredStatus u =>
      ∃ st, has_status u st ∧ st !! "phase" = Some (JString "Terminating")
  | UpdateUnstructured u => u = released s ∧ resources_gone s h
  | Create _ _ => False
  | _ => True
  end.

(** The session that the run read: the first answer to its reads. *)
Definition u_answer (ns n : string) (e : event) : option Unstructured :=
  match e with
  | Ev o r =>
      match o return resp o → option Unstructured with
      | GetUnstructured a b => λ r : result error Unstructured,
          match r with
          | Ok s => if bool_decide (a = ns ∧ b = n) then Some s else None
          | Err _ => None
          end
      | _ => λ _, None
      end r
  end.
Definition first_read (ns n : string) (h : list event) : option Unstructured :=
  head (omap (u_answer ns n) h).

Lemma first_read_app ns n h tl s : first_read ns n h = Some s → first_read ns n (h ++ tl) = Some s.
Proof. unfold first_read. rewrite omap_app. by destruct (omap _ h). Qed.

Lemma first_read_snoc ns n h e :
  first_read ns n h = None → first_read ns n (h ++ [e]) = u_answer ns n e.
Proof.
  unfold first_read. rewrite omap_app. destruct (omap _ h); [|done]. intros _. simpl.
  by destruct (u_answer ns n e).
Qed.

Lemma u_answer_read ns n s : u_answer ns n (Ev (GetUnstructured ns n) (Ok s)) = Some s.
Proof. simpl. by rewrite bool_decide_true. Qed.

Definition legacy_guard (ns n : string) (h : list event) (o : op) : Prop :=
  match o with
  | UpdateUnstructuredStatus _ | UpdateUnstructured _ | Create _ _ =>
      ∃ s, first_read ns n h = Some s ∧
        if l_deleting s then teardown_guard s h o
        else if l_finalized s then working_guard s h o else o = UpdateUnstructured (protected s)
  | _ => True
  end.

(** A status of the fixed phases carries its phase. *)
Lemma written_status_phase st p m : written_status st ∅ p m → st !! "phase" = Some (JString p).
Proof. intros [now ->]. by rewrite (left_id_L ∅ (∪)), lookup_insert_eq. Qed.

Lemma live_status_plain st p m h :
  written_status st ∅ p m → p = "Creating" ∨ p = "Failed" → live_status st h.
Proof.
  intros Hw Hp. exists p. split; [by eapply written_status_phase|].
  split; [destruct Hp as [->| ->]; set_solver|]. by destruct Hp as [->| ->].
Qed.

Lemma working_status R r s p m h : p = "Creating" ∨ p = "Failed" →
  wp R (working_guard s) (updateStatus int64_out_of_range Format_RFC3339 r s p m ∅)
    (status_post h) h.
Proof.
  intros Hp. apply wp_updateStatus; try done. intros h' u st _ Hu Hw. exists st.
  split; [done|]. by eapply live_status_plain.
Qed.

Lemma working_fail R r s what err h :
  wp R (working_guard s) (fail_session int64_out_of_range Format_RFC3339 r s what err) any_end h.
Proof.
  unfold fail_session. eapply (wp_then _ _ _ _ (λ _, True)).
  - eapply wp_mono; [|by apply working_status; right]. intros h' out [_ Ho]. by split.
  - done.
Qed.

Lemma working_PVCs R s sid pvcs : ∀ h Q, (∀ h' out, Q h' out) →
  wp R (working_guard s) (reconcilePVCs_loop s sid pvcs) Q h.
Proof.
  induction pvcs as [|[name size] pvcs IH]; intros h Q HQ; cbn [reconcilePVCs_loop]; [apply HQ|].
  apply wp_bind, wp_lift. destruct (MustParse size) as [q|]; simpl; [|apply HQ].
  destruct (SetControllerReference _ _) as [m|] eqn:Hm; [|apply HQ].
  call_step; [done|]. destruct x as [found|e]; [by apply IH|].
  destruct (IsNotFound e); [|apply HQ]. call_step; [by eapply SetControllerReference_spec|].
  destruct x; [by apply IH|apply HQ].
Qed.

(** The Secret is created with the session as its controller. *)
Lemma working_secret R s sid ns h :
  wp R (working_guard s) (EnsureSSHKeySecret (u_Meta s) sid ns) any_end h.
Proof.
  unfold EnsureSSHKeySecret, BuildSSHKeySecret, openSSHPrivateKey, call.
  simpl. split; [done|]. intros [kp|e1] _; simpl; [|done].
  split; [done|]. intros [check|e1] _; simpl; [|done].
  destruct (SetControllerReference _ _) as [m|e1] eqn:Hm; simpl; [|done].
  split; [by eapply SetControllerReference_spec|]. intros [o|e] _; simpl; [done|].
  by destruct (IsAlreadyExists e).
Qed.

Lemma elem_of_last {A} (h : list A) e : e ∈ h ++ [e].
Proof. apply elem_of_app. right. by apply list_elem_of_singleton. Qed.

(** The pod a step answers was read or created. *)
Lemma working_pod R b s spec h :
  wp R (working_guard s) (reconcilePod b s spec)
    (λ h' out, match out with Done (Ok pod) => pod_answered h' pod | _ => True end) h.
Proof.
  unfold reconcilePod. call_step; [done|]. destruct x as [pod|e].
  { left. eexists _, _. apply elem_of_last. }
  destruct (IsNotFound e); [|done]. apply wp_bind. eapply wp_mono; [|apply working_secret].
  intros h1 [[k|err]|] _; [|done..]. unfold wp_seq. apply wp_bind, wp_lift.
  destruct (buildPod b s spec) as [[pod|err]|]; simpl; [|done..].
  destruct (SetControllerReference _ _) as [m|e1] eqn:Hm; [|done].
  unfold call. simpl. split; [by eapply SetControllerReference_spec|].
  intros [o|err] _; [|done]. right. eexists. apply elem_of_last.
Qed.

Lemma working_service R s spec h :
  wp R (working_guard s) (reconcileService s spec)
    (λ h' out, ∃ tl, h' = h ++ tl ∧ out ≠ Panicked) h.
Proof.
  unfold reconcileService. call_step; [done|].
  assert (∀ x' (out : outcome (result error Service)), out ≠ Panicked →
    ∃ tl, h ++ [Ev (Get KService (u_Namespace s) ("lab-service-" +:+ spec_string spec "sessionId")) x']
      = h ++ tl ∧ out ≠ Panicked) as Hend by eauto.
  destruct x as [service|e]; [by apply Hend|]. destruct (IsNotFound e); [|by apply Hend].
  destruct (SetControllerReference _ _) as [m|e1] eqn:Hm; [|by apply Hend].
  unfold call. simpl. split; [by eapply SetControllerReference_spec|]. intros y _.
  rewrite <- app_assoc. by eexists.
Qed.

Lemma pod_answered_app h tl pod : pod_answered h pod → pod_answered (h ++ tl) pod.
Proof.
  intros [(ns&n&H)|(p&H)]; [left; exists ns, n|right; exists p]; apply elem_of_app; by left.
Qed.

(** The final status write of a reconciliation, for a pod that it knows. *)
Lemma working_observe R r s pod service h : pod_answered h pod →
  wp R (working_guard s)
    (updateLabSessionStatus int64_out_of_range Format_RFC3339 r s pod service) any_end h.
Proof.
  intros Hpod. unfold updateLabSessionStatus. destruct (observed_phase pod) as [phase message] eqn:Ho.
  eapply (wp_then _ _ _ _ (λ _, True)); [|done].
  eapply wp_mono; [|apply wp_updateStatus; try done].
  - intros h' out [_ Hd]. by split.
  - intros h' u st (tl&->&_) Hu [now ->]. eexists. split; [exact Hu|]. exists phase.
    split; [|split].
    + apply lookup_union_Some_l. by rewrite lookup_insert_eq.
    + unfold observed_phase in Ho. repeat case_decide; simplify_eq; set_solver.
    + intros ->. exists pod. split; [by apply pod_answered_app|]. split.
      * unfold observed_phase in Ho. by repeat case_decide.
      * split; apply lookup_union_Some_l; by simplify_map_eq.
Qed.

Lemma working_reconcile R r b s h :
  wp R (working_guard s)
    (reconcileLabSession int64_out_of_range Format_RFC3339 r b s) any_end h.
Proof.
  unfold reconcileLabSession. destruct (NestedMap _ _) as [[spec|]|e]; [|done..].
  case_decide; [done|]. eapply (wp_then _ _ _ _ (λ _, True)).
  { case_decide; [|by split; eauto].
    eapply wp_mono; [|by apply working_status; left]. intros h' out [_ Hd]. by split. }
  intros _ h1 _. apply wp_bind. apply working_PVCs. intros h2 [[err|]|]; [apply working_fail| |done].
  apply wp_bind. eapply wp_mono; [|apply working_pod].
  intros h3 [[pod|err]|] Hpod; [|apply working_fail|done]. apply wp_bind.
  eapply wp_mono; [|apply working_service].
  intros h4 [[service|err]|] (tl&->&Hp); [|apply working_fail|done].
  by apply working_observe, pod_answered_app.
Qed.

(** The history of a deletion, seen from the pod: it was not read, or was gone, or
    the run ends without an update. *)
Definition no_pod_read (h : list event) : Prop := ∀ ns n pod, Ev (Get KPod ns n) (Ok pod) ∉ h.
Definition no_update (h : list event) : Prop := ∀ u a, Ev (UpdateUnstructured u) a ∉ h.

Definition teardown_post (h' : list event) (out : outcome (Result * option error)) : Prop :=
  no_pod_read h' ∨ (no_update h' ∧ out = Done (requeue_after (10 * second), None)).

Lemma no_pod_read_snoc h e :
  no_pod_read h → (∀ pod, pod_answer e ≠ Some (Ok pod)) → no_pod_read (h ++ [e]).
Proof.
  intros Hh He ns n pod [Hin|Hin]%elem_of_app; [by eapply Hh|].
  apply list_elem_of_singleton in Hin. apply (He pod). by rewrite <- Hin.
Qed.

Lemma no_update_snoc h e :
  no_update h → (∀ u a, e ≠ Ev (UpdateUnstructured u) a) → no_update (h ++ [e]).
Proof.
  intros Hh He u a [Hin|Hin]%elem_of_app; [by eapply Hh|].
  apply list_elem_of_singleton in Hin. by eapply He.
Qed.

Lemma no_pod_read_status h h' : only_status_calls h h' → no_pod_read h → no_pod_read h'.
Proof. intros Hh Hp ns n pod Hin. eapply Hp, only_status_elem; [done..|]. by intros []. Qed.

Lemma no_update_status h h' : only_status_calls h h' → no_update h → no_update h'.
Proof. intros Hh Hp u a Hin. eapply Hp, only_status_elem; [done..|]. by intros []. Qed.

(** Retrying the update sends the same object. *)
Lemma teardown_update R r s obj more : ∀ a h,
  obj = released s → resources_gone s h → no_pod_read h →
  wp R (teardown_guard s) (updateWithRetry_loop int64_out_of_range r obj more a)
    (λ h' _, no_pod_read h') h.
Proof.
  assert (∀ h e, resources_gone s h → resources_gone s (h ++ [e])) as Hmono.
  { intros h e Hg Hne. destruct (Hg Hne) as [(e1&H1&?) (e2&H2&?)].
    split; [exists e1|exists e2]; (split; [apply elem_of_app; by left|done]). }
  induction more as [|more IH]; intros a h -> Hg Hp; cbn [updateWithRetry_loop].
  - call_step; [done|]. destruct x; by apply no_pod_read_snoc.
  - call_step; [done|]. destruct x as [u|e]; [by apply no_pod_read_snoc|].
    call_step; [done|]. apply IH; [done|by do 2 apply Hmono|]. by do 2 (apply no_pod_read_snoc; [|done]).
Qed.

(** [verifyResourcesDeleted] answers no error exactly when both were found gone. *)
Lemma teardown_verify R s h : no_pod_read h → no_update h →
  wp R (teardown_guard s) (verifyResourcesDeleted s (l_sessionID s))
    (λ h' out, ∃ e, out = Done e ∧ match e with
      | None => no_pod_read h' ∧ resources_gone s h'
      | Some _ => no_update h'
      end) h.
Proof.
  intros Hp Hu. unfold verifyResourcesDeleted. call_step; [done|]. destruct x as [pod|e].
  { eexists. split; [done|]. by apply no_update_snoc. }
  destruct (IsNotFound e) eqn:Hn; [|eexists; split; [done|]; by apply no_update_snoc].
  call_step; [done|]. destruct x as [service|e2].
  { eexists. split; [done|]. by do 2 (apply no_update_snoc; [|done]). }
  destruct (IsNotFound e2) eqn:Hn2; (eexists; split; [done|]).
  - split; [by do 2 (apply no_pod_read_snoc; [|done])|]. intros _. split.
    + exists e. split; [|done]. apply elem_of_app. left. apply elem_of_last.
    + exists e2. split; [|done]. apply elem_of_last.
  - by do 2 (apply no_update_snoc; [|done]).
Qed.

Lemma teardown_reconcileDelete R r s h : no_pod_read h → no_update h →
  wp R (teardown_guard s)
    (reconcileDelete int64_out_of_range Format_RFC3339 r s) teardown_post h.
Proof.
  intros Hp Hu. unfold reconcileDelete. fold (l_sessionID s).
  eapply (wp_then _ _ _ _ (λ h', no_pod_read h' ∧ no_update h')).
  { eapply wp_mono; [|apply wp_updateStatus; try done].
    - intros h' out [Hh Ho]. split; [|done].
      split; [by eapply no_pod_read_status|by eapply no_update_status].
    - intros h' u st _ Hst Hw. exists st. split; [done|]. by eapply written_status_phase. }
  intros _ h1 [Hp1 Hu1]. apply wp_bind.
  assert (wp R (teardown_guard s)
    (if decide (l_sessionID s ≠ "") then verifyResourcesDeleted s (l_sessionID s) else mret None)
    (λ h' out, ∃ e, out = Done e ∧ match e with
      | None => no_pod_read h' ∧ resources_gone s h' | Some _ => no_update h' end) h1) as Hv.
  { case_decide as Hs; [by apply teardown_verify|]. eexists. split; [done|]. by split. }
  eapply wp_mono; [|exact Hv]. intros h2 out (e&->&He). unfold wp_seq.
  destruct e as [err|]; [by right|]. destruct He as [Hp2 Hg]. apply wp_bind.
  eapply wp_mono; [|by apply teardown_update].
  intros h3 [[err|]|] Hp3; unfold wp_seq; simpl; by left.
Qed.

(** Reading the session makes no other call. *)
Lemma wp_getWithRetry R (G : list event → op → Prop) r ns n more :
  (∀ h ns n, G h (GetUnstructured ns n)) → (∀ h d, G h (Sleep d)) → ∀ a h,
  first_read ns n h = None →
  wp R G (getWithRetry_loop int64_out_of_range r ns n more a)
    (λ h' out, only_status_calls h h' ∧ match out with
      | Done (Ok s) => first_read ns n h' = Some s | Done _ => True | Panicked => False end) h.
Proof.
  intros G_get G_sleep.
  assert (∀ h x, first_read ns n h = None →
    only_status_calls h (h ++ [Ev (GetUnstructured ns n) x]) ∧
    first_read ns n (h ++ [Ev (GetUnstructured ns n) x]) =
      match x with Ok s => Some s | Err _ => None end) as Hread.
  { intros h x Hh. split; [by apply only_status_snoc|]. rewrite first_read_snoc by done.
    destruct x; [apply u_answer_read|done]. }
  induction more as [|more IH]; intros a h Hh; cbn [getWithRetry_loop]; (call_step; [auto|]);
    destruct (Hread h x Hh) as [H1 H2]; (destruct x as [s|e]; [done|]);
    (destruct (IsNotFound e); [done|]); [done|].
  call_step; [auto|]. eapply wp_mono; [|apply IH].
  - intros h' out [Hh' Ho]. split; [|done]. etrans; [|exact Hh'].
    by etrans; [|apply only_status_snoc].
  - by rewrite first_read_snoc.
Qed.

(** * One reconciliation *)

Lemma guard_of_read ns n s h o :
  first_read ns n h = Some s →
  (if l_deleting s then teardown_guard s h o
   else if l_finalized s then working_guard s h o else o = UpdateUnstructured (protected s)) →
  legacy_guard ns n h o.
Proof. intros Hs Ho. by destruct o; try done; exists s. Qed.

Lemma wp_read_guard {A} R ns n s (G : list event → op → Prop) (p : prog A) Q h :
  first_read ns n h = Some s →
  (∀ h' o, G h' o → if l_deleting s then teardown_guard s h' o
     else if l_finalized s then working_guard s h' o else o = UpdateUnstructured (protected s)) →
  wp R G p Q h → wp R (legacy_guard ns n) p Q h.
Proof.
  intros Hs HG Hp. eapply wp_guard_prefix; [|exact Hp]. intros h' o [tl ->] Ho.
  apply (guard_of_read _ _ s); [by apply first_read_app|by apply HG].
Qed.

(** How a run ends, if the session that it read is being deleted. *)
Definition legacy_post (ns n : string) (h : list event) (out : outcome (Result * option error)) : Prop :=
  (∃ s, first_read ns n h = Some s ∧ l_deleting s = false) ∨ teardown_post h out.

Lemma wp_legacy_Reconcile r b ns n :
  wp any_env (legacy_guard ns n) (Reconcile int64_out_of_range Format_RFC3339 r b ns n)
    (legacy_post ns n) [].
Proof.
  unfold Reconcile, getWithRetry. apply wp_bind. eapply wp_mono; [|by apply wp_getWithRetry].
  intros h out [Hh Hs]. assert (no_pod_read h ∧ no_update h) as [Hp Hu].
  { split.
    - eapply no_pod_read_status; [done|]. by intros ??? ?%not_elem_of_nil.
    - eapply no_update_status; [done|]. by intros ?? ?%not_elem_of_nil. }
  destruct out as [[s|e]|]; unfold wp_seq; [| |done].
  2: { destruct (IsNotFound e); right; by left. }
  destruct (meta_DeletionTimestamp (u_Meta s)) as [t|] eqn:Ht.
  { eapply (wp_read_guard _ _ _ s (teardown_guard s)); [done| |].
    - intros h' o. unfold l_deleting. by rewrite Ht.
    - eapply wp_mono; [|by apply teardown_reconcileDelete]. intros h' out Hpost. by right. }
  assert (l_deleting s = false) as Hd by (unfold l_deleting; by rewrite Ht).
  assert (∀ tl (out : outcome (Result * option error)), legacy_post ns n (h ++ tl) out) as Hpost.
  { intros tl out. left. exists s. split; [by apply first_read_app|done]. }
  destruct (ContainsFinalizer (meta_Finalizers (u_Meta s)) LabSessionFinalizer) eqn:Hf; cbn [negb].
  - eapply (wp_read_guard _ _ _ s (working_guard s)); [done| |].
    { intros h' o. unfold l_finalized. by rewrite Hd, Hf. }
    eapply wp_mono_prefix; [|by apply working_reconcile]. intros h' out' [tl ->] _. apply Hpost.
  - call_step.
    + exists s. rewrite Hd. unfold l_finalized. by rewrite Hf.
    + apply Hpost.
Qed.

(** C15: the finalizer waits for the collector. An update of the session itself
    either adds the finalizer to a session that has none and is not being deleted,
    or takes it away from one that is; the latter sends the session as it was read
    at the start of the run, in every attempt, and only after both its pod and its
    service were read and not found in this run (unless it has no session id). A
    run on a session being deleted that finds any pod makes no update and comes
    back after ten seconds. *)
Theorem finalizer_waits_for_collector r b ns n tr out :
  exec (Reconcile int64_out_of_range Format_RFC3339 r b ns n) tr out →
  (∀ i u a, tr !! i = Some (Ev (UpdateUnstructured u) a) →
     ∃ s, first_read ns n (take i tr) = Some s ∧
       if l_deleting s then u = released s ∧ resources_gone s (take i tr)
       else l_finalized s = false ∧ u = protected s) ∧
  (∀ s ns' n' pod, first_read ns n tr = Some s → l_deleting s = true →
     Ev (Get KPod ns' n') (Ok pod) ∈ tr →
     no_update tr ∧ out = Done (requeue_after (10 * second), None)).
Proof.
  intros He. destruct (wp_exec_any _ _ _ _ _ (wp_legacy_Reconcile r b ns n) He) as [Hpost HG].
  split.
  - intros i u a Hi. destruct (guarded_lookup _ _ _ _ _ HG Hi) as (s&Hs&Hg). exists s.
    split; [done|]. destruct (l_deleting s); [done|]. destruct (l_finalized s); [done|].
    split; [done|]. by injection Hg.
  - intros s ns' n' pod Hs Hd Hpod. destruct Hpost as [(s'&Hs'&Hd')|[Hp|Hp]]; [|by apply Hp in Hpod|done].
    congruence.
Qed.

(** C16: Running is written only for a running pod. Whenever a reconciliation
    writes a status, the phase is Terminating if the session that it read is being
    deleted, and Creating, Failed or Running otherwise; with Running, a pod was read
    or created in this run that is running, and the status names that pod and its
    address. Every object that it creates is controlled by the
    session, which has the finalizer. *)
Theorem running_status_has_running_pod r b ns n tr out i :
  exec (Reconcile int64_out_of_range Format_RFC3339 r b ns n) tr out →
  (∀ u a, tr !! i = Some (Ev (UpdateUnstructuredStatus u) a) →
     ∃ s st, first_read ns n (take i tr) = Some s ∧ has_status u st ∧
       if l_deleting s then st !! "phase" = Some (JString "Terminating")
       else l_finalized s = true ∧ live_status st (take i tr)) ∧
  (∀ k x a, tr !! i = Some (Ev (Create k x) a) →
     ∃ s, first_read ns n (take i tr) = Some s ∧ l_deleting s = false ∧
       l_finalized s = true ∧ IsControlledBy (obj_meta k x) (u_Meta s) = true).
Proof.
  intros He. destruct (wp_exec_any _ _ _ _ _ (wp_legacy_Reconcile r b ns n) He) as [_ HG].
  split.
  - intros u a Hi. destruct (guarded_lookup _ _ _ _ _ HG Hi) as (s&Hs&Hg).
    destruct (l_deleting s) eqn:Hd; [|destruct (l_finalized s) eqn:Hf; [|done]];
      destruct Hg as (st&Hu&Hst); exists s, st; by rewrite Hd, ?Hf.
  - intros k x a Hi. destruct (guarded_lookup _ _ _ _ _ HG Hi) as (s&Hs&Hg).
    destruct (l_deleting s) eqn:Hd; [done|]. destruct (l_finalized s) eqn:Hf; [|done].
    exists s. auto.
Qed.
End spec.
