(* ===== verification/FormsSpec.v ===== *)
(** What the JSON forms of the API types mean for those who share sessions: what the
    controller writes reads back, the older types read it with the same fields, and
    the older controller builds from the same spec. *)
From S2P Require Import Prelude GoStrings Kube KubeTypes Types Unstructured PodSettings.
From S2P Require Import ResourceBuilder Codec SessionJSON.
From S2P Require Memory ApisV1 Legacy.

(** * A session as the older types have it *)

Definition older_resources (r : ResourceConfig) : ApisV1.LabSessionResourceRequests :=
  ApisV1.mkLabSessionResourceRequests (rc_Memory r) (rc_CPU r) (rc_Storage r).
Definition older_config (c : SessionConfig) : ApisV1.LabSessionConfig :=
  ApisV1.mkLabSessionConfig (sc_VSCodePassword c) (sc_EnableTerminal c) (sc_EnableVSCode c)
    (sc_EnableSSH c).
Definition older_spec (s : LabSessionSpec) : ApisV1.LabSessionSpec :=
  ApisV1.mkLabSessionSpec (UserID s) (SessionID s) (older_resources (Resources s))
    (older_config (Config s)) (Timeout s).

Definition newer_resources (r : ApisV1.LabSessionResourceRequests) : ResourceConfig :=
  mkResourceConfig (ApisV1.Memory r) (ApisV1.CPU r) (ApisV1.Storage r).
Definition newer_config (c : ApisV1.LabSessionConfig) : SessionConfig :=
  mkSessionConfig (ApisV1.VSCodePassword c) (ApisV1.EnableTerminal c) (ApisV1.EnableVSCode c)
    (ApisV1.EnableSSH c).
Definition newer_spec (v : ApisV1.LabSessionSpec) : LabSessionSpec :=
  mkLabSessionSpec (ApisV1.UserID v) (ApisV1.SessionID v) "" (newer_resources (ApisV1.Resources v))
    (newer_config (ApisV1.Config v)) (ApisV1.Timeout v) "" (mkImageConfig "").

Definition older_endpoints (e : gmap string string) : ApisV1.LabSessionEndpoints :=
  ApisV1.mkLabSessionEndpoints (default "" (e !! "vscode")) (default "" (e !! "terminal"))
    (default "" (e !! "ssh")).
Definition older_condition (c : Condition) : ApisV1.LabSessionCondition :=
  ApisV1.mkLabSessionCondition (cond_Type c) (cond_Status c) (cond_LastTransitionTime c)
    (cond_Reason c) (cond_Message c).
Definition older_usage (u : LabSessionUsage) : ApisV1.LabSessionUsage :=
  ApisV1.mkLabSessionUsage (usage_Running u) (usage_CPURequest u) (usage_MemoryRequest u)
    (usage_Storage u).
Definition older_status (st : LabSessionStatus) : ApisV1.LabSessionStatus :=
  ApisV1.mkLabSessionStatus (Phase st) (Message st) (PodName st) (ServiceName st)
    (older_endpoints (Endpoints st)) (VMIP st) (PodIP st) None None
    (older_condition <$> Conditions st) (older_usage (Usage st)).
Definition older_session (x : Memory.TypeMeta * LabSession) : ApisV1.LabSession :=
  ApisV1.mkLabSession x.1 (ObjMeta x.2) (older_spec (Spec x.2)) (older_status (Status x.2)).

(** * Times in whole seconds *)

Definition second_ref (p : option time) : option time :=
  t ← p; if decide (t = 0) then None else Some (whole_seconds t).
Definition second_condition (c : Condition) : Condition :=
  mkCondition (cond_Type c) (cond_Status c) (cond_ObservedGeneration c)
    (whole_seconds (cond_LastTransitionTime c)) (cond_Reason c) (cond_Message c).
Definition second_status (st : LabSessionStatus) : LabSessionStatus :=
  mkLabSessionStatus (Phase st) (Message st) (Reason st) (PodName st) (ServiceName st) (PodIP st)
    (VMIP st) (Endpoints st) (second_condition <$> Conditions st) (second_ref (StartTime st))
    (second_ref (LastTransitionTime st)) (ObservedGeneration st) (Usage st).

Ltac read_others f := erewrite (read_other _ _ f); [cbn [mbind result_bind]|distinct_tags|in_fields| |].

Section forms.
Context `{F : FormLib, L : !FormLaws F}.

Definition second_session (x : Memory.TypeMeta * LabSession) : Memory.TypeMeta * LabSession :=
  (x.1, mkLabSession (norm (Codec := MetaForm) (ObjMeta x.2)) (Spec x.2) (second_status (Status x.2))).

Lemma norm_ref p : norm (Codec := TimeRefForm) p = second_ref p.
Proof.
  destruct p as [t|]; [|done]. simpl. rewrite TimeForm_norm. case_decide as Ht.
  - apply TimeForm_null in Ht. by rewrite Ht.
  - destruct (enc t) eqn:He; try done. by apply TimeForm_null in He.
Qed.

Lemma norm_second st : norm_status st = second_status st.
Proof.
  unfold norm_status, second_status. rewrite !norm_ref. f_equal. simpl.
  apply list_fmap_ext. intros _ c _. apply ConditionForm_norm.
Qed.

Lemma norm_session_second x : norm_session x = second_session x.
Proof. unfold norm_session, second_session. by rewrite norm_second. Qed.

(** * Reading as the older types *)

Lemma older_reads_resources r : dec (Codec := ApisV1.LabSessionResourceRequests_form)
  (enc r) = Ok (older_resources r).
Proof.
  change (ApisV1.decode_LabSessionResourceRequests (encode_ResourceConfig r) = Ok (older_resources r)).
  unfold ApisV1.decode_LabSessionResourceRequests, encode_ResourceConfig. by read_fields.
Qed.

Lemma older_reads_config c : dec (Codec := ApisV1.LabSessionConfig_form) (enc c) = Ok (older_config c).
Proof.
  change (ApisV1.decode_LabSessionConfig (encode_SessionConfig c) = Ok (older_config c)).
  unfold ApisV1.decode_LabSessionConfig, encode_SessionConfig. by read_fields.
Qed.

Lemma older_reads_spec s : dec (Codec := ApisV1.LabSessionSpec_form) (enc s) = Ok (older_spec s).
Proof.
  change (ApisV1.decode_LabSessionSpec (encode_LabSessionSpec s) = Ok (older_spec s)).
  unfold ApisV1.decode_LabSessionSpec, encode_LabSessionSpec.
  read_others older_resources; [|done|apply older_reads_resources].
  read_others older_config; [|done|apply older_reads_config]. by read_fields.
Qed.

Lemma newer_reads_resources v : dec (Codec := ResourceConfig_form)
  (enc (Codec := ApisV1.LabSessionResourceRequests_form) v) = Ok (newer_resources v).
Proof.
  change (decode_ResourceConfig (ApisV1.encode_LabSessionResourceRequests v) = Ok (newer_resources v)).
  unfold decode_ResourceConfig, ApisV1.encode_LabSessionResourceRequests. by read_fields.
Qed.

Lemma newer_reads_config v : dec (Codec := SessionConfig_form)
  (enc (Codec := ApisV1.LabSessionConfig_form) v) = Ok (newer_config v).
Proof.
  change (decode_SessionConfig (ApisV1.encode_LabSessionConfig v) = Ok (newer_config v)).
  unfold decode_SessionConfig, ApisV1.encode_LabSessionConfig. by read_fields.
Qed.

Lemma newer_reads_spec v : decode_LabSessionSpec (ApisV1.encode_LabSessionSpec v) = Ok (newer_spec v).
Proof.
  unfold decode_LabSessionSpec, ApisV1.encode_LabSessionSpec.
  read_others newer_resources; [|done|apply newer_reads_resources].
  read_others newer_config; [|done|apply newer_reads_config]. by read_fields.
Qed.

Lemma older_reads_usage u : dec (Codec := ApisV1.LabSessionUsage_form) (enc u) = Ok (older_usage u).
Proof.
  change (ApisV1.decode_LabSessionUsage (encode_LabSessionUsage u) = Ok (older_usage u)).
  unfold ApisV1.decode_LabSessionUsage, encode_LabSessionUsage. by read_fields.
Qed.

Lemma older_reads_endpoints e : dec (Codec := ApisV1.LabSessionEndpoints_form) (enc e) = Ok (older_endpoints e).
Proof.
  change (ApisV1.decode_LabSessionEndpoints (JString <$> e) = Ok (older_endpoints e)).
  unfold ApisV1.decode_LabSessionEndpoints, older_endpoints, read. rewrite !lookup_fmap.
  by destruct (e !! "vscode"), (e !! "terminal"), (e !! "ssh").
Qed.

Lemma older_reads_condition c : fits (Codec := ConditionForm) c →
  dec (Codec := ApisV1.LabSessionCondition_form) (enc (Codec := ConditionForm) c) =
  Ok (older_condition (second_condition c)).
Proof.
  intros Hc. destruct (ConditionForm_fields c) as (m&->&Ht&Hs&Hl&Hr&Hm). cbn.
  unfold ApisV1.decode_LabSessionCondition, read. rewrite Ht, Hs, Hl, Hr, Hm.
  rewrite (dec_enc (C := TimeForm)) by by apply ConditionForm_fits. cbn. by rewrite TimeForm_norm.
Qed.

Lemma older_reads_conditions cs : Forall (fits (Codec := ConditionForm)) cs →
  dec (Codec := ApisV1.ConditionsForm) (enc (Codec := ConditionsForm) cs) =
  Ok (older_condition <$> (second_condition <$> cs)).
Proof.
  intros Hcs. change (mapM (dec (Codec := ApisV1.LabSessionCondition_form))
    (enc (Codec := ConditionForm) <$> cs) = Ok (older_condition <$> (second_condition <$> cs))).
  induction Hcs as [|c cs Hc Hcs IH]; [done|]. rewrite !fmap_cons. cbn [mapM].
  rewrite older_reads_condition by done. cbn [mbind result_bind]. by rewrite IH.
Qed.

Lemma older_reads_status st : status_fits st →
  dec (Codec := ApisV1.LabSessionStatus_form) (enc st) = Ok (older_status (second_status st)).
Proof.
  intros (Hc&_&_&_).
  change (ApisV1.decode_LabSessionStatus (encode_LabSessionStatus st) = Ok (older_status (second_status st))).
  unfold ApisV1.decode_LabSessionStatus, encode_LabSessionStatus.
  read_others older_endpoints; [|by intros He%bool_decide_eq_true; rewrite He|apply older_reads_endpoints].
  read_others (λ cs : list Condition, older_condition <$> (second_condition <$> cs));
    [|by destruct (Conditions st)|by apply older_reads_conditions].
  read_others older_usage; [|done|apply older_reads_usage]. by read_fields.
Qed.

(** C20: what the controller writes, everyone reads. A session whose times can be written
    reads back as itself, but for its times, which lose what is less than a second (and
    the metadata, whose form is the API machinery's); and the older types read the same
    document as the same session, with every field they have, the three endpoints
    among them. *)
Theorem written_session_is_read x :
  session_fits x →
  decode_LabSession (encode_LabSession x) = Ok (second_session x) ∧
  ApisV1.decode_LabSession (encode_LabSession x) = Ok (older_session (second_session x)).
Proof.
  intros Hx. rewrite <- norm_session_second. split.
  - by apply (dec_enc (C := LabSession_form)).
  - destruct x as [[] [m sp st]], Hx as [Hm Hst]. simpl in *.
    unfold ApisV1.decode_LabSession, encode_LabSession.
    read_others older_spec; [|done|apply older_reads_spec].
    read_others (λ st, older_status (second_status st)); [|done|by apply older_reads_status].
    read_fields. by rewrite norm_session_second.
Qed.
End forms.

(** * The spec, read by either controller *)

Section spec.
Context `{K : KubeLib, U : UnstructuredLib}.

(** A string of an object that the older controller reads, with its default. *)
Definition or_default (fallback v : string) : string := if decide (v = "") then fallback else v.

(** The spec that the older controller builds from: limits are capped, and the password
    has a default. *)
Definition limited (s : LabSessionSpec) : LabSessionSpec :=
  let r := Resources s in let c := Config s in
  mkLabSessionSpec (UserID s) (SessionID s) (LabID s)
    (mkResourceConfig
      (Legacy.enforceResourceLimits (or_default Legacy.DefaultMemoryLimit (rc_Memory r))
         Legacy.MaxMemoryLimit "memory")
      (Legacy.enforceResourceLimits (or_default Legacy.DefaultCPULimit (rc_CPU r))
         Legacy.MaxCPULimit "cpu") (rc_Storage r))
    (mkSessionConfig (or_default "password123" (sc_VSCodePassword c)) (sc_EnableTerminal c)
      (sc_EnableVSCode c) (sc_EnableSSH c))
    (Timeout s) (RootfsURL s) (CustomImages s).

Lemma get_string fields k v fallback : NoDup fields.*1 → (k, put true v) ∈ fields →
  Legacy.getStringFromMap (Some (object fields)) k fallback = or_default fallback v.
Proof.
  intros Hd Hk. unfold Legacy.getStringFromMap, or_default.
  rewrite (object_lookup _ _ _ Hd Hk). unfold put. simpl. by case_decide; case_bool_decide.
Qed.

Lemma lookup_struct {A} (C : Codec A) fields k (a : A) m : NoDup fields.*1 → (k, put true a) ∈ fields →
  is_empty a = false → enc a = JObject m → as_map (object fields !! k) = Some m.
Proof. intros Hd Hk He Ha. rewrite (object_lookup _ _ _ Hd Hk). unfold put. by rewrite He, Ha. Qed.

Lemma pod_session_limited u s :
  Legacy.pod_session u (encode_LabSessionSpec s) s =
  mkLabSession (named_meta "" (Legacy.u_Namespace u) ∅) (limited s)
    (mkLabSessionStatus "" "" "" "" "" "" "" ∅ [] None None 0 no_usage).
Proof.
  unfold Legacy.pod_session, limited, Legacy.extractResourceLimits, Legacy.extractPodConfig.
  cbn [Legacy.rl_Memory Legacy.rl_CPU]. unfold encode_LabSessionSpec at 1 2 3.
  rewrite !(lookup_struct ResourceConfig_form _ "resources" (Resources s)
    (encode_ResourceConfig (Resources s))) by first [done | distinct_tags | in_fields].
  rewrite (lookup_struct SessionConfig_form _ "config" (Config s) (encode_SessionConfig (Config s)))
    by first [done | distinct_tags | in_fields].
  unfold encode_ResourceConfig, encode_SessionConfig.
  by rewrite !(get_string _ "memory" (rc_Memory (Resources s))), !(get_string _ "cpu" (rc_CPU (Resources s))),
    (get_string _ "vsCodePassword" (sc_VSCodePassword (Config s))) by first [distinct_tags | in_fields].
Qed.

(** C19: a spec means the same to all readers. Written with the controller's types, the
    older types read it with their fields, and the other way round; what goes through
    the older types keeps all but the lab, the root file system and the lab's images.
    The older controller finds the same user and session in it, and builds the pod that
    the resource builder makes of the same spec, with its limits capped and a default
    password. *)
Theorem spec_is_read_alike (b : ResourceBuilder) (u : Unstructured) s v :
  (∀ m, FromUnstructured m = decode_LabSessionSpec m) →
  ApisV1.decode_LabSessionSpec (encode_LabSessionSpec s) = Ok (older_spec s) ∧
  decode_LabSessionSpec (ApisV1.encode_LabSessionSpec v) = Ok (newer_spec v) ∧
  (newer_spec (older_spec s) = s ↔
     LabID s = "" ∧ RootfsURL s = "" ∧ CustomImages s = mkImageConfig "") ∧
  Legacy.spec_string (encode_LabSessionSpec s) "userId" = UserID s ∧
  Legacy.spec_string (encode_LabSessionSpec s) "sessionId" = SessionID s ∧
  Legacy.buildPod b u (encode_LabSessionSpec s) =
    (pod ← BuildPod b (mkLabSession (named_meta "" (Legacy.u_Namespace u) ∅) (limited s)
       (mkLabSessionStatus "" "" "" "" "" "" "" ∅ [] None None 0 no_usage)); Done (Ok pod)).
Proof.
  intros Hfrom. split; [apply older_reads_spec|]. split; [apply newer_reads_spec|].
  split.
  { destruct s as [? ? ? [? ? ?] [? ? ? ?] ? ? ?]. unfold newer_spec. simpl.
    split; [by intros [= <- <- <-]|by intros (->&->&->)]. }
  split; [|split].
  1, 2: unfold Legacy.spec_string, encode_LabSessionSpec;
    erewrite object_lookup; [|distinct_tags|in_fields]; done.
  unfold Legacy.buildPod. rewrite Hfrom.
  pose proof (dec_enc (C := LabSessionSpec_form) s I : decode_LabSessionSpec _ = Ok s) as Hs.
  rewrite Hs. by rewrite pod_session_limited.
Qed.
End spec.
