(* ===== verification/DeepCopySpec.v ===== *)
(** Deep copies of the API types share no memory with their originals. *)
From S2P Require Import Prelude Kube Types Events Effects Reconciler Memory DeepCopy.
From S2P Require Import ReconcilerLogic ReconcilerGuard.

(** * Growing heaps *)

Lemma view_mono {T D} {S : Stored T D} h h' x d : view h x = Some d → h ⊆ h' →
  view h' x = Some d ∧ locs h' x = locs h x.
Proof.
  intros Hv Hh. apply view_local; [done|]. intros l Hl.
  pose proof (view_reach h x d l Hv Hl) as [c Hc]%elem_of_dom. rewrite Hc.
  by eapply lookup_weaken.
Qed.

Lemma deref_mono {A} (as_A : cell → option A) h h' l a :
  deref as_A h l = Some a → h ⊆ h' → deref as_A h' l = Some a.
Proof.
  intros (c&Hc&Ha)%bind_Some Hh. apply bind_Some. exists c. split; [|done].
  by eapply lookup_weaken.
Qed.

Lemma alloc_spec c h : ∃ l, alloc c h = Some (l, <[l := c]> h) ∧ h !! l = None.
Proof. eexists. split; [done|]. apply not_elem_of_dom, is_fresh. Qed.

Lemma Mem_bind_Some {A B} (m : Mem A) (f : A → Mem B) h a h' :
  m h = Some (a, h') → (m ≫= f) h = f a h'.
Proof. intros Hm. unfold mbind, Mem_bind. by rewrite Hm. Qed.

Lemma load_spec l c h : h !! l = Some c → load l h = Some (c, h).
Proof. intros Hl. unfold load. by rewrite Hl. Qed.

Lemma assign_spec l c c' h : h !! l = Some c → assign l c' h = Some ((), <[l := c']> h).
Proof. intros Hl. unfold assign. by rewrite Hl. Qed.

Lemma map_assign_spec l m k v h : h !! l = Some (CMap m) →
  map_assign l k v h = Some ((), <[l := CMap (<[k := v]> m)]> h).
Proof.
  intros Hl. unfold map_assign. rewrite (Mem_bind_Some _ _ _ _ _ (load_spec _ _ _ Hl)).
  exact (assign_spec _ _ _ _ Hl).
Qed.

(** * Copying in parts *)

Section parts.
Context {T1 D1 T2 D2 : Type} (S1 : Stored T1 D1) (S2 : Stored T2 D2).

(** Two copies, one after the other, are a copy of the pair. *)
Lemma fresh_copy_pair h d1 y1 h1 d2 y2 h2 :
  fresh_copy h d1 y1 h1 → fresh_copy h1 d2 y2 h2 →
  fresh_copy (S := pair_stored S1 S2) h (d1, d2) (y1, y2) h2.
Proof.
  intros (Hh1&Hv1&Hf1&Hn1) (Hh2&Hv2&Hf2&Hn2). destruct (view_mono _ _ _ _ Hv1 Hh2) as [Hv1' Hl1].
  split; [by etrans|]. simpl. rewrite Hv1', Hl1, Hv2. split; [done|]. split.
  - intros l [Hl|Hl]%elem_of_app; [auto|]. intros Hd. apply (Hf2 l Hl). by eapply subseteq_dom.
  - apply NoDup_app. split; [done|]. split; [|done]. intros l Hl Hl2.
    apply (Hf2 l Hl2). exact (view_reach h1 y1 d1 l Hv1 Hl).
Qed.

Lemma copies_pair f g : copies f → copies g →
  copies (S := pair_stored S1 S2) (λ x, y1 ← f x.1; y2 ← g x.2; mret (y1, y2)).
Proof.
  intros Hf Hg h [x1 x2] d. simpl. intros (d1&H1&(d2&H2&[= <-])%bind_Some)%bind_Some.
  destruct (Hf h x1 d1 H1) as (y1&h1&Hy1&Hc1).
  destruct (view_mono h h1 x2 d2 H2) as [H2' _]; [apply Hc1|].
  destruct (Hg h1 x2 d2 H2') as (y2&h2&Hy2&Hc2). exists (y1, y2), h2. split.
  - rewrite (Mem_bind_Some _ _ _ _ _ Hy1). by rewrite (Mem_bind_Some _ _ _ _ _ Hy2).
  - by eapply fresh_copy_pair.
Qed.

(** A struct is copied by copying what it refers to. *)
Lemma copies_via (refs : T1 → T2) (build : T1 → D2 → D1) (f : T1 → Mem T1) (g : T2 → Mem T2)
    (set : T1 → T2 → T1) :
  copies g → (∀ x h, f x h = (y ← g (refs x); mret (set x y)) h) →
  (∀ x y, refs (set x y) = y) → (∀ x y d, build (set x y) d = build x d) →
  copies (S := via_stored S2 refs build) f.
Proof.
  intros Hg Hf Hr Hb h x d (d'&Hd&->)%fmap_Some.
  destruct (Hg h (refs x) d' Hd) as (y&h'&Hy&Hh&Hv&Hfr&Hn). exists (set x y), h'. split.
  - by rewrite Hf, (Mem_bind_Some _ _ _ _ _ Hy).
  - split; [done|]. simpl. rewrite Hr, Hv. split; [|done]. simpl. by rewrite Hb.
Qed.
End parts.

Lemma pair_view {T1 D1 T2 D2} (S1 : Stored T1 D1) (S2 : Stored T2 D2) h x1 x2 d1 d2 :
  view (Stored := pair_stored S1 S2) h (x1, x2) = Some (d1, d2) ↔
  view h x1 = Some d1 ∧ view h x2 = Some d2.
Proof. simpl. destruct (view h x1), (view h x2); simpl; naive_solver. Qed.

Lemma via_view {T D T' D'} (S : Stored T' D') (refs : T → T') (build : T → D' → D) h x d :
  view (Stored := via_stored S refs build) h x = Some d ↔
  ∃ d', view h (refs x) = Some d' ∧ d = build x d'.
Proof. apply fmap_Some. Qed.

Lemma ref_view {A D} (as_A : cell → option A) (S : Stored A D) h l a :
  deref as_A h l = Some a → view (Stored := ref_stored as_A S) h (Some l) = Some <$> view h a.
Proof. intros Ha. simpl. by rewrite Ha. Qed.

(** A reference that may be nil. *)
Definition opt_copy {A} (f : A → Mem A) (p : option A) : Mem (option A) :=
  match p with None => mret None | Some x => y ← f x; mret (Some y) end.

Lemma copies_nil {A} (f : option loc → Mem (option loc)) (as_A : cell → option A) {D} (S : Stored A D) :
  (∀ h, f None h = Some (None, h)) →
  (∀ h l d, view (Stored := ref_stored as_A S) h (Some l) = Some d →
     ∃ y h', f (Some l) h = Some (y, h') ∧ fresh_copy (S := ref_stored as_A S) h d y h') →
  copies (S := ref_stored as_A S) f.
Proof.
  intros Hn Hs h [l|] d; [apply Hs|]. intros [= <-]. exists None, h. split; [apply Hn|].
  split; [done|]. split; [done|]. split; [|by constructor]. by intros l Hl%not_elem_of_nil.
Qed.

(** * Maps *)

Lemma for_range_map_assign kvs : ∀ l m h, h !! l = Some (CMap m) →
  for_range kvs (λ '(k, v), map_assign l k v) h =
  Some ((), <[l := CMap (foldl (λ m kv, <[kv.1 := kv.2]> m) m kvs)]> h).
Proof.
  induction kvs as [|[k v] kvs IH]; intros l m h Hl; simpl; [by rewrite insert_id|].
  rewrite (Mem_bind_Some _ _ _ () (<[l := CMap (<[k := v]> m)]> h)).
  - rewrite (IH l (<[k := v]> m)) by by rewrite lookup_insert_eq. by rewrite insert_insert_eq.
  - by apply map_assign_spec.
Qed.

Lemma range_rebuilds (m : gmap string string) :
  foldl (λ m kv, <[kv.1 := kv.2]> m) ∅ (map_to_list m) = m.
Proof.
  rewrite foldl_insert by apply NoDup_fst_map_to_list.
  by rewrite (right_id_L ∅ (∪)), list_to_map_to_list.
Qed.

Lemma copy_map_spec h l m : deref as_CMap h l = Some m →
  ∃ l', copy_map l h = Some (l', <[l' := CMap m]> h) ∧ h !! l' = None.
Proof.
  intros ([]&Hc&[= <-])%bind_Some. destruct (alloc_spec (CMap ∅) h) as (l'&Ha&Hl').
  exists l'. split; [|done]. unfold copy_map.
  rewrite (Mem_bind_Some _ _ _ _ _ (load_spec _ _ _ Hc)).
  rewrite (Mem_bind_Some _ _ _ _ _ Ha).
  rewrite (Mem_bind_Some _ _ _ () (<[l' := CMap m0]> h)); [done|].
  rewrite (for_range_map_assign _ l' ∅) by by rewrite lookup_insert_eq.
  by rewrite insert_insert_eq, range_rebuilds.
Qed.

(** A new variable or map with a value of its own. *)
Lemma fresh_copy_new {A D} (as_A : cell → option A) (S : Stored A D) h c a d l :
  as_A c = Some a → h !! l = None → view (<[l := c]> h) a = Some d → locs (<[l := c]> h) a = [] →
  fresh_copy (S := ref_stored as_A S) h (Some d) (Some l) (<[l := c]> h).
Proof.
  intros Hc Hl Hv Hr. assert (deref as_A (<[l := c]> h) l = Some a) as Hd.
  { unfold deref. by rewrite lookup_insert_eq. }
  split; [by apply insert_subseteq|]. simpl. rewrite Hd. simpl. rewrite Hv, Hr. split; [done|]. split.
  - intros l' ->%list_elem_of_singleton. by apply not_elem_of_dom.
  - apply NoDup_singleton.
Qed.

Lemma map_copies : copies (S := MapRef) (opt_copy copy_map).
Proof.
  apply copies_nil; [done|]. intros h l d (m&Hm&[= <-])%bind_Some.
  destruct (copy_map_spec h l m Hm) as (l'&Hl'&Hn). exists (Some l'), (<[l' := CMap m]> h). split.
  - simpl. by rewrite (Mem_bind_Some _ _ _ _ _ Hl').
  - by eapply fresh_copy_new.
Qed.

(** * Slices *)

Section slice_copy.
Context {A D : Type} (as_list : cell → option (list A)) (cell_of : list A → cell) (zero : A).
Context (S : Stored A D) (copy : A → Mem A).
Hypothesis cell_list : ∀ l, as_list (cell_of l) = Some l.
Hypothesis copy_ok : copies copy.

Lemma array_load_spec h l xs i x : deref as_list h l = Some xs → xs !! i = Some x →
  array_load as_list l i h = Some (x, h).
Proof. intros Hl Hi. unfold array_load. rewrite Hl. simpl. by rewrite Hi. Qed.

Lemma array_assign_spec h l xs i x : h !! l = Some (cell_of xs) → (i < length xs)%nat →
  array_assign as_list cell_of l i x h = Some ((), <[l := cell_of (<[i := x]> xs)]> h).
Proof.
  intros Hl Hi. unfold array_assign, deref. rewrite Hl. simpl. rewrite cell_list. simpl.
  rewrite decide_True by done. by eapply assign_spec.
Qed.

(** After the first iterations: the array at [out], allocated since [h], starts with
    copies [ys] of the elements with the meanings [ds]. *)
Record copied (h : heap) (out : loc) (ds : list D) (k : nat) (h' : heap) (ys : list A) : Prop := {
  copied_old : h ⊆ h';
  copied_out : h !! out = None;
  copied_array : h' !! out = Some (cell_of (ys ++ replicate k zero));
  copied_view : mapM (view h') ys = Some ds;
  copied_fresh l : l ∈ concat (locs h' <$> ys) → l ∉ dom h ∧ l ≠ out;
  copied_NoDup : NoDup (concat (locs h' <$> ys))
}.

(** Copying one more element. *)
Lemma copied_next h out ds k h' ys d y h2 :
  copied h out ds (Datatypes.S k) h' ys → fresh_copy h' d y h2 →
  copied h out (ds ++ [d]) k
    (<[out := cell_of (<[length ys := y]> (ys ++ replicate (Datatypes.S k) zero))]> h2) (ys ++ [y]).
Proof.
  intros [Ho Hout Ha Hv Hf Hn] (Hh2&Hy&Hfy&Hny).
  set (c := cell_of _). assert (out ∈ dom h') as Hin by by eapply elem_of_dom_2.
  assert (mapM (view (<[out := c]> h2)) ys = Some ds ∧
          concat (locs (<[out := c]> h2) <$> ys) = concat (locs h' <$> ys)) as [Hv' Hl'].
  { apply (view_elems_local S h'); [done|]. intros l Hl. destruct (Hf l Hl) as [_ Hne].
    rewrite lookup_insert_ne by done.
    destruct (h' !! l) as [cl|] eqn:E; [by eapply lookup_weaken|]. exfalso.
    apply not_elem_of_dom in E. by apply E, (view_elems_reach S h' ys ds). }
  assert (view (<[out := c]> h2) y = Some d ∧ locs (<[out := c]> h2) y = locs h2 y) as [Hy' Hly].
  { apply view_local; [done|]. intros l Hl. rewrite lookup_insert_ne; [done|].
    intros ->. by apply (Hfy l Hl). }
  split; [|done|..].
  - apply insert_subseteq_r; [done|]. by etrans.
  - rewrite lookup_insert_eq. unfold c. do 2 f_equal.
    rewrite insert_app_r_alt by lia. rewrite Nat.sub_diag. simpl. by rewrite <- app_assoc.
  - apply mapM_Some, Forall2_app; [by apply mapM_Some|by repeat constructor].
  - rewrite fmap_app, concat_app, Hl'. simpl. rewrite app_nil_r, Hly.
    intros l [Hl|Hl]%elem_of_app; [by apply Hf|]. split.
    + intros Hd. apply (Hfy l Hl). by eapply subseteq_dom.
    + intros ->. by apply (Hfy out Hl).
  - rewrite fmap_app, concat_app, Hl'. simpl. rewrite app_nil_r, Hly.
    apply NoDup_app. split; [done|]. split; [|done]. intros l Hl Hl2. apply (Hfy l Hl2).
    by apply (view_elems_reach S h' ys ds).
Qed.

Lemma copy_loop h out a xs dxs : deref as_list h a = Some xs →
  ∀ k ds h' ys, copied h out ds k h' ys →
  mapM (view h) (take k (drop (length ys) xs)) = Some dxs → length dxs = k →
  ∃ h2 ys2, for_range (seq (length ys) k) (λ i,
      x ← array_load as_list a i; y ← copy x; array_assign as_list cell_of out i y) h' = Some ((), h2) ∧
    copied h out (ds ++ dxs) 0 h2 ys2 ∧ length ys2 = (length ys + k)%nat.
Proof.
  intros Ha k. revert dxs. induction k as [|k IH]; intros dxs ds h' ys Hc Hm Hk.
  - destruct dxs; [|done]. exists h', ys. rewrite app_nil_r, Nat.add_0_r. done.
  - destruct (drop (length ys) xs) as [|x rest] eqn:Hd; [by simplify_eq/=; destruct dxs|].
    simpl in Hm. apply bind_Some in Hm as (d&Hx&(dxs'&Hm&[= <-])%bind_Some).
    assert (xs !! length ys = Some x) as Hi.
    { rewrite <- (Nat.add_0_r (length ys)), <- lookup_drop, Hd. done. }
    assert (drop (length ys + 1) xs = rest) as Hrest by by rewrite <- drop_drop, Hd.
    destruct (view_mono h h' x d Hx) as [Hx' _]; [apply Hc|].
    destruct (copy_ok h' x d Hx') as (y&h2&Hy&Hfc). pose proof (copied_next _ _ _ _ _ _ _ _ _ Hc Hfc) as Hc2.
    destruct (IH dxs' _ _ _ Hc2) as (h3&ys3&Hrun&Hc3&Hlen).
    + rewrite length_app. simpl. by rewrite Hrest.
    + by simpl in Hk; lia.
    + exists h3, ys3. rewrite length_app in Hrun, Hlen. simpl in Hrun, Hlen.
      split; [|split; [by rewrite <- app_assoc in Hc3|lia]]. simpl.
      rewrite (Mem_bind_Some _ _ h' () (<[out := cell_of (<[length ys := y]>
        (ys ++ replicate (Datatypes.S k) zero))]> h2)); [by rewrite Nat.add_1_r in Hrun|].
      rewrite (Mem_bind_Some _ _ h' x h').
      2: { eapply array_load_spec; [|done]. by eapply deref_mono, Hc. }
      rewrite (Mem_bind_Some _ _ _ _ _ Hy). apply array_assign_spec.
      * destruct Hfc as [Hh2 _]. eapply lookup_weaken; [by apply Hc|done].
      * rewrite length_app, length_replicate. lia.
Qed.

Lemma elems_length h s xs : elems as_list h s = Some xs → length xs = sl_len s.
Proof.
  intros (l&_&Hl)%bind_Some. case_decide; [|done]. simplify_eq. rewrite length_take. lia.
Qed.

Lemma slice_copies : copies (S := slice_stored as_list S) (opt_copy (copy_slice as_list cell_of zero copy)).
Proof.
  intros h [s|] ds; simpl.
  2: { intros [= <-]. exists None, h. split; [done|]. split; [done|]. split; [done|].
       split; [by intros l Hl%not_elem_of_nil|constructor]. }
  intros (xs&Hx&Hds)%bind_Some. pose proof (elems_length _ _ _ Hx) as Hlen.
  pose proof Hx as Hx'. apply bind_Some in Hx' as (arr&Ha&Harr). case_decide; [|done].
  injection Harr as <-. destruct (alloc_spec (cell_of (replicate (sl_len s) zero)) h) as (out&Hal&Hout).
  destruct (copy_loop h out (sl_array s) arr ds Ha (sl_len s) []
    (<[out := cell_of (replicate (sl_len s) zero)]> h) []) as (h2&ys&Hrun&[Ho _ Hay Hv Hf Hn]&Hys).
  - split; simpl; try done; [by apply insert_subseteq|by rewrite lookup_insert_eq| |constructor].
    by intros l Hl%not_elem_of_nil.
  - by simpl; rewrite drop_0.
  - apply length_mapM in Hds. by rewrite <- Hds.
  - simpl in *. exists (Some (mkSlice out (sl_len s))), h2. split.
    { unfold copy_slice. rewrite (Mem_bind_Some _ _ _ (mkSlice out (sl_len s)) h2); [done|].
      rewrite (Mem_bind_Some _ _ _ _ _ Hal). by rewrite (Mem_bind_Some _ _ _ _ _ Hrun). }
    assert (elems as_list h2 (mkSlice out (sl_len s)) = Some ys) as He.
    { unfold elems, deref. simpl. rewrite Hay. simpl. rewrite cell_list, app_nil_r. simpl.
      rewrite decide_True by lia. by rewrite take_ge by lia. }
    split; [done|]. simpl. rewrite He. simpl. split; [done|]. split.
    + intros l [->|Hl]%elem_of_cons; [by apply not_elem_of_dom|]. by apply Hf.
    + constructor; [|done]. intros Hl. by apply (Hf out Hl).
Qed.
End slice_copy.

(** * Pointers *)

Section pointer_copy.
Context {A D : Type} (as_A : cell → option A) (cell_of : A → cell) (zero : A).
Context (S : Stored A D) (copy : A → Mem A).
Hypothesis cell_A : ∀ a, as_A (cell_of a) = Some a.
Hypothesis copy_ok : copies copy.

(** A variable that is allocated, copied into from a struct, and then pointed to. *)
Lemma pointer_copy_spec h l a d : deref as_A h l = Some a → view h a = Some d →
  let out := fresh (dom h) in
  ∃ a' h', copy a (<[out := cell_of zero]> h) = Some (a', h') ∧
    h' !! out = Some (cell_of zero) ∧
    fresh_copy (S := ref_stored as_A S) h (Some d) (Some out) (<[out := cell_of a']> h').
Proof.
  intros Ha Hd out. assert (h !! out = None) as Hout by apply not_elem_of_dom, is_fresh.
  assert (h ⊆ <[out := cell_of zero]> h) as Hsub by by apply insert_subseteq.
  destruct (view_mono _ _ _ _ Hd Hsub) as [Hd' _].
  destruct (copy_ok _ _ _ Hd') as (a'&h'&Hc&Hh'&Hv&Hf&Hn). exists a', h'. split; [done|].
  assert (h' !! out = Some (cell_of zero)) as Ho.
  { eapply lookup_weaken; [|done]. by rewrite lookup_insert_eq. }
  split; [done|].
  assert (out ∉ locs h' a') as Hnl.
  { intros Hl. apply (Hf out Hl). apply elem_of_dom. by rewrite lookup_insert_eq. }
  destruct (view_local h' (<[out := cell_of a']> h') a' d Hv) as [Hv2 Hl2].
  { intros l' Hl'. by rewrite lookup_insert_ne by (intros <-; done). }
  assert (deref as_A (<[out := cell_of a']> h') out = Some a') as Hde.
  { unfold deref. rewrite lookup_insert_eq. apply cell_A. }
  split; [apply insert_subseteq_r; [done|by etrans]|]. simpl. rewrite Hde. simpl.
  rewrite Hv2, Hl2. split; [done|]. split; [|by constructor].
  intros l' [->|Hl']%elem_of_cons; [by apply not_elem_of_dom|]. intros Hdom.
  apply (Hf l' Hl'). by eapply subseteq_dom.
Qed.
End pointer_copy.

Section spec.
Context `{L : MetaLib, LL : !MetaLaws L}.

Lemma time_copies : copies (S := TimeRef) (opt_copy Time_DeepCopy).
Proof.
  apply copies_nil; [done|]. intros h l d (t&Ht&[= <-])%bind_Some.
  destruct (Time_copies h l t Ht) as (l'&h'&Hl'&Hc). exists (Some l'), h'. split; [|done].
  simpl. by rewrite (Mem_bind_Some _ _ _ _ _ Hl').
Qed.

Lemma conditions_copies : copies (S := ConditionsRef)
  (opt_copy (copy_slice as_CConditions CConditions zero_Condition Condition_DeepCopyInto)).
Proof. apply slice_copies; [done|apply Condition_copies]. Qed.

Definition with_status_refs (st : MemStatus)
    (r : (option loc * option Slice) * (option loc * option loc)) : MemStatus :=
  let '((eps, conds), (start, last)) := r in
  mkMemStatus (ms_Phase st) (ms_Message st) (ms_Reason st) (ms_PodName st) (ms_ServiceName st)
    (ms_PodIP st) (ms_VMIP st) eps conds start last (ms_ObservedGeneration st) (ms_Usage st).

Lemma status_copies : copies LabSessionStatus_DeepCopyInto.
Proof.
  eapply (copies_via _ status_refs status_value _ _ with_status_refs).
  - apply (copies_pair (pair_stored MapRef ConditionsRef) (pair_stored TimeRef TimeRef));
      [apply (copies_pair MapRef ConditionsRef), conditions_copies; apply map_copies|].
    apply (copies_pair TimeRef TimeRef); apply time_copies.
  - intros [] h. unfold LabSessionStatus_DeepCopyInto, status_refs, opt_copy, mbind, Mem_bind. simpl.
    by repeat (destruct_match; simplify_eq/=).
  - by intros x [[??][??]].
  - by intros x [[??][??]] [[??][??]].
Qed.

Lemma spec_copy sp : LabSessionSpec_DeepCopyInto sp = sp.
Proof. by destruct sp. Qed.

Lemma session_copies : copies LabSession_DeepCopyInto.
Proof.
  eapply (copies_via (pair_stored MetaStored StatusStored) _ _ _ _
    (λ s '(m, st), mkMemSession (mo_TypeMeta s) m (mo_Spec s) st)).
  - apply (copies_pair MetaStored StatusStored); [apply ObjectMeta_copies|apply status_copies].
  - intros s h. unfold LabSession_DeepCopyInto, mbind, Mem_bind. simpl. rewrite spec_copy.
    by repeat (destruct_match; simplify_eq/=).
  - by intros x [??].
  - by intros x [??] [??].
Qed.

Lemma list_copies : copies LabSessionList_DeepCopyInto.
Proof.
  eapply (copies_via (pair_stored ListMetaStored ItemsRef) _ _ _ _
    (λ l '(m, items), mkLabSessionList (list_TypeMeta l) m items)).
  - apply (copies_pair ListMetaStored ItemsRef); [apply ListMeta_copies|].
    by apply (slice_copies as_CSessions CSessions zero_session SessionStored), session_copies.
  - intros [tm m [s|]] h; unfold LabSessionList_DeepCopyInto, opt_copy, mbind, Mem_bind; simpl;
      by repeat (destruct_match; simplify_eq/=).
  - by intros x [??].
  - by intros x [??] [??].
Qed.

Lemma session_pointer_copies : copies (S := SessionPtr) LabSession_DeepCopy.
Proof.
  apply copies_nil; [done|]. intros h l d (s&Hs&(d'&Hd&->)%fmap_Some)%bind_Some.
  destruct (pointer_copy_spec as_CSession CSession zero_session SessionStored
    LabSession_DeepCopyInto (λ _, eq_refl) session_copies h l s d' Hs Hd) as (s'&h'&Hc&Ho&Hf).
  eexists _, _. split; [|exact Hf]. apply bind_Some in Hs as ([]&Hl&[= <-]).
  unfold LabSession_DeepCopy. rewrite (Mem_bind_Some _ _ _ _ _ eq_refl).
  rewrite (Mem_bind_Some _ _ _ _ _ (load_spec l (CSession s0) _
    ltac:(rewrite lookup_insert_ne; [exact Hl|intros Heq; apply (is_fresh (dom h));
          rewrite Heq; by eapply elem_of_dom_2]))).
  rewrite (Mem_bind_Some _ _ _ _ _ Hc). by rewrite (Mem_bind_Some _ _ _ _ _ (assign_spec _ _ _ _ Ho)).
Qed.

Lemma list_pointer_copies : copies (S := ListPtr) LabSessionList_DeepCopy.
Proof.
  apply copies_nil; [done|]. intros h l d (s&Hs&(d'&Hd&->)%fmap_Some)%bind_Some.
  destruct (pointer_copy_spec as_CList CList zero_list ListStored
    LabSessionList_DeepCopyInto (λ _, eq_refl) list_copies h l s d' Hs Hd) as (s'&h'&Hc&Ho&Hf).
  eexists _, _. split; [|exact Hf]. apply bind_Some in Hs as ([]&Hl&[= <-]).
  unfold LabSessionList_DeepCopy. rewrite (Mem_bind_Some _ _ _ _ _ eq_refl).
  rewrite (Mem_bind_Some _ _ _ _ _ (load_spec l (CList l0) _
    ltac:(rewrite lookup_insert_ne; [exact Hl|intros Heq; apply (is_fresh (dom h));
          rewrite Heq; by eapply elem_of_dom_2]))).
  rewrite (Mem_bind_Some _ _ _ _ _ Hc). by rewrite (Mem_bind_Some _ _ _ _ _ (assign_spec _ _ _ _ Ho)).
Qed.

(** * Independence *)

(** The heap changed at most in the locations [X]. *)
Definition changed_only (X : list loc) (h h' : heap) : Prop := ∀ l, l ∉ X → h' !! l = h !! l.

(** A copy that means what its original means, and whatever is written through one
    of the two is not seen through the other. *)
Definition copies_independently {T D} (S : Stored T D) (f : T → Mem T) : Prop :=
  ∀ h x d, view h x = Some d → ∃ y h', f x h = Some (y, h') ∧
    view h' x = Some d ∧ view h' y = Some d ∧
    (∀ h2, changed_only (locs h' y) h' h2 → view h2 x = Some d) ∧
    (∀ h2, changed_only (locs h' x) h' h2 → view h2 y = Some d).

Lemma fresh_copy_apart {T D} (S : Stored T D) h x d y h' l :
  view h x = Some d → fresh_copy h d y h' → l ∈ locs h' x → l ∈ locs h' y → False.
Proof.
  intros Hx (Hh&_&Hf&_) Hlx Hly. destruct (view_mono h h' x d Hx Hh) as [_ Hl].
  rewrite Hl in Hlx. apply (Hf l Hly). by eapply view_reach.
Qed.

Lemma copies_independent {T D} (S : Stored T D) f : copies f → copies_independently S f.
Proof.
  intros Hf h x d Hx. destruct (Hf h x d Hx) as (y&h'&Hy&Hc). exists y, h'. split; [done|].
  pose proof (fresh_copy_apart S h x d y h') as Ha. pose proof Hc as (Hh&Hv&_&_).
  destruct (view_mono h h' x d Hx Hh) as [Hx' Hl]. split; [done|]. split; [done|].
  split; intros h2 Hch.
  - apply (view_local h' h2 x d Hx'). intros l Hlx. apply Hch. eauto.
  - apply (view_local h' h2 y d Hv). intros l Hly. apply Hch. eauto.
Qed.

(** C17: deep copies are independent. Copying a session, or a list of sessions with
    all its items, gives an object that means the same, changes nothing that was
    there, and shares no map, array, struct or time with the original: whatever is
    written through one is not seen through the other. A nil pointer copies to nil,
    and as a [runtime.Object] to a nil interface. *)
Theorem deep_copies_are_independent :
  copies_independently SessionPtr LabSession_DeepCopy ∧
  copies_independently ListPtr LabSessionList_DeepCopy ∧
  ∀ h, LabSession_DeepCopyObject None h = Some (None, h) ∧
       LabSessionList_DeepCopyObject None h = Some (None, h).
Proof.
  split; [apply copies_independent, session_pointer_copies|].
  split; [apply copies_independent, list_pointer_copies|done].
Qed.

(** * The patch of [publishPhase] *)

(** The parts of a session's meaning. *)
Lemma session_view h s tm v : view h s = Some (tm, v) ↔
  ∃ del fins labels annotations owners st,
    view (Stored := TimeRef) h (mm_DeletionTimestamp (mo_ObjectMeta s)) = Some del ∧
    view (Stored := StringsRef) h (mm_Finalizers (mo_ObjectMeta s)) = Some fins ∧
    view (Stored := MapRef) h (mm_Labels (mo_ObjectMeta s)) = Some labels ∧
    view (Stored := MapRef) h (mm_Annotations (mo_ObjectMeta s)) = Some annotations ∧
    view (Stored := OwnersRef) h (mm_OwnerReferences (mo_ObjectMeta s)) = Some owners ∧
    view h (mo_Status s) = Some st ∧ tm = mo_TypeMeta s ∧
    v = mkLabSession (meta_value (mo_ObjectMeta s) ((del, fins), ((labels, annotations), owners)))
          (mo_Spec s) st.
Proof.
  split.
  - intros ([m st]&[Hm Hst]%pair_view&[= -> ->])%via_view.
    apply via_view in Hm as ([[del fins] [[labels annotations] owners]]&Hm&->).
    apply pair_view in Hm as [[H1 H2]%pair_view [[H3 H4]%pair_view H5]%pair_view].
    by exists del, fins, labels, annotations, owners, st.
  - intros (del&fins&labels&annotations&owners&st&H1&H2&H3&H4&H5&Hst&->&->).
    apply via_view. eexists (_, _). split; [|reflexivity]. apply pair_view. split; [|exact Hst].
    apply via_view. eexists. split; [|reflexivity]. by repeat (apply pair_view; split).
Qed.

(** Giving a session another map of annotations changes nothing else. *)
Lemma session_view_annotations h h' s tm v l a :
  view h s = Some (tm, v) → h' !! l = Some (CMap a) →
  (∀ l', l' ∈ locs h s → mm_Annotations (mo_ObjectMeta s) ≠ Some l' → h' !! l' = h !! l') →
  NoDup (locs h s) →
  view h' (set_mm_Annotations (Some l) s) = Some (tm, set_Annotations (Some a) v).
Proof.
  intros Hv Hl Hs Hn. apply session_view in Hv
    as (del&fins&labels&annotations&owners&st&H1&H2&H3&H4&H5&Hst&->&->).
  assert (∀ l', mm_Annotations (mo_ObjectMeta s) = Some l' →
    l' ∈ locs (Stored := MapRef) h (mm_Annotations (mo_ObjectMeta s))) as Hin.
  { intros l' ->. simpl. by left. }
  set (m := mo_ObjectMeta s) in *.
  set (LT := locs (Stored := TimeRef) h (mm_DeletionTimestamp m)).
  set (LF := locs (Stored := StringsRef) h (mm_Finalizers m)).
  set (LL' := locs (Stored := MapRef) h (mm_Labels m)).
  set (LA := locs (Stored := MapRef) h (mm_Annotations m)) in *.
  set (LO := locs (Stored := OwnersRef) h (mm_OwnerReferences m)).
  set (LS := locs h (mo_Status s)).
  change (locs h s) with (((LT ++ LF) ++ ((LL' ++ LA) ++ LO)) ++ LS) in Hs, Hn.
  assert (∀ l', l' ∈ LT ++ LF ++ LL' ++ LO ++ LS → h' !! l' = h !! l') as Ho.
  { intros l' Hl'. apply Hs; [set_solver|]. intros Ha%Hin. rewrite !NoDup_app in Hn.
    rewrite !elem_of_app in Hl'. set_solver. }
  apply session_view. exists del, fins, labels, (Some a), owners, st.
  repeat split; try by (eapply view_local; [eassumption|intros ??; apply Ho; set_solver]).
  simpl. unfold deref. by rewrite Hl.
Qed.

(** The heap after the phase is written into the annotations at [la]: a location that
    was the session's already, or a new one. *)
Lemma record_written h1 h2 p base m tm s la a :
  h1 !! p = Some (CSession m) → view h1 m = Some (tm, s) → NoDup (p :: locs h1 m) →
  view (Stored := SessionPtr) h1 base = Some (Some (tm, s)) →
  (∀ l, l ∈ p :: locs h1 m → l ∉ locs (Stored := SessionPtr) h1 base) →
  (mm_Annotations (mo_ObjectMeta m) = Some la ∧ la ∈ locs h1 m) ∨
    (mm_Annotations (mo_ObjectMeta m) = None ∧ la ∉ dom h1) →
  h2 !! p = Some (CSession (set_mm_Annotations (Some la) m)) → h2 !! la = Some (CMap a) →
  (∀ l, l ≠ p → l ≠ la → h2 !! l = h1 !! l) →
  view (Stored := SessionPtr) h2 base = Some (Some (tm, s)) ∧
  view (Stored := SessionPtr) h2 (Some p) = Some (Some (tm, set_Annotations (Some a) s)).
Proof.
  intros Hp Hm [Hpm Hnd]%NoDup_cons Hb Hap Hla Hp2 Hla2 Hch. split.
  - eapply view_local; [exact Hb|]. intros l Hl. apply Hch; intros ->.
    + apply (Hap p); [by left|done].
    + destruct Hla as [[_ Hin]|[_ Hin]]; [apply (Hap la); [by right|done]|].
      exact (Hin (view_reach (Stored := SessionPtr) h1 base _ la Hb Hl)).
  - unfold SessionPtr. rewrite (ref_view as_CSession SessionStored h2 p (set_mm_Annotations (Some la) m))
      by (unfold deref; by rewrite Hp2).
    rewrite (session_view_annotations h1 h2 m tm s la a); try done.
    intros l Hl Hne. apply Hch; [by intros ->|]. intros ->.
    destruct Hla as [[Heq _]|[_ Hin]]; [by rewrite Heq in Hne|].
    exact (Hin (view_reach h1 m _ la Hm Hl)).
Qed.

(** The annotations of a session in memory. *)
Lemma annotations_in_memory h m tm s : view h m = Some (tm, s) →
  match mm_Annotations (mo_ObjectMeta m) with
  | Some la => la ∈ locs h m ∧ ∃ a, h !! la = Some (CMap a) ∧ meta_Annotations (ObjMeta s) = Some a
  | None => meta_Annotations (ObjMeta s) = None
  end.
Proof.
  intros (del&fins&labels&annotations&owners&st&_&_&_&H4&_&_&_&->)%session_view.
  destruct (mm_Annotations (mo_ObjectMeta m)) as [la|] eqn:E; simpl in *.
  - apply bind_Some in H4 as (a&Ha&[= <-]). split.
    + rewrite E. simpl. rewrite !elem_of_app. set_solver.
    + apply bind_Some in Ha as ([]&Hl&[= <-]). eauto.
  - by injection H4 as <-.
Qed.

(** The phase is written into a new map of annotations. *)
Lemma create_annotations {A} p m key phase (x : A) h la :
  h !! p = Some (CSession m) → alloc (CMap ∅) h = Some (la, <[la := CMap ∅]> h) → p ≠ la →
  let h' := <[p := CSession (set_mm_Annotations (Some la) m)]> (<[la := CMap ∅]> h) in
  ((l ← alloc (CMap ∅); _ ← assign p (CSession (set_mm_Annotations (Some l) m)); mret l) ≫= λ l,
    _ ← map_assign l key phase; mret x) h = Some (x, <[la := CMap (<[key := phase]> ∅)]> h').
Proof.
  intros Hp Hal Hne h'. rewrite (Mem_bind_Some _ _ h la h').
  - rewrite (Mem_bind_Some _ _ h' () (<[la := CMap (<[key := phase]> ∅)]> h')); [done|].
    apply map_assign_spec. unfold h'. by rewrite lookup_insert_ne, lookup_insert_eq.
  - rewrite (Mem_bind_Some _ _ _ _ _ Hal).
    by rewrite (Mem_bind_Some _ _ _ () h') by (eapply assign_spec; by rewrite lookup_insert_ne).
Qed.

(** C18: the base of the patch that records a phase. [publishPhase] copies the session
    before it writes the phase into the session's annotations, creating the map when
    there is none. For a session in memory whose parts do not alias, what it hands to
    the patch is what the model says: the copy means the session as it was, the
    original means the session with the phase recorded and nothing else changed. *)
Theorem patch_base_is_unrecorded h p tm s :
  view (Stored := SessionPtr) h (Some p) = Some (Some (tm, s)) →
  NoDup (locs (Stored := SessionPtr) h (Some p)) →
  ∃ base h', record_in_memory p PublishedPhaseAnnotation (Phase (Status s)) h = Some (base, h') ∧
    view (Stored := SessionPtr) h' base = Some (Some (tm, s)) ∧
    view (Stored := SessionPtr) h' (Some p) = Some (Some (tm, record_phase s)).
Proof.
  intros Hv Hnd. destruct (session_pointer_copies h (Some p) _ Hv) as (base&h1&Hc&Hf).
  pose proof (fresh_copy_apart SessionPtr h (Some p) (Some (tm, s)) base h1) as Hap. pose proof Hf as (Hh&Hb&_&_).
  destruct (view_mono h h1 (Some p) _ Hv Hh) as [Hv1 Hl1]. rewrite <- Hl1 in Hnd. clear Hl1.
  apply bind_Some in Hv1 as (m&Hm&(d&Hd&[= <-])%fmap_Some).
  apply bind_Some in Hm as ([]&Hp&[= <-]). rename s0 into m.
  assert (locs (Stored := SessionPtr) h1 (Some p) = p :: locs h1 m) as Hlocs.
  { simpl. unfold deref. by rewrite Hp. }
  rewrite Hlocs in Hnd, Hap. apply NoDup_cons in Hnd as [Hpm Hnd].
  unfold record_in_memory. rewrite (Mem_bind_Some _ _ _ _ _ Hc).
  rewrite (Mem_bind_Some _ _ _ _ _ (load_spec _ _ _ Hp)).
  pose proof (annotations_in_memory _ _ _ _ Hd) as Hann.
  destruct (mm_Annotations (mo_ObjectMeta m)) as [la|] eqn:E.
  - destruct Hann as (Hin&a&Hla&Ha). exists base, (<[la := CMap (<[PublishedPhaseAnnotation := Phase (Status s)]> a)]> h1).
    split.
    { rewrite (Mem_bind_Some _ _ h1 la h1) by done.
      rewrite (Mem_bind_Some _ _ h1 ()
        (<[la := CMap (<[PublishedPhaseAnnotation := Phase (Status s)]> a)]> h1)); [done|].
      by apply map_assign_spec. }
    unfold record_phase. rewrite Ha. simpl default.
    apply (record_written h1 _ p base m tm s la); try done; [by constructor|by eauto|by left| | |].
    + rewrite lookup_insert_ne by (by intros ->). rewrite Hp. do 2 f_equal. destruct m as [? []]. simpl in *. by subst.
    + by rewrite lookup_insert_eq.
    + intros l _ Hne. by rewrite lookup_insert_ne.
  - destruct (alloc_spec (CMap ∅) h1) as (la&Hal&Hla).
    assert (p ≠ la) as Hne by congruence.
    set (h2 := <[p := CSession (set_mm_Annotations (Some la) m)]> (<[la := CMap ∅]> h1)).
    assert (h2 !! la = Some (CMap ∅)) as Hla2.
    { unfold h2. by rewrite lookup_insert_ne, lookup_insert_eq. }
    eexists base, (<[la := CMap (<[PublishedPhaseAnnotation := Phase (Status s)]> ∅)]> h2). split.
    { by apply create_annotations. }
    unfold record_phase. rewrite Hann. simpl default.
    apply (record_written h1 _ p base m tm s la); try done; [by constructor|by eauto| | | |].
    + right. split; [done|]. by apply not_elem_of_dom.
    + rewrite lookup_insert_ne by done. unfold h2. by rewrite lookup_insert_eq.
    + by rewrite lookup_insert_eq.
    + intros l ??. unfold h2. by rewrite !lookup_insert_ne.
Qed.
End spec.
