(* ===== verification/LoggingSpec.v ===== *)
(** What the log lines hold, and that logging an operation does not change it. *)
From S2P Require Import Prelude GoStrings Unstructured Telemetry Logging.

Section spec.
Context `{L : LogLib, LL : !LogLaws L, Clock} {S : Type}.

(** * Fields *)

Lemma range_NoDup m : NoDup (range m).*1.
Proof. rewrite (LL m). apply NoDup_fst_map_to_list. Qed.

Lemma range_elem m k v : (k, v) ∈ range m ↔ m !! k = Some v.
Proof. by rewrite (LL m), elem_of_map_to_list. Qed.

Lemma merge_fields_union all fields : merge_fields all fields = fields ∪ all.
Proof.
  unfold merge_fields. rewrite foldl_insert by apply range_NoDup. f_equal.
  rewrite <- (list_to_map_to_list fields) at 2. apply list_to_map_proper; [apply range_NoDup|apply LL].
Qed.

(** The value of a key in a list of fields: the last one wins. *)
Definition last_field (fieldsList : list Fields) (k : string) : option json :=
  last (omap (λ fs : Fields, fs !! k) fieldsList).

Lemma merged_lookup fieldsList k : ∀ all,
  foldl merge_fields all fieldsList !! k =
  match last_field fieldsList k with Some v => Some v | None => all !! k end.
Proof.
  unfold last_field. induction fieldsList as [|fs fieldsList IH]; intros all; simpl; [done|].
  rewrite IH, merge_fields_union, lookup_union.
  destruct (fs !! k) as [v|] eqn:E; rewrite ?E; simpl.
  - rewrite last_cons. change (list_omap _ _ ?f ?l) with (omap f l).
    destruct (last (omap _ fieldsList)); [done|]. by destruct (all !! k).
  - by rewrite (left_id_L None (∪)).
Qed.

(** The value a line has for a key: the package's own keys win. *)
Definition line_field (l : Logger) (level : LogLevel) (t : time) (fieldsList : list Fields)
    (k : string) : option json :=
  if decide (k = "logger") then Some (JString (lg_name l))
  else if decide (k = "level") then Some (JString (LogLevel_String level))
  else if decide (k = "timestamp") then Some (JString (Format_RFC3339 t))
  else last_field fieldsList k.

(** The call that writes a line. *)
Definition line (l : Logger) (level : LogLevel) (msg : string) (values : list (string * json))
    : log_call :=
  if decide (level = ErrorLevel) then LogError (lg_base l) msg values
  else if decide (level = DebugLevel) then LogInfo (lg_base l) 1 msg values
  else if decide (level = InfoLevel) then LogInfo (lg_base l) 0 msg values
  else LogInfo (lg_base l) 0 ("WARN: " +:+ msg) values.

(** The entries of a line. *)
Definition holds (l : Logger) (level : LogLevel) (t : time) (fieldsList : list Fields)
    (values : list (string * json)) : Prop :=
  NoDup values.*1 ∧ ∀ k v, (k, v) ∈ values ↔ line_field l level t fieldsList k = Some v.

Lemma range_holds l level t fieldsList :
  holds l level t fieldsList (range (<["logger" := JString (lg_name l)]>
    (<["level" := JString (LogLevel_String level)]>
    (<["timestamp" := JString (Format_RFC3339 t)]> (foldl merge_fields ∅ fieldsList))))).
Proof.
  split; [apply range_NoDup|]. intros k v. rewrite range_elem. unfold line_field.
  rewrite !lookup_insert, merged_lookup, lookup_empty.
  repeat case_decide; subst; try done. by destruct (last_field fieldsList k).
Qed.

Lemma line_of_level (l : Logger) (level : LogLevel) (msg : string) (fieldsList : list Fields)
    (w : world log_call S) : DebugLevel ≤ level ≤ ErrorLevel →
  ∃ values, holds l level (clock (reads w)) fieldsList values ∧
    logWithFields l level msg fieldsList w =
      (Done (), mkWorld (Datatypes.S (reads w)) (log w ++ [line l level msg values]) (rest w)).
Proof.
  intros Hl. eexists. split; [apply range_holds|]. unfold logWithFields, line.
  assert (level = DebugLevel ∨ level = InfoLevel ∨ level = WarnLevel ∨ level = ErrorLevel)
    as [-> |[-> |[-> | ->]]] by (unfold DebugLevel, InfoLevel, WarnLevel, ErrorLevel in *; lia);
    reflexivity.
Qed.

(** A log line. Logging at a level of the package reads the clock once and
    makes one call of the logger underneath: at that level, with every key once;
    time, level and logger name are the package's own whatever the caller's fields
    say, and of several values for another key the last one is logged. *)
Theorem line_holds_fields (l : Logger) (level : LogLevel) (msg : string) (fieldsList : list Fields)
    (w : world log_call S) : DebugLevel ≤ level ≤ ErrorLevel →
  ∃ values, holds l level (clock (reads w)) fieldsList values ∧
    logWithFields l level msg fieldsList w =
      (Done (), mkWorld (Datatypes.S (reads w)) (log w ++ [line l level msg values]) (rest w)).
Proof. apply line_of_level. Qed.

(** * Operations *)

(** The line after an operation. *)
Definition closing (rl : ReconcileLogger) (ctx : Context) (operation : string) (err : option Err)
    (values : list (string * json)) : log_call :=
  let l := WithContext (rl_Logger rl) ctx in
  match err with
  | Some _ => line (WithError l err) ErrorLevel ("Operation " +:+ operation +:+ " failed") values
  | None => line l DebugLevel ("Operation " +:+ operation +:+ " completed") values
  end.

Definition operation_fields (operation : string) (d : duration) (err : option Err) : Fields :=
  {["operation" := JString operation; "duration_ms" := JNumber (Milliseconds d);
    "success" := JBool (no_error err)]}.

Lemma holds_operation l level t operation d err values :
  holds l level t [operation_fields operation d err] values →
  ("operation", JString operation) ∈ values ∧ ("success", JBool (no_error err)) ∈ values ∧
  ("duration_ms", JNumber (Milliseconds d)) ∈ values.
Proof. intros [_ Hv]. by rewrite !Hv. Qed.

Lemma log_closing rl ctx operation d err (w : world log_call S) :
  ∃ values, (("operation", JString operation) ∈ values ∧ ("success", JBool (no_error err)) ∈ values ∧
      ("duration_ms", JNumber (Milliseconds d)) ∈ values) ∧
    match err with
    | Some _ => ErrorWithContext (rl_Logger rl) ctx err ("Operation " +:+ operation +:+ " failed")
                  [operation_fields operation d err]
    | None => DebugWithContext (rl_Logger rl) ctx ("Operation " +:+ operation +:+ " completed")
                  [operation_fields operation d err]
    end w = (Done (), mkWorld (Datatypes.S (reads w)) (log w ++ [closing rl ctx operation err values]) (rest w)).
Proof.
  set (l := WithContext (rl_Logger rl) ctx).
  destruct err as [e|].
  - destruct (line_of_level (WithError l (Some e)) ErrorLevel ("Operation " +:+ operation +:+ " failed")
      [operation_fields operation d (Some e)] w) as (v&Hv&Hl); [done|].
    exists v. split; [by eapply holds_operation|exact Hl].
  - destruct (line_of_level l DebugLevel ("Operation " +:+ operation +:+ " completed")
      [operation_fields operation d None] w) as (v&Hv&Hl); [done|].
    exists v. split; [by eapply holds_operation|exact Hl].
Qed.

(** Logging an operation does not change it. [LogOperation] logs one line and
    runs the operation; when that returns, it logs one more line, an error line
    exactly when there is an error, with the name, the time that passed and whether
    it went well, and returns what the operation returned. A panic goes through. *)
Theorem operation_is_logged (rl : ReconcileLogger) (ctx : Context) (operation : string)
    (fn : Tel log_call S (option Err)) (w : world log_call S) :
  ∃ v1, let w1 := mkWorld (2 + reads w)%nat
      (log w ++ [line (WithContext (rl_Logger rl) ctx) DebugLevel ("Starting " +:+ operation) v1])
      (rest w) in
    match fn w1 with
    | (Panicked, w2) => LogOperation rl ctx operation fn w = (Panicked, w2)
    | (Done err, w2) => ∃ v2,
        LogOperation rl ctx operation fn w =
          (Done err, mkWorld (2 + reads w2)%nat (log w2 ++ [closing rl ctx operation err v2]) (rest w2)) ∧
        ("operation", JString operation) ∈ v2 ∧
        ("success", JBool (no_error err)) ∈ v2 ∧
        ("duration_ms", JNumber (Milliseconds (time_sub (clock (reads w2)) (clock (reads w))))) ∈ v2
    end.
Proof.
  destruct (line_of_level (WithContext (rl_Logger rl) ctx) DebugLevel ("Starting " +:+ operation) []
    (mkWorld (Datatypes.S (reads w)) (log w) (rest w))) as (v1&_&H1); [done|].
  exists v1. cbn zeta. simpl in H1. unfold LogOperation.
  rewrite (Tel_bind_Done now _ w (clock (reads w)) (mkWorld (Datatypes.S (reads w)) (log w) (rest w)) eq_refl).
  rewrite (Tel_bind_Done _ _ _ _ _ H1).
  destruct (fn _) as [[err|] w2] eqn:Hfn; [|by rewrite (Tel_bind_Panicked _ _ _ _ Hfn)].
  rewrite (Tel_bind_Done _ _ _ _ _ Hfn).
  set (d := time_sub (clock (reads w2)) (clock (reads w))).
  set (w3 := mkWorld (Datatypes.S (reads w2)) (log w2) (rest w2)).
  rewrite (Tel_bind_Done (since (clock (reads w))) _ w2 d w3 eq_refl).
  destruct (log_closing rl ctx operation d err w3) as (v2&Hv&Hc). exists v2.
  split; [exact (Tel_bind_Done _ _ _ _ _ Hc)|exact Hv].
Qed.
End spec.
