(* ===== verification/TracingSpec.v ===== *)
(** Tracing records what runs and does not change it: every span is ended once, in
    the span it was started in, with the status of the operation it stands for. *)
From S2P Require Import Prelude GoStrings Kube Types PodSettings Events Effects Reconciler Telemetry.
From S2P Require Import Tracing.

Section spec.
Context {E : Type} `{T : TraceLib E} `{Clock} {S : Type}.
Abbreviation call := (@trace_call E T).
Abbreviation Trace := (Tel call S).

(** * Reading a log back *)

(** A span that is open: its name, and the status set so far. *)
Record open_span := mkOpen { os_span : Span; os_name : string; os_status : option Code }.

(** The spans that are open, innermost first, and those that were ended. *)
Record reader := mkReader {
  position : nat;
  stack : list open_span;
  finished : list (string * option Code)
}.

(** The current span: the innermost open one, else that of the context outside. *)
Definition current (outer : SpanContext) (st : list open_span) : SpanContext :=
  match st with o :: _ => Some (os_span o) | [] => outer end.

(** Reads one call: a span must start in the current span, and all other calls must
    be of the current span. *)
Definition read (outer : SpanContext) (r : reader) (c : call) : option reader :=
  let next st fin := Some (mkReader (Datatypes.S (position r)) st fin) in
  match c with
  | StartSpan_call _ parent name _ _ =>
      if decide (parent = current outer (stack r))
      then next (mkOpen (position r) name None :: stack r) (finished r) else None
  | AddEvent s _ | SetAttributes s _ | SpanRecordError s _ =>
      if decide (Some s = os_span <$> head (stack r)) then next (stack r) (finished r) else None
  | SetStatus s code _ =>
      match stack r with
      | o :: st => if decide (s = os_span o)
                   then next (mkOpen s (os_name o) (Some code) :: st) (finished r) else None
      | [] => None
      end
  | EndSpan s =>
      match stack r with
      | o :: st => if decide (s = os_span o)
                   then next st (finished r ++ [(os_name o, os_status o)]) else None
      | [] => None
      end
  end.

Fixpoint read_all (outer : SpanContext) (r : reader) (l : list call) : option reader :=
  match l with
  | [] => Some r
  | c :: l => r' ← read outer r c; read_all outer r' l
  end.

Lemma read_all_app outer r l1 l2 :
  read_all outer r (l1 ++ l2) = r' ← read_all outer r l1; read_all outer r' l2.
Proof.
  revert r. induction l1 as [|c l1 IH]; intros r; [done|]. simpl.
  by destruct (read outer r c); simpl.
Qed.

(** * Wrapped code *)

(** Code that traces its parts: it returns, panics, works on the rest of the world,
    or runs an operation as a traced one and goes on with its error. *)
Inductive work :=
| Return (err : option E)
| Crash
| Step (f : S → option E * S) (next : option E → work)
| Traced (name : string) (body : work) (next : option E → work).

Fixpoint perform (t : Tracer) (ctx : SpanContext) (w : work) : Trace (option E) :=
  match w with
  | Return err => mret err
  | Crash => panic
  | Step f next => err ← outside (λ s, let '(e, s') := f s in (Done e, s')); perform t ctx (next err)
  | Traced name body next =>
      err ← TracedOperation t ctx name (λ ctx', perform t ctx' body); perform t ctx (next err)
  end.

(** The same code without tracing. *)
Fixpoint untraced (w : work) (s : S) : outcome (option E) * S :=
  match w with
  | Return err => (Done err, s)
  | Crash => (Panicked, s)
  | Step f next => let '(e, s1) := f s in untraced (next e) s1
  | Traced _ body next =>
      match untraced body s with
      | (Done e, s1) => untraced (next e) s1
      | (Panicked, s1) => (Panicked, s1)
      end
  end.

(** The status of the span of an operation: none when it panicked. *)
Definition status_of (out : outcome (option E)) : option Code :=
  match out with
  | Done (Some _) => Some CodeError
  | Done None => Some CodeOk
  | Panicked => None
  end.

(** The operations that were run, in the order in which they ended. *)
Fixpoint operations (w : work) (s : S) : list (string * option Code) :=
  match w with
  | Return _ | Crash => []
  | Step f next => let '(e, s1) := f s in operations (next e) s1
  | Traced name body next =>
      operations body s ++ [(name, status_of (untraced body s).1)] ++
      match untraced body s with
      | (Done e, s1) => operations (next e) s1
      | (Panicked, _) => []
      end
  end.

(** A traced run from [w] that ends in [w'] added calls that read back as [fin], and
    left the open spans as they were. *)
Definition reads_back (outer : SpanContext) (st : list open_span) (w w' : world call S)
    (fin : list (string * option Code)) : Prop :=
  ∃ l, log w' = log w ++ l ∧ ∀ fin0,
    read_all outer (mkReader (length (log w)) st fin0) l =
    Some (mkReader (length (log w')) st (fin0 ++ fin)).

Lemma reads_back_nil outer st w w' : log w' = log w → reads_back outer st w w' [].
Proof.
  intros Hl. exists []. rewrite app_nil_r. split; [done|]. intros fin0. simpl. by rewrite app_nil_r, Hl.
Qed.

Lemma reads_back_trans outer st w1 w2 w3 f1 f2 :
  reads_back outer st w1 w2 f1 → reads_back outer st w2 w3 f2 →
  reads_back outer st w1 w3 (f1 ++ f2).
Proof.
  intros (l1&H1&R1) (l2&H2&R2). exists (l1 ++ l2). split; [by rewrite H2, H1, app_assoc|].
  intros fin0. rewrite read_all_app, R1. simpl. by rewrite R2, app_assoc.
Qed.
(** * A traced call *)

(** The calls after the wrapped code returned. *)
Definition outcome_calls (span : Span) (err : option E) (errorType name : string) : list call :=
  match err with
  | Some e => [SpanRecordError span e;
               SetAttributes span [(AttrErrorType, AString errorType); ("error", ABool true)];
               SetStatus span CodeError (error_Error e); AddEvent span (name +:+ ".failed")]
  | None => [SetAttributes span [("success", ABool true)]; SetStatus span CodeOk "";
             AddEvent span (name +:+ ".completed")]
  end.

Lemma record_outcome_spec span err errorType name (w : world call S) :
  record_outcome span err errorType name w =
  (Done (), mkWorld (reads w) (log w ++ outcome_calls span err errorType name) (rest w)).
Proof.
  destruct err; unfold record_outcome, RecordError, RecordSuccess, emit, mbind, Tel_bind; simpl;
    by rewrite <- !app_assoc.
Qed.

Lemma outcome_calls_read outer sp name st err errorType n p fin :
  read_all outer (mkReader p (mkOpen sp name None :: st) fin) (outcome_calls sp err errorType n) =
  Some (mkReader (p + length (outcome_calls sp err errorType n))
    (mkOpen sp name (status_of (Done err)) :: st) fin).
Proof.
  destruct err; simpl; repeat (rewrite decide_True by done; simpl); do 2 f_equal; lia.
Qed.

Lemma attributes_read outer sp name st attrss p fin :
  read_all outer (mkReader p (mkOpen sp name None :: st) fin) (SetAttributes sp <$> attrss) =
  Some (mkReader (p + length attrss) (mkOpen sp name None :: st) fin).
Proof.
  revert p. induction attrss as [|a attrss IH]; intros p; simpl; [by rewrite Nat.add_0_r|].
  rewrite decide_True by done. simpl. rewrite IH. do 2 f_equal. lia.
Qed.

(** A span around a log that reads back within it. *)
Lemma span_reads_back outer st (w w2 w' : world call S) tr name attrs kind event fin attrss out tail :
  let sp := length (log w) in
  let w1 := mkWorld (Datatypes.S (reads w))
    (log w ++ [StartSpan_call tr (current outer st) name attrs kind; AddEvent sp event]) (rest w) in
  reads_back outer (mkOpen sp name None :: st) w1 w2 fin →
  log w' = log w2 ++ (SetAttributes sp <$> attrss) ++ tail ++ [EndSpan sp] →
  match out with
  | Panicked => tail = []
  | Done err => ∃ errorType n, tail = outcome_calls sp err errorType n
  end →
  reads_back outer st w w' (fin ++ [(name, status_of out)]).
Proof.
  intros sp w1 (l&Hl&Hr) Hw' Htail. simpl in Hl. rewrite Hl in Hw'.
  eexists. split; [by rewrite Hw', <- !app_assoc|]. intros fin0.
  simpl. rewrite decide_True by done. simpl. rewrite decide_True by done. simpl.
  rewrite read_all_app. specialize (Hr fin0). simpl in Hr. rewrite length_app in Hr. simpl in Hr.
  replace (Datatypes.S (Datatypes.S (length (log w)))) with (length (log w) + 2)%nat by lia.
  fold sp. fold sp in Hr. rewrite Hr. simpl. rewrite read_all_app, attributes_read. simpl.
  assert (length (log w') = length (log w2) + length attrss + length tail + 1)%nat as Hlen.
  { rewrite Hw', <- Hl, !length_app, length_fmap. simpl. lia. }
  rewrite read_all_app. destruct out as [err|].
  - destruct Htail as (et&n&->). rewrite outcome_calls_read. simpl.
    rewrite decide_True by done. simpl. rewrite <- app_assoc. do 2 f_equal. lia.
  - subst tail. simpl in *. rewrite decide_True by done. simpl. rewrite <- app_assoc.
    do 2 f_equal. lia.
Qed.

(** A traced operation, given what its function does within the new span. *)
Lemma TracedOperation_spec outer st t name fn (w w2 : world call S) out fin :
  let sp := length (log w) in
  let w1 := mkWorld (Datatypes.S (reads w))
    (log w ++ [StartSpan_call (tr_tracer t) (current outer st) name [(AttrOperation, AString name)]
                 SpanKindInternal; AddEvent sp (name +:+ ".started")]) (rest w) in
  fn (Some sp) w1 = (out, w2) →
  reads_back outer (mkOpen sp name None :: st) w1 w2 fin →
  ∃ w', TracedOperation t (current outer st) name fn w = (out, w') ∧ rest w' = rest w2 ∧
    reads_back outer st w w' (fin ++ [(name, status_of out)]).
Proof.
  intros sp w1 Hfn Hr.
  assert (TracedOperation t (current outer st) name fn w = defer (EndSpan sp)
    (err ← fn (Some sp);
     d ← since (clock (reads w));
     _ ← emit (SetAttributes sp [("duration_ms", AInt (Milliseconds d))]);
     _ ← record_outcome sp err name name;
     mret err) w1) as ->.
  { unfold TracedOperation, OperationSpan, StartSpan, defer, emit, now, mbind, Tel_bind. simpl.
    by rewrite <- app_assoc. }
  unfold defer. destruct out as [err|].
  - rewrite (Tel_bind_Done _ _ _ _ _ Hfn).
    rewrite (Tel_bind_Done (since (clock (reads w))) _ w2 _ _ eq_refl).
    set (a := [("duration_ms", AInt _)]).
    rewrite (Tel_bind_Done (emit (SetAttributes sp a)) _ _ _ _ eq_refl).
    rewrite (Tel_bind_Done _ _ _ _ _ (record_outcome_spec _ _ _ _ _)). simpl.
    eexists. split; [reflexivity|]. split; [done|].
    eapply (span_reads_back _ _ _ _ _ _ _ _ _ _ _ [a] (Done err)); [exact Hr| |by eauto].
    simpl. by rewrite <- !app_assoc.
  - rewrite (Tel_bind_Panicked _ _ _ _ Hfn).
    eexists. split; [reflexivity|]. split; [done|].
    eapply (span_reads_back _ _ _ _ _ _ _ _ _ _ _ [] Panicked []); [exact Hr|done|done].
Qed.

Lemma perform_spec outer t w : ∀ st (w0 : world call S),
  let '(out, s) := untraced w (rest w0) in
  ∃ w', perform t (current outer st) w w0 = (out, w') ∧ rest w' = s ∧
    reads_back outer st w0 w' (operations w (rest w0)).
Proof.
  induction w as [err| |f next IH|name body IHb next IH]; intros st w0; cbn [untraced perform operations].
  - exists w0. split; [done|]. split; [done|]. by apply reads_back_nil.
  - exists w0. split; [done|]. split; [done|]. by apply reads_back_nil.
  - destruct (f (rest w0)) as [e s1] eqn:Hf.
    set (w1 := mkWorld (reads w0) (log w0) s1).
    assert (outside (λ s, let '(e0, s') := f s in (Done e0, s')) w0 = (Done e, w1)) as Ho.
    { unfold outside. by rewrite Hf. }
    rewrite (Tel_bind_Done _ _ _ _ _ Ho). specialize (IH e st w1). simpl in IH.
    destruct (untraced (next e) s1) as [out s]. destruct IH as (w'&Hw'&Hs&Hr).
    exists w'. split; [done|]. split; [done|].
    apply (reads_back_trans _ _ _ w1 _ []); [by apply reads_back_nil|done].
  - set (sp := length (log w0)).
    set (w1 := mkWorld (Datatypes.S (reads w0)) (log w0 ++
      [StartSpan_call (tr_tracer t) (current outer st) name [(AttrOperation, AString name)]
         SpanKindInternal; AddEvent sp (name +:+ ".started")]) (rest w0) : world call S).
    specialize (IHb (mkOpen sp name None :: st) w1). simpl in IHb.
    destruct (untraced body (rest w0)) as [outb sb]. destruct IHb as (w2&Hb&Hs2&Hr2).
    destruct (TracedOperation_spec outer st t name (λ ctx', perform t ctx' body) w0 w2 outb
      (operations body (rest w0)) Hb Hr2) as (w3&Ht&Hs3&Hr3).
    destruct outb as [e|].
    + rewrite (Tel_bind_Done _ _ _ _ _ Ht). specialize (IH e st w3).
      rewrite Hs3, Hs2 in IH. destruct (untraced (next e) sb) as [out s].
      destruct IH as (w'&Hw'&Hs&Hr). exists w'. split; [done|]. split; [done|].
      rewrite app_assoc. by eapply reads_back_trans.
    + rewrite (Tel_bind_Panicked _ _ _ _ Ht). exists w3. split; [done|].
      split; [by rewrite Hs3|]. by rewrite app_nil_r.
Qed.

(** Tracing is transparent and its spans are well nested. Code that runs any
    nest of operations with [TracedOperation] (each in the context it was handed,
    going on with its error as it likes) returns or panics exactly as it does
    without tracing, and does the same to the rest of the world. What it logs reads
    back as the operations that ran: each has one span, started in the span of the
    operation that called it, ended once and after all that ran in it, also on a
    panic, with the status Error exactly when it returned an error. *)
Theorem traced_work_is_transparent (t : Tracer) (ctx : SpanContext) (w : work) (w0 : world call S) :
  ∃ l w', perform t ctx w w0 = ((untraced w (rest w0)).1, w') ∧
    rest w' = (untraced w (rest w0)).2 ∧ log w' = log w0 ++ l ∧
    read_all ctx (mkReader (length (log w0)) [] []) l =
      Some (mkReader (length (log w')) [] (operations w (rest w0))).
Proof.
  pose proof (perform_spec ctx t w [] w0) as Hp. destruct (untraced w (rest w0)) as [out s].
  destruct Hp as (w'&Hp&Hs&l&Hl&Hr). exists l, w'. split; [done|]. split; [done|].
  split; [done|]. apply (Hr []).
Qed.

(** * The reconciler *)

(** A traced reconciler, given what the wrapped one does within the new span. *)
Lemma TracedReconcile_spec outer st t rec ns n (w w2 : world call S)
    (out : outcome (Result * option E)) fin :
  let sp := length (log w) in
  let w1 := mkWorld (Datatypes.S (reads w))
    (log w ++ [StartSpan_call (tr_tracer t) (current outer st) "reconcile"
       [(AttrNamespace, AString ns); (AttrResourceName, AString n);
        (AttrResourceKind, AString "LabSession"); (AttrOperation, AString "reconcile")]
       SpanKindServer; AddEvent sp "reconciliation.started"]) (rest w) in
  rec (Some sp) ns n w1 = (out, w2) →
  reads_back outer (mkOpen sp "reconcile" None :: st) w1 w2 fin →
  ∃ w', TracedReconcile rec t (current outer st) ns n w = (out, w') ∧ rest w' = rest w2 ∧
    reads_back outer st w w' (fin ++ [("reconcile",
      status_of (match out with Done x => Done x.2 | Panicked => Panicked end))]).
Proof.
  intros sp w1 Hrec Hr.
  set (after := λ (result : Result) (err : option E), (
     d ← since (clock (reads w));
     _ ← emit (SetAttributes sp [("reconcile.duration_ms", AInt (Milliseconds d));
                                 ("reconcile.requeue", ABool (negb (Result_IsZero result)))]);
     _ ← (if 0 <? RequeueAfter result then
            emit (SetAttributes sp [("reconcile.requeue_after_ms",
                                     AInt (Milliseconds (RequeueAfter result)))])
          else mret ());
     _ ← record_outcome sp err "reconciliation" "reconciliation";
     mret (result, err)) : Trace _).
  assert (TracedReconcile rec t (current outer st) ns n w = defer (EndSpan sp)
    (x ← rec (Some sp) ns n; let '(result, err) := x in after result err) w1) as ->.
  { unfold TracedReconcile, ReconcileSpan, StartSpan, defer, emit, now, mbind, Tel_bind. simpl.
    by rewrite <- app_assoc. }
  unfold defer. destruct out as [[result err]|].
  - rewrite (Tel_bind_Done _ _ _ _ _ Hrec). unfold after.
    rewrite (Tel_bind_Done (since (clock (reads w))) _ w2 _ _ eq_refl).
    set (a := [("reconcile.duration_ms", AInt _); _]).
    rewrite (Tel_bind_Done (emit (SetAttributes sp a)) _ _ _ _ eq_refl).
    set (b := [("reconcile.requeue_after_ms", AInt _)]).
    destruct (0 <? RequeueAfter result).
    + rewrite (Tel_bind_Done (emit (SetAttributes sp b)) _ _ _ _ eq_refl).
      rewrite (Tel_bind_Done _ _ _ _ _ (record_outcome_spec _ _ _ _ _)). simpl.
      eexists. split; [reflexivity|]. split; [done|].
      eapply (span_reads_back _ _ _ _ _ _ _ _ _ _ _ [a; b] (Done err)); [exact Hr| |by eauto].
      simpl. by rewrite <- !app_assoc.
    + rewrite (Tel_bind_Done (mret ()) _ _ _ _ eq_refl).
      rewrite (Tel_bind_Done _ _ _ _ _ (record_outcome_spec _ _ _ _ _)). simpl.
      eexists. split; [reflexivity|]. split; [done|].
      eapply (span_reads_back _ _ _ _ _ _ _ _ _ _ _ [a] (Done err)); [exact Hr| |by eauto].
      simpl. by rewrite <- !app_assoc.
  - rewrite (Tel_bind_Panicked _ _ _ _ Hrec).
    eexists. split; [reflexivity|]. split; [done|].
    eapply (span_reads_back _ _ _ _ _ _ _ _ _ _ _ [] Panicked []); [exact Hr|done|done].
Qed.

(** The global tracer is never nil, is the same at every call, and a failed
    [InitTracing] leaves it as it was. *)
Lemma global_tracer_spec (config : TracingConfig Rate) (g : option Tracer) :
  (GetTracer g).2 = Some (GetTracer g).1 ∧ GetTracer (GetTracer g).2 = GetTracer g ∧
  (is_Some (InitTracing config g).1 → (InitTracing config g).2 = g) ∧
  (Enabled config = false → (InitTracing config g).1 = None ∧ (NewTracer config).2 = None).
Proof.
  destruct g; (split; [done|]); (split; [done|]); unfold InitTracing, NewTracer;
    destruct (Enabled config); simpl; split; try done;
    repeat (destruct_match; simpl); by intros [? ?].
Qed.
End spec.

Section controller.
Context `{K : KubeLib, T : TraceLib error, Clock} {S : Type}.

(** The controller against an environment, for the tracer to wrap. *)
Definition controller (h : ∀ o : op, S → resp o * S) (r : LabSessionReconciler)
    (_ : SpanContext) (ns n : string) : Tel trace_call S (Result * option error) :=
  outside (λ s, let '(_, out, s') := run h (Reconcile r ns n) s in (out, s')).

(** C30: tracing the controller changes nothing. Wrapped in a traced reconciler, the
    controller makes the same calls to its environment and returns or panics as it
    does alone; the log has one span more, for the reconciliation, ended with the
    status Error exactly when an error was returned. *)
Theorem traced_controller_is_transparent (t : Tracer) (ctx : SpanContext)
    (h : ∀ o : op, S → resp o * S) (r : LabSessionReconciler) (ns n : string)
    (w : world trace_call S) :
  let '(_, out, s) := run h (Reconcile r ns n) (rest w) in
  ∃ l w', TracedReconcile (controller h r) t ctx ns n w = (out, w') ∧ rest w' = s ∧
    log w' = log w ++ l ∧
    read_all ctx (mkReader (length (log w)) [] []) l =
      Some (mkReader (length (log w')) []
        [("reconcile", status_of (match out with Done x => Done x.2 | Panicked => Panicked end))]).
Proof.
  destruct (run h (Reconcile r ns n) (rest w)) as [[tr out] s] eqn:Hrun.
  set (sp := length (log w)).
  set (w1 := mkWorld (Datatypes.S (reads w))
    (log w ++ [StartSpan_call (tr_tracer t) (current ctx []) "reconcile"
       [(AttrNamespace, AString ns); (AttrResourceName, AString n);
        (AttrResourceKind, AString "LabSession"); (AttrOperation, AString "reconcile")]
       SpanKindServer; AddEvent sp "reconciliation.started"]) (rest w) : world trace_call S).
  set (w2 := mkWorld (reads w1) (log w1) s).
  assert (controller h r (Some sp) ns n w1 = (out, w2)) as Hc.
  { unfold controller, outside. change (rest w1) with (rest w). by rewrite Hrun. }
  destruct (TracedReconcile_spec ctx [] t (controller h r) ns n w w2 out [] Hc) as (w'&Ht&Hs&l&Hl&Hr).
  { by apply reads_back_nil. }
  exists l, w'. split; [done|]. split; [done|]. split; [done|]. apply (Hr []).
Qed.
End controller.
