(* ===== verification/MetricsSpec.v ===== *)
(** What the recorded metrics amount to. *)
From S2P Require Import Prelude Telemetry Metrics.

Section spec.
Context `{F : FloatLib, Clock} {S : Type}.

(** The recordings that other code may make, in any order. *)
Inductive recording :=
| Created (namespace userID : string)
| Deleted (namespace userID reason : string)
| Failed (namespace sessionID errorType : string)
| Reconciled (t : Timer) (namespace result : string)
| PodCreated (t : Timer) (namespace : string)
| Used (namespace sessionID resourceType : string) (v : Float).

Definition record (x : recording) : Tel metric_call S () :=
  match x with
  | Created ns u => RecordLabSessionCreated ns u
  | Deleted ns u r => RecordLabSessionDeleted ns u r
  | Failed ns s e => RecordLabSessionError ns s e
  | Reconciled t ns r => RecordReconcile t ns r
  | PodCreated t ns => RecordPodCreation t ns
  | Used ns s r v => RecordResourceUsage ns s r v
  end.
Fixpoint record_all (xs : list recording) : Tel metric_call S () :=
  match xs with [] => mret () | x :: xs => _ ← record x; record_all xs end.

(** What a call adds to a counter or gauge. *)
Definition change (c : metric_call) : Z :=
  match c with Call _ _ Inc => 1 | Call _ _ Dec => -1 | _ => 0 end.

(** The value of a vector's members with the first label [ns], summed. *)
Definition in_namespace (m : metric) (ns : string) (c : metric_call) : bool :=
  match c with Call m' labels _ => bool_decide (m' = m ∧ head labels = Some ns) end.
Definition total (m : metric) (ns : string) (l : list metric_call) : Z :=
  foldr (λ c z, change c + z) 0 (List.filter (in_namespace m ns) l).

Lemma total_app m ns l1 l2 : total m ns (l1 ++ l2) = total m ns l1 + total m ns l2.
Proof.
  unfold total. rewrite List.filter_app. induction (List.filter _ l1) as [|c l IH]; simpl; lia.
Qed.

(** The recordings of creations and deletions in a namespace. *)
Definition is_created (ns : string) (x : recording) : bool :=
  match x with Created ns' _ => bool_decide (ns' = ns) | _ => false end.
Definition is_deleted (ns : string) (x : recording) : bool :=
  match x with Deleted ns' _ _ => bool_decide (ns' = ns) | _ => false end.
Definition count (p : recording → bool) (xs : list recording) : Z :=
  Z.of_nat (length (List.filter p xs)).

(** The totals that the theorem speaks of. *)
Definition tallies (ns : string) (l : list metric_call) (created deleted : Z) : Prop :=
  total labSessionsCreated ns l = created ∧ total labSessionsDeleted ns l = deleted ∧
  total labSessionsActive ns l = created - deleted.

Lemma tallies_app ns l1 l2 c1 d1 c2 d2 : tallies ns l1 c1 d1 → tallies ns l2 c2 d2 →
  tallies ns (l1 ++ l2) (c1 + c2) (d1 + d2).
Proof. unfold tallies. rewrite !total_app. lia. Qed.

Lemma record_tallies x w : ∃ l w', record x w = (Done (), w') ∧ log w' = log w ++ l ∧
  rest w' = rest w ∧ ∀ ns, tallies ns l (count (is_created ns) [x]) (count (is_deleted ns) [x]).
Proof.
  destruct x; do 2 eexists; (split; [reflexivity|]); simpl; rewrite <- ?app_assoc;
    (split; [reflexivity|]); (split; [reflexivity|]); intros ns.
  all: unfold tallies, total, count; simpl; rewrite ?bool_decide_eq_false_2 by (by intros [??]).
  all: repeat case_bool_decide; simpl; naive_solver lia.
Qed.

(** C40: the gauge of active sessions. Recording never panics (every call has a value
    for each label), and after any recordings, in any order, the counters of created
    and deleted sessions of a namespace, summed over users and reasons, are the
    recorded creations and deletions there, and the gauge of active sessions is
    their difference, below zero when more were deleted than created. *)
Theorem active_is_created_minus_deleted (xs : list recording) (w : world metric_call S) :
  ∃ l w', record_all xs w = (Done (), w') ∧ log w' = log w ++ l ∧ rest w' = rest w ∧
    ∀ ns, tallies ns l (count (is_created ns) xs) (count (is_deleted ns) xs).
Proof.
  revert w. induction xs as [|x xs IH]; intros w.
  - exists [], w. split; [done|]. split; [by rewrite app_nil_r|]. by split.
  - destruct (record_tallies x w) as (l1&w1&Hx&Hl1&Hr1&H1).
    destruct (IH w1) as (l2&w2&Hxs&Hl2&Hr2&H2). exists (l1 ++ l2), w2. split.
    { simpl. by rewrite (Tel_bind_Done _ _ _ _ _ Hx). }
    split; [by rewrite Hl2, Hl1, app_assoc|]. split; [by rewrite Hr2|]. intros ns.
    pose proof (tallies_app ns _ _ _ _ _ _ (H1 ns) (H2 ns)) as Ht.
    unfold count in *. simpl in *. destruct (is_created ns x), (is_deleted ns x); simpl in *;
      unfold tallies in *; lia.
Qed.

(** The registration can be made once. *)
Lemma Init_once : ∃ names, Init [] = Done names ∧ length names = 7%nat ∧ Init names = Panicked.
Proof. eexists. split; [reflexivity|]. by split. Qed.
End spec.
