(* ===== verification/SettingsSpec.v ===== *)
(** Where the pod settings come from. *)
From S2P Require Import Prelude GoStrings Kube Flags PodSettings.

Definition setting_names : list string := fl_Name <$> settings_flags.

(** The value of the last of the arguments [--name=value]. *)
Definition last_value (name : string) (kvs : list (string * string)) : option string :=
  last (omap (λ kv, if decide (kv.1 = name) then Some kv.2 else None) kvs).

Lemma last_value_cons name kv kvs : last_value name (kv :: kvs) =
  match last_value name kvs with
  | Some v => Some v
  | None => if decide (kv.1 = name) then Some kv.2 else None
  end.
Proof.
  unfold last_value. simpl. case_decide; [|by destruct (last _)]. rewrite last_cons.
  by change (list_omap _ _ ?f ?l) with (omap f l).
Qed.

(** What the flags [--name=value] make of settings. *)
Definition after_flags (s : PodSettings) (kvs : list (string * string)) : PodSettings :=
  let v (name x : string) := default x (last_value name kvs) in
  mkPodSettings (v "vm-image" (VMImage s)) (v "init-image" (InitImage s))
    (v "terminal-image" (TerminalImage s)) (v "ssh-user" (SSHUser s))
    (v "vm-disk-size" (VMDiskSize s)) (v "storage-class" (StorageClass s))
    (v "ingress-class" (IngressClass s)) (v "ingress-middleware" (IngressMiddleware s))
    (v "public-base-url" (PublicBaseURL s))
    (match last_value "image-pull-secrets" kvs with
     | Some l => splitList l
     | None => ImagePullSecrets s
     end).

Lemma after_flags_nil s : after_flags s [] = s.
Proof. by destruct s. Qed.

(** Each setting has one flag, which sets it alone. *)
Lemma find_setting_flag name : name ∈ setting_names →
  ∃ f assign, find_flag settings_flags name = Some f ∧ plain_name name = true ∧ fl_IsBool f = false ∧
    ∀ v s, fl_Set f v s = Some (assign v s) ∧
      ∀ kvs, after_flags (assign v s) kvs = after_flags s ((name, v) :: kvs).
Proof.
  intros Hn. unfold setting_names in Hn. simpl in Hn. rewrite !elem_of_cons in Hn.
  repeat destruct Hn as [->|Hn]; [..|by apply not_elem_of_nil in Hn].
  all: eexists _, _; (split; [reflexivity|]); (split; [reflexivity|]); (split; [reflexivity|]).
  all: intros v s; (split; [reflexivity|]); intros kvs; unfold after_flags; rewrite !last_value_cons;
    simpl; f_equal; by destruct (last_value _ kvs).
Qed.

Lemma Parse_settings kvs : ∀ s, Forall (λ kv, kv.1 ∈ setting_names) kvs →
  Parse settings_flags (flag_arg <$> kvs) s = Parsed (after_flags s kvs) [].
Proof.
  intros s Hk. rewrite Parse_flag_args.
  - f_equal. revert s. induction Hk as [|[name v] kvs Hn Hk IH]; intros s; cbn [foldl fst snd];
      [by rewrite after_flags_nil|].
    destruct (find_setting_flag name Hn) as (f&assign&Hf&_&_&Hs). destruct (Hs v s) as [Hset Hkvs].
    rewrite Hf, Hset. cbn [default from_option id]. by rewrite IH, Hkvs.
  - eapply Forall_impl; [exact Hk|]. intros [name v] Hn.
    destruct (find_setting_flag name Hn) as (f&assign&Hf&Hp&Hb&Hs).
    split; [done|]. exists f, (assign v). split; [done|]. split; [done|]. intros s0. apply Hs.
Qed.

(** C29: where a setting comes from. However often its flag is given on the command
    line (as [--name=value]), a setting is the value of the last one; without a flag it
    is the environment variable, and when that is empty or not set, the default. The
    list of pull secrets is split the same way from either. *)
Theorem settings_come_from_flags_or_environment getenv s0 kvs :
  Forall (λ kv, kv.1 ∈ setting_names) kvs →
  let from name env fallback := default (envOr getenv env fallback) (last_value name kvs) in
  let '(s, flags) := BindFlags getenv s0 in
  Parse flags (flag_arg <$> kvs) s = Parsed (mkPodSettings
    (from "vm-image" "DOZLAB_VM_IMAGE" "")
    (from "init-image" "DOZLAB_INIT_IMAGE" "")
    (from "terminal-image" "DOZLAB_TERMINAL_IMAGE" "")
    (from "ssh-user" "DOZLAB_SSH_USER" "root")
    (from "vm-disk-size" "DOZLAB_VM_DISK_SIZE" "4Gi")
    (from "storage-class" "DOZLAB_STORAGE_CLASS" "")
    (from "ingress-class" "DOZLAB_INGRESS_CLASS" "traefik")
    (from "ingress-middleware" "DOZLAB_INGRESS_MIDDLEWARE" "")
    (from "public-base-url" "DOZLAB_PUBLIC_BASE_URL" "")
    (splitList (from "image-pull-secrets" "DOZLAB_IMAGE_PULL_SECRETS" ""))) [].
Proof.
  intros Hk. simpl. rewrite Parse_settings by done. f_equal. unfold after_flags. simpl. f_equal.
  unfold envOr. destruct (last_value "image-pull-secrets" kvs); simpl; [done|].
  case_decide as Hne; [done|by rewrite Hne].
Qed.
