(* ===== verification/MainSpec.v ===== *)
(** What a start-up has done by the time the manager runs. *)
From S2P Require Import Prelude GoStrings Kube KubeTypes Types Flags PodSettings ResourceBuilder BuilderSpec Main.

Section spec.
Context `{K : KubeLib, KL : !KubeLaws K, P : ProcLib} {E : Type}.
Variable url_Parse : string → option (string * string).
Variable IsDNS1123Subdomain : string → list string.

(** * Reading the calls *)

Definition is_start (c : main_call) : bool := match c with StartManager _ => true | _ => false end.
Definition is_setup (c : main_call) : bool :=
  match c with SetupController _ _ _ => true | _ => false end.
Definition is_close (c : main_call) : bool := match c with ClosePublisher => true | _ => false end.
Definition is_publisher (c : main_call) : bool :=
  match c with NewRabbitPublisher _ => true | _ => false end.
Definition is_healthz (n : string) (c : main_call) : bool :=
  match c with AddHealthzCheck m => bool_decide (m = n) | _ => false end.
Definition is_readyz (n : string) (c : main_call) : bool :=
  match c with AddReadyzCheck m => bool_decide (m = n) | _ => false end.

Definition made (p : main_call → bool) (l : list main_call) : bool := existsb p l.

(** The calls before the manager is started. *)
Fixpoint before_start (l : list main_call) : list main_call :=
  match l with
  | [] => []
  | c :: l => if is_start c then [] else c :: before_start l
  end.

(** The controller is set up with validated settings, and its checks are there. *)
Definition prepared (liveness : list string) (l : list main_call) : Prop :=
  made is_setup l = true ∧ made (is_readyz "readyz") l = true ∧
  made (is_readyz "cache-sync") l = true ∧ Forall (λ n, made (is_healthz n) l = true) liveness ∧
  Forall (λ c, match c with
    | SetupController s _ _ => valid_settings url_Parse IsDNS1123Subdomain s ∧
        ∀ session, ∃ pod, BuildPod (NewResourceBuilder s) session = Done pod
    | _ => True end) l.

(** What is true of a start-up: the manager runs only when all is prepared, and the
    exit status is 0 only for a request of help or a manager that ended well. *)
Definition sound_startup (liveness : list string) (help : Prop) (a : Answers) (m : Proc ()) : Prop :=
  (made is_start m.1 = true → prepared liveness (before_start m.1)) ∧
  (exit_status m = 0 ↔ help ∨ (made is_start m.1 = true ∧ a_Start (E := E) a = None)).

Lemma valid_settings_pods s : Validate url_Parse IsDNS1123Subdomain s = [] →
  valid_settings url_Parse IsDNS1123Subdomain s ∧
  ∀ session, ∃ pod, BuildPod (NewResourceBuilder s) session = Done pod.
Proof. intros Hv. split; [done|]. intros session. by eapply (settings_build _ _ _ session). Qed.

(** * Stepping through a start-up *)

(** A start-up that goes on with [m] after the calls [l]. *)
Definition after (l : list main_call) (m : Proc ()) : Proc () := (l ++ m.1, m.2).

Lemma made_app p l1 l2 : made p (l1 ++ l2) = made p l1 || made p l2.
Proof. apply existsb_app. Qed.

Lemma before_start_app l c : made is_start l = false → is_start c = true →
  ∀ l2, before_start (l ++ c :: l2) = l.
Proof.
  intros Hl Hc l2. induction l as [|x l IH]; simpl in *; [by rewrite Hc|].
  destruct (is_start x); [done|]. simpl in Hl. by rewrite IH.
Qed.

Lemma before_start_snoc l c : made is_start l = true → before_start (l ++ [c]) = before_start l.
Proof.
  induction l as [|x l IH]; simpl; [done|]. destruct (is_start x); [done|]. simpl. intros Hl.
  by rewrite IH.
Qed.

Section steps.
Context (liveness : list string) (help : Prop) (a : Answers (E := E)).
Abbreviation sound := (sound_startup liveness help a).

(** A start-up that ended early. *)
Lemma sound_stopped l n : ¬ help → made is_start l = false → n ≠ 0 → sound (l, inl n).
Proof.
  intros Hh Hl Hn. split; simpl; [by rewrite Hl|]. split; [done|]. rewrite Hl. by intros [?|[? ?]].
Qed.

Lemma sound_call l c k : sound (after (l ++ [c]) (k ())) → sound (after l (call c ≫= k)).
Proof.
  unfold after. destruct (k ()) as [l2 r] eqn:Hk. unfold mbind, Proc_bind, call, proc_bind. rewrite Hk.
  simpl. by rewrite <- app_assoc.
Qed.

Lemma sound_must l c (err : option E) msg k : ¬ help → made is_start l = false → is_start c = false →
  sound (after (l ++ [c]) (k ())) → sound (after l (must c err msg ≫= k)).
Proof.
  intros Hh Hl Hc Hk. destruct err as [e|].
  - change (sound (l ++ [c; LogError msg], inl 1)). apply sound_stopped; [done| |done].
    rewrite made_app, Hl. simpl. by rewrite Hc.
  - change (sound (after l (call c ≫= k))). by apply sound_call.
Qed.

Lemma sound_config l k : ¬ help → made is_start l = false →
  sound (after (l ++ [GetConfig]) (k ())) → sound (after l (GetConfigOrDie a ≫= k)).
Proof.
  intros Hh Hl Hk. unfold GetConfigOrDie. destruct (a_Config a).
  - change (sound (after l (call GetConfig ≫= k))). by apply sound_call.
  - change (sound (l ++ [GetConfig], inl 1)). apply sound_stopped; [done| |done].
    by rewrite made_app, Hl.
Qed.

Lemma sound_start l v msg : ¬ help → made is_start l = false → prepared liveness l →
  sound (after l (must (StartManager v) (a_Start a) msg)).
Proof.
  intros Hh Hl Hp. destruct (a_Start a) eqn:Ha; simpl; split; unfold after; simpl;
    rewrite ?made_app, ?Hl; simpl; try (intros _; by rewrite before_start_app).
  - rewrite Ha. naive_solver.
  - naive_solver.
Qed.

Lemma sound_deferred l c m : is_start c = false → sound (after l m) → sound (after l (deferred c m)).
Proof.
  intros Hc [H1 H2]. destruct m as [l2 [n|[]]]; [done|]. unfold after in *. simpl in *.
  rewrite app_assoc. split; simpl; rewrite made_app; simpl; rewrite Hc, !orb_false_r; [|done].
  intros Hm. rewrite before_start_snoc by done. auto.
Qed.

(** Reading the options, and the namespace to watch. *)
Lemma sound_options flags args o k :
  (Parse flags args o = HelpAsked ↔ help) →
  (∀ o', ¬ help → Validate url_Parse IsDNS1123Subdomain (podSettings o') = [] →
     sound (after [SetLogger (libVars o')] (k o'))) →
  sound (after [] (read_options url_Parse IsDNS1123Subdomain flags args o ≫= k)).
Proof.
  intros Hh Hk. unfold read_options, parse_flags. destruct (Parse flags args o) as [o' l| |].
  - assert (¬ help) as Hn by by intros [=]%Hh. specialize (Hk o' Hn). unfold after in *.
    destruct (Validate _ _ (podSettings o')) eqn:Hv.
    + specialize (Hk eq_refl). simpl. rewrite Hv. simpl. by destruct (k o').
    + simpl. rewrite Hv. simpl. by apply sound_stopped.
  - change (sound ([], inl 0)). split; [done|]. split; [intros _; left; by apply Hh|done].
  - assert (¬ help) as Hn by by intros [=]%Hh. change (sound ([], inl 2)). by apply sound_stopped.
Qed.

(** Calls that neither set the controller up nor start the manager. *)
Definition quiet (l : list main_call) : Prop := made is_start l = false ∧ made is_setup l = false.

Lemma quiet_snoc l c : quiet l → is_start c = false → is_setup c = false → quiet (l ++ [c]).
Proof. intros [H1 H2] Hc1 Hc2. split; rewrite made_app; simpl; by rewrite ?H1, ?H2, ?Hc1, ?Hc2. Qed.

Lemma sound_namespace l o k : quiet l → (∀ l' ns, quiet l' → sound (after l' (k ns))) →
  sound (after l (watch_namespace o ≫= k)).
Proof.
  intros Hl Hk. unfold watch_namespace. destruct (decide (watchNamespace o ≠ "")).
  - change (sound (after l (call (LogInfo "watching specific namespace") ≫=
      λ _, k (Some (watchNamespace o))))). by apply sound_call, Hk, quiet_snoc.
  - pose proof (Hk l None Hl) as H. unfold after, mbind, Proc_bind, proc_bind, mret, Proc_ret in *.
    by destruct (k None).
Qed.

(** The end of both programs: the controller, its checks, the manager. *)
Lemma prepared_setup l s ev n l2 : quiet l → Validate url_Parse IsDNS1123Subdomain s = [] →
  quiet l2 → made (is_readyz "readyz") l2 = true → made (is_readyz "cache-sync") l2 = true →
  Forall (λ n, made (is_healthz n) l2 = true) liveness →
  prepared liveness (l ++ [SetupController s ev n] ++ l2).
Proof.
  intros [_ Hl] Hv [_ Hl2] H1 H2 H3. unfold prepared. rewrite !made_app, H1, H2. simpl.
  rewrite !orb_true_r. split; [done|]. split; [done|]. split; [done|]. split.
  - eapply Forall_impl; [exact H3|]. intros x Hx. rewrite made_app. apply orb_true_iff. by right.
  - assert (∀ l : list main_call, made is_setup l = false → Forall (λ c, match c with
      | SetupController s _ _ => valid_settings url_Parse IsDNS1123Subdomain s ∧
          ∀ session, ∃ pod, BuildPod (NewResourceBuilder s) session = Done pod
      | _ => True end) l) as Hq.
    { intros l0 Hl0. induction l0 as [|c l0 IH]; constructor; simpl in Hl0;
        apply orb_false_elim in Hl0 as [??]; [by destruct c|auto]. }
    simpl. rewrite Forall_app, Forall_cons. split; [by apply Hq|]. split; [|by apply Hq].
    by apply valid_settings_pods.
Qed.
End steps.

(** No call of a list that grew from a quiet one starts the manager. *)
Ltac not_started := rewrite ?made_app; simpl;
  repeat match goal with H : quiet _ |- _ => destruct H as [-> _] end; done.
Ltac next_step :=
  lazymatch goal with
  | |- sound_startup _ _ _ (after _ (must _ _ _ ≫= _)) => apply sound_must; [done|not_started|done|]
  | |- sound_startup _ _ _ (after _ (call _ ≫= _)) => apply sound_call
  end.
(** The manager starts, after the set-up of the controller and its checks. *)
Ltac start_prepared :=
  apply sound_start; [done|not_started|]; rewrite <- !app_assoc;
  apply prepared_setup; try done; by repeat constructor.
(** Forgets the calls so far, but that they are quiet. *)
Ltac forget :=
  lazymatch goal with
  | |- sound_startup _ _ _ (after ?l _) =>
      let Hl := fresh "Hl" in
      assert (quiet l) as Hl by (repeat (apply quiet_snoc; [|done|done]); done);
      revert Hl; generalize l; intros ? Hl
  end.

Lemma legacy_main_sound getenv args a :
  sound_startup ["healthz"; "controller-dependencies"]
    (Parse legacy_flags args (default_options getenv "") = HelpAsked) a
    (legacy_main (E := E) url_Parse IsDNS1123Subdomain getenv args a).
Proof.
  apply (sound_options _ _ _ _ _ _ _ ltac:(done)). intros o Hh Hv.
  apply sound_namespace; [done|]. intros l ns Hq.
  apply sound_config; [done|apply Hq|]. next_step.
  forget. repeat next_step. start_prepared.
Qed.

Lemma controller_main_sound getenv args a :
  sound_startup ["healthz"]
    (Parse controller_flags args (default_options getenv (getenv "RABBITMQ_URL")) = HelpAsked) a
    (controller_main (E := E) url_Parse IsDNS1123Subdomain getenv args a).
Proof.
  apply (sound_options _ _ _ _ _ _ _ ltac:(done)). intros o Hh Hv.
  apply sound_namespace; [done|]. intros l ns Hq.
  apply sound_config; [done|apply Hq|]. next_step.
  cbv zeta. case_decide; next_step.
  1: apply sound_deferred; [done|]; next_step.
  all: forget; repeat next_step; start_prepared.
Qed.

(** A publisher that was made is closed exactly when [main] returns: [os.Exit] runs no
    deferred call. *)
Definition publisher_closed (m : Proc ()) : Prop :=
  made is_close m.1 = made is_publisher m.1 && bool_decide (exit_status m = 0).

(** A part of a start-up that has nothing to do with the publisher. *)
Definition plain {A} (m : Proc A) : Prop :=
  made is_close m.1 = false ∧ made is_publisher m.1 = false ∧ m.2 ≠ inl 0.

Lemma plain_bind {A B} (m : Proc A) (k : A → Proc B) :
  plain m → (∀ x, plain (k x)) → plain (m ≫= k).
Proof.
  destruct m as [l [n|x]]; intros (H1&H2&H3) Hk; simpl in *.
  - split; [done|]. split; [done|]. intros [= ->]. done.
  - destruct (Hk x) as (H4&H5&H6). destruct (k x) as [l2 r]. unfold plain. simpl in *.
    by rewrite !made_app, H1, H2.
Qed.

Lemma plain_call c : is_close c = false → is_publisher c = false → plain (call c).
Proof. intros H1 H2. unfold plain. simpl. by rewrite H1, H2. Qed.

Lemma plain_must c (err : option E) msg :
  is_close c = false → is_publisher c = false → plain (must c err msg).
Proof. intros H1 H2. by destruct err; unfold plain; simpl; rewrite H1, H2. Qed.

Lemma closed_bind {A} (m : Proc A) k :
  plain m → (∀ x, publisher_closed (k x)) → publisher_closed (m ≫= k).
Proof.
  destruct m as [l [n|x]]; intros (H1&H2&_) Hk; unfold publisher_closed in *; simpl in *.
  - by rewrite H1, H2.
  - specialize (Hk x). destruct (k x) as [l2 r]. simpl in *. rewrite !made_app, H1, H2. exact Hk.
Qed.

Lemma closed_plain m : plain m → publisher_closed m.
Proof. intros (H1&H2&_). unfold publisher_closed. by rewrite H1, H2. Qed.

Lemma closed_publisher url m : plain m →
  publisher_closed (call (NewRabbitPublisher url) ≫= λ _, deferred ClosePublisher m).
Proof.
  destruct m as [l [n|[]]]; intros (H1&H2&H3); unfold publisher_closed, exit_status; simpl in *.
  - rewrite H1. symmetry. apply bool_decide_eq_false. intros ->. done.
  - by rewrite made_app, orb_true_r.
Qed.

Lemma controller_main_closed getenv args a :
  publisher_closed (controller_main (E := E) url_Parse IsDNS1123Subdomain getenv args a).
Proof.
  unfold controller_main, read_options, parse_flags.
  destruct (Parse controller_flags args _) as [o l| |]; [|done..].
  apply closed_bind; [simpl; by destruct (Validate _ _ _)|]. intros o'.
  apply closed_bind; [unfold watch_namespace; by case_decide|]. intros ns.
  apply closed_bind; [unfold GetConfigOrDie; by destruct (a_Config a)|]. intros _.
  apply closed_bind; [by apply plain_must|]. intros _. cbv zeta.
  case_decide; [apply closed_publisher|apply closed_plain];
    repeat lazymatch goal with
    | |- plain (must _ _ _ ≫= _) => apply plain_bind; [by apply plain_must|intros _]
    | |- plain (call _ ≫= _) => apply plain_bind; [by apply plain_call|intros _]
    end; by apply plain_must.
Qed.

(** * The publisher and the controller *)

(** The calls that make or close the publisher or set the controller up. *)
Definition is_wiring (c : main_call) : bool := is_publisher c || is_setup c || is_close c.

(** When the manager is started, the command line was parsed to some options, and the
    publisher and the controller were wired before as [wiring] says of these options:
    these calls, in this order, and no others. *)
Definition wired (flags : list (Flag Options)) (args : list string) (defaults : Options)
    (wiring : Options → list main_call) (m : Proc ()) : Prop :=
  made is_start m.1 = true → ∃ o rest, Parse flags args defaults = Parsed o rest ∧
    List.filter is_wiring (before_start m.1) = wiring o.

(** With a URL, the publisher of that URL is made, and then the controller is set up
    with its events; without one, there is no publisher and the controller has none. *)
Definition controller_wiring (o : Options) : list main_call :=
  if decide (rabbitMQURL o ≠ "")
  then [NewRabbitPublisher (rabbitMQURL o);
        SetupController (podSettings o) true (maxConcurrentReconciles o)]
  else [SetupController (podSettings o) false (maxConcurrentReconciles o)].

(** The older program never publishes. *)
Definition legacy_wiring (o : Options) : list main_call :=
  [SetupController (podSettings o) false (maxConcurrentReconciles o)].

(** Goes through a start-up by its decisions; one that ends before the manager is
    started is done. *)
Ltac follow_startup :=
  unfold watch_namespace, GetConfigOrDie, must, deferred, call, os_Exit, mbind, Proc_bind,
    proc_bind, mret, Proc_ret;
  repeat (cbn; lazymatch goal with
  | |- context [match Validate ?u ?n ?s with _ => _ end] => destruct (Validate u n s)
  | |- context [decide (watchNamespace ?o ≠ "")] => destruct (decide (watchNamespace o ≠ ""))
  | |- context [decide (rabbitMQURL ?o ≠ "")] => destruct (decide (rabbitMQURL o ≠ ""))
  | |- context [a_Config ?a] => destruct (a_Config a)
  | |- context [a_NewManager ?a] => destruct (a_NewManager a)
  | |- context [a_Setup ?a] => destruct (a_Setup a)
  | |- context [a_AddCheck ?a ?n] => destruct (a_AddCheck a n)
  | |- context [a_Start ?a] => destruct (a_Start a)
  end; try done).

Lemma controller_main_wired getenv args a :
  wired controller_flags args (default_options getenv (getenv "RABBITMQ_URL")) controller_wiring
    (controller_main (E := E) url_Parse IsDNS1123Subdomain getenv args a).
Proof.
  unfold wired, controller_main, read_options, parse_flags.
  destruct (Parse controller_flags args _) as [o rest| |]; [|done..].
  follow_startup.
  all: intros _; exists o, rest; (split; [done|]); unfold controller_wiring; by case_decide.
Qed.

Lemma legacy_main_wired getenv args a :
  wired legacy_flags args (default_options getenv "") legacy_wiring
    (legacy_main (E := E) url_Parse IsDNS1123Subdomain getenv args a).
Proof.
  unfold wired, legacy_main, read_options, parse_flags.
  destruct (Parse legacy_flags args _) as [o rest| |]; [|done..].
  follow_startup. all: intros _; exists o, rest; done.
Qed.

(** C28: what runs is ready. In either program, whatever the command line, the
    environment and the answers of the libraries: when the manager is started, the
    controller was set up before, with settings that pass [Validate], so that building
    the pod of any session succeeds, and the liveness and readiness checks were
    added. Before that, the controller program made the publisher of the URL of its
    options and then set the controller up to use it, if there is a URL, and set the
    controller up without a publisher if there is none; the older program never makes
    a publisher. The pod settings and the number of concurrent reconciles are those of
    the options. The exit status is 0 exactly for a request of help or when the manager ran
    and ended without an error. A publisher is closed exactly when [main] returns. *)
Theorem started_controller_is_ready (getenv : string → string) (args : list string)
    (a : Answers (E := E)) :
  let new := controller_main url_Parse IsDNS1123Subdomain getenv args a in
  let old := legacy_main url_Parse IsDNS1123Subdomain getenv args a in
  sound_startup ["healthz"] (Parse controller_flags args
    (default_options getenv (getenv "RABBITMQ_URL")) = HelpAsked) a new ∧
  sound_startup ["healthz"; "controller-dependencies"] (Parse legacy_flags args
    (default_options getenv "") = HelpAsked) a old ∧
  wired controller_flags args (default_options getenv (getenv "RABBITMQ_URL"))
    controller_wiring new ∧
  wired legacy_flags args (default_options getenv "") legacy_wiring old ∧
  publisher_closed new.
Proof.
  split; [apply controller_main_sound|]. split; [apply legacy_main_sound|].
  split; [apply controller_main_wired|]. split; [apply legacy_main_wired|apply controller_main_closed].
Qed.
End spec.
