(* ===== verification/Fixtures.v ===== *)
(** Concrete inputs for the witnesses: pod settings, sessions and objects at the
    library instance of KubeInstance.v, and an environment that answers every
    call of a run. *)
From S2P Require Import Prelude GoStrings Kube KubeTypes KubeInstance Types PodSettings.
From S2P Require Import ResourceBuilder Ingress Usage Events Effects SSHKeys Reconciler.

(** * Settings and sessions *)

Definition fix_settings : PodSettings :=
  mkPodSettings "vm:1" "init:1" "terminal:1" "lab" "2Gi" "fast" "traefik" "" "https://lab.example/"
    ["registry"].

Definition fix_reconciler : LabSessionReconciler :=
  mkLabSessionReconciler (NewResourceBuilder fix_settings) true.

Definition fix_spec : LabSessionSpec :=
  mkLabSessionSpec "u1" "s1" "lab1" (mkResourceConfig "2Gi" "1500m" "20Gi")
    (mkSessionConfig "" true true true) "" "http://images/rootfs.ext4" (mkImageConfig "").

Definition fix_meta (deleted : option time) (finalizers : list string)
    (annotations : option (gmap string string)) : ObjectMeta :=
  mkObjectMeta "session" "labs" "uid-1" 1 deleted finalizers ∅ annotations [].

Definition fix_status (phase : string) (start : option time) (conditions : list Condition)
    : LabSessionStatus :=
  mkLabSessionStatus phase "" "" "lab-session-s1" "lab-service-s1" "" "" ∅ conditions start None 1
    no_usage.

Definition fix_session (phase : string) : LabSession :=
  mkLabSession (fix_meta None [LabSessionFinalizer] None) fix_spec
    (fix_status phase (Some (100 * second)) []).

(** The session without finalizer, and the session being deleted. *)
Definition fix_new : LabSession :=
  mkLabSession (fix_meta None [] None) fix_spec (fix_status "" None []).
Definition fix_deleted : LabSession :=
  mkLabSession (fix_meta (Some (50 * second)) [LabSessionFinalizer] None) fix_spec
    (fix_status SessionPhaseRunning (Some (100 * second)) []).

(** A ready pod of the session. *)
Definition fix_pod (status : PodStatus) : Pod :=
  mkPod (mkObjectMeta "lab-session-s1" "labs" "uid-p" 1 None [] ∅ None
      [mkOwnerReference "LabSession" "session" "uid-1" true])
    (mkPodSpec "Never" [] "" [] [] [] []) status.

Definition fix_ready : PodStatus :=
  mkPodStatus PodRunning "" "10.0.0.7" [mkPodCondition PodReady ConditionTrue] [].
Definition fix_failed : PodStatus := mkPodStatus PodFailed "" "" [] [].

(** * Environments *)

Record env_answers := mkEnvAnswers {
  e_session : result error LabSession;
  e_status : LabSession → result error LabSession;
  e_pod : result error Pod;
  e_publish : option error;
  e_now : time
}.

Definition not_found : error := EApi NotFoundError.

(** Objects other than the pod are not found, and created as given. *)
Definition answer (e : env_answers) (o : op) : resp o :=
  match o return resp o with
  | Now => e_now e
  | GetSession _ _ => e_session e
  | UpdateSession s => Ok s
  | UpdateStatus s => e_status e s
  | PatchSession _ s => Ok s
  | Get k _ _ => match k return result error (obj k) with
                 | KPod => e_pod e
                 | _ => Err not_found
                 end
  | Create _ o => Ok o
  | RecordEvent _ _ _ => tt
  | PublishPhaseChange _ _ => e_publish e
  | GenerateKey => Ok (mkKeyPair (repeat "a"%char 32) (repeat "b"%char 64))
  | RandRead n => Ok (repeat "c"%char n)
  | GetUnstructured _ _ => Err not_found
  | UpdateUnstructured u | UpdateUnstructuredStatus u => Ok u
  | Sleep _ => tt
  end.

Definition run_in {A} (e : env_answers) (p : prog A) : list event * outcome A :=
  (run (λ o (u : unit), (answer e o, u)) p tt).1.

Lemma exec_run_in {A} e (p : prog A) : exec p (run_in e p).1 (run_in e p).2.
Proof.
  unfold run_in. destruct (run _ p tt) as [[tr out] u] eqn:Hr. by eapply run_exec.
Qed.

Definition fix_env (s : LabSession) (pod : result error Pod) (publish : option error) : env_answers :=
  mkEnvAnswers (Ok s) Ok pod publish (200 * second).

(** The run of [Reconcile] on the session of the request. *)
Definition fix_run (e : env_answers) : list event * outcome (Result * option error) :=
  run_in e (Reconcile fix_reconciler "labs" "session").

Lemma fix_run_exec e :
  exec (Reconcile fix_reconciler "labs" "session") (fix_run e).1 (fix_run e).2.
Proof. apply exec_run_in. Qed.

(** Runs used by several witnesses. *)
Definition creating_run := fix_run (fix_env (fix_session SessionPhaseCreating) (Ok (fix_pod fix_ready)) None).

Lemma creating_run_exec :
  exec (Reconcile fix_reconciler "labs" "session") creating_run.1 creating_run.2.
Proof. apply fix_run_exec. Qed.

(** A run that read the session [s] first. *)
Definition fix_rest (e : env_answers) : list event := tail (fix_run e).1.

Lemma fix_rest_exec e s out :
  e_session e = Ok s → (fix_run e).2 = out →
  exec (Reconcile fix_reconciler "labs" "session")
    (Ev (GetSession "labs" "session") (Ok s) :: fix_rest e) out.
Proof.
  intros Hs <-. unfold fix_rest, fix_run, run_in, Reconcile, call. simpl. rewrite Hs.
  destruct (run _ _ _) as [[tr out] u] eqn:Hr. simpl. constructor. by eapply run_exec.
Qed.
