(* ===== verification/Witnesses.v ===== *)
(** Witnesses: each theorem with hypotheses, applied to a concrete run or input
    at the instance of KubeInstance.v, the hypotheses discharged by evaluation. *)
From S2P Require Import Prelude GoStrings Kube KubeTypes KubeInstance Types PodSettings.
From S2P Require Import ResourceBuilder Ingress Usage Events Effects SSHKeys Reconciler.
From S2P Require Import ReconcilerLogic ReconcilerGuard ReconcilerSafety ReconcilerSpec.
From S2P Require Import ReconcilerFailures BuilderSpec WiringSpec SSHSpec Fixtures.

(** * Reading a run *)

Definition phase_written (tr : list event) (i : nat) : option string :=
  match tr !! i with
  | Some (Ev (UpdateStatus s) _) => Some (Phase (Status s))
  | _ => None
  end.

Lemma phase_written_spec tr i p : phase_written tr i = Some p →
  ∃ s' a, tr !! i = Some (Ev (UpdateStatus s') a) ∧ Phase (Status s') = p.
Proof.
  unfold phase_written. destruct (tr !! i) as [[[] a]|]; try done. intros [= <-]. eauto.
Qed.

Definition kind_created (tr : list event) (i : nat) : option Kind :=
  match tr !! i with Some (Ev (Create k _) _) => Some k | _ => None end.

Lemma kind_created_spec tr i k : kind_created tr i = Some k →
  ∃ x a, tr !! i = Some (Ev (Create k x) a).
Proof.
  unfold kind_created. destruct (tr !! i) as [[[] a]|]; try done. intros [= <-]. eauto.
Qed.

Definition is_patch (e : event) : bool :=
  match ev_op e with PatchSession _ _ => true | _ => false end.

Definition finished {A} (out : outcome A) : bool :=
  match out with Done _ => true | Panicked => false end.

(** * Runs of the reconciler *)

(** The run that makes a session Running: its status write is call 25. *)
Lemma status_write_follows_phase_machine_witness : ∃ s' a,
  creating_run.1 !! 25%nat = Some (Ev (UpdateStatus s') a) ∧
  ∃ s, head creating_run.1 = Some (Ev (GetSession "labs" "session") (Ok s)) ∧
    if deleting s then Phase (Status s') = SessionPhaseTerminating ∧ Usage (Status s') = no_usage
    else finalized s = true ∧ ∃ s1, working s (take 25 creating_run.1) s1 ∧
         phase_step (Phase (Status s1)) (Phase (Status s')).
Proof.
  destruct (phase_written_spec creating_run.1 25 SessionPhaseRunning) as (s'&a&Hi&_);
    [vm_compute; reflexivity|].
  exists s', a. split; [exact Hi|].
  exact (status_write_follows_phase_machine _ _ _ _ _ _ _ _ creating_run_exec Hi).
Defined.

Lemma running_needs_evidence_witness : ∃ s' a,
  creating_run.1 !! 25%nat = Some (Ev (UpdateStatus s') a) ∧
  ∃ s s1, head creating_run.1 = Some (Ev (GetSession "labs" "session") (Ok s)) ∧
    working s (take 25 creating_run.1) s1 ∧
    (Phase (Status s1) = SessionPhaseRunning ∨
     (Phase (Status s1) = SessionPhaseCreating ∧
      running_evidence s1 (take 25 creating_run.1) s')).
Proof.
  destruct (phase_written_spec creating_run.1 25 SessionPhaseRunning) as (s'&a&Hi&Hp);
    [vm_compute; reflexivity|].
  exists s', a. split; [exact Hi|].
  exact (running_needs_evidence _ _ _ _ _ _ _ _ creating_run_exec Hi Hp).
Defined.

(** The Ingress is created by call 18. *)
Lemma creates_are_owned_and_ordered_witness : ∃ x a,
  creating_run.1 !! 18%nat = Some (Ev (Create KIngress x) a) ∧
  ∃ s1, meta_Namespace (ing_Meta x) = s_Namespace s1 ∧
    IsControlledBy (ing_Meta x) (ObjMeta s1) = true ∧
    prerequisites s1 KIngress (take 18 creating_run.1).
Proof.
  destruct (kind_created_spec creating_run.1 18 KIngress) as (x&a&Hi); [vm_compute; reflexivity|].
  exists x, a. split; [exact Hi|].
  destruct (creates_are_owned_and_ordered _ _ _ _ _ _ _ _ _ creating_run_exec Hi)
    as (s&s1&_&_&_&_&_&_&Hns&Hc&Hpre). eauto.
Defined.

(** Deletion with the broker down: torn down nonetheless. *)
Definition deletion_env : env_answers :=
  fix_env fix_deleted (Err not_found) (Some (EText "broker is down")).

Lemma deletion_run_exec : exec (Reconcile fix_reconciler "labs" "session")
  (Ev (GetSession "labs" "session") (Ok fix_deleted) :: fix_rest deletion_env) (fix_run deletion_env).2.
Proof. by apply fix_rest_exec. Qed.

(** The change that an event publishes. *)
Definition published_change (e : event) : option (option Z * PhaseChange) :=
  match ev_op e with PublishPhaseChange t c => Some (t, c) | _ => None end.

Lemma published_change_spec (tr : list event) i :
  (fst <$> (tr !! i ≫= published_change)) = Some (Some terminatingPublishTimeout) →
  ∃ t c a, tr !! i = Some (Ev (PublishPhaseChange t c) a).
Proof. destruct (tr !! i) as [[o a]|]; [|done]. destruct o; try done. eauto. Qed.

(** The annotation is patched by call 2, after the publish of call 1; the deletion
    publishes Terminating in call 3. *)
Lemma publish_before_record_witness :
  (∃ o a, creating_run.1 !! 2%nat = Some (Ev o a) ∧ is_patch (Ev o a) = true ∧
    match o with
    | PatchSession from to =>
        head creating_run.1 = Some (Ev (GetSession "labs" "session") (Ok from)) ∧
        deleting from = false ∧ to = record_phase from ∧ unpublished from ∧
        last (take 2 creating_run.1) = Some (Ev (PublishPhaseChange None (phaseChange from)) None)
    | _ => True
    end) ∧
  ∃ c a s1, fix_rest deletion_env !! 2%nat =
      Some (Ev (PublishPhaseChange (Some terminatingPublishTimeout) c) a) ∧
    c = phaseChange s1 ∧ annotation (ObjMeta s1) PublishedPhaseAnnotation ≠ SessionPhaseTerminating.
Proof.
  split.
  - assert (is_patch <$> creating_run.1 !! 2%nat = Some true) as Hp by (vm_compute; reflexivity).
    destruct (creating_run.1 !! 2%nat) as [[o a]|] eqn:Hi; [|discriminate Hp].
    exists o, a. split; [reflexivity|]. injection Hp as Hp. split; [exact Hp|].
    pose proof (publish_before_record _ _ _ _ _ _ _ _ creating_run_exec Hi) as H.
    destruct o; exact H || exact I.
  - destruct (published_change_spec (fix_rest deletion_env) 2) as (t&c&a&Hi);
      [vm_compute; reflexivity|].
    pose proof (publish_before_record _ _ _ _ _ 3 _ _ deletion_run_exec Hi)
      as (s&Hs&Hd).
    apply (f_equal (fmap session_answer)) in Hs. injection Hs as <-.
    destruct Hd as (->&s1&Hc&_&Ha). exists c, a, s1. auto.
Defined.

Lemma deletion_tears_down_witness :
  ∃ tr out x, exec (Reconcile fix_reconciler "labs" "session")
      (Ev (GetSession "labs" "session") (Ok fix_deleted) :: tr) out ∧
    length tr = 4%nat ∧ out = Done x ∧ deletion_run fix_reconciler fix_deleted tr x.
Proof.
  pose proof (fix_rest_exec deletion_env fix_deleted _ eq_refl eq_refl) as He.
  destruct (deletion_tears_down _ _ _ fix_deleted _ _ eq_refl He) as (x&Hx&Hrun).
  eexists _, _, x. split; [exact He|]. split; [vm_compute; reflexivity|]. split; [exact Hx|exact Hrun].
Defined.

Definition new_env : env_answers := fix_env fix_new (Err not_found) None.

Lemma finalizer_comes_first_witness :
  ∃ tr out, exec (Reconcile fix_reconciler "labs" "session")
      (Ev (GetSession "labs" "session") (Ok fix_new) :: tr) out ∧
    ∃ a, tr = [Ev (UpdateSession (with_finalizer fix_new)) a] ∧
      finalized (with_finalizer fix_new) = true ∧
      out = Done (match a with Ok _ => (requeue_now, None) | Err e => (no_requeue, Some e) end).
Proof.
  eexists _, _.
  pose proof (fix_rest_exec new_env fix_new _ eq_refl eq_refl) as He.
  split; [exact He|]. exact (finalizer_comes_first _ _ _ fix_new _ _ eq_refl eq_refl He).
Defined.

(** The broker is down while the session waits for its pod. *)
Definition broker_down_env : env_answers :=
  fix_env (fix_session SessionPhaseRunning) (Ok (fix_pod fix_ready)) (Some (EText "down")).

Lemma failed_publish_is_retried_witness :
  ∃ tr res err, exec (Reconcile fix_reconciler "labs" "session")
      (Ev (GetSession "labs" "session") (Ok (fix_session SessionPhaseRunning)) :: tr)
      (Done (res, err)) ∧
    (is_Some err ∨ Requeue res = true ∨ 0 < RequeueAfter res ≤ publishRetryDelay).
Proof.
  assert (finished (fix_run broker_down_env).2 = true) as Hd by (vm_compute; reflexivity).
  destruct (fix_run broker_down_env).2 as [[res err]|] eqn:Hout; [|discriminate Hd].
  pose proof (fix_rest_exec broker_down_env (fix_session SessionPhaseRunning) _ eq_refl Hout) as He.
  exists (fix_rest broker_down_env), res, err. split; [exact He|].
  assert (finalized (fix_session SessionPhaseRunning) = true) as Hf by (vm_compute; reflexivity).
  assert (existsb failed_publish (fix_rest broker_down_env) = true) as Hp
    by (vm_compute; reflexivity).
  exact (failed_publish_is_retried _ _ _ (fix_session SessionPhaseRunning) _ _ _ eq_refl Hf He Hp).
Defined.

Lemma Reconcile_is_bounded_witness : (length creating_run.1 ≤ 29)%nat.
Proof. exact (Reconcile_is_bounded _ _ _ _ _ creating_run_exec). Defined.

(** A running session whose pod failed. *)
Definition lost_env : env_answers :=
  fix_env (fix_session SessionPhaseRunning) (Ok (fix_pod fix_failed)) None.
Definition lost_run := fix_run lost_env.
Lemma lost_run_exec : exec (Reconcile fix_reconciler "labs" "session") lost_run.1 lost_run.2.
Proof. apply fix_run_exec. Qed.

Lemma running_fails_on_evidence_witness : ∃ i s' a s1,
  lost_run.1 !! i = Some (Ev (UpdateStatus s') a) ∧ working (fix_session SessionPhaseRunning) (take i lost_run.1) s1 ∧
  (Phase (Status s1) = SessionPhaseCreating ∨
   (Phase (Status s1) = SessionPhaseRunning ∧ pod_lost s1 (take i lost_run.1))).
Proof.
  destruct (phase_written_spec lost_run.1 6 SessionPhaseFailed) as (s'&a&Hi&Hp);
    [vm_compute; reflexivity|].
  assert (head lost_run.1 =
    Some (Ev (GetSession "labs" "session") (Ok (fix_session SessionPhaseRunning)))) as Hs by reflexivity.
  destruct (running_fails_on_evidence _ _ _ _ _ _ (fix_session SessionPhaseRunning) _ _
    lost_run_exec Hi Hs eq_refl Hp) as (s1&Hw&Hl).
  exists 6%nat, s', a, s1. split; [exact Hi|]. split; [exact Hw|exact Hl].
Defined.

(** The handler alone, on the pod that failed; the status write fails too. *)
Definition fix_failing : env_answers :=
  mkEnvAnswers (Err not_found) (λ _, Err (EApi ConflictError)) (Ok (fix_pod fix_failed)) None 0.

Lemma fix_builds s : rc_Storage (Resources (Spec s)) = "20Gi" → builds_PVCs fix_reconciler s.
Proof.
  intros Hs. unfold builds_PVCs, BuildPVCs. rewrite Hs. eexists. reflexivity.
Qed.

Lemma lost_pod_fails_session_witness : ∃ tr out,
  exec (reconcileRunning fix_reconciler (fix_session SessionPhaseRunning))
    (Ev (Get KPod "labs" "lab-session-s1") (Ok (fix_pod fix_failed)) :: tr) out ∧
  fails_with fix_reconciler (fix_session SessionPhaseRunning) "Pod failed" "pod phase is Failed" tr out.
Proof.
  set (s := fix_session SessionPhaseRunning).
  pose proof (exec_run_in fix_failing (reconcileRunning fix_reconciler s)) as He.
  assert (lost_reason s (Ok (fix_pod fix_failed)) = Some "pod phase is Failed") as Hl
    by (vm_compute; reflexivity).
  eexists (tail (run_in fix_failing (reconcileRunning fix_reconciler s)).1), _.
  split; [exact He|].
  exact (lost_pod_fails_session fix_reconciler s _ _ _ _ (fix_builds s eq_refl) Hl He).
Defined.

(** A URL parser and a name validator for the settings of the fixtures. *)
Definition fix_url (u : string) : option (string * string) :=
  if decide (u = "https://lab.example/") then Some ("https", "lab.example") else None.
Definition fix_dns (n : string) : list string := [].

Lemma fix_settings_valid :
  valid_settings fix_url fix_dns (settings (r_ResourceBuilder fix_reconciler)).
Proof. vm_compute. reflexivity. Qed.

Lemma fix_buildable phase : buildable fix_reconciler (fix_session phase).
Proof.
  intros s Hs _. split; [by eapply settings_build, fix_settings_valid|]. apply storage_build.
  right. rewrite Hs. vm_compute. reflexivity.
Qed.

(** The read of the pod times out, 100 seconds after the start: retried. *)
Definition timeout_env : env_answers :=
  fix_env (fix_session SessionPhaseCreating) (Err (EApi ServerTimeoutError)) None.

Lemma create_error_is_final_or_retried_witness :
  let run := run_in timeout_env (reconcileCreating fix_reconciler (fix_session SessionPhaseCreating)) in
  (∃ tr1 tr2 s1, run.1 = tr1 ++ tr2 ∧ same_session (fix_session SessionPhaseCreating) s1 ∧
    creating_outcome fix_reconciler (fix_session SessionPhaseCreating) s1 tr1 tr2 run.2) ∧
  match run.2 with
  | Done (result, Some (EWrap message (EApi ServerTimeoutError)), _) =>
      bool_decide (message = "failed to get pod") && (RequeueAfter result =? 0)
  | _ => false
  end = true ∧
  existsb (λ e, match ev_op e with UpdateStatus _ => true | _ => false end) run.1 = false.
Proof.
  split; [|split; vm_compute; reflexivity].
  exact (create_error_is_final_or_retried fix_reconciler (fix_session SessionPhaseCreating) _ _
    (fix_buildable SessionPhaseCreating) (exec_run_in timeout_env _)).
Defined.

Definition bad_session : LabSession :=
  mkLabSession (fix_meta None [LabSessionFinalizer] None)
    (mkLabSessionSpec "u1" "s1" "lab1" (mkResourceConfig "2Gi" "1" "plenty")
      (mkSessionConfig "" true true true) "" "http://images/rootfs.ext4" (mkImageConfig ""))
    (fix_status SessionPhaseCreating (Some (100 * second)) []).

Lemma bad_storage_panics_witness :
  (run_in fix_failing (reconcileCreating fix_reconciler bad_session)).2 = Panicked.
Proof.
  assert (bad_storage bad_session) as Hb by (split; [discriminate|vm_compute; reflexivity]).
  exact (proj2 (proj1 (bad_storage_panics fix_reconciler bad_session Hb) _ _ (exec_run_in _ _))).
Defined.

Definition ready_true (t : time) : Condition :=
  mkCondition ConditionTypePodReady ConditionTrue 1 t "PodRunning" "Pod is running".

Lemma set_condition_is_map_update_witness :
  set_condition_in [ready_true 5] (ready_true 9) = [ready_true 5].
Proof.
  assert (NoDup (cond_Type <$> [ready_true 5])) as Hnd by apply NoDup_singleton.
  destruct (set_condition_is_map_update [ready_true 5] (ready_true 9) Hnd) as (_&_&_&H).
  exact (H (ready_true 5) (list_elem_of_here _ _) eq_refl eq_refl).
Defined.

(** * Builders *)

Definition fix_rb : ResourceBuilder := NewResourceBuilder fix_settings.
Definition fix_lab : LabSession := fix_session SessionPhaseCreating.

Lemma vm_size_spec_witness : ∃ size,
  vm_size fix_rb fix_lab = Done size ∧ CPUs size = 2 ∧ MemoryMiB size = 2048 ∧
  nano (containerMemory size) = 2176 * 2 ^ 20 * 10 ^ 9.
Proof.
  assert (finished (vm_size fix_rb fix_lab) = true) as Hd by (vm_compute; reflexivity).
  destruct (vm_size fix_rb fix_lab) as [size|] eqn:Hs; [|discriminate Hd].
  assert (positive_quantity (rc_CPU (Resources (Spec fix_lab))) = Some (mkRefQuantity (15 * 10 ^ 8) DecimalSI))
    as Hcpu by (vm_compute; reflexivity).
  assert (positive_quantity (rc_Memory (Resources (Spec fix_lab))) =
    Some (mkRefQuantity (2 ^ 31 * 10 ^ 9) BinarySI)) as Hmem by (vm_compute; reflexivity).
  assert (in_range (rc_CPU (Resources (Spec fix_lab))) (10 ^ 6) 999) as Hc
    by (intros q; rewrite Hcpu; intros [= <-]; vm_compute; discriminate).
  assert (in_range (rc_Memory (Resources (Spec fix_lab))) (10 ^ 9) 0) as Hm
    by (intros q; rewrite Hmem; intros [= <-]; vm_compute; discriminate).
  destruct (vm_size_spec fix_rb fix_lab size Hs Hc Hm) as (H1&H2&H3).
  unfold requested in H1, H2. rewrite Hcpu in H1. rewrite Hmem in H2.
  exists size. split; [reflexivity|]. split; [rewrite H1; vm_compute; reflexivity|].
  assert (MemoryMiB size = 2048) as Hmm by (rewrite H2; vm_compute; reflexivity).
  split; [exact Hmm|]. rewrite H3, Hmm. reflexivity.
Defined.

Lemma pod_is_well_formed_witness : ∃ pod,
  BuildPod fix_rb fix_lab = Done pod ∧ Forall (mounts_exist pod) (all_containers pod) ∧
  Forall (λ c, within (ctr_Requests c) (ctr_Limits c)) (all_containers pod).
Proof.
  assert (finished (BuildPod fix_rb fix_lab) = true) as Hd by (vm_compute; reflexivity).
  destruct (BuildPod fix_rb fix_lab) as [pod|] eqn:Hpod; [|discriminate Hd].
  assert (finished (BuildPVCs fix_rb fix_lab) = true) as Hd' by (vm_compute; reflexivity).
  destruct (BuildPVCs fix_rb fix_lab) as [pvcs|] eqn:Hpvcs; [|discriminate Hd'].
  destruct (pod_is_well_formed fix_rb fix_lab pod pvcs Hpod Hpvcs) as (_&_&Hm&_&_&Hw). eauto.
Defined.

Lemma valid_settings_build_witness : ∃ pod, BuildPod fix_rb fix_lab = Done pod.
Proof.
  assert (valid_settings fix_url fix_dns (settings fix_rb)) as Hv by (vm_compute; reflexivity).
  exact (proj1 (valid_settings_build fix_url fix_dns fix_rb fix_lab Hv)).
Defined.

Lemma service_and_ingress_reach_pod_witness : ∃ pod,
  BuildPod fix_rb fix_lab = Done pod ∧
  Forall (λ p, sp_TargetPort p ∈ pod_ports pod) (svc_Ports (BuildService fix_lab)).
Proof.
  assert (finished (BuildPod fix_rb fix_lab) = true) as Hd by (vm_compute; reflexivity).
  destruct (BuildPod fix_rb fix_lab) as [pod|] eqn:Hpod; [|discriminate Hd].
  destruct (service_and_ingress_reach_pod fix_rb fix_lab pod Hpod) as (_&_&_&Hp&_). eauto.
Defined.

Definition other_lab : LabSession :=
  mkLabSession (fix_meta None [LabSessionFinalizer] None)
    (mkLabSessionSpec "u1" "s2" "lab1" (mkResourceConfig "" "" "") (mkSessionConfig "" true true true)
      "" "http://images/rootfs.ext4" (mkImageConfig ""))
    (fix_status SessionPhaseCreating None []).

Lemma routes_are_disjoint_witness :
  "/sessions/s1/vscode" ∈ path_Path <$> ing_Paths (BuildIngress fix_rb fix_lab) ∧
  "/sessions/s2/terminal" ∈ path_Path <$> ing_Paths (BuildIngress fix_rb other_lab) ∧
  ¬ segments "/sessions/s1/vscode" `prefix_of` segments "/sessions/s2/terminal" ∧
  ¬ segments "/sessions/s2/terminal" `prefix_of` segments "/sessions/s1/vscode".
Proof.
  assert (has_char ascii_slash (SessionID (Spec fix_lab)) = false) as H1 by (vm_compute; reflexivity).
  assert (has_char ascii_slash (SessionID (Spec other_lab)) = false) as H2 by (vm_compute; reflexivity).
  assert ("/sessions/s1/vscode" ∈ path_Path <$> ing_Paths (BuildIngress fix_rb fix_lab)) as Hp1
    by apply list_elem_of_here.
  assert ("/sessions/s2/terminal" ∈ path_Path <$> ing_Paths (BuildIngress fix_rb other_lab)) as Hp2
    by (apply list_elem_of_further, list_elem_of_here).
  assert (SessionID (Spec fix_lab) ≠ SessionID (Spec other_lab)) as Hne by discriminate.
  split; [exact Hp1|]. split; [exact Hp2|].
  exact (proj2 (routes_are_disjoint fix_rb fix_rb fix_lab other_lab _ _ H1 H2 Hp1 Hp2) Hne).
Defined.

Lemma sessions_share_no_object_witness :
  meta_Name (svc_Meta (BuildService fix_lab)) ≠ meta_Name (svc_Meta (BuildService other_lab)).
Proof.
  assert (SessionID (Spec fix_lab) ≠ SessionID (Spec other_lab)) as Hne by discriminate.
  exact (proj1 (sessions_share_no_object fix_rb fix_rb fix_lab other_lab Hne)).
Defined.

Lemma calculateVMIP_spec_witness : calculateVMIP "10.0.0.255" = "10.0.0.256".
Proof.
  assert (Forall (λ p, has_char ascii_dot p = false) ["10"; "0"; "0"]) as Hp
    by (repeat constructor).
  assert (0 ≤ 255 ≤ 255) as Hd by lia.
  exact (proj1 (calculateVMIP_spec "10" "0" "0" 255 Hp Hd)).
Defined.

Lemma usage_of_session_witness : ∃ pod pvcs cpu,
  BuildPod fix_rb fix_lab = Done pod ∧ BuildPVCs fix_rb fix_lab = Done pvcs ∧
  nano cpu = 850 * 10 ^ 6 ∧ usage_CPURequest (usageOf (Some pod) pvcs) = Quantity_String cpu.
Proof.
  assert (finished (BuildPod fix_rb fix_lab) = true) as Hd by (vm_compute; reflexivity).
  destruct (BuildPod fix_rb fix_lab) as [pod|] eqn:Hpod; [|discriminate Hd].
  assert (finished (BuildPVCs fix_rb fix_lab) = true) as Hd' by (vm_compute; reflexivity).
  destruct (BuildPVCs fix_rb fix_lab) as [pvcs|] eqn:Hpvcs; [|discriminate Hd'].
  destruct (usage_of_session fix_rb fix_lab pod pvcs pod Hpod Hpvcs eq_refl)
    as (size&cpu&memory&storage&vs&_&Hcpu&_&_&_&Hu&_).
  exists pod, pvcs, cpu. split; [reflexivity|]. split; [reflexivity|]. split; [exact Hcpu|].
  rewrite Hu. unfold BuildPod in Hpod. inv_outcome Hpod. reflexivity.
Defined.

Lemma kernels_limit_spec_witness :
  nano (vmKernelsSizeLimit (NewQuantity (2 ^ 62) BinarySI)) < 0.
Proof.
  assert (0 ≤ Quantity_Value (NewQuantity (2 ^ 62) BinarySI)) as H0 by (vm_compute; discriminate).
  assert (2 ^ 62 ≤ Quantity_Value (NewQuantity (2 ^ 62) BinarySI)) as H1 by (vm_compute; discriminate).
  exact (proj2 (kernels_limit_spec (NewQuantity (2 ^ 62) BinarySI) H0) H1).
Defined.

(** * SSH keys *)

Lemma stored_private_key_round_trip_witness :
  pem_decode "OPENSSH PRIVATE KEY" (pem_EncodeToMemory "OPENSSH PRIVATE KEY"
    (openSSHPrivateKey_blob (repeat "c"%char 4) (repeat "a"%char 32) (repeat "b"%char 64) "lab"))
    ≫= decode_private_key = Some (repeat "a"%char 32, repeat "b"%char 64, "lab").
Proof. apply stored_private_key_round_trip; [reflexivity|vm_compute; reflexivity]. Defined.

Lemma authorized_key_round_trip_witness :
  decode_authorized_key (authorizedKey (repeat "a"%char 32) "my lab")
  = Some (repeat "a"%char 32, "my lab").
Proof. apply authorized_key_round_trip. vm_compute. reflexivity. Defined.
