(* ===== verification/LivenessWitnesses.v ===== *)
(** A session that comes up in four runs: the finalizer, the start, a run that does not
    find the pod while the broker is down, and one that finds the pod ready. *)
From S2P Require Import Prelude GoStrings Kube KubeTypes KubeInstance Types PodSettings.
From S2P Require Import ResourceBuilder Events Effects Reconciler ReconcilerGuard LifeGuard BuilderSpec.
From S2P Require Import ReconcilerLiveness Fixtures Witnesses.

(** The environments of the fixtures cooperate. *)
Lemma run_in_Forall {A} e (P : event → Prop) (p : prog A) :
  (∀ o, P (Ev o (answer e o))) → Forall P (run_in e p).1.
Proof.
  intros HP. unfold run_in. generalize tt. induction p as [a| |o k IH]; intros u; simpl; [constructor..|].
  specialize (IH (answer e o) u). destruct (run _ (k _) u) as [[tr out] u'] eqn:Hr. simpl in *.
  by constructor.
Qed.

Lemma fix_smooth s pod publish (pods : Pod → Prop) up :
  match pod with
  | Ok p => own "uid-1" KPod p ∧ pods p
  | Err e => IsNotFound e = true ∧ up = false
  end → ∀ o, smooth "uid-1" pods up (Ev o (answer (fix_env s pod publish) o)).
Proof.
  intros Hpod o. destruct o as [| | | | |k| | | | | | | | |]; simpl; try done.
  1, 2: by eexists.
  destruct k; simpl; try done. destruct pod; simpl; naive_solver.
Qed.

Lemma fix_rest_smooth s pod publish pods up :
  match pod with
  | Ok p => own "uid-1" KPod p ∧ pods p
  | Err e => IsNotFound e = true ∧ up = false
  end → Forall (smooth "uid-1" pods up) (fix_rest (fix_env s pod publish)).
Proof.
  intros Hpod. unfold fix_rest, fix_run. apply Forall_tail, run_in_Forall. by apply fix_smooth.
Qed.

(** One run, which leaves [b]. *)
Lemma fix_runs s pod publish b rest s' :
  base (Ev (GetSession "labs" "session") (Ok s) :: fix_rest (fix_env s pod publish)) = Some b →
  runs fix_reconciler "labs" "session" b rest s' →
  runs fix_reconciler "labs" "session" s
    ((fix_rest (fix_env s pod publish), (fix_run (fix_env s pod publish)).2) :: rest) s'.
Proof. intros Hb Hr. eapply runs_cons; [reflexivity|by apply fix_rest_exec|exact Hb|exact Hr]. Qed.

(** The versions of the session. *)
Abbreviation absent := (Err not_found : result error Pod).
Abbreviation broken := (Some (EText "broker down")).
Definition fix_finalized : LabSession := with_finalizer fix_new.
Definition fix_started : LabSession :=
  default fix_new (base (fix_rest (fix_env fix_finalized absent None))).
Definition fix_up : LabSession :=
  default fix_new (base (fix_rest (fix_env fix_started (Ok (fix_pod fix_ready)) None))).

Lemma session_comes_up_witness : ∃ rs s',
  runs fix_reconciler "labs" "session" fix_new rs s' ∧ length rs = 4%nat ∧ is_up s'.
Proof.
  assert (valid_settings fix_url fix_dns (settings (r_ResourceBuilder fix_reconciler))) as Hv
    by (vm_compute; reflexivity).
  assert (storage_ok fix_new) as Hst by (right; vm_compute; reflexivity).
  assert (coming fix_new) as Hc by (split; [vm_compute; reflexivity|by left]).
  set (rs := [(fix_rest (fix_env fix_new absent None), (fix_run (fix_env fix_new absent None)).2);
    (fix_rest (fix_env fix_finalized absent None), (fix_run (fix_env fix_finalized absent None)).2);
    (fix_rest (fix_env fix_started absent broken), (fix_run (fix_env fix_started absent broken)).2)]).
  set (e := fix_env fix_started (Ok (fix_pod fix_ready)) None).
  assert (runs fix_reconciler "labs" "session" fix_new
    (rs ++ [(fix_rest e, (fix_run e).2)]) fix_up) as Hr.
  { apply fix_runs with (b := fix_finalized); [vm_compute; reflexivity|].
    apply fix_runs with (b := fix_started); [vm_compute; reflexivity|].
    apply fix_runs with (b := fix_started); [vm_compute; reflexivity|].
    apply fix_runs with (b := fix_up); [vm_compute; reflexivity|constructor]. }
  assert (Forall (λ x, Forall (smooth "uid-1" waiting false) x.1) rs) as Hrs
    by (do 3 (apply Forall_cons; split; [apply fix_rest_smooth; by split|]); apply Forall_nil; exact I).
  assert (Forall (smooth "uid-1" ready true) (fix_rest e)) as He.
  { apply fix_rest_smooth. split; [|by split]. intros m Hm. simpl. unfold ref_controlled_by. simpl.
    by rewrite Hm. }
  exists (rs ++ [(fix_rest e, (fix_run e).2)]), fix_up. split; [exact Hr|]. split; [reflexivity|].
  exact (proj1 (session_comes_up _ _ _ fix_url fix_dns fix_new rs _ _ fix_up Hv Hst Hc Hr
    (le_S _ _ (le_n _)) Hrs He)).
Defined.
