(* ===== verification/BusWitnesses.v ===== *)
(** Witnesses for the event bus and the circuit breaker. *)
From S2P Require Import Prelude GoStrings Events Publisher PublisherSpec CircuitBreaker BreakerSpec.

(** * The event bus *)

Definition fix_change (phase : string) : PhaseChange :=
  mkPhaseChange "uid-1" "labs" "session" "u1" "s1" phase "" "" ∅.

Lemma event_id_identifies_change_witness :
  ¬ ev_ID (PhaseChange_Event (fix_change "Running") 1) = ev_ID (PhaseChange_Event (fix_change "Failed") 2).
Proof.
  assert (has_char ascii_dot (pc_Phase (fix_change "Running")) = false) as H1 by reflexivity.
  assert (has_char ascii_dot (pc_Phase (fix_change "Failed")) = false) as H2 by reflexivity.
  intros Heq. destruct (proj1 (event_id_identifies_change _ _ 1 2 H1 H2) Heq) as [_ Hp].
  discriminate Hp.
Defined.

(** An encoder, a broker that confirms, and one that loses the connection. *)
Definition fix_marshal (e : Event) : result string (list ascii) := Ok (String.list_ascii_of_string (ev_ID e)).
Definition fix_broker : Broker string :=
  mkBroker (Ok 7%nat) None None None None (Ok true) None (λ _, false) (λ _, false).
Definition lossy_broker : Broker string :=
  mkBroker (Ok 7%nat) None None None None (Err "timeout") None (λ _, false) (λ _, false).

Definition fix_publish (b : Broker string) :=
  PublishPhaseChange fix_marshal b None 5 (fix_change "Running") (NewRabbitPublisher "amqp://mq").

Lemma connections_do_not_leak_witness : conn (fix_publish fix_broker).1.1 = Some 7%nat.
Proof.
  assert (life fix_marshal "amqp://mq" (fix_publish fix_broker).1.1 ([] ++ (fix_publish fix_broker).1.2))
    as Hl by exact (life_publish fix_marshal "amqp://mq" _ _ fix_broker None 5 (fix_change "Running")
      _ _ (fix_publish fix_broker).2 (life_new _ _) eq_refl).
  assert (7%nat ∈ live ([] ++ (fix_publish fix_broker).1.2)) as Hc by compute_done.
  exact (proj1 (connections_do_not_leak fix_marshal _ _ _ Hl) 7%nat Hc).
Defined.

Lemma no_error_means_confirmed_witness : ∃ body c pre,
  fix_marshal (PhaseChange_Event (fix_change "Running") 5) = Ok body ∧
  (fix_publish fix_broker).1.2 = pre ++ [PublishMessage c (message (NewRabbitPublisher "amqp://mq")
    None 5 (fix_change "Running") body) None; WaitConfirm c (Ok true)] ∧
  existsb is_publish pre = false ∧ ch (fix_publish fix_broker).1.1 = Some c.
Proof.
  assert (fix_publish fix_broker =
    ((fix_publish fix_broker).1.1, (fix_publish fix_broker).1.2, None)) as H by reflexivity.
  exact (proj2 (no_error_means_confirmed fix_marshal _ _ _ _ _ _ _ _ H) eq_refl).
Defined.

Lemma failed_publish_reconnects_witness : conn (fix_publish lossy_broker).1.1 = None.
Proof.
  assert (fix_publish lossy_broker =
    ((fix_publish lossy_broker).1.1, (fix_publish lossy_broker).1.2, Some (ErrWait "timeout"))) as H
    by reflexivity.
  exact (proj1 (failed_publish_reconnects fix_marshal _ _ _ _ _ _ _ _ H)).
Defined.

(** * The circuit breaker *)

Definition fix_breaker : CircuitBreaker string := NewCircuitBreaker (default_config "db") 1.

(** Callers that come one after the other and fail, and what they did. *)
Fixpoint failing_calls (cb : CircuitBreaker string) (ts : list time)
    : list action * CircuitBreaker string :=
  match ts with
  | [] => ([], cb)
  | t :: ts =>
      match beforeRequest cb t with
      | (cb1, Ok g) =>
          let rest := failing_calls (afterRequest cb1 g false t) ts in
          (Admit g :: Finish :: rest.1, rest.2)
      | (cb1, Err _) => let rest := failing_calls cb1 ts in (Reject :: rest.1, rest.2)
      end
  end.

Lemma failing_calls_steps ts : ∀ cb,
  steps (failing_calls cb ts).1 (mkSys cb []) (mkSys (failing_calls cb ts).2 []).
Proof.
  induction ts as [|t ts IH]; intros cb; simpl; [constructor|].
  destruct (beforeRequest cb t) as [cb1 [g|e]] eqn:Hb; simpl.
  - eapply steps_cons; [by eapply step_admit|]. eapply steps_cons; [|apply IH].
    apply (step_finish _ [] g []).
  - eapply steps_cons; [by eapply step_reject|apply IH].
Qed.

Lemma steps_snoc (l : list action) a (s1 s2 s3 : sys (E:=string)) :
  steps l s1 s2 → step a s2 s3 → steps (l ++ [a]) s1 s3.
Proof.
  induction 1; intros Ha; simpl; (eapply steps_cons; [eassumption|]); [constructor|auto].
Qed.

Lemma admitted_call (cb : CircuitBreaker string) t g :
  (beforeRequest cb t).2 = Ok g → beforeRequest cb t = ((beforeRequest cb t).1, Ok g).
Proof. by destruct (beforeRequest cb t) as [? ?]; simpl; intros ->. Qed.

(** Six callers fail, and after the timeout one is admitted as a probe. *)
Definition six_failures := failing_calls fix_breaker [2; 3; 4; 5; 6; 7].
Definition probe_actions : list action := six_failures.1 ++ [Admit 3].

Lemma probe_run : ∃ s, steps probe_actions (mkSys fix_breaker []) s ∧
  state (sys_cb s) = StateHalfOpen ∧ generation (sys_cb s) = 3.
Proof.
  exists (mkSys (beforeRequest six_failures.2 (100 * second)).1 [3]).
  split; [|split; vm_compute; reflexivity].
  eapply steps_snoc; [apply failing_calls_steps|]. apply (step_admit _ _ (100 * second)).
  apply admitted_call. vm_compute. reflexivity.
Qed.

Lemma breaker_accounting_witness : ∃ s, steps probe_actions (mkSys fix_breaker []) s ∧
  state (sys_cb s) = StateHalfOpen ∧ generation (sys_cb s) = 3 ∧
  Requests (counts (sys_cb s)) = admitted (generation (sys_cb s)) probe_actions ∧
  admitted (generation (sys_cb s)) probe_actions ≤ 1 ∧ admitted 1 probe_actions = 6.
Proof.
  destruct probe_run as (s&Hl&Hs&Hg).
  assert (0 ≤ cfg_MaxRequests (E:=string) (default_config "db")) as Hm by discriminate.
  assert (Z.of_nat (length probe_actions) < 2 ^ 31 - 1) as Hn by (vm_compute; reflexivity).
  destruct (breaker_accounting (default_config "db") Hm probe_actions 1 s Hl Hn) as (Hr&_&_&Hh).
  exists s. split; [exact Hl|]. split; [exact Hs|]. split; [exact Hg|].
  split; [exact Hr|]. split; [exact (proj1 (Hh Hs))|vm_compute; reflexivity].
Defined.

(** A breaker stuck after its probe, an hour later: read, then asked. *)
Definition stuck_breaker : CircuitBreaker string :=
  fail_at "down" (NewCircuitBreaker (default_config "db") 1) [second; second; second; second; second; second; 62 * second].
Definition an_hour : time := 60 * minute.

Lemma failed_probe_sticks_witness :
  stuck (mkSys (beforeRequest (GetState stuck_breaker an_hour).1 an_hour).1 []).
Proof.
  assert (steps [ReadState; Reject] (mkSys stuck_breaker [])
    (mkSys (beforeRequest (GetState stuck_breaker an_hour).1 an_hour).1 [])) as Hs.
  { eapply steps_cons; [apply (step_GetState _ _ an_hour)|].
    eapply steps_cons; [|constructor]. apply (step_reject _ _ an_hour _ (ErrTooManyRequests "db")).
    vm_compute. reflexivity. }
  assert (DoReset ∉ [ReadState; Reject]) as Hn.
  { intros Hin. apply list_elem_of_In in Hin. destruct Hin as [H|[H|[]]]; discriminate H. }
  pose proof (proj2 failed_probe_sticks "db" "down" : stuck (mkSys stuck_breaker [])) as Hst.
  exact (proj2 (proj1 failed_probe_sticks _ _ _ Hst Hs Hn)).
Defined.

Lemma default_breaker_opens_after_six_witness :
  state (fail_at "down" fix_breaker [second; second; second; second; second; second]) = StateOpen.
Proof. exact (proj1 (proj2 (default_breaker_opens_after_six "db" "down" 1 [second; second; second; second; second; second]) eq_refl)). Defined.

Definition open_breaker : CircuitBreaker string :=
  fail_at "down" fix_breaker [second; second; second; second; second; second].

Lemma reset_keeps_state_witness :
  beforeRequest (Reset open_breaker (90 * second)) (100 * second)
  = (Reset open_breaker (90 * second), Err (ErrOpen "db")).
Proof.
  assert (100 * second ≤ 90 * second + CircuitBreaker.timeout open_breaker) as Ht
    by (vm_compute; discriminate).
  exact (proj2 (proj2 (reset_keeps_state open_breaker (90 * second))) eq_refl (100 * second) Ht).
Defined.
