(* ===== verification/LifeWitnesses.v ===== *)
(** Lives of a session, evaluated: a server that answers every call of a
    reconciliation, a session that is created, reconciled, deleted while a
    reconciliation still reads its old version, and torn down. The theorems of
    LifeSpec.v are applied to it. *)
From S2P Require Import Prelude GoStrings Kube KubeTypes KubeInstance Types PodSettings.
From S2P Require Import ResourceBuilder Ingress Usage Events Effects SSHKeys Reconciler.
From S2P Require Import ReconcilerGuard LifeGuard Cluster LifeSpec Fixtures.

(** The patch from [from] to [s] sets the annotation and nothing else. *)
Definition sets_phase (from s : LabSession) : Prop :=
  annotations s = <[PublishedPhaseAnnotation := annotation (ObjMeta s) PublishedPhaseAnnotation]>
    (annotations from) ∧
  annotations from !! PublishedPhaseAnnotation ≠
    Some (annotation (ObjMeta s) PublishedPhaseAnnotation).

Definition stale_version : error := EApi ConflictError.

(** A server that refuses nothing but a stale update; [stale] versions are missing
    from the cache. *)
Definition serve (stale : nat) (b : option LabSession) (w : world) (o : op) : resp o * world :=
  let store_if (ok : LabSession → bool) (change : LabSession → LabSession)
      : result error LabSession * world :=
    match current w with
    | Some cur => if ok cur then (Ok (change cur), store (change cur) w) else (Err stale_version, w)
    | None => (Err not_found, w)
    end in
  match o return resp o * world with
  | GetSession _ _ =>
      (match reverse (versions w) !! stale with Some s => Ok s | None => Err not_found end, w)
  | UpdateStatus s => store_if (λ cur, bool_decide (b = Some cur))
      (λ cur, mkLabSession (ObjMeta cur) (Spec cur) (Status s))
  | UpdateSession s =>
      store_if (λ cur, bool_decide (b = Some cur ∧ same_identity cur s ∧
                  meta_DeletionTimestamp (ObjMeta s) = meta_DeletionTimestamp (ObjMeta cur)))
        (λ cur, mkLabSession (ObjMeta s) (Spec s) (Status cur))
  | PatchSession from s =>
      store_if (λ _, bool_decide (sets_phase from s)) (λ cur, set_Annotations
        (Some (<[PublishedPhaseAnnotation := annotation (ObjMeta s) PublishedPhaseAnnotation]>
                 (annotations cur))) cur)
  | o => (answer (fix_env fix_new (Err not_found) None) o,
          match o with
          | PublishPhaseChange _ c => publish c w
          | Create k x => add_created (meta_Name (obj_meta k x)) w
          | _ => w
          end)
  end.

Lemma serve_serves stale b w o : serves b w o (serve stale b w o).1 (serve stale b w o).2.
Proof.
  destruct o; simpl; try done.
  - split; [done|]. destruct (reverse (versions w) !! stale) eqn:Hs; [|done].
    apply (proj1 (elem_of_reverse _ _)). by eapply list_elem_of_lookup_2.
  - destruct (current w) as [cur|] eqn:Hc; [|by left]. case_bool_decide as Hb; [|by left].
    right. destruct Hb as (->&?&Hd). by exists cur, (mkLabSession (ObjMeta s) (Spec s) (Status cur)).
  - destruct (current w) as [cur|] eqn:Hc; [|by left]. case_bool_decide as Hb; [|by left].
    right. by exists cur, (mkLabSession (ObjMeta cur) (Spec cur) (Status s)).
  - destruct (current w) as [cur|] eqn:Hc; [|by left]. case_bool_decide as Hb; [|by left].
    right. eexists cur, _. split; [done|]. split; [done|]. split; [|done].
    intros _. split; [done|]. destruct Hb as [Ha Hne]. intros k. rewrite Ha.
    change (annotations (set_Annotations (Some ?a) cur)) with a.
    destruct (decide (k = PublishedPhaseAnnotation)) as [->|Hk].
    + rewrite !lookup_insert_eq. by case_decide.
    + rewrite !lookup_insert_ne by done. by case_decide.
  - by left.
Qed.

(** Runs [p] for at most [fuel] calls; cut off there. *)
Fixpoint drive {A} (fuel stale : nat) (p : prog A) (h : list event) (w : world) : world :=
  match fuel, p with
  | S fuel, Do o k =>
      let x := serve stale (base h) w o in drive fuel stale (k x.1) (h ++ [Ev o x.1]) x.2
  | _, _ => w
  end.

Definition reconcile_in (fuel stale : nat) (w : world) : world :=
  drive fuel stale (Reconcile fix_reconciler "labs" "session") [] w.

Lemma drive_life fuel stale p h w runs :
  rtc (life fix_reconciler "labs" "session") (mkSystem w (mkRunning p h :: runs))
    (mkSystem (drive fuel stale p h w) runs).
Proof.
  revert p h w. induction fuel as [|fuel IH]; intros p h w; simpl.
  - apply rtc_once. apply (life_stop _ _ _ w [] runs).
  - destruct p as [a| |o k]; [apply rtc_once, (life_stop _ _ _ w [] runs)..|].
    eapply rtc_l; [|apply IH]. apply (life_call _ _ _ w _ [] runs o k h), serve_serves.
Qed.

Lemma reconcile_in_reachable s0 fuel stale w :
  reachable fix_reconciler "labs" "session" s0 w →
  reachable fix_reconciler "labs" "session" s0 (reconcile_in fuel stale w).
Proof.
  intros [runs Hl]. exists runs. etrans; [exact Hl|].
  eapply rtc_l; [apply life_start|]. apply drive_life.
Qed.

(** The user deletes the session, with the end of the grace period. *)
Definition delete_session (t : Z) (s : LabSession) : LabSession :=
  let m := ObjMeta s in
  mkLabSession (mkObjectMeta (meta_Name m) (meta_Namespace m) (meta_UID m) (meta_Generation m)
    (Some t) (meta_Finalizers m) (meta_Labels m) (meta_Annotations m)
    (meta_OwnerReferences m)) (Spec s) (Status s).

Definition user_deletes (t : Z) (w : world) : world :=
  match current w with Some s => store (delete_session t s) w | None => w end.

Lemma user_deletes_reachable s0 t w :
  time_ptr_is_zero (Some t) = false →
  reachable fix_reconciler "labs" "session" s0 w →
  reachable fix_reconciler "labs" "session" s0 (user_deletes t w).
Proof.
  intros Ht [runs Hl]. unfold user_deletes. destruct (current w) as [s|] eqn:Hs; [|by exists runs].
  exists runs. etrans; [exact Hl|]. apply rtc_once. eapply life_edit; [done|].
  split; [done|]. repeat split; try done.
  intros _. unfold deleting, delete_session. cbn [ObjMeta meta_DeletionTimestamp]. by rewrite Ht.
Qed.

(** The life: finalizer, start, creation (cut off), deletion, a reconciliation that
    does not see the deletion yet, and the teardown. *)
Definition born : world := mkWorld [fix_new] false [] [].
Definition working_life : world := reconcile_in 40 0 (reconcile_in 40 0 (reconcile_in 40 0 born)).
Definition whole_life : world :=
  reconcile_in 40 0 (reconcile_in 40 1 (user_deletes (50 * second) working_life)).

(** Another end: the user shortens the grace period, and the deletion works from
    the version before, so that its status write is refused. *)
Definition refused_life : world :=
  reconcile_in 40 1 (user_deletes (40 * second) (user_deletes (50 * second) working_life)).

Lemma working_life_reachable : reachable fix_reconciler "labs" "session" fix_new working_life.
Proof. do 3 apply reconcile_in_reachable. by exists []. Qed.

Lemma whole_life_reachable : reachable fix_reconciler "labs" "session" fix_new whole_life.
Proof.
  do 2 apply reconcile_in_reachable. apply user_deletes_reachable; [done|].
  apply working_life_reachable.
Qed.

Lemma refused_life_reachable : reachable fix_reconciler "labs" "session" fix_new refused_life.
Proof.
  apply reconcile_in_reachable. do 2 (apply user_deletes_reachable; [done|]).
  apply working_life_reachable.
Qed.

Lemma fix_new_fresh : fresh fix_new.
Proof. split; [by left|vm_compute; reflexivity]. Qed.

(** * Witnesses *)

Lemma life_refines_lifecycle_witness :
  rtc lifecycle_step (view_version fix_new false) (view fix_new whole_life) ∧
  view fix_new whole_life = mkLifecycle SessionPhaseTerminating true false true.
Proof.
  split; [|vm_compute; reflexivity].
  exact (life_refines_lifecycle fix_reconciler "labs" "session" fix_new whole_life
           fix_new_fresh whole_life_reachable).
Defined.

(** The phase of the version with an index. *)
Definition phase_at (w : world) (i : nat) : option string := Phase ∘ Status <$> versions w !! i.

Lemma phase_at_Some w i p : phase_at w i = Some p →
  ∃ v, versions w !! i = Some v ∧ Phase (Status v) = p.
Proof. unfold phase_at. destruct (versions w !! i) as [v|]; simpl; [|done]. intros [= <-]. eauto. Qed.

Lemma lookup_last {A} (l : list A) i x : l !! i = Some x → is_Some (last l).
Proof. intros Hi. rewrite last_is_Some. by intros ->. Qed.

Lemma phases_never_go_back_witness :
  ∃ v v', versions whole_life !! 2%nat = Some v ∧ versions whole_life !! 5%nat = Some v' ∧
    Phase (Status v) = SessionPhaseCreating ∧ Phase (Status v') = SessionPhaseTerminating ∧
    (phase_rank (Phase (Status v)) ≤ phase_rank (Phase (Status v')))%nat ∧ deleting v' = true.
Proof.
  destruct (phase_at_Some whole_life 2 SessionPhaseCreating) as (v&Hv&Hp);
    [vm_compute; reflexivity|].
  destruct (phase_at_Some whole_life 5 SessionPhaseTerminating) as (v'&Hv'&Hp');
    [vm_compute; reflexivity|].
  exists v, v'.
  destruct (phases_never_go_back fix_reconciler "labs" "session" fix_new whole_life 2 5 v v'
    fix_new_fresh whole_life_reachable ltac:(lia) Hv Hv') as (_&Hr&_&Hd). auto 10.
Defined.

(** The second life announces a Terminating that no version of it had. *)
Lemma announcements_are_true_witness :
  (pc_Phase <$> published whole_life) = [SessionPhaseCreating; SessionPhaseTerminating] ∧
  (∀ c, c ∈ published whole_life → pc_Phase c ≠ SessionPhaseTerminating →
     ∃ v, v ∈ versions whole_life ∧ c = phaseChange v) ∧
  existsb (λ v, bool_decide (annotation (ObjMeta v) PublishedPhaseAnnotation = SessionPhaseCreating))
    (versions whole_life) = true ∧
  (pc_Phase <$> published refused_life) = [SessionPhaseCreating; SessionPhaseTerminating] ∧
  existsb (λ v, bool_decide (Phase (Status v) = SessionPhaseTerminating)) (versions refused_life) = false ∧
  (∀ c, c ∈ published refused_life → pc_Phase c = SessionPhaseTerminating →
     ∃ v, v ∈ versions refused_life ∧ deleting v = true ∧
       (c = phaseChange v ∨ c = phaseChange (terminating v))).
Proof.
  split; [vm_compute; reflexivity|]. split.
  { exact (proj1 (announcements_are_true fix_reconciler "labs" "session" fix_new whole_life
             fix_new_fresh whole_life_reachable)). }
  do 3 (split; [vm_compute; reflexivity|]).
  exact (proj1 (proj2 (announcements_are_true fix_reconciler "labs" "session" fix_new refused_life
           fix_new_fresh refused_life_reachable))).
Defined.

Lemma created_session_is_protected_witness :
  ∃ v, last (versions whole_life) = Some v ∧ deleting v = true ∧ finalized v = false.
Proof.
  destruct (phase_at_Some whole_life 0 "") as (v0&Hv0&_); [vm_compute; reflexivity|].
  destruct (lookup_last _ _ _ Hv0) as [v Hv]. exists v. split; [done|].
  exact (proj2 (created_session_is_protected fix_reconciler "labs" "session" fix_new whole_life v
    fix_new_fresh whole_life_reachable Hv) ltac:(vm_compute; reflexivity)).
Defined.
