(* ===== verification/BusLifeWitnesses.v ===== *)
(** A life of a session on the event bus, evaluated: the server of LifeWitnesses.v, and
    a RabbitMQ publisher whose broker confirms. *)
From S2P Require Import Prelude GoStrings Kube KubeTypes KubeInstance Types PodSettings.
From S2P Require Import Events Publisher PublisherSpec Effects Reconciler ReconcilerGuard LifeGuard.
From S2P Require Import Cluster Life Bus BusSpec Fixtures BusWitnesses LifeWitnesses.

(** The state of the bus next to the world. *)
Record on_bus := mkOnBus {
  ob_world : world;
  ob_publisher : RabbitPublisher;
  ob_calls : list (amqp_call string)
}.

(** A publish through the publisher: its error, if any, as the reconciler sees it. *)
Definition bus_serve (t : option duration) (c : PhaseChange) (b : on_bus)
    : option error * on_bus :=
  match Publisher.PublishPhaseChange fix_marshal fix_broker t 5 c (ob_publisher b) with
  | (p, l, None) => (None, mkOnBus (publish c (ob_world b)) p (ob_calls b ++ l))
  | (p, l, Some _) => (Some (EText "publish failed"), mkOnBus (ob_world b) p (ob_calls b ++ l))
  end.

(** The answer to a call, and the bus afterwards. *)
Definition bus_answer (base : option LabSession) (b : on_bus) (o : op) : resp o * on_bus :=
  match o return resp o * on_bus with
  | PublishPhaseChange t c => bus_serve t c b
  | o => ((serve 0 base (ob_world b) o).1,
          mkOnBus (serve 0 base (ob_world b) o).2 (ob_publisher b) (ob_calls b))
  end.

Fixpoint bus_drive {A} (fuel : nat) (p : prog A) (h : list event) (b : on_bus) : on_bus :=
  match fuel, p with
  | S fuel, Do o k =>
      let x := bus_answer (base h) b o in bus_drive fuel (k x.1) (h ++ [Ev o x.1]) x.2
  | _, _ => b
  end.

Abbreviation steps := (rtc (bus_life (B := RabbitBus fix_marshal) fix_reconciler "labs" "session")).
Definition bus_state (b : on_bus) (runs : list running) : bus_system :=
  mkBusSystem (mkSystem (ob_world b) runs) (ob_publisher b) (ob_calls b).

Lemma bus_answer_life b o k h runs :
  steps (bus_state b (mkRunning (Do o k) h :: runs))
    (bus_state (bus_answer (base h) b o).2
       (mkRunning (k (bus_answer (base h) b o).1) (h ++ [Ev o (bus_answer (base h) b o).1]) :: runs)).
Proof.
  apply rtc_once. destruct o;
    try (apply (bus_call _ _ _ (ob_world b) _ [] runs); [done|apply serve_serves]).
  unfold bus_answer, bus_serve.
  destruct (Publisher.PublishPhaseChange fix_marshal fix_broker timeout 5 c (ob_publisher b))
    as [[p l] [e|]] eqn:Hp; simpl.
  - apply (bus_publishes _ _ _ (ob_world b) [] runs timeout c k h (Some (EText "publish failed"))).
    by exists fix_broker, 5, (Some e).
  - apply (bus_publishes _ _ _ (ob_world b) [] runs timeout c k h None). by exists fix_broker, 5, None.
Qed.

Lemma bus_drive_life fuel p h b runs :
  steps (bus_state b (mkRunning p h :: runs)) (bus_state (bus_drive fuel p h b) runs).
Proof.
  revert p h b. induction fuel as [|fuel IH]; intros p h b; simpl.
  - apply rtc_once. apply (bus_stop _ _ _ (ob_world b) [] runs).
  - destruct p as [a| |o k]; [apply rtc_once, (bus_stop _ _ _ (ob_world b) [] runs)..|].
    etrans; [apply bus_answer_life|apply IH].
Qed.

Definition bus_reconcile (b : on_bus) : on_bus :=
  bus_drive 40 (Reconcile fix_reconciler "labs" "session") [] b.

Lemma bus_reconcile_life b0 b : steps b0 (bus_state b []) → steps b0 (bus_state (bus_reconcile b) []).
Proof.
  intros Hb. etrans; [exact Hb|]. eapply rtc_l; [apply bus_start|]. apply bus_drive_life.
Qed.

(** The finalizer, the start, and a reconciliation that publishes Creating. *)
Definition bus_born : on_bus := mkOnBus born (NewRabbitPublisher "amqp://mq") [].
Definition bus_working : on_bus := bus_reconcile (bus_reconcile (bus_reconcile bus_born)).

Lemma bus_working_life :
  steps (bus_init fix_new (NewRabbitPublisher "amqp://mq")) (bus_state bus_working []).
Proof. do 3 apply bus_reconcile_life. by apply rtc_refl. Qed.

(** The position of a version that records a phase. *)
Definition records (w : world) (p : string) : option nat :=
  fst <$> list_find (λ v, annotation (ObjMeta v) PublishedPhaseAnnotation = p) (versions w).

Lemma records_Some w p i : records w p = Some i → ∃ v,
  v ∈ versions w ∧ annotation (ObjMeta v) PublishedPhaseAnnotation = p.
Proof.
  unfold records. destruct (list_find _ _) as [[j v]|] eqn:Hf; simpl; [|done]. intros [= <-].
  apply list_find_Some in Hf as (Hv&Hp&_). exists v. split; [by eapply list_elem_of_lookup_2|done].
Qed.

Lemma recorded_phases_were_acknowledged_witness : ∃ c,
  pc_Phase c = SessionPhaseCreating ∧ acknowledged fix_marshal c (ob_calls bus_working).
Proof.
  assert (is_Some (records (ob_world bus_working) SessionPhaseCreating)) as [i Hi]
    by (apply (bool_decide_unpack _); vm_compute; exact I).
  destruct (records_Some _ _ _ Hi) as (v&Hv&Ha).
  assert (annotation (ObjMeta v) PublishedPhaseAnnotation ≠ "") as Hne.
  { intros Heq. discriminate (eq_trans (eq_sym Ha) Heq). }
  assert (∀ b, steps (bus_init fix_new (NewRabbitPublisher "amqp://mq")) (bus_state b []) →
    ∀ v, v ∈ versions (ob_world b) → annotation (ObjMeta v) PublishedPhaseAnnotation ≠ "" →
    ∃ c, pc_UID c = meta_UID (ObjMeta v) ∧
      pc_Phase c = annotation (ObjMeta v) PublishedPhaseAnnotation ∧
      acknowledged fix_marshal c (ob_calls b)) as Hr.
  { intros b Hb. exact (proj1 (recorded_phases_were_acknowledged fix_marshal fix_reconciler "labs"
      "session" "amqp://mq" fix_new (bus_state b []) fix_new_fresh Hb)). }
  destruct (Hr bus_working bus_working_life v Hv Hne) as (c&_&Hp&Hc).
  exists c. split; [exact (eq_trans Hp Ha)|exact Hc].
Defined.
