(* ===== verification/LegacyWitnesses.v ===== *)
(** Witnesses for the older controller and for the structured errors: an instance of
    the library for untyped objects, concrete runs, and the theorems of LegacySpec.v
    and LabErrorsSpec.v applied to them. *)
From S2P Require Import Prelude GoStrings Kube KubeTypes KubeInstance Types Unstructured.
From S2P Require Import PodSettings ResourceBuilder Events Effects SSHKeys Reconciler.
From S2P Require Import LabErrors LabErrorsSpec Legacy LegacySpec Fixtures.

(** * Untyped objects *)

Definition ref_nested_map (o : json_map) (f : string) : result string (option json_map) :=
  match o !! f with
  | Some (JObject m) => Ok (Some m)
  | None => Ok None
  | Some _ => Err "accessor error: not a map"
  end.

Fixpoint ref_nested_string (o : json_map) (fields : list string) : result string (option string) :=
  match fields with
  | [] => Err "accessor error: no field"
  | [f] => match o !! f with
           | Some (JString s) => Ok (Some s)
           | None => Ok None
           | Some _ => Err "accessor error: not a string"
           end
  | f :: fields => match o !! f with
                   | Some (JObject m) => ref_nested_string m fields
                   | None => Ok None
                   | Some _ => Err "accessor error: not a map"
                   end
  end.

(** The fields that the fixtures set. *)
Definition ref_from_unstructured (o : json_map) : result string LabSessionSpec :=
  Ok (mkLabSessionSpec (spec_string o "userId") (spec_string o "sessionId") ""
    (mkResourceConfig "" "" "") (mkSessionConfig "" true true true) ""
    (spec_string o "rootfsUrl") (mkImageConfig "")).

#[export] Instance RefUnstructured : UnstructuredLib := {|
  NestedString := ref_nested_string;
  NestedMap := ref_nested_map;
  SetNestedMap o m f := <[f := JObject m]> o;
  FromUnstructured := ref_from_unstructured
|}.

#[export] Instance RefUnstructuredLaws : UnstructuredLaws RefUnstructured.
Proof.
  split; [done|]. intros o f. simpl. unfold ref_nested_map. by destruct (o !! f) as [[]|].
Qed.

(** * Runs *)

Definition u_spec : json_map :=
  <["userId" := JString "u1"]> (<["sessionId" := JString "s1"]>
  (<["rootfsUrl" := JString "http://images/rootfs.ext4"]>
  {[ "resources" := JObject {[ "memory" := JString "64Gi" ]} ]})).

Definition u_session (deleted : option time) : Unstructured :=
  mkUnstructured (fix_meta deleted [LabSessionFinalizer] None) {[ "spec" := JObject u_spec ]}.

(** The session is read, after [fails] failures; the pod and the service are given;
    everything else is created or stored. *)
Definition l_answer (s : Unstructured) (pod : result error Pod) (service : result error Service)
    (o : op) (fails : nat) : resp o * nat :=
  match o return resp o * nat with
  | GetUnstructured _ _ =>
      match fails with S fails => (Err (EApi TimeoutError), fails) | O => (Ok s, O) end
  | Get k _ _ => (match k return result error (obj k) with
                  | KPod => pod
                  | KService => service
                  | _ => Err not_found
                  end, fails)
  | o => (answer (fix_env fix_new (Err not_found) None) o, fails)
  end.

Definition l_reconciler : LabSessionReconciler :=
  mkLabSessionReconciler 0 0 (Some (NewResourceBuilder fix_settings)).
Definition no_time_format (t : time) : string := "2026-01-01T00:00:00Z".

Definition l_run {A} (fails : nat) (s : Unstructured) (pod : result error Pod)
    (service : result error Service) (p : prog A) : list event * outcome A :=
  (run (l_answer s pod service) p fails).1.

Lemma l_run_exec {A} fails s pod service (p : prog A) :
  exec p (l_run fails s pod service p).1 (l_run fails s pod service p).2.
Proof.
  unfold l_run. destruct (run _ p fails) as [[tr out] n] eqn:Hr. by eapply run_exec.
Qed.

Definition l_reconcile : prog (Result * option error) :=
  Reconcile (λ z, z) no_time_format l_reconciler (NewResourceBuilder fix_settings) "labs" "session".

(** A run on a session with a running pod; a deletion that waits for its pod; a
    deletion that finds everything gone. *)
Definition working_run := l_run 0 (u_session None) (Ok (fix_pod fix_ready)) (Err not_found) l_reconcile.
Definition waiting_run :=
  l_run 0 (u_session (Some 1)) (Ok (fix_pod fix_ready)) (Err not_found) l_reconcile.
Definition gone_run := l_run 0 (u_session (Some 1)) (Err not_found) (Err not_found) l_reconcile.

Lemma working_run_exec : exec l_reconcile working_run.1 working_run.2.
Proof. apply l_run_exec. Qed.
Lemma waiting_run_exec : exec l_reconcile waiting_run.1 waiting_run.2.
Proof. apply l_run_exec. Qed.
Lemma gone_run_exec : exec l_reconcile gone_run.1 gone_run.2.
Proof. apply l_run_exec. Qed.

(** What a call is, as a number. *)
Definition call_code (e : event) : nat :=
  match ev_op e with
  | UpdateUnstructured _ => 1
  | UpdateUnstructuredStatus _ => 2
  | Get KPod _ _ => 3
  | Create _ _ => 4
  | GetUnstructured _ _ => 5
  | Sleep _ => 6
  | _ => 0
  end.

Lemma status_call_at (tr : list event) (i : nat) : call_code <$> tr !! i = Some 2%nat →
  ∃ u a, tr !! i = Some (Ev (UpdateUnstructuredStatus u) a).
Proof. destruct (tr !! i) as [[[] a]|]; try done; try (by destruct k); eauto. Qed.
Lemma update_call_at (tr : list event) (i : nat) : call_code <$> tr !! i = Some 1%nat →
  ∃ u a, tr !! i = Some (Ev (UpdateUnstructured u) a).
Proof. destruct (tr !! i) as [[[] a]|]; try done; try (by destruct k); eauto. Qed.


Definition pod_found (e : event) : bool :=
  match pod_answer e with Some (Ok _) => true | _ => false end.
Lemma pod_found_at (tr : list event) (i : nat) : pod_found <$> tr !! i = Some true →
  ∃ ns n pod, Ev (Get KPod ns n) (Ok pod) ∈ tr.
Proof.
  destruct (tr !! i) as [[[] a]|] eqn:Hi; try done. destruct k; try done.
  destruct a as [pod|]; [|done]. intros _. exists namespace, name, pod.
  by eapply list_elem_of_lookup_2.
Qed.

(** * Witnesses of LegacySpec *)

(** Every read fails: five reads, four pauses. *)
Definition failing_reads :=
  l_run 9 (u_session None) (Err not_found) (Err not_found)
    (getWithRetry (λ z, z) l_reconciler "labs" "session").

Lemma failing_reads_exec :
  exec (getWithRetry (λ z, z) l_reconciler "labs" "session") failing_reads.1 failing_reads.2.
Proof. apply l_run_exec. Qed.

Lemma get_retries_back_off_witness :
  length failing_reads.1 = 9%nat ∧
  pauses failing_reads.1 = [2 * second; 4 * second; 8 * second; 16 * second] ∧
  ∃ k x, (k ≤ 4)%nat ∧ length (reads "labs" "session" failing_reads.1) = S k ∧
    last failing_reads.1 = Some (Ev (GetUnstructured "labs" "session") x).
Proof.
  split; [vm_compute; reflexivity|]. split; [vm_compute; reflexivity|].
  destruct (get_retries_back_off (λ z, z) l_reconciler "labs" "session" _ _
    ltac:(vm_compute; split; reflexivity) failing_reads_exec) as (k&x&Hk&Hr&_&_&_&Hl&_).
  exists k, x. auto.
Defined.

(** 64Gi of memory are asked for, and capped. *)
Lemma limits_are_capped_witness :
  rl_Memory (extractResourceLimits u_spec) = "16Gi" ∧
  rl_Memory (extractResourceLimits {[ "resources" := JObject {[ "memory" := JString "2Gi" ]} ]}) = "2Gi".
Proof.
  split; [vm_compute; reflexivity|].
  refine (proj2 (proj2 (limits_are_capped _)) _ "2Gi" (mkRefQuantity (2 * 2 ^ 30 * 10 ^ 9) BinarySI)
    _ _ _ _); [reflexivity|reflexivity|vm_compute; reflexivity|].
  vm_compute. intros Hc. discriminate Hc.
Defined.

(** The deletion that finds everything gone updates by call 6; the other waits. *)
Lemma finalizer_waits_for_collector_witness :
  (∃ u a s, gone_run.1 !! 6%nat = Some (Ev (UpdateUnstructured u) a) ∧
     first_read "labs" "session" (take 6 gone_run.1) = Some s ∧
     if l_deleting s then u = released s ∧ resources_gone s (take 6 gone_run.1)
     else l_finalized s = false ∧ u = protected s) ∧
  no_update waiting_run.1.
Proof.
  split.
  - destruct (update_call_at gone_run.1 6) as (u&a&Hi); [vm_compute; reflexivity|].
    destruct (proj1 (finalizer_waits_for_collector (λ z, z) no_time_format _ _ _ _ _ _
      gone_run_exec) 6%nat u a Hi) as (s&Hs&Hg).
    exists u, a, s. auto.
  - assert (option_map l_deleting (first_read "labs" "session" waiting_run.1) = Some true) as Hs
      by (vm_compute; reflexivity).
    destruct (first_read "labs" "session" waiting_run.1) as [s|] eqn:Hr; [|discriminate Hs].
    injection Hs as Hd.
    destruct (pod_found_at waiting_run.1 4) as (ns&name&pod&Hpod); [vm_compute; reflexivity|].
    exact (proj1 (proj2 (finalizer_waits_for_collector (λ z, z) no_time_format _ _ _ _ _ _
      waiting_run_exec) s _ _ _ Hr Hd Hpod)).
Defined.

(** The last call writes the status Running. *)
Lemma running_status_has_running_pod_witness : ∃ u a s st,
  working_run.1 !! 13%nat = Some (Ev (UpdateUnstructuredStatus u) a) ∧ has_status u st ∧
  first_read "labs" "session" (take 13 working_run.1) = Some s ∧
  if l_deleting s then st !! "phase" = Some (JString "Terminating")
  else l_finalized s = true ∧ live_status st (take 13 working_run.1).
Proof.
  destruct (status_call_at working_run.1 13) as (u&a&Hi); [vm_compute; reflexivity|].
  destruct (proj1 (running_status_has_running_pod (λ z, z) no_time_format _ _ _ _ _ _ 13%nat
    working_run_exec) u a Hi) as (s&st&Hs&Hst&Hg).
  exists u, a, s, st. auto.
Defined.

(** * Witnesses of LabErrorsSpec *)

Definition critical_error : LabSessionError string :=
  NewCriticalError 0 "disk is lost" None.

(** The class of an object that is not found. *)
Definition not_found_error : LabSessionError string :=
  classify_error 0 (GKube (EApi NotFoundError) : go_error string).

Lemma wrapped_error_loses_decision_witness :
  permanent (GLab critical_error) = false ∧
  GetRetryAfter (classify_error 0 (GWrap "reconcile" (GLab critical_error))) = 30 * second ∧
  Handle (mkErrorHandler true false) 0 (Some (GLab critical_error)) 1 =
    ([CalledCritical critical_error], (no_requeue, Some (GLab critical_error))) ∧
  Handle (mkErrorHandler true false) 0 (Some (GWrap "reconcile" (GLab not_found_error))) 1 =
    (if permanent (GLab not_found_error)
     then ([], (no_requeue, Some (GLab (classify_error 0 (GWrap "reconcile" (GLab not_found_error))))))
     else ([], (requeue_after
       (GetRetryAfter (classify_error 0 (GWrap "reconcile" (GLab not_found_error)))), None))) ∧
  permanent (GLab not_found_error) = true.
Proof.
  destruct (wrapped_error_loses_decision (mkErrorHandler true false) 0 "reconcile" critical_error 1)
    as (_&_&_&H1&H2).
  destruct (wrapped_error_loses_decision (mkErrorHandler true false) 0 "reconcile" not_found_error 1)
    as [H3 _].
  destruct (H1 (λ p, eq_refl)) as [Hp Hd].
  split; [exact Hp|]. split; [exact Hd|]. split; [apply H2; reflexivity|].
  split; [exact H3|vm_compute; reflexivity].
Defined.

Lemma metrics_count_errors_witness :
  let em := record_all [(5, critical_error); (7, NewTemporaryError 7 "again" None)] in
  em_criticalCount em = 1 ∧ em_retryCount em = 1 ∧ em_lastErrorTime em = 7.
Proof.
  destruct (metrics_count_errors [(5, critical_error); (7, NewTemporaryError 7 "again" None)])
    as (_&Hr&Hc&Ht); [vm_compute; intros H; discriminate H|].
  split; [exact Hc|]. split; [exact Hr|exact Ht].
Defined.

Lemma error_decision_witness :
  ReconcileResult 0 (Some (GKube (EApi NotFoundError) : go_error string)) =
    (no_requeue, Some (GLab (classify_error 0 (GKube (EApi NotFoundError))))) ∧
  ∃ d, d ∈ classify_delays ∧
    ReconcileResult 0 (Some (GKube (EApi ConflictError) : go_error string)) = (requeue_after d, None).
Proof.
  split.
  - exact (proj2 (proj2 (error_decision NewErrorHandler 0
      (GKube (EApi NotFoundError) : go_error string) 1)) eq_refl).
  - exact (proj2 (proj2 (error_decision NewErrorHandler 0
      (GKube (EApi ConflictError) : go_error string) 1)) eq_refl).
Defined.
