(* ===== verification/FormsWitnesses.v ===== *)
(** The forms of the API machinery's types at concrete functions (times as numbers of
    seconds, metadata by its names), and the theorems of FormsSpec.v applied to a running
    session. *)
From S2P Require Import Prelude GoStrings Kube KubeTypes KubeInstance Types Unstructured PodSettings.
From S2P Require Import ResourceBuilder Codec SessionJSON FormsSpec Fixtures.
From S2P Require Memory ApisV1 Legacy LegacyWitnesses.

(** * An instance *)

Definition num_time : Codec time :=
  mkCodec time (λ t, if decide (t = 0) then JNull else JNumber (t `div` second))
    (λ v, match v with JNumber z => Ok (z * second) | JNull => Ok 0 | _ => mismatch end)
    0 (λ _, false) whole_seconds (λ _, True).
Lemma num_time_laws : CodecLaws num_time.
Proof. split; [|done|done]. intros t _. unfold num_time, whole_seconds. simpl. by case_decide; subst. Qed.

Definition encode_Condition (c : Condition) : json_map :=
  object [("type", put false (cond_Type c)); ("status", put false (cond_Status c));
          ("observedGeneration", put (C := int64_codec) true (cond_ObservedGeneration c));
          ("lastTransitionTime", put (C := num_time) false (cond_LastTransitionTime c));
          ("reason", put false (cond_Reason c)); ("message", put false (cond_Message c))].
Definition decode_Condition (m : json_map) : result string Condition :=
  type ← read m "type"; status ← read m "status";
  generation ← read (C := int64_codec) m "observedGeneration";
  last ← read (C := num_time) m "lastTransitionTime"; reason ← read m "reason";
  message ← read m "message"; Ok (mkCondition type status generation last reason message).
Definition condition_form : Codec Condition :=
  struct_codec encode_Condition decode_Condition (mkCondition "" "" 0 0 "" "") second_condition
    (λ c, in_int64 (cond_ObservedGeneration c) = true).
Lemma condition_form_laws : CodecLaws condition_form.
Proof.
  pose proof num_time_laws. apply struct_laws. intros [] Hc. simpl in Hc.
  unfold decode_Condition, encode_Condition. by read_fields.
Qed.

Definition named (m : ObjectMeta) : ObjectMeta :=
  mkObjectMeta (meta_Name m) (meta_Namespace m) (meta_UID m) 0 None [] ∅ None [].
Definition encode_meta (m : ObjectMeta) : json_map :=
  object [("name", put true (meta_Name m)); ("namespace", put true (meta_Namespace m));
          ("uid", put true (meta_UID m))].
Definition decode_meta (m : json_map) : result string ObjectMeta :=
  name ← read m "name"; namespace ← read m "namespace"; uid ← read m "uid";
  Ok (mkObjectMeta name namespace uid 0 None [] ∅ None []).
Definition meta_form : Codec ObjectMeta :=
  struct_codec encode_meta decode_meta (mkObjectMeta "" "" "" 0 None [] ∅ None []) named (λ _, True).
Lemma meta_form_laws : CodecLaws meta_form.
Proof. apply struct_laws. intros [] _. unfold decode_meta, encode_meta. by read_fields. Qed.

#[local] Instance RefForms : FormLib :=
  { TimeForm := num_time; ConditionForm := condition_form; MetaForm := meta_form;
    ListMeta := string; ListMetaForm := string_codec }.
#[local] Instance RefForms_laws : FormLaws RefForms.
Proof.
  split; try done; try apply num_time_laws; try apply condition_form_laws;
    try apply meta_form_laws; try apply string_laws.
  - intros t. simpl. by case_decide.
  - intros c. exists (encode_Condition c). split; [done|]. unfold encode_Condition.
    repeat split; by erewrite object_lookup; [|distinct_tags|in_fields].
Qed.

(** * The witnesses *)

Definition fix_typed : Memory.TypeMeta * LabSession :=
  (Memory.mkTypeMeta "LabSession" "dozlab.io/v1", fix_session SessionPhaseRunning).

Lemma written_session_is_read_witness :
  ApisV1.decode_LabSession (encode_LabSession fix_typed) =
  Ok (older_session (second_session fix_typed)).
Proof.
  assert (session_fits fix_typed) as Hx by (split; [exact I|]; split; [constructor|by repeat split]).
  exact (proj2 (written_session_is_read fix_typed Hx)).
Defined.

#[local] Instance ref_untyped : UnstructuredLib :=
  { NestedString := LegacyWitnesses.ref_nested_string;
    NestedMap := LegacyWitnesses.ref_nested_map;
    SetNestedMap o m f := <[f := JObject m]> o;
    FromUnstructured := decode_LabSessionSpec }.

Definition fix_untyped : Unstructured := mkUnstructured (fix_meta None [] None) ∅.

Lemma spec_is_read_alike_witness :
  ApisV1.decode_LabSessionSpec (encode_LabSessionSpec fix_spec) = Ok (older_spec fix_spec) ∧
  Legacy.spec_string (encode_LabSessionSpec fix_spec) "sessionId" = "s1".
Proof.
  destruct (spec_is_read_alike (U := ref_untyped) (NewResourceBuilder fix_settings) fix_untyped fix_spec
    (older_spec fix_spec) (λ m, eq_refl)) as (Hold&_&_&_&Hid&_).
  split; [exact Hold|exact Hid].
Defined.
