(* ===== verification/MemoryWitnesses.v ===== *)
(** Witnesses for the memory of API objects: an instance of the machinery's copies,
    and a session in memory. *)
From S2P Require Import Prelude Kube Types Memory DeepCopy DeepCopySpec ReconcilerGuard.

(** [DeepCopyInto] of the metadata types, by copying what they refer to. *)
Definition fix_time_copy (l : positive) : Mem positive :=
  c ← load l; match c with CTime t => alloc (CTime t) | _ => fault end.
Definition fix_int64_copy (l : positive) : Mem positive :=
  c ← load l; match c with CInt64 z => alloc (CInt64 z) | _ => fault end.

Definition fix_meta_copy (m : MemMeta) : Mem MemMeta :=
  del ← opt_copy fix_time_copy (mm_DeletionTimestamp m);
  fins ← opt_copy (copy_slice as_CStrings CStrings "" mret) (mm_Finalizers m);
  labels ← opt_copy copy_map (mm_Labels m);
  annotations ← opt_copy copy_map (mm_Annotations m);
  owners ← opt_copy (copy_slice as_COwners COwners (mkOwnerReference "" "" "" false) mret)
             (mm_OwnerReferences m);
  mret (mkMemMeta (mm_Name m) (mm_Namespace m) (mm_UID m) (mm_Generation m) del fins labels
          annotations owners).

#[export] Instance fix_meta_lib : MetaLib := {
  ObjectMeta_DeepCopyInto := fix_meta_copy;
  ListMeta_DeepCopyInto m :=
    n ← opt_copy fix_int64_copy (ml_RemainingItemCount m);
    mret (mkMemListMeta (ml_ResourceVersion m) (ml_Continue m) n);
  Condition_DeepCopyInto := mret;
  Time_DeepCopy := fix_time_copy
}.

Lemma plain_copies {A} : copies (S := plain_stored A) mret.
Proof.
  intros h x d [= <-]. exists x, h. split; [done|]. split; [done|]. split; [done|].
  split; [by intros l Hl%not_elem_of_nil|constructor].
Qed.

Lemma fix_time_copies h l t : deref as_CTime h l = Some t →
  ∃ l' h', fix_time_copy l h = Some (l', h') ∧ fresh_copy (S := TimeRef) h (Some t) (Some l') h'.
Proof.
  intros ([]&Hl&[= <-])%bind_Some. destruct (alloc_spec (CTime t0) h) as (l'&Ha&Hl').
  exists l', (<[l' := CTime t0]> h). split; [|by eapply fresh_copy_new].
  unfold fix_time_copy. by rewrite (Mem_bind_Some _ _ _ _ _ (load_spec _ _ _ Hl)).
Qed.

Lemma fix_int64_copies : copies (S := Int64Ref) (opt_copy fix_int64_copy).
Proof.
  apply copies_nil; [done|]. intros h l d (z&Hz&[= <-])%bind_Some.
  apply bind_Some in Hz as ([]&Hl&[= <-]). destruct (alloc_spec (CInt64 z0) h) as (l'&Ha&Hl').
  exists (Some l'), (<[l' := CInt64 z0]> h). split; [|by eapply fresh_copy_new].
  simpl. rewrite (Mem_bind_Some _ _ h l' (<[l' := CInt64 z0]> h)); [done|].
  unfold fix_int64_copy. by rewrite (Mem_bind_Some _ _ _ _ _ (load_spec _ _ _ Hl)).
Qed.

Lemma fix_times_copies : copies (S := TimeRef) (opt_copy fix_time_copy).
Proof.
  apply copies_nil; [done|]. intros h l d (t&Ht&[= <-])%bind_Some.
  destruct (fix_time_copies h l t Ht) as (l'&h'&Hc&Hf). exists (Some l'), h'. split; [|done].
  simpl. by rewrite (Mem_bind_Some _ _ _ _ _ Hc).
Qed.

Lemma fix_meta_copies : copies fix_meta_copy.
Proof.
  eapply (copies_via (pair_stored (pair_stored TimeRef StringsRef)
      (pair_stored (pair_stored MapRef MapRef) OwnersRef)) meta_refs meta_value _ _
    (λ m '((del, fins), ((labels, annotations), owners)),
      mkMemMeta (mm_Name m) (mm_Namespace m) (mm_UID m) (mm_Generation m) del fins labels
        annotations owners)).
  - apply (copies_pair (pair_stored TimeRef StringsRef) (pair_stored (pair_stored MapRef MapRef) OwnersRef)).
    + apply (copies_pair TimeRef StringsRef); [apply fix_times_copies|].
      by apply (slice_copies as_CStrings CStrings "" (plain_stored string)), plain_copies.
    + apply (copies_pair (pair_stored MapRef MapRef) OwnersRef).
      * apply (copies_pair MapRef MapRef); apply map_copies.
      * by apply (slice_copies as_COwners COwners (mkOwnerReference "" "" "" false)
          (plain_stored OwnerReference)), plain_copies.
  - intros m h. unfold fix_meta_copy, mbind, Mem_bind, meta_refs. simpl.
    by repeat (destruct_match; simplify_eq/=).
  - by intros m [[??][[??]?]].
  - by intros m [[??][[??]?]] [[??][[??]?]].
Qed.

#[export] Instance fix_meta_laws : MetaLaws fix_meta_lib.
Proof.
  split; [apply fix_meta_copies| |apply plain_copies|apply fix_time_copies].
  eapply (copies_via Int64Ref _ _ _ _ (λ m n, mkMemListMeta (ml_ResourceVersion m) (ml_Continue m) n)).
  - apply fix_int64_copies.
  - done.
  - done.
  - done.
Qed.

(** A running session in memory: endpoints at 2, conditions at 3 in an array with room
    to spare, a start time at 4, no annotations. *)
Definition fix_mem_session : MemSession :=
  mkMemSession (mkTypeMeta "LabSession" "dozlab.io/v1")
    (mkMemMeta "session" "labs" "uid-1" 1 None None None None None)
    (mkLabSessionSpec "u1" "s1" "" (mkResourceConfig "" "" "") (mkSessionConfig "" true true true)
       "" "" (mkImageConfig ""))
    (mkMemStatus "Running" "" "" "pod" "" "" "" (Some 2%positive) (Some (mkSlice 3 1)) (Some 4%positive)
       None 0 no_usage).
Definition fix_condition : Condition := mkCondition "Ready" "True" 0 5 "" "".
Definition fix_heap : gmap positive cell :=
  <[1%positive := CSession fix_mem_session]>
  (<[2%positive := CMap {["ssh" := "ssh://host"]}]>
  (<[3%positive := CConditions [fix_condition; fix_condition]]> {[4%positive := CTime 5]})).

Definition fix_mem_value : LabSession :=
  mkLabSession (mkObjectMeta "session" "labs" "uid-1" 1 None [] ∅ None [])
    (mo_Spec fix_mem_session)
    (mkLabSessionStatus "Running" "" "" "pod" "" "" "" {["ssh" := "ssh://host"]} [fix_condition]
       (Some 5) None 0 no_usage).

(** Writing to the endpoints of the copy does not change the original. *)
Lemma deep_copies_are_independent_witness : ∃ q h',
  LabSession_DeepCopy (Some 1%positive) fix_heap = Some (q, h') ∧
  view (Stored := SessionPtr) h' q = Some (Some (mo_TypeMeta fix_mem_session, fix_mem_value)) ∧
  ∀ l c, l ∈ locs (Stored := SessionPtr) h' q →
    view (Stored := SessionPtr) (<[l := c]> h') (Some 1%positive) =
      Some (Some (mo_TypeMeta fix_mem_session, fix_mem_value)).
Proof.
  assert (view (Stored := SessionPtr) fix_heap (Some 1%positive) =
    Some (Some (mo_TypeMeta fix_mem_session, fix_mem_value))) as Hv by reflexivity.
  destruct (proj1 deep_copies_are_independent _ _ _ Hv) as (q&h'&Hq&_&Hy&Hx&_).
  exists q, h'. split; [exact Hq|]. split; [exact Hy|]. intros l c Hl. apply Hx.
  intros l' Hne. apply lookup_insert_ne. intros ->. exact (Hne Hl).
Defined.

Lemma patch_base_is_unrecorded_witness : ∃ base h',
  record_in_memory 1%positive Reconciler.PublishedPhaseAnnotation "Running" fix_heap = Some (base, h') ∧
  view (Stored := SessionPtr) h' base = Some (Some (mo_TypeMeta fix_mem_session, fix_mem_value)) ∧
  view (Stored := SessionPtr) h' (Some 1%positive) =
    Some (Some (mo_TypeMeta fix_mem_session, record_phase fix_mem_value)).
Proof.
  apply (patch_base_is_unrecorded fix_heap 1%positive (mo_TypeMeta fix_mem_session) fix_mem_value).
  - reflexivity.
  - apply (bool_decide_unpack _). vm_compute. exact I.
Defined.
