(* ===== verification/ProcessWitnesses.v ===== *)
(** Witnesses for flags, start-up and logging. *)
From S2P Require Import Prelude GoStrings Kube KubeTypes KubeInstance Types Unstructured Flags PodSettings.
From S2P Require Import ResourceBuilder Main SettingsSpec MainSpec Telemetry Logging LoggingSpec.

(** * Settings *)

Definition fix_getenv (key : string) : string :=
  if decide (key = "DOZLAB_VM_IMAGE") then "vm:env"
  else if decide (key = "DOZLAB_INIT_IMAGE") then "init:env"
  else if decide (key = "DOZLAB_TERMINAL_IMAGE") then "terminal:env"
  else if decide (key = "DOZLAB_IMAGE_PULL_SECRETS") then "from-env"
  else if decide (key = "RABBITMQ_URL") then "amqp://mq"
  else "".

Definition fix_flags : list (string * string) :=
  [("vm-image", "vm:1"); ("image-pull-secrets", "a, b"); ("vm-image", "vm:2")].

Lemma settings_come_from_flags_or_environment_witness : ∃ s,
  Parse settings_flags ["--vm-image=vm:1"; "--image-pull-secrets=a, b"; "--vm-image=vm:2"]
    (BindFlags fix_getenv empty_settings).1 = Parsed s [] ∧
  VMImage s = "vm:2" ∧ InitImage s = "init:env" ∧ SSHUser s = "root" ∧ ImagePullSecrets s = ["a"; "b"].
Proof.
  assert (Forall (λ kv, kv.1 ∈ setting_names) fix_flags) as Hk.
  { apply (bool_decide_unpack _). vm_compute. exact I. }
  eexists. split; [exact (settings_come_from_flags_or_environment fix_getenv empty_settings fix_flags Hk)|].
  repeat split; reflexivity.
Defined.

(** * Start-up *)

Definition fix_proc : ProcLib := {|
  LibVars := ();
  lib_defaults := ();
  lib_flags := [];
  ParseDuration v := if decide (v = "1m") then Some minute else None;
  ParseInt := Atoi
|}.
#[local] Existing Instance fix_proc.
Definition fix_parse_url (_ : string) : option (string * string) := Some ("https", "lab.example").
Definition fix_names (_ : string) : list string := [].
Definition fix_answers : Answers := mkAnswers (E := string) true None None (λ _, None) None.

Abbreviation fix_startup :=
  (controller_main fix_parse_url fix_names fix_getenv ["--leader-elect"; "-sync-period"; "1m"] fix_answers).

(** The controller is started, prepared, with a publisher for the URL of the
    environment, which is closed in the end. *)
Lemma started_controller_is_ready_witness :
  prepared fix_parse_url fix_names ["healthz"] (before_start fix_startup.1) ∧
  (∃ o rest, Parse controller_flags ["--leader-elect"; "-sync-period"; "1m"]
     (default_options fix_getenv (fix_getenv "RABBITMQ_URL")) = Parsed o rest ∧
     List.filter is_wiring (before_start fix_startup.1) = controller_wiring o) ∧
  existsb (λ c, match c with NewRabbitPublisher url => bool_decide (url = "amqp://mq") | _ => false end)
    (before_start fix_startup.1) = true ∧
  made is_close fix_startup.1 = true.
Proof.
  assert (made is_start fix_startup.1 = true) as Hs by (vm_compute; reflexivity).
  assert (made is_publisher fix_startup.1 && bool_decide (exit_status fix_startup = 0) = true) as Hc
    by (vm_compute; reflexivity).
  pose proof (started_controller_is_ready fix_parse_url fix_names fix_getenv
    ["--leader-elect"; "-sync-period"; "1m"] fix_answers) as H.
  cbv zeta in H. destruct H as ([Hp _]&_&Hw&_&Hcl).
  unfold publisher_closed in Hcl. rewrite Hc in Hcl. split; [exact (Hp Hs)|].
  split; [exact (Hw Hs)|]. split; [vm_compute; reflexivity|exact Hcl].
Defined.

(** * Logging *)

Definition fix_log_lib : LogLib := {|
  Logr := string * list (string * json);
  base_Log := ("", []);
  WithName l n := (l.1 +:+ "." +:+ n, l.2);
  WithValues l vs := (l.1, l.2 ++ vs);
  Context := option (string * string);
  SpanFromContext ctx := ctx;
  Err := string;
  err_Error e := e;
  err_Type _ := "*errors.errorString";
  Errorf s := s;
  Format_RFC3339 t := Itoa t;
  range := map_to_list
|}.
#[local] Existing Instance fix_log_lib.
#[local] Instance fix_log_laws : LogLaws fix_log_lib.
Proof. intros m. reflexivity. Defined.
#[local] Instance fix_clock : Clock := λ n, Z.of_nat n.

Definition fix_fields : list (gmap string json) :=
  [{["level" := JString "mine"; "step" := JNumber 1]}; {["step" := JNumber 2]}].

(** The last value of a field is logged, and the level is the logger's own. *)
Lemma line_holds_fields_witness : ∃ values,
  logWithFields (S := ()) (NewLogger "events") InfoLevel "started" fix_fields (mkWorld 0 [] ()) =
    (Done (), mkWorld 1 [LogInfo (".events", []) 0 "started" values] ()) ∧
  ("step", JNumber 2) ∈ values ∧ ("level", JString "INFO") ∈ values.
Proof.
  assert (DebugLevel ≤ InfoLevel ≤ ErrorLevel) as Hl by (unfold DebugLevel, InfoLevel, ErrorLevel; lia).
  destruct (line_holds_fields (S := ()) (NewLogger "events") InfoLevel "started" fix_fields
    (mkWorld 0 [] ()) Hl) as (values&[_ Hv]&Hline).
  exists values. split; [exact Hline|]. split; apply Hv; reflexivity.
Defined.

(** An operation that fails. *)
Definition fix_reconcile_logger : ReconcileLogger := NewReconcileLogger "lab" "labs" "session".
Lemma operation_is_logged_witness : ∃ v1 v2 base,
  LogOperation (S := ()) fix_reconcile_logger (Some ("t1", "s1")) "create" (mret (Some "boom"))
    (mkWorld 0 [] ()) =
  (Done (Some "boom"), mkWorld 4 [line (WithContext (rl_Logger fix_reconcile_logger) (Some ("t1", "s1")))
     DebugLevel "Starting create" v1; LogError base "Operation create failed" v2] ()) ∧
  ("success", JBool false) ∈ v2.
Proof.
  destruct (operation_is_logged (S := ()) fix_reconcile_logger (Some ("t1", "s1")) "create"
    (mret (Some "boom")) (mkWorld 0 [] ())) as (v1&v2&H&_&Hs&_).
  exists v1, v2. eexists. split; [exact H|exact Hs].
Defined.
